(* ===== verification/_CoqProject ===== *)
-Q . S2P
Prelude.v
Octets.v
Packet.v
SliceConstructor.v
ReliableSend.v
ReliableRecv.v
Unreliable.v
PendingAcks.v
Stats.v
Connection.v
ConnectionSpec.v
ConnectionSteps.v
ConnectionProps.v
System.v
Server.v
Netcode.v
ReplayProtection.v
Token.v
NetPacket.v
NetClient.v
NetServer.v
NetServerInv.v
NetServerProps.v
NetClientProps.v
Handshake.v
Transport.v
TransportProps.v
NetReports.v
Session.v
EndToEnd.v
Steam.v
SteamProps.v
Visualizer.v
Bevy.v
BevyProps.v
Errors.v
Apps.v
Chat.v
ChatProps.v
Echo.v
EchoProps.v
Ecs.v
SimpleGame.v
SimpleGameProps.v
Arena.v
ArenaProps.v
UnitTests.v
NetcodeTests.v
