(* ===== verification/Prelude.v ===== *)
(** * renet: a verification development

    renet is a Rust library for games: messages over channels, on top of UDP.
    This development translates its layers, and the programs in this repository that use
    them, into Rocq functions and proves what they promise to each other.

    ** The program and its parts

    - The message layer, src/renet.  A [RenetClient] (remote_connection.rs) holds
      the channels of one connection (channel/reliable.rs, channel/unreliable.rs,
      with channel/slice_constructor.rs for long messages), numbers and
      acknowledges packets (packet.rs) and keeps statistics
      (connection_stats.rs).  A [RenetServer] (server.rs) is a map of such
      connections with a queue of events.  [get_packets_to_send] and
      [process_packet] exchange datagrams with the layer below.
    - The netcode layer, src/renetcode: an authenticated and encrypted
      connection.  A client holds a connect token (token.rs) and runs a
      handshake with a server (client.rs, server.rs) by packets (packet.rs) that
      are sealed (crypto.rs) and protected against replay (replay_protection.rs).
    - The transport, src/renet_netcode: client.rs and server.rs move the packets
      of the first layer through the second one and a UDP socket.  Another
      transport, src/renet_steam, moves them through Steam's sockets.
    - Users of the library: the Bevy plugins (src/bevy_renet) run the endpoints
      and transports as systems of a game's frame; the visualizer
      (src/renet_visualizer) samples and graphs the statistics.
    - Applications: the chat demo (src/demo_chat), the echo examples over each
      transport and over netcode alone (examples/ of src/renet, src/renet_steam
      and src/renetcode), and two games on Bevy, in which a server tells its
      clients of the entities of its world (src/bevy_renet/examples/simple.rs and
      src/demo_bevy).

    ** Which file models which part

    - Prelude: panics ([out]), results, checked u64 and Duration arithmetic,
      vectors, bytes, maps; tactics, hints and lemmas shared by all files.
    - Octets: the interface [Octets] of the third-party crate octets, its laws
      [OctetsLaws], the instance [quic_octets].
    - Packet (packet.rs, error.rs), SliceConstructor (slice_constructor.rs),
      ReliableSend and ReliableRecv (reliable.rs, one file per half), Unreliable
      (unreliable.rs), PendingAcks ([add_pending_ack] and [acked_largest] of
      remote_connection.rs), Stats (connection_stats.rs), Connection (the rest of
      remote_connection.rs, and channel/mod.rs), Server (server.rs): one Record
      per struct, one definition per method, with the source's names, prefixed
      where several structs have a method of that name ([sr_], [rr_], [su_],
      [ru_], [sc_], [stats_], [client_], [server_]).
    - ConnectionSpec, ConnectionSteps: the invariant of a connection against the
      history of the conversation, and its preservation by every operation.
      ConnectionProps: life cycle, hostile peers.  System: two peers and a
      network as a step relation.
    - Netcode (lib.rs, error.rs, serialize.rs, crypto.rs of renetcode; the
      interface [Aead] of the chacha20poly1305 crate, its laws [AeadLaws], the
      instance [plain_aead]), ReplayProtection, Token, NetPacket, NetClient,
      NetServer: the netcode layer, one file per source file ([private_], [ct_],
      [pt_], [nc_], [net_client_], [cn_], [ns_], [net_server_]).
    - NetServerInv, NetServerProps, NetClientProps, Handshake: theorems on the
      netcode server, the client, and both together.
    - Transport (renet_netcode: [tc_] the client's, [ts_] the server's),
      TransportProps.
    - Session, EndToEnd: one client and the server with all layers and an
      attacker on the network, as the step relation [session_run].
    - Errors: messages and conversions of the errors of all layers.
    - Steam (the interface [Steamworks] of the steamworks crate and both
      transports), SteamProps.
    - Visualizer: buffers, samples, scales and points of the graphs.
    - Bevy (resources, systems, run conditions and their registration),
      BevyProps.
    - NetReports: what the netcode server reports of arrivals and departures,
      against its table of clients.
    - Apps: what the applications share: strings, [while let] loops, what an
      application sent and took ([talk] for a client, [converse] for the clients
      of a server), relays.
    - Chat (the demo; the interface [Bincode] of the bincode crate), ChatProps
      (with its instance [bit_bincode]).
    - Echo (the three echo examples, a turn of each loop as a definition: [echo_],
      [steam_echo_], [netecho_]), EchoProps.
    - Ecs: entities, components and commands of Bevy, the interfaces [Allocator]
      (its choice of entities), [BevyWorld] (what it does with a command) and
      [Codec] (bincode at a type) with their laws and the instances
      [next_allocator], [panicking_world] and [bit_codec].  SimpleGame (simple.rs,
      [simple_]) and SimpleGameProps; Arena (demo_bevy, [arena_]; the interfaces
      [Glam] and [Timers] of vectors and timers) and ArenaProps.
    - UnitTests, NetcodeTests: the repository's tests, and the fuzz target.

    A method [fn f(&mut self, ..) -> Result<T, E>] is a function to
    [out (Self * result T E)]: it may panic, it returns the new state, and an
    error is a value with the state the source leaves behind.  Loops are
    structural recursions over what the source iterates over.  A Duration is a
    number of nanoseconds, a HashMap or BTreeMap a [gmap] (iteration over a
    HashMap is over [map_to_list], of which no theorem uses the order), a fixed
    array a list whose length an invariant states.

    ** What the theorems show

    - Delivery (System).  Over a network that loses, duplicates, delays and
      reorders datagrams: ordered reliable channels deliver a prefix of what was
      sent, reliable channels deliver each message at most once and never drop
      one that has not arrived, everything has arrived once the sender's queue
      is empty; unreliable channels deliver only what was sent; neither a tick
      nor a datagram of an honest peer panics.
    - The parts of the message layer.  Packets survive the trip and arbitrary
      bytes parse to well-formed packets or an error; slices reassemble; what
      each channel sends, keeps and drops; acknowledgement ranges represent sets
      of received sequences; statistics are sums over the history; the events
      of the server match its connections, each of which changes by its own
      share of every call, as a single client would.
    - The netcode layer.  Tokens and packets survive the trip; what decodes is
      authentic; the replay window is exact; the server keeps its invariant in
      every reachable state and reports only what authentic packets explain;
      the client delivers authentic payloads once; it tries every address of its
      token and then gives up; the handshake connects, and payloads then flow
      both ways (Handshake); exactly which datagrams panic.
    - The transport.  Renet connections belong to netcode clients, and the
      transport hands over exactly the packets it was given.
    - The whole stack (EndToEnd).  Whatever the attacker does with datagrams,
      short of sealing payloads with the session's keys and of making a connect
      token for the client's id with other keys, the session refines the two
      peers of System, so that ordered channels deliver a prefix of what the
      other application sent.  The second assumption is the secrecy of the
      server's key; an unsecure server has none ([zero_key_impostor]).
    - Steam.  The renet server and the table of Steam connections stay in step;
      only permitted users are admitted; the event loops end with their queues
      empty.
    - Bevy.  For every order of the systems that the registrations allow: the
      events of a frame reach the application in it, and connections stay in
      step with the transport.
    - Chat.  The table of names at a client is the server's; every message that
      was received is handled in its update.
    - Echo.  A turn relays to every client exactly the texts of the clients, under
      their names, after the arrivals and departures of the others; the server on
      netcode has a name for exactly the clients that are connected.
    - Games.  Each client is told, in order, of what turns its list of players
      into the server's; whatever a client receives, it inserts nothing into an
      entity that is gone; projectiles end when their time is up.
    - The model computes what the authors expect: all their tests pass on it.
    - Weaknesses of the code are theorems too: panics on forged slices and
      prefixes, unbounded acknowledgement lists, an identity that is not
      checked, a nonce used twice, and others, in the files of the code they
      concern.

    ** Modelling choices and bounds

    - Integer overflow panics, as in a build with overflow checks; [as] casts
      wrap.  Theorems that need room in a counter say so as a hypothesis (packet
      sequences below 2^62, netcode sequences below 2^64 - 256, times below
      Duration::MAX).
    - Fuel: [get_ack_gaps] gets the length of its input, of which every turn
      consumes a byte, [skip_received] the size of the set it empties; that this
      is enough is part of [from_bytes_untrusted] and of [skip_received_spec].
      The [while let] loops over Steam's queues, over the server's events and
      over received messages get the length of what they empty, with one more
      for the last poll; that they end empty is shown in [steam_update_drains],
      [emit_loop_spec], [chat_handles_everything] and [client_receive_drains], and
      for the other applications once, in [while_let_ends], [client_while] and
      [receive_while].
    - Commands of a Bevy system are applied after it.  Of Bevy it is assumed that
      despawning an entity that is gone changes nothing; nothing is assumed of
      inserting into one.
    - f64 and f32 are the executable IEEE formats of the Standard Library.
    - Random bytes are arguments ([TokenRandom], [challenge_key]); so are the
      outcomes of the socket's calls.
    - The AEAD laws state that decryption accepts only what encryption under the
      same key, nonce and associated data produced.  A computational security
      statement is out of scope.

    ** Not modelled

    Logging; what egui draws in the visualizer and the demos; the scheduler of
    Bevy beyond the order of systems; the scenes, cameras and windows of the
    games, which only Bevy sees; the main functions, which read arguments and
    register systems, and the threads that read the terminal (what they deliver
    is an argument of a turn); the loops that wait for Steam to create or join a
    lobby, whose progress is Steam's. *)

From Stdlib Require Import Strings.Byte.
From Stdlib Require Export ZArith Lia.
From stdpp Require Export base list list_numbers sorting option fin_maps gmap.

Declare Scope rust_scope.
Delimit Scope rust_scope with rust.
Open Scope Z_scope.
Open Scope rust_scope.

(** ** Panics and results

    [out A] is the outcome of a Rust computation that may panic
    (overflow checks, indexing, [unwrap], [expect], [unreachable!]);
    [result A E] is Rust's [Result<A, E>], an ordinary value. *)

Inductive out (A : Type) : Type :=
  | Ret (a : A)
  | Panic.

Arguments Ret {A} a.
Arguments Panic {A}.

Inductive result (A E : Type) : Type :=
  | Ok (a : A)
  | Err (e : E).

Arguments Ok {A E} a.
Arguments Err {A E} e.

Definition out_bind {A B} (m : out A) (f : A -> out B) : out B :=
  match m with
  | Ret a => f a
  | Panic => Panic
  end.

(** The [?] operator: an error returns at once, a panic aborts. *)
Definition try_bind {A B E} (m : out (result A E)) (f : A -> out (result B E)) : out (result B E) :=
  match m with
  | Ret (Ok a) => f a
  | Ret (Err e) => Ret (Err e)
  | Panic => Panic
  end.

Notation "'let!' x ':=' m 'in' k" := (out_bind m (fun x => k))
  (at level 10, x pattern, m at level 200, k at level 200,
   format "'[v' 'let!'  x  ':='  m  'in' '/' k ']'") : rust_scope.

Notation "'let?' x ':=' m 'in' k" := (try_bind m (fun x => k))
  (at level 10, x pattern, m at level 200, k at level 200,
   format "'[v' 'let?'  x  ':='  m  'in' '/' k ']'") : rust_scope.

Definition is_ret {A} (m : out A) : bool :=
  match m with Ret _ => true | Panic => false end.

Definition out_to_option {A} (m : out A) : option A :=
  match m with Ret a => Some a | Panic => None end.

(** [Option::unwrap] / [Option::expect]. *)
Definition unwrap {A} (o : option A) : out A :=
  match o with Some a => Ret a | None => Panic end.

(** ** Machine integers

    [u64] and [usize] (64-bit targets) are [Z] in [0, U64_MAX]; arithmetic is
    checked, as with Rust's overflow checks: out of range is a panic. *)

Definition U8_MAX : Z := 255.
Definition U16_MAX : Z := 65535.
Definition U32_MAX : Z := 4294967295.
Definition U64_MAX : Z := 18446744073709551615.

Definition u64 (z : Z) : Prop := 0 <= z <= U64_MAX.

Definition add64 (a b : Z) : out Z := if a + b <=? U64_MAX then Ret (a + b) else Panic.
Definition sub64 (a b : Z) : out Z := if b <=? a then Ret (a - b) else Panic.
Definition mul64 (a b : Z) : out Z := if a * b <=? U64_MAX then Ret (a * b) else Panic.

(** [usize::div_ceil]. *)
Definition div_ceil (a b : Z) : Z := (a + b - 1) / b.

(** [std::time::Duration] in nanoseconds. *)
Definition NANOS_PER_SEC : Z := 1000000000.
Definition DURATION_MAX : Z := (U64_MAX + 1) * NANOS_PER_SEC - 1.
Definition from_secs (s : Z) : Z := s * NANOS_PER_SEC.
Definition from_millis (ms : Z) : Z := ms * 1000000.
Definition as_secs (d : Z) : Z := d / NANOS_PER_SEC.
Definition as_millis (d : Z) : Z := d / 1000000.
Definition dur_add (a b : Z) : out Z := if a + b <=? DURATION_MAX then Ret (a + b) else Panic.
Definition dur_sub (a b : Z) : out Z := if b <=? a then Ret (a - b) else Panic.

(** ** Vectors and byte strings *)

Abbreviation byte := Byte.byte.
Abbreviation Bytes := (list byte).

#[global] Instance byte_eq_dec : EqDecision byte := Byte.byte_eq_dec.

Definition byte_val (b : byte) : Z := Z.of_N (Byte.to_N b).
Definition byte_of (z : Z) : byte := default Byte.x00 (Byte.of_N (Z.to_N (z mod 256))).

Definition len {A} (l : list A) : Z := Z.of_nat (length l).

(** [v[i]]: panics when out of bounds. *)
Definition vec_get {A} (l : list A) (i : Z) : out A :=
  if (0 <=? i) && (i <? len l) then unwrap (l !! Z.to_nat i) else Panic.

(** [v[i] = x]. *)
Definition vec_set {A} (l : list A) (i : Z) (x : A) : out (list A) :=
  if (0 <=? i) && (i <? len l) then Ret (<[Z.to_nat i := x]> l) else Panic.

(** [vec![x; n]]. *)
Definition vec_repeat {A} (x : A) (n : Z) : list A := replicate (Z.to_nat n) x.

(** [&v[start..end_]]. *)
Definition sub_slice {A} (l : list A) (start end_ : Z) : out (list A) :=
  if (0 <=? start) && (start <=? end_) && (end_ <=? len l)
  then Ret (take (Z.to_nat (end_ - start)) (drop (Z.to_nat start) l))
  else Panic.

(** [v[start..end_].copy_from_slice(src)]. *)
Definition copy_range {A} (l : list A) (start end_ : Z) (src : list A) : out (list A) :=
  if (0 <=? start) && (start <=? end_) && (end_ <=? len l) && (len src =? end_ - start)
  then Ret (take (Z.to_nat start) l ++ src ++ drop (Z.to_nat end_) l)
  else Panic.

(** [Vec::resize]. *)
Definition vec_resize {A} (l : list A) (n : Z) (x : A) : list A := resize (Z.to_nat n) x l.

(** ** Ordered maps

    [BTreeMap<u64, V>] is a [gmap Z V]; iteration is in key order. *)

Definition key_le {V} (p q : Z * V) : Prop := p.1 <= q.1.

#[global] Instance key_le_dec {V} : RelDecision (@key_le V).
Proof. intros p q. unfold key_le. apply _. Defined.

Definition btree_iter {V} (m : gmap Z V) : list (Z * V) :=
  merge_sort key_le (map_to_list m).

(** [BTreeMap::pop_first]. *)
Definition pop_first {V} (m : gmap Z V) : option (Z * V * gmap Z V) :=
  match btree_iter m with
  | [] => None
  | (k, v) :: _ => Some (k, v, delete k m)
  end.

(** [BTreeMap::range(start..end_)], keys only. *)
Definition range_keys {V} (m : gmap Z V) (start end_ : Z) : list Z :=
  filter (fun k => start <= k < end_) (btree_iter m).*1.

(** A fallible update of every value of a map whose iteration order is
    unspecified ([HashMap::values_mut]): the updates are independent. *)
Definition map_values_mut {K V} `{Countable K} (f : V -> out V) (m : gmap K V) : out (gmap K V) :=
  if bool_decide (map_Forall (fun _ v => is_ret (f v) = true) m)
  then Ret (omap (fun v => out_to_option (f v)) m)
  else Panic.

(** The sum of a measure over the values of a map. *)
Definition map_sum {K V} `{Countable K} (f : V -> Z) (m : gmap K V) : Z :=
  map_fold (fun _ v acc => f v + acc) 0 m.

(** A left-to-right loop whose body may panic. *)
Fixpoint fold_out {A S} (f : S -> A -> out S) (s : S) (l : list A) : out S :=
  match l with
  | [] => Ret s
  | x :: l' => let! s' := f s x in fold_out f s' l'
  end.

(** ** Automation *)

Create HintDb rust.
Create Rewrite HintDb rust.

Ltac u64_unfold :=
  unfold u64, U8_MAX, U16_MAX, U32_MAX, U64_MAX, len in *.

Ltac rlia := u64_unfold; lia.

(** Case analysis on the outcome of a computation in a hypothesis or the goal. *)
Ltac out_step :=
  match goal with
  | H : Ret _ = Ret _ |- _ => injection H as H
  | H : Ok _ = Ok _ |- _ => injection H as H
  | H : Err _ = Err _ |- _ => injection H as H
  | H : Ret _ = Panic |- _ => discriminate H
  | H : Panic = Ret _ |- _ => discriminate H
  | H : Ok _ = Err _ |- _ => discriminate H
  | H : Err _ = Ok _ |- _ => discriminate H
  | H : (_, _) = (_, _) |- _ => injection H as H
  | H : (let (_, _) := ?p in _) = Ret _ |- _ => is_var p; destruct p
  | H : (if ?c then _ else _) = Ret _ |- _ => let E := fresh "E" in destruct c eqn:E
  | H : out_bind ?m _ = Ret _ |- _ =>
      let E := fresh "E" in destruct m eqn:E; cbn [out_bind] in H
  | H : try_bind ?m _ = Ret _ |- _ =>
      let E := fresh "E" in destruct m as [[]|] eqn:E; cbn [try_bind] in H
  end.

Ltac out_inv := repeat (out_step; subst; try discriminate).

(** ** Lemmas on panics and checked arithmetic *)

Section arith.
Context (a b : Z).

Lemma add64_ok : a + b <= U64_MAX -> add64 a b = Ret (a + b).
Proof. intros. unfold add64. by rewrite (proj2 (Z.leb_le _ _)). Qed.

Lemma sub64_ok : b <= a -> sub64 a b = Ret (a - b).
Proof. intros. unfold sub64. by rewrite (proj2 (Z.leb_le _ _)). Qed.

Lemma mul64_ok : a * b <= U64_MAX -> mul64 a b = Ret (a * b).
Proof. intros. unfold mul64. by rewrite (proj2 (Z.leb_le _ _)). Qed.

Lemma dur_add_ok : a + b <= DURATION_MAX -> dur_add a b = Ret (a + b).
Proof. intros. unfold dur_add. by rewrite (proj2 (Z.leb_le _ _)). Qed.

Lemma dur_sub_ok : b <= a -> dur_sub a b = Ret (a - b).
Proof. intros. unfold dur_sub. by rewrite (proj2 (Z.leb_le _ _)). Qed.

Lemma add64_inv c : add64 a b = Ret c -> c = a + b /\ a + b <= U64_MAX.
Proof. unfold add64. case_match eqn:E; intros; simplify_eq. apply Z.leb_le in E. lia. Qed.

Lemma sub64_inv c : sub64 a b = Ret c -> c = a - b /\ b <= a.
Proof. unfold sub64. case_match eqn:E; intros; simplify_eq. apply Z.leb_le in E. lia. Qed.

Lemma mul64_inv c : mul64 a b = Ret c -> c = a * b /\ a * b <= U64_MAX.
Proof. unfold mul64. case_match eqn:E; intros; simplify_eq. apply Z.leb_le in E. lia. Qed.

Lemma dur_add_inv c : dur_add a b = Ret c -> c = a + b /\ a + b <= DURATION_MAX.
Proof. unfold dur_add. case_match eqn:E; intros; simplify_eq. apply Z.leb_le in E. lia. Qed.

Lemma dur_sub_inv c : dur_sub a b = Ret c -> c = a - b /\ b <= a.
Proof. unfold dur_sub. case_match eqn:E; intros; simplify_eq. apply Z.leb_le in E. lia. Qed.

End arith.

(** Replace successful checked operations in the context by their value. *)
Ltac arith_inv :=
  repeat match goal with
  | H : add64 _ _ = Ret _ |- _ => apply add64_inv in H as [-> H]
  | H : sub64 _ _ = Ret _ |- _ => apply sub64_inv in H as [-> H]
  | H : mul64 _ _ = Ret _ |- _ => apply mul64_inv in H as [-> H]
  | H : dur_add _ _ = Ret _ |- _ => apply dur_add_inv in H as [-> H]
  | H : dur_sub _ _ = Ret _ |- _ => apply dur_sub_inv in H as [-> H]
  end.

Section fold_out.
Context {A S : Type} (f : S -> A -> out S).

Lemma fold_out_app s l1 l2 :
  fold_out f s (l1 ++ l2) = let! s' := fold_out f s l1 in fold_out f s' l2.
Proof.
  revert s; induction l1 as [|x l1 IH]; intros s; [done|]. cbn.
  destruct (f s x); cbn; [apply IH | done].
Qed.

(** Rule for loops: an invariant preserved by each turn holds at the end. *)
Lemma fold_out_inv (I : S -> Prop) s l s' :
  (forall s x s', x ∈ l -> I s -> f s x = Ret s' -> I s') ->
  I s -> fold_out f s l = Ret s' -> I s'.
Proof.
  revert s; induction l as [|x l IH]; intros s Hstep Hs Hf; cbn in Hf; [by simplify_eq|].
  out_inv. eapply IH; [|eapply Hstep; [left| |]; done|done].
  intros; eapply Hstep; [by right| |]; done.
Qed.

(** Rule for total loops: the invariant also rules out panics. *)
Lemma fold_out_total (I : S -> Prop) s l :
  (forall s x, x ∈ l -> I s -> exists s', f s x = Ret s' /\ I s') ->
  I s -> exists s', fold_out f s l = Ret s' /\ I s'.
Proof.
  revert s; induction l as [|x l IH]; intros s Hstep Hs; [by eexists|].
  destruct (Hstep s x) as (s1 & E & Hs1); [by left|done|].
  cbn. rewrite E; cbn. apply IH; [|done]. intros; apply Hstep; [by right|done].
Qed.

End fold_out.

(** ** Vectors *)

Section vectors.
Context {A : Type}.
Implicit Types l : list A.

Lemma len_nonneg l : 0 <= len l.
Proof. unfold len; lia. Qed.

Lemma len_nil : len (@nil A) = 0.
Proof. done. Qed.

Lemma len_cons x l : len (x :: l) = 1 + len l.
Proof. unfold len. cbn [length]. lia. Qed.

Lemma len_app l1 l2 : len (l1 ++ l2) = len l1 + len l2.
Proof. unfold len. rewrite length_app. lia. Qed.

Lemma len_repeat (x : A) n : 0 <= n -> len (vec_repeat x n) = n.
Proof. intros. unfold len, vec_repeat. rewrite length_replicate. lia. Qed.

Lemma vec_get_ok l i x : 0 <= i -> l !! Z.to_nat i = Some x -> vec_get l i = Ret x.
Proof.
  intros Hi Hl. unfold vec_get. pose proof (lookup_lt_Some _ _ _ Hl).
  rewrite (proj2 (Z.leb_le _ _)), (proj2 (Z.ltb_lt _ _)), Hl by rlia. done.
Qed.

Lemma vec_get_inv l i x :
  vec_get l i = Ret x -> 0 <= i < len l /\ l !! Z.to_nat i = Some x.
Proof.
  unfold vec_get. destruct (Z.leb_spec 0 i), (Z.ltb_spec i (len l)); cbn; try discriminate.
  destruct (l !! Z.to_nat i) eqn:E; cbn; intros; simplify_eq. done.
Qed.

Lemma vec_get_total l i : 0 <= i < len l -> exists x, vec_get l i = Ret x /\ l !! Z.to_nat i = Some x.
Proof.
  intros Hi. destruct (lookup_lt_is_Some_2 l (Z.to_nat i)) as [x Hx]; [rlia|].
  exists x. split; [|done]. apply vec_get_ok; [lia|done].
Qed.

Lemma vec_get_oob l i : len l <= i -> vec_get l i = Panic.
Proof.
  intros. unfold vec_get. destruct (Z.ltb_spec i (len l)); [lia|]. by rewrite andb_false_r.
Qed.

Lemma vec_set_ok l i x : 0 <= i < len l -> vec_set l i x = Ret (<[Z.to_nat i := x]> l).
Proof.
  intros. unfold vec_set.
  by rewrite (proj2 (Z.leb_le _ _)), (proj2 (Z.ltb_lt _ _)) by lia.
Qed.

Lemma vec_set_inv l i x l' :
  vec_set l i x = Ret l' -> 0 <= i < len l /\ l' = <[Z.to_nat i := x]> l.
Proof.
  unfold vec_set. destruct (Z.leb_spec 0 i), (Z.ltb_spec i (len l)); cbn;
    intros; simplify_eq; done.
Qed.

Lemma sub_slice_ok l s e :
  0 <= s <= e -> e <= len l ->
  sub_slice l s e = Ret (take (Z.to_nat (e - s)) (drop (Z.to_nat s) l)).
Proof.
  intros. unfold sub_slice.
  by rewrite !(proj2 (Z.leb_le _ _)) by lia.
Qed.

Lemma sub_slice_inv l s e l' :
  sub_slice l s e = Ret l' ->
  0 <= s <= e /\ e <= len l /\ l' = take (Z.to_nat (e - s)) (drop (Z.to_nat s) l).
Proof.
  unfold sub_slice. destruct (Z.leb_spec 0 s), (Z.leb_spec s e), (Z.leb_spec e (len l));
    cbn; intros; simplify_eq; split_and!; done.
Qed.

Lemma copy_range_ok l s e src :
  0 <= s <= e -> e <= len l -> len src = e - s ->
  copy_range l s e src = Ret (take (Z.to_nat s) l ++ src ++ drop (Z.to_nat e) l).
Proof.
  intros. unfold copy_range.
  by rewrite !(proj2 (Z.leb_le _ _)), (proj2 (Z.eqb_eq _ _)) by lia.
Qed.

End vectors.

#[export] Hint Rewrite @len_nil @len_cons @len_app : rust.

(** ** Ordered maps *)

Section btree.
Context {V : Type}.
Implicit Types m : gmap Z V.

#[local] Instance key_le_trans : Transitive (@key_le V).
Proof. intros x y z. unfold key_le. lia. Qed.

#[local] Instance key_le_total : Total (@key_le V).
Proof. intros x y. unfold key_le. lia. Qed.

Lemma btree_iter_perm m : btree_iter m ≡ₚ map_to_list m.
Proof. apply merge_sort_Permutation. Qed.

Lemma elem_of_btree_iter m k v : (k, v) ∈ btree_iter m <-> m !! k = Some v.
Proof. rewrite (btree_iter_perm m). apply elem_of_map_to_list. Qed.

Lemma btree_iter_NoDup m : NoDup (btree_iter m).*1.
Proof. rewrite (btree_iter_perm m). apply NoDup_fst_map_to_list. Qed.

Lemma elem_of_btree_keys m k : k ∈ (btree_iter m).*1 <-> is_Some (m !! k).
Proof.
  rewrite list_elem_of_fmap. split.
  - intros ([k' v] & -> & Hv%elem_of_btree_iter). by exists v.
  - intros [v Hv]. exists (k, v). split; [done|]. by apply elem_of_btree_iter.
Qed.

Lemma btree_iter_sorted m : StronglySorted key_le (btree_iter m).
Proof. unfold btree_iter. apply StronglySorted_merge_sort; apply _. Qed.

(** Iteration visits the keys in strictly increasing order. *)
Lemma btree_keys_sorted m : StronglySorted Z.lt (btree_iter m).*1.
Proof.
  pose proof (btree_iter_sorted m) as Hs. pose proof (btree_iter_NoDup m) as Hn.
  induction (btree_iter m) as [|[k v] l IH]; [constructor|].
  apply StronglySorted_cons in Hs as [Hk Hs]. apply NoDup_cons in Hn as [Hnk Hn].
  cbn. constructor; [by apply IH|].
  rewrite Forall_forall in Hk. apply Forall_forall. intros k' Hk'.
  assert (k <> k') by (intros ->; done).
  apply list_elem_of_fmap in Hk' as (p & -> & Hp). apply Hk in Hp. unfold key_le in Hp. cbn in Hp. lia.
Qed.

Lemma btree_iter_empty m : btree_iter m = [] <-> m = ∅.
Proof.
  split; [|by intros ->].
  intros E. apply map_empty. intros k. destruct (m !! k) as [v|] eqn:Hk; [|done].
  apply elem_of_btree_iter in Hk. rewrite E in Hk. by apply elem_of_nil in Hk.
Qed.

Lemma pop_first_None m : pop_first m = None <-> m = ∅.
Proof.
  rewrite <- btree_iter_empty. unfold pop_first.
  destruct (btree_iter m) as [|[k v] l]; naive_solver.
Qed.

(** [pop_first] removes the binding with the least key. *)
Lemma pop_first_Some m k v m' :
  pop_first m = Some (k, v, m') ->
  m !! k = Some v /\ m' = delete k m /\ forall k' v', m !! k' = Some v' -> k <= k'.
Proof.
  unfold pop_first. pose proof (btree_iter_sorted m) as Hs.
  destruct (btree_iter m) as [|[k0 v0] l] eqn:E; intros; simplify_eq.
  split_and!; [|done|].
  - apply elem_of_btree_iter. rewrite E. left.
  - intros k' v' Hk'. apply elem_of_btree_iter in Hk'. rewrite E in Hk'.
    apply elem_of_cons in Hk' as [|Hin]; [simplify_eq; lia|].
    apply StronglySorted_cons in Hs as [Hs _]. rewrite Forall_forall in Hs.
    by apply Hs in Hin.
Qed.

Lemma elem_of_range_keys m s e k :
  k ∈ range_keys m s e <-> s <= k < e /\ is_Some (m !! k).
Proof. unfold range_keys. by rewrite list_elem_of_filter, elem_of_btree_keys. Qed.

Lemma range_keys_NoDup m s e : NoDup (range_keys m s e).
Proof. unfold range_keys. apply NoDup_filter, btree_iter_NoDup. Qed.

End btree.

(** ** Sums over maps *)

Section map_sum.
Context {K V : Type} `{Countable K} (f : V -> Z).
Implicit Types m : gmap K V.

Lemma map_sum_empty : map_sum f (∅ : gmap K V) = 0.
Proof. apply map_fold_empty. Qed.

Lemma map_sum_insert m k v :
  m !! k = None -> map_sum f (<[k := v]> m) = f v + map_sum f m.
Proof. intros. unfold map_sum. rewrite map_fold_insert_L; [done|intros; lia|done]. Qed.

Lemma map_sum_delete m k v :
  m !! k = Some v -> map_sum f m = f v + map_sum f (delete k m).
Proof.
  intros. unfold map_sum.
  rewrite (map_fold_delete_L _ 0 k v m); [done|intros; lia|done].
Qed.

Lemma map_sum_update m k v w :
  m !! k = Some v -> map_sum f (<[k := w]> m) = map_sum f m - f v + f w.
Proof.
  intros Hk. rewrite (map_sum_delete m k v) by done.
  rewrite <- (insert_delete_eq m k w), map_sum_insert by apply lookup_delete_eq. lia.
Qed.

Lemma map_sum_nonneg_lookup m : (forall k v, m !! k = Some v -> 0 <= f v) -> 0 <= map_sum f m.
Proof.
  induction m as [|k v m Hk IH] using map_ind; intros Hf; [by rewrite map_sum_empty|].
  rewrite map_sum_insert by done. pose proof (Hf k v (lookup_insert_eq _ _ _)).
  lapply IH; [lia|]. intros k' v' H'. apply (Hf k'). rewrite lookup_insert_ne; [done|congruence].
Qed.

Lemma map_sum_nonneg m : (forall v, 0 <= f v) -> 0 <= map_sum f m.
Proof. intros Hf. apply map_sum_nonneg_lookup. eauto.
Qed.

Lemma map_sum_lookup_le m k v : (forall v, 0 <= f v) -> m !! k = Some v -> f v <= map_sum f m.
Proof.
  intros Hf Hk. rewrite (map_sum_delete m k v) by done.
  pose proof (map_sum_nonneg (delete k m) Hf). lia.
Qed.

End map_sum.

(** A sum depends only on the measure of each binding. *)
Lemma map_sum_ext {K V W} `{Countable K} (f : V -> Z) (g : W -> Z) (m1 : gmap K V) (m2 : gmap K W) :
  (forall k, f <$> (m1 !! k) = g <$> (m2 !! k)) -> map_sum f m1 = map_sum g m2.
Proof.
  intros Hfg. transitivity (map_sum (fun z : Z => z) (f <$> m1)); [unfold map_sum; by rewrite map_fold_fmap|].
  transitivity (map_sum (fun z : Z => z) (g <$> m2)); [|unfold map_sum; by rewrite map_fold_fmap].
  f_equal. apply map_eq. intros k. by rewrite !lookup_fmap.
Qed.

Section map_values_mut.
Context {K V : Type} `{Countable K} (f : V -> out V).

Lemma map_values_mut_total (m : gmap K V) :
  map_Forall (fun _ v => exists w, f v = Ret w) m ->
  exists m', map_values_mut f m = Ret m'.
Proof.
  intros Hm. unfold map_values_mut. rewrite bool_decide_eq_true_2; [by eexists|].
  intros k v Hk. destruct (Hm k v Hk) as [w E]. by rewrite E.
Qed.

(** Each binding of the result comes from updating the binding of that key. *)
Lemma map_values_mut_lookup (m m' : gmap K V) k :
  map_values_mut f m = Ret m' ->
  match m !! k with
  | Some v => exists w, f v = Ret w /\ m' !! k = Some w
  | None => m' !! k = None
  end.
Proof.
  unfold map_values_mut. case_bool_decide as Hm; intros; simplify_eq.
  rewrite lookup_omap. destruct (m !! k) as [v|] eqn:Hk; [|done]. cbn.
  specialize (Hm k v Hk). cbn in Hm. destruct (f v); [by eexists|done].
Qed.

End map_values_mut.

(** ** Bytes *)

Lemma byte_of_val b : byte_of (byte_val b) = b.
Proof. by destruct b. Qed.

Lemma byte_val_range b : 0 <= byte_val b <= 255.
Proof. destruct b; unfold byte_val; cbn; lia. Qed.

Lemma byte_val_of z : 0 <= z <= 255 -> byte_val (byte_of z) = z.
Proof.
  intros Hz. unfold byte_of. rewrite Z.mod_small by lia.
  destruct (Byte.of_N (Z.to_N z)) as [b|] eqn:E; cbn.
  - apply Byte.to_of_N_iff in E. unfold byte_val. rewrite E. lia.
  - apply Byte.of_N_None_iff in E. lia.
Qed.

(** ** Little-endian encodings ([to_le_bytes] / [from_le_bytes]) *)

Fixpoint le_bytes (n : nat) (v : Z) : Bytes :=
  match n with
  | O => []
  | S n' => byte_of (v mod 256) :: le_bytes n' (v / 256)
  end.

Fixpoint le_val (bs : Bytes) : Z :=
  match bs with
  | [] => 0
  | b :: bs' => byte_val b + 256 * le_val bs'
  end.

Lemma length_le_bytes n v : length (le_bytes n v) = n.
Proof. revert v; induction n as [|n IH]; intros v; cbn; [done|]. by rewrite IH. Qed.

Lemma le_val_range bs : 0 <= le_val bs < 256 ^ len bs.
Proof.
  induction bs as [|b bs IH]; [done|]. rewrite len_cons, Z.add_comm, Z.pow_add_r by (pose proof (len_nonneg bs); lia).
  cbn [le_val]. pose proof (byte_val_range b). lia.
Qed.

Lemma le_val_bytes n v : 0 <= v < 256 ^ Z.of_nat n -> le_val (le_bytes n v) = v.
Proof.
  revert v; induction n as [|n IH]; intros v Hv; cbn [le_bytes le_val]; [cbn in Hv; lia|].
  rewrite Nat2Z.inj_succ, Z.pow_succ_r in Hv by lia.
  rewrite IH; [|split; [apply Z.div_pos; lia|apply Z.div_lt_upper_bound; lia]].
  rewrite byte_val_of by (pose proof (Z.mod_pos_bound v 256); lia).
  pose proof (Z.div_mod v 256). lia.
Qed.

Lemma le_bytes_val bs : le_bytes (length bs) (le_val bs) = bs.
Proof.
  induction bs as [|b bs IH]; [done|]. cbn [length le_bytes le_val].
  pose proof (byte_val_range b).
  replace (byte_val b + 256 * le_val bs) with (byte_val b + le_val bs * 256) by lia.
  rewrite Z.mod_add, Z.div_add, Z.mod_small, Z.div_small, byte_of_val by lia.
  by rewrite Z.add_0_l, IH.
Qed.

(** ** Vectors of flags *)

Definition count_true (l : list bool) : Z := len (filter (fun b => b = true) l).

Lemma count_true_cons b l : count_true (b :: l) = (if b then 1 else 0) + count_true l.
Proof.
  unfold count_true. destruct b.
  - rewrite filter_cons_True, len_cons by done. lia.
  - rewrite filter_cons_False by done. lia.
Qed.

Lemma count_true_range l : 0 <= count_true l <= len l.
Proof.
  induction l as [|b l IH]; [done|]. rewrite count_true_cons, len_cons. destruct b; lia.
Qed.

Lemma count_true_replicate n : count_true (replicate n false) = 0.
Proof. induction n as [|n IH]; [done|]. cbn [replicate]. by rewrite count_true_cons, IH. Qed.

(** Setting a clear flag adds one to the count. *)
Lemma count_true_set l i :
  l !! i = Some false -> count_true (<[i := true]> l) = 1 + count_true l.
Proof.
  revert i; induction l as [|b l IH]; intros [|i] Hi; try done; cbn in Hi; simplify_eq; cbn [insert list_insert].
  - by rewrite !count_true_cons.
  - change (list_insert i true l) with (<[i := true]> l). rewrite !count_true_cons, IH by done. lia.
Qed.

(** The count reaches the length exactly when every flag is set. *)
Lemma count_true_full l :
  count_true l = len l <-> forall i, (i < length l)%nat -> l !! i = Some true.
Proof.
  induction l as [|b l IH]; [split; [intros _ i Hi; cbn in Hi; lia|done]|].
  rewrite count_true_cons, len_cons. pose proof (count_true_range l). split.
  - intros E [|i] Hi; destruct b; try lia; [done|]. cbn. apply IH; [lia|]. cbn in Hi; lia.
  - intros Hall. pose proof (Hall 0%nat ltac:(cbn; lia)) as H0. cbn in H0. simplify_eq.
    rewrite (proj2 IH); [lia|]. intros i Hi. apply (Hall (S i)). cbn; lia.
Qed.

(** Lookup in a vector whose range [s..s + len src) was overwritten. *)
Lemma lookup_copy {A} (l src : list A) s k :
  (s + length src <= length l)%nat ->
  (take s l ++ src ++ drop (s + length src) l) !! k =
    if decide (s <= k < s + length src)%nat then src !! (k - s)%nat else l !! k.
Proof.
  intros Hs. case_decide.
  - rewrite lookup_app_r, length_take_le by (rewrite ?length_take; lia).
    by rewrite lookup_app_l by lia.
  - destruct (decide (k < s)%nat).
    + rewrite lookup_app_l by (rewrite length_take; lia). by rewrite lookup_take_lt.
    + rewrite lookup_app_r, length_take_le by (rewrite ?length_take; lia).
      rewrite lookup_app_r by lia. rewrite lookup_drop. f_equal. lia.
Qed.

(** ** Sums over lists *)

Fixpoint sum_with {A} (f : A -> Z) (l : list A) : Z :=
  match l with
  | [] => 0
  | x :: l' => f x + sum_with f l'
  end.

Section sum_with.
Context {A : Type} (f : A -> Z).

Lemma sum_with_app l1 l2 : sum_with f (l1 ++ l2) = sum_with f l1 + sum_with f l2.
Proof. induction l1 as [|x l1 IH]; cbn; [done|]. rewrite IH. lia. Qed.

Lemma sum_with_nonneg l : (forall x, 0 <= f x) -> 0 <= sum_with f l.
Proof. intros Hf. induction l as [|x l IH]; cbn; [done|]. specialize (Hf x). lia. Qed.

Lemma sum_with_perm l1 l2 : l1 ≡ₚ l2 -> sum_with f l1 = sum_with f l2.
Proof. induction 1; cbn; lia. Qed.

Lemma sum_with_ge_len l c : 0 <= c -> (forall x, x ∈ l -> c <= f x) -> c * len l <= sum_with f l.
Proof.
  intros Hc. induction l as [|x l IH]; intros Hf; [rewrite len_nil; cbn; lia|].
  rewrite len_cons. cbn. pose proof (Hf x ltac:(left)). specialize (IH ltac:(intros; apply Hf; by right)). lia.
Qed.

End sum_with.

Lemma map_sum_iter {V} (f : V -> Z) (m : gmap Z V) :
  map_sum f m = sum_with (fun p => f p.2) (btree_iter m).
Proof.
  rewrite (sum_with_perm _ _ _ (btree_iter_perm m)).
  unfold map_sum. rewrite map_fold_foldr.
  induction (map_to_list m) as [|[k v] l IH]; [done|]. cbn. by rewrite IH.
Qed.
