(* ===== verification/Octets.v ===== *)
(** * The octets crate, as renet uses it

    [octets] is a third-party crate: its cursors are seen through the bytes
    they expose and its functions are parameters ([Octets]) constrained by
    their documented behaviour ([OctetsLaws]): big-endian fixed-width
    integers, QUIC variable-length integers of at most 62 bits, and
    [BufferTooShortError] (here [None]) when the buffer is exhausted.
    [quic_octets] is an instance, so the laws can hold. *)

From S2P Require Import Prelude.

(** What a caller sees of an [OctetsMut]: the bytes written, and [cap()]. *)
Record OctetsMut := mkOctetsMut {
  om_written : Bytes;
  om_cap : Z;
}.

Definition with_slice (n : Z) : OctetsMut := mkOctetsMut [] n.

(** Appending raw bytes at the cursor. *)
Definition put_raw (b : OctetsMut) (bs : Bytes) : option OctetsMut :=
  if om_cap b <? len bs then None
  else Some (mkOctetsMut (om_written b ++ bs) (om_cap b - len bs)).

(** The largest value a variable-length integer can carry. *)
Definition VARINT_MAX : Z := 4611686018427387903.

Class Octets := {
  varint_len : Z -> Z;
  put_u8 : OctetsMut -> Z -> option OctetsMut;
  put_u16 : OctetsMut -> Z -> option OctetsMut;
  put_varint : OctetsMut -> Z -> option OctetsMut;
  put_bytes : OctetsMut -> Bytes -> option OctetsMut;
  get_u8 : Bytes -> option (Z * Bytes);
  get_u16 : Bytes -> option (Z * Bytes);
  get_varint : Bytes -> option (Z * Bytes);
  get_bytes_with_varint_length : Bytes -> option (Bytes * Bytes);
}.

Class OctetsLaws (O : Octets) := {
  enc_u16 : Z -> Bytes;
  enc_varint : Z -> Bytes;
  put_u8_spec b v : 0 <= v <= U8_MAX -> put_u8 b v = put_raw b [byte_of v];
  put_u16_spec b v : 0 <= v <= U16_MAX -> put_u16 b v = put_raw b (enc_u16 v);
  put_varint_spec b v : 0 <= v <= VARINT_MAX -> put_varint b v = put_raw b (enc_varint v);
  put_bytes_spec b bs : put_bytes b bs = put_raw b bs;
  varint_len_spec v :
    varint_len v = if v <=? 63 then 1 else if v <=? 16383 then 2
                   else if v <=? 1073741823 then 4 else 8;
  len_enc_u16 v : 0 <= v <= U16_MAX -> len (enc_u16 v) = 2;
  len_enc_varint v : 0 <= v <= VARINT_MAX -> len (enc_varint v) = varint_len v;
  get_u8_spec b :
    get_u8 b = match b with [] => None | x :: rest => Some (byte_val x, rest) end;
  get_u16_enc v rest : 0 <= v <= U16_MAX -> get_u16 (enc_u16 v ++ rest) = Some (v, rest);
  get_u16_range b v rest : get_u16 b = Some (v, rest) -> 0 <= v <= U16_MAX /\ len rest < len b;
  get_varint_enc v rest :
    0 <= v <= VARINT_MAX -> get_varint (enc_varint v ++ rest) = Some (v, rest);
  get_varint_range b v rest :
    get_varint b = Some (v, rest) -> 0 <= v <= VARINT_MAX /\ len rest < len b;
  get_bytes_spec b :
    get_bytes_with_varint_length b =
      match get_varint b with
      | None => None
      | Some (n, rest) =>
          if len rest <? n then None
          else Some (take (Z.to_nat n) rest, drop (Z.to_nat n) rest)
      end;
}.

(** ** An instance: the QUIC encoding (RFC 9000, section 16) *)

Definition be_bytes (n : nat) (v : Z) : Bytes := rev (le_bytes n v).
Definition be_val (bs : Bytes) : Z := le_val (rev bs).

(** Read [n] bytes as a big-endian integer. *)
Definition get_be (n : nat) (b : Bytes) : option (Z * Bytes) :=
  if (length b <? n)%nat then None else Some (be_val (take n b), drop n b).

Definition quic_len (v : Z) : Z :=
  if v <=? 63 then 1 else if v <=? 16383 then 2
  else if v <=? 1073741823 then 4 else 8.

(** The two most significant bits of the first byte give the length. *)
Definition quic_tag (v : Z) : Z :=
  if v <=? 63 then 0 else if v <=? 16383 then 16384
  else if v <=? 1073741823 then 2147483648 else 13835058055282163712.

Definition quic_enc (v : Z) : Bytes := be_bytes (Z.to_nat (quic_len v)) (v + quic_tag v).

Definition quic_get (b : Bytes) : option (Z * Bytes) :=
  match b with
  | [] => None
  | x :: _ =>
      let c := byte_val x / 64 in
      if c =? 0 then get_be 1 b
      else if c =? 1 then
        match get_be 2 b with Some (v, r) => Some (v mod 16384, r) | None => None end
      else if c =? 2 then
        match get_be 4 b with Some (v, r) => Some (v mod 1073741824, r) | None => None end
      else
        match get_be 8 b with Some (v, r) => Some (v mod 4611686018427387904, r) | None => None end
  end.

#[export] Instance quic_octets : Octets := {
  varint_len := quic_len;
  put_u8 b v := put_raw b [byte_of v];
  put_u16 b v := put_raw b (be_bytes 2 v);
  put_varint b v := put_raw b (quic_enc v);
  put_bytes := put_raw;
  get_u8 b := match b with [] => None | x :: rest => Some (byte_val x, rest) end;
  get_u16 := get_be 2;
  get_varint := quic_get;
  get_bytes_with_varint_length b :=
    match quic_get b with
    | None => None
    | Some (n, rest) =>
        if len rest <? n then None
        else Some (take (Z.to_nat n) rest, drop (Z.to_nat n) rest)
    end;
}.

#[local] Arguments get_be : simpl never.
#[local] Arguments be_bytes : simpl never.

Lemma length_be_bytes n v : length (be_bytes n v) = n.
Proof. unfold be_bytes. by rewrite length_rev, length_le_bytes. Qed.

Lemma len_be_bytes n v : len (be_bytes n v) = Z.of_nat n.
Proof. unfold len. by rewrite length_be_bytes. Qed.

Lemma be_val_bytes n v : 0 <= v < 256 ^ Z.of_nat n -> be_val (be_bytes n v) = v.
Proof. intros. unfold be_val, be_bytes. by rewrite rev_involutive, le_val_bytes. Qed.

Lemma get_be_enc n v rest :
  0 <= v < 256 ^ Z.of_nat n -> get_be n (be_bytes n v ++ rest) = Some (v, rest).
Proof.
  intros. unfold get_be. rewrite length_app, length_be_bytes.
  rewrite (proj2 (Nat.ltb_ge _ _)) by lia.
  rewrite take_app_length', drop_app_length' by by rewrite length_be_bytes.
  by rewrite be_val_bytes.
Qed.

Lemma get_be_range n b v rest :
  (0 < n)%nat -> get_be n b = Some (v, rest) -> 0 <= v < 256 ^ Z.of_nat n /\ len rest < len b.
Proof.
  intros Hn. unfold get_be. destruct (Nat.ltb_spec (length b) n); intros; simplify_eq. split.
  - unfold be_val. pose proof (le_val_range (rev (take n b))) as Hr.
    unfold len in Hr. rewrite length_rev, length_take_le in Hr; done.
  - unfold len. rewrite length_drop. lia.
Qed.

(** The first byte of an [S n]-byte big-endian integer is its top byte. *)
Lemma be_bytes_head n v :
  exists t, be_bytes (S n) v = byte_of (v / 256 ^ Z.of_nat n) :: t.
Proof.
  unfold be_bytes. revert v. induction n as [|n IH]; intros v.
  - exists []. cbn. rewrite Z.div_1_r. unfold byte_of. by rewrite Z.mod_mod.
  - destruct (IH (v / 256)) as [t Ht].
    assert (le_bytes (S (S n)) v = byte_of (v mod 256) :: le_bytes (S n) (v / 256)) as -> by done.
    cbn [rev]. rewrite Ht. rewrite Nat2Z.inj_succ, Z.pow_succ_r by lia.
    rewrite <- Z.div_div by lia. by eexists.
Qed.

Lemma quic_get_enc v rest :
  0 <= v <= VARINT_MAX -> quic_get (quic_enc v ++ rest) = Some (v, rest).
Proof.
  unfold VARINT_MAX, quic_enc, quic_len, quic_tag. intros Hv.
  repeat case_match; repeat match goal with
    | H : (_ <=? _) = true |- _ => apply Z.leb_le in H
    | H : (_ <=? _) = false |- _ => apply Z.leb_gt in H end;
  [ change (Z.to_nat 1) with 1%nat | change (Z.to_nat 2) with 2%nat
  | change (Z.to_nat 4) with 4%nat | change (Z.to_nat 8) with 8%nat ];
  [ destruct (be_bytes_head 0 (v + 0)) as [t Ht]
  | destruct (be_bytes_head 1 (v + 16384)) as [t Ht]
  | destruct (be_bytes_head 3 (v + 2147483648)) as [t Ht]
  | destruct (be_bytes_head 7 (v + 13835058055282163712)) as [t Ht] ];
  unfold quic_get; rewrite Ht at 1; cbn [app].
  all: match goal with |- context [byte_val (byte_of ?d)] => set (q := d) in * end.
  - assert (0 <= q <= 63) by (unfold q; rewrite Z.div_1_r; lia).
    rewrite byte_val_of by lia. replace (q / 64) with 0 by (symmetry; apply Z.div_small; lia).
    cbn. rewrite get_be_enc by (cbn; lia). f_equal; f_equal; lia.
  - assert (64 <= q < 128).
    { unfold q. change (256 ^ Z.of_nat 1) with 256. pose proof (Z.div_mod (v + 16384) 256).
      pose proof (Z.mod_pos_bound (v + 16384) 256). lia. }
    rewrite byte_val_of by lia. replace (q / 64) with 1 by (apply (Z.div_unique _ _ _ (q - 64)); lia).
    cbn. rewrite get_be_enc by (cbn; lia). f_equal; f_equal.
    symmetry; apply (Z.mod_unique _ _ 1); lia.
  - assert (128 <= q < 192).
    { unfold q. change (256 ^ Z.of_nat 3) with 16777216. pose proof (Z.div_mod (v + 2147483648) 16777216).
      pose proof (Z.mod_pos_bound (v + 2147483648) 16777216). lia. }
    rewrite byte_val_of by lia. replace (q / 64) with 2 by (apply (Z.div_unique _ _ _ (q - 128)); lia).
    cbn. rewrite get_be_enc by (cbn; lia). f_equal; f_equal.
    symmetry; apply (Z.mod_unique _ _ 2); lia.
  - assert (192 <= q < 256).
    { unfold q. change (256 ^ Z.of_nat 7) with 72057594037927936.
      pose proof (Z.div_mod (v + 13835058055282163712) 72057594037927936).
      pose proof (Z.mod_pos_bound (v + 13835058055282163712) 72057594037927936). lia. }
    rewrite byte_val_of by lia. replace (q / 64) with 3 by (apply (Z.div_unique _ _ _ (q - 192)); lia).
    cbn. rewrite get_be_enc by (cbn; lia). f_equal; f_equal.
    symmetry; apply (Z.mod_unique _ _ 3); lia.
Qed.

Lemma quic_get_range b v rest :
  quic_get b = Some (v, rest) -> 0 <= v <= VARINT_MAX /\ len rest < len b.
Proof.
  unfold quic_get, VARINT_MAX. destruct b as [|x b]; [done|]. cbn zeta.
  pose proof (byte_val_range x) as Hx.
  destruct (Z.eqb_spec (byte_val x / 64) 0).
  { intros [Hv Hr]%get_be_range; [|lia]. cbn in Hv. lia. }
  repeat case_match; intros; simplify_eq;
    match goal with H : get_be _ _ = Some (?z, _) |- context [?z mod ?d] =>
      apply get_be_range in H as [? ?]; [|lia]; pose proof (Z.mod_pos_bound z d); lia end.
Qed.

#[export] Instance quic_octets_laws : OctetsLaws quic_octets.
Proof.
  refine {| enc_u16 := be_bytes 2; enc_varint := quic_enc |}; try done.
  - intros v _. cbn. unfold quic_enc. rewrite len_be_bytes.
    unfold quic_len. repeat case_match; done.
  - intros v rest Hv. apply get_be_enc. cbn. unfold U16_MAX in Hv. lia.
  - intros b v rest [Hv Hr]%get_be_range; [|lia]. cbn in Hv. unfold U16_MAX. lia.
  - apply quic_get_enc.
  - apply quic_get_range.
Defined.
