(* ===== verification/Packet.v ===== *)
(** * Packets of the message layer (renet/src/packet.rs, renet/src/error.rs)

    The packet data types, their serialization [to_bytes] and their parser
    [from_bytes], over the [octets] interface. [encode] is the abstract wire
    format: [to_bytes] refines it and [from_bytes] inverts it. *)

From S2P Require Import Prelude Octets.

(** ** Data *)

Definition SLICE_SIZE : Z := 1200.

Record Slice := mkSlice {
  message_id : Z;
  slice_index : Z;
  num_slices : Z;
  payload : Bytes;
}.

(** [std::ops::Range<u64>]. *)
Record Range := mkRange {
  r_start : Z;
  r_end : Z;
}.

Inductive Packet :=
  | SmallReliable (sequence channel_id : Z) (messages : list (Z * Bytes))
  | SmallUnreliable (sequence channel_id : Z) (messages : list Bytes)
  | UnreliableSlice (sequence channel_id : Z) (slice : Slice)
  | ReliableSlice (sequence channel_id : Z) (slice : Slice)
  | Ack (sequence : Z) (ack_ranges : list Range).

Inductive SerializationError :=
  | BufferTooShort
  | InvalidNumSlices
  | SliceSizeAboveLimit
  | EmptySlice
  | InvalidAckRange
  | InvalidPacketType.

Inductive ChannelError :=
  | ReliableChannelMaxMemoryReached
  | InvalidSliceMessage.

Inductive DisconnectReason :=
  | Transport
  | DisconnectedByClient
  | DisconnectedByServer
  | PacketSerialization (err : SerializationError)
  | PacketDeserialization (err : SerializationError)
  | ReceivedInvalidChannelId (channel_id : Z)
  | SendChannelError (channel_id : Z) (error : ChannelError)
  | ReceiveChannelError (channel_id : Z) (error : ChannelError).

#[export] Instance serialization_error_eq_dec : EqDecision SerializationError.
Proof. solve_decision. Defined.

#[export] Instance channel_error_eq_dec : EqDecision ChannelError.
Proof. solve_decision. Defined.

#[export] Instance disconnect_reason_eq_dec : EqDecision DisconnectReason.
Proof. solve_decision. Defined.

Definition sequence (p : Packet) : Z :=
  match p with
  | SmallReliable sequence _ _ | SmallUnreliable sequence _ _
  | UnreliableSlice sequence _ _ | ReliableSlice sequence _ _
  | Ack sequence _ => sequence
  end.

(** [impl From<octets::BufferTooShortError> for SerializationError], as used by [?]. *)
Definition too_short {A} (o : option A) : out (result A SerializationError) :=
  match o with
  | Some a => Ret (Ok a)
  | None => Ret (Err BufferTooShort)
  end.

Section codec.
Context {oct : Octets}.

(** ** Serialization *)

Fixpoint put_reliable_messages (b : OctetsMut) (messages : list (Z * Bytes))
    : out (result OctetsMut SerializationError) :=
  match messages with
  | [] => Ret (Ok b)
  | (message_id, message) :: messages' =>
      let? b := too_short (put_varint b message_id) in
      let? b := too_short (put_varint b (len message)) in
      let? b := too_short (put_bytes b message) in
      put_reliable_messages b messages'
  end.

Fixpoint put_unreliable_messages (b : OctetsMut) (messages : list Bytes)
    : out (result OctetsMut SerializationError) :=
  match messages with
  | [] => Ret (Ok b)
  | message :: messages' =>
      let? b := too_short (put_varint b (len message)) in
      let? b := too_short (put_bytes b message) in
      put_unreliable_messages b messages'
  end.

Definition put_slice (b : OctetsMut) (slice : Slice) : out (result OctetsMut SerializationError) :=
  let? b := too_short (put_varint b (message_id slice)) in
  let? b := too_short (put_varint b (slice_index slice)) in
  let? b := too_short (put_varint b (num_slices slice)) in
  let? b := too_short (put_varint b (len (payload slice))) in
  too_short (put_bytes b (payload slice)).

(** The loop over the remaining ranges, from the second-highest down. *)
Fixpoint put_ack_gaps (b : OctetsMut) (previous_range_start : Z) (it : list Range)
    : out (result OctetsMut SerializationError) :=
  match it with
  | [] => Ret (Ok b)
  | range :: it' =>
      let! gap := sub64 previous_range_start (r_end range) in
      let! gap := sub64 gap 1 in
      let! range_max := sub64 (r_end range) 1 in
      let! range_size := sub64 range_max (r_start range) in
      let? b := too_short (put_varint b gap) in
      let? b := too_short (put_varint b range_size) in
      put_ack_gaps b (r_start range) it'
  end.

Definition put_ack_ranges (b : OctetsMut) (ack_ranges : list Range)
    : out (result OctetsMut SerializationError) :=
  match rev ack_ranges with
  | [] => Panic
  | last :: it =>
      let! last_max := sub64 (r_end last) 1 in
      let! last_range_size := sub64 last_max (r_start last) in
      let? b := too_short (put_varint b last_max) in
      let? b := too_short (put_varint b last_range_size) in
      let? b := too_short (put_varint b (len it)) in
      put_ack_gaps b (r_start last) it
  end.

(** The body of [Packet::to_bytes], before the length is computed. *)
Definition put_packet (p : Packet) (b : OctetsMut) : out (result OctetsMut SerializationError) :=
  match p with
  | SmallReliable sequence channel_id messages =>
      let? b := too_short (put_u8 b 0) in
      let? b := too_short (put_varint b sequence) in
      let? b := too_short (put_u8 b channel_id) in
      let? b := too_short (put_u16 b (len messages mod 65536)) in
      put_reliable_messages b messages
  | SmallUnreliable sequence channel_id messages =>
      let? b := too_short (put_u8 b 1) in
      let? b := too_short (put_varint b sequence) in
      let? b := too_short (put_u8 b channel_id) in
      let? b := too_short (put_u16 b (len messages mod 65536)) in
      put_unreliable_messages b messages
  | ReliableSlice sequence channel_id slice =>
      let? b := too_short (put_u8 b 2) in
      let? b := too_short (put_varint b sequence) in
      let? b := too_short (put_u8 b channel_id) in
      put_slice b slice
  | UnreliableSlice sequence channel_id slice =>
      let? b := too_short (put_u8 b 3) in
      let? b := too_short (put_varint b sequence) in
      let? b := too_short (put_u8 b channel_id) in
      put_slice b slice
  | Ack sequence ack_ranges =>
      let? b := too_short (put_u8 b 4) in
      let? b := too_short (put_varint b sequence) in
      put_ack_ranges b ack_ranges
  end.

(** [Packet::to_bytes]: the number of bytes written, and the advanced cursor. *)
Definition to_bytes (p : Packet) (b : OctetsMut) : out (result (Z * OctetsMut) SerializationError) :=
  let before := om_cap b in
  let? b := put_packet p b in
  let! n := sub64 before (om_cap b) in
  Ret (Ok (n, b)).

(** ** Parsing *)

Fixpoint get_reliable_messages (n : nat) (b : Bytes) (messages : list (Z * Bytes))
    : out (result (list (Z * Bytes)) SerializationError) :=
  match n with
  | 0%nat => Ret (Ok messages)
  | S n' =>
      let? (message_id, b) := too_short (get_varint b) in
      let? (payload, b) := too_short (get_bytes_with_varint_length b) in
      get_reliable_messages n' b (messages ++ [(message_id, payload)])
  end.

Fixpoint get_unreliable_messages (n : nat) (b : Bytes) (messages : list Bytes)
    : out (result (list Bytes) SerializationError) :=
  match n with
  | 0%nat => Ret (Ok messages)
  | S n' =>
      let? (payload, b) := too_short (get_bytes_with_varint_length b) in
      get_unreliable_messages n' b (messages ++ [payload])
  end.

(** The common fields of a slice packet up to the [num_slices] test; the two
    packet types then validate the payload differently. *)
Definition get_slice (check : Bytes -> option SerializationError) (b : Bytes)
    : out (result Slice SerializationError) :=
  let? (message_id, b) := too_short (get_varint b) in
  let? (slice_index, b) := too_short (get_varint b) in
  let? (num_slices, b) := too_short (get_varint b) in
  if (num_slices =? 0) || (1000000 <? num_slices) then Ret (Err InvalidNumSlices)
  else
    let? (payload, b) := too_short (get_bytes_with_varint_length b) in
    match check payload with
    | Some err => Ret (Err err)
    | None => Ret (Ok (mkSlice message_id slice_index num_slices payload))
    end.

(** Payload validation of a [ReliableSlice]. *)
Definition check_reliable_payload (payload : Bytes) : option SerializationError :=
  if len payload =? 0 then Some EmptySlice
  else if SLICE_SIZE <? len payload then Some SliceSizeAboveLimit
  else None.

(** The loop [for _ in 0..num_remaining_ranges]. A turn consumes at least one
    byte, so [fuel] above the length of the input is never exhausted. *)
Fixpoint get_ack_gaps (fuel : nat) (num_remaining_ranges : Z) (b : Bytes)
    (previous_range_start : Z) (ack_ranges : list Range)
    : out (result (list Range) SerializationError) :=
  if num_remaining_ranges <=? 0 then Ret (Ok ack_ranges) else
  match fuel with
  | 0%nat => Panic
  | S fuel' =>
      let? (gap, b) := too_short (get_varint b) in
      let! limit := add64 2 gap in
      if previous_range_start <? limit then Ret (Err InvalidAckRange)
      else
        let! range_end := sub64 previous_range_start gap in
        let! range_end := sub64 range_end 2 in
        let? (range_size, b) := too_short (get_varint b) in
        if range_end <? range_size then Ret (Err InvalidAckRange)
        else
          let! range_start := sub64 range_end range_size in
          let! range_stop := add64 range_end 1 in
          get_ack_gaps fuel' (num_remaining_ranges - 1) b range_start
            (ack_ranges ++ [mkRange range_start range_stop])
  end.

Definition get_ack_ranges (b : Bytes) : out (result (list Range) SerializationError) :=
  let? (first_range_end, b) := too_short (get_varint b) in
  let? (first_range_size, b) := too_short (get_varint b) in
  let? (num_remaining_ranges, b) := too_short (get_varint b) in
  if first_range_end <? first_range_size then Ret (Err InvalidAckRange)
  else
    let! first_range_start := sub64 first_range_end first_range_size in
    let! first_range_stop := add64 first_range_end 1 in
    let? ack_ranges :=
      get_ack_gaps (S (length b)) num_remaining_ranges b first_range_start
        [mkRange first_range_start first_range_stop] in
    Ret (Ok (rev ack_ranges)).

(** [Packet::from_bytes]. *)
Definition from_bytes (b : Bytes) : out (result Packet SerializationError) :=
  let? (packet_type, b) := too_short (get_u8 b) in
  if packet_type =? 0 then
    let? (sequence, b) := too_short (get_varint b) in
    let? (channel_id, b) := too_short (get_u8 b) in
    let? (messages_len, b) := too_short (get_u16 b) in
    let? messages := get_reliable_messages (Z.to_nat messages_len) b [] in
    Ret (Ok (SmallReliable sequence channel_id messages))
  else if packet_type =? 1 then
    let? (sequence, b) := too_short (get_varint b) in
    let? (channel_id, b) := too_short (get_u8 b) in
    let? (messages_len, b) := too_short (get_u16 b) in
    let? messages := get_unreliable_messages (Z.to_nat messages_len) b [] in
    Ret (Ok (SmallUnreliable sequence channel_id messages))
  else if packet_type =? 2 then
    let? (sequence, b) := too_short (get_varint b) in
    let? (channel_id, b) := too_short (get_u8 b) in
    let? slice := get_slice check_reliable_payload b in
    Ret (Ok (ReliableSlice sequence channel_id slice))
  else if packet_type =? 3 then
    let? (sequence, b) := too_short (get_varint b) in
    let? (channel_id, b) := too_short (get_u8 b) in
    let? slice := get_slice (fun _ => None) b in
    Ret (Ok (UnreliableSlice sequence channel_id slice))
  else if packet_type =? 4 then
    let? (sequence, b) := too_short (get_varint b) in
    let? ack_ranges := get_ack_ranges b in
    Ret (Ok (Ack sequence ack_ranges))
  else Ret (Err InvalidPacketType).

End codec.

(** ** Abstract wire format *)

Definition varint (v : Z) : Prop := 0 <= v <= VARINT_MAX.

(** [r1] lies before [r2] and is not adjacent to it. *)
Definition range_before (r1 r2 : Range) : Prop := r_end r1 < r_start r2.

Definition range_ok (r : Range) : Prop := 0 <= r_start r < r_end r /\ r_end r <= VARINT_MAX + 1.

(** Non-empty ranges in increasing order, with a gap between any two. *)
Definition wf_ranges (rs : list Range) : Prop :=
  Forall range_ok rs /\ StronglySorted range_before rs.

Definition wf_slice (s : Slice) : Prop :=
  varint (message_id s) /\ varint (slice_index s) /\
  1 <= num_slices s <= 1000000 /\ varint (len (payload s)).

Definition wf_packet (p : Packet) : Prop :=
  varint (sequence p) /\
  match p with
  | SmallReliable _ channel_id messages =>
      0 <= channel_id <= U8_MAX /\ len messages <= U16_MAX /\
      Forall (fun '(id, m) => varint id /\ varint (len m)) messages
  | SmallUnreliable _ channel_id messages =>
      0 <= channel_id <= U8_MAX /\ len messages <= U16_MAX /\
      Forall (fun m => varint (len m)) messages
  | ReliableSlice _ channel_id slice =>
      0 <= channel_id <= U8_MAX /\ wf_slice slice /\ 1 <= len (payload slice) <= SLICE_SIZE
  | UnreliableSlice _ channel_id slice =>
      0 <= channel_id <= U8_MAX /\ wf_slice slice
  | Ack _ ack_ranges =>
      ack_ranges <> [] /\ wf_ranges ack_ranges /\ varint (len ack_ranges)
  end.

Section spec.
Context {oct : Octets} {laws : OctetsLaws oct}.

Definition enc_reliable (m : Z * Bytes) : Bytes :=
  enc_varint m.1 ++ enc_varint (len m.2) ++ m.2.

Definition enc_unreliable (m : Bytes) : Bytes := enc_varint (len m) ++ m.

Definition enc_slice (s : Slice) : Bytes :=
  enc_varint (message_id s) ++ enc_varint (slice_index s) ++ enc_varint (num_slices s) ++
  enc_varint (len (payload s)) ++ payload s.

Fixpoint enc_gaps (previous_range_start : Z) (it : list Range) : Bytes :=
  match it with
  | [] => []
  | r :: it' =>
      enc_varint (previous_range_start - r_end r - 1) ++ enc_varint (r_end r - 1 - r_start r) ++
      enc_gaps (r_start r) it'
  end.

Definition enc_ranges (rs : list Range) : Bytes :=
  match rev rs with
  | [] => []
  | last :: it =>
      enc_varint (r_end last - 1) ++ enc_varint (r_end last - 1 - r_start last) ++
      enc_varint (len it) ++ enc_gaps (r_start last) it
  end.

(** The bytes of a packet on the wire. *)
Definition encode (p : Packet) : Bytes :=
  match p with
  | SmallReliable sequence channel_id messages =>
      byte_of 0 :: enc_varint sequence ++ [byte_of channel_id] ++ enc_u16 (len messages) ++
      messages ≫= enc_reliable
  | SmallUnreliable sequence channel_id messages =>
      byte_of 1 :: enc_varint sequence ++ [byte_of channel_id] ++ enc_u16 (len messages) ++
      messages ≫= enc_unreliable
  | ReliableSlice sequence channel_id slice =>
      byte_of 2 :: enc_varint sequence ++ [byte_of channel_id] ++ enc_slice slice
  | UnreliableSlice sequence channel_id slice =>
      byte_of 3 :: enc_varint sequence ++ [byte_of channel_id] ++ enc_slice slice
  | Ack sequence ack_ranges =>
      byte_of 4 :: enc_varint sequence ++ enc_ranges ack_ranges
  end.

End spec.

(** ** Serialization refines the wire format *)

Lemma StronglySorted_snoc {A} (R : relation A) l x :
  StronglySorted R (l ++ [x]) <-> StronglySorted R l /\ Forall (fun y => R y x) l.
Proof.
  rewrite StronglySorted_app. split.
  - intros (H & Hl & _). split; [done|]. apply Forall_forall. intros y Hy. apply H; set_solver.
  - intros [Hl H]. split_and!; [|done|repeat constructor].
    rewrite Forall_forall in H. intros y z Hy ->%list_elem_of_singleton. by apply H.
Qed.

Lemma StronglySorted_rev {A} (R : relation A) l :
  StronglySorted R l -> StronglySorted (flip R) (rev l).
Proof.
  induction 1 as [|x l Hl IH Hx]; cbn; [constructor|].
  apply StronglySorted_snoc. split; [done|].
  apply Forall_forall. intros y Hy. unfold flip.
  rewrite Forall_forall in Hx. apply Hx. by rewrite list_elem_of_In, in_rev, <- list_elem_of_In.
Qed.

Lemma Forall_rev {A} (P : A -> Prop) l : Forall P l -> Forall P (rev l).
Proof.
  rewrite !Forall_forall. intros H x Hx. apply H. by rewrite list_elem_of_In, in_rev, <- list_elem_of_In.
Qed.

Section laws.
Context {oct : Octets} {laws : OctetsLaws oct}.

Lemma emit_bind b x y (k : OctetsMut -> out (result OctetsMut SerializationError)) :
  (forall b', 0 <= om_cap b' -> k b' = too_short (put_raw b' y)) ->
  try_bind (too_short (put_raw b x)) k = too_short (put_raw b (x ++ y)).
Proof.
  intros Hk. unfold put_raw at 1 2. rewrite len_app. pose proof (len_nonneg y).
  destruct (Z.ltb_spec (om_cap b) (len x)), (Z.ltb_spec (om_cap b) (len x + len y)); cbn; try lia; [done| |];
  (rewrite Hk by (cbn; lia)); unfold put_raw; cbn;
    destruct (Z.ltb_spec (om_cap b - len x) (len y)); try lia; [done|].
  cbn. by rewrite <- app_assoc, Z.sub_add_distr.
Qed.

Lemma emit_bind_u8 b x y (k : OctetsMut -> out (result OctetsMut SerializationError)) :
  (forall b', 0 <= om_cap b' -> k b' = too_short (put_raw b' y)) ->
  try_bind (too_short (put_raw b [x])) k = too_short (put_raw b (x :: y)).
Proof. apply (emit_bind b [x] y). Qed.

Lemma emit_nil b : 0 <= om_cap b -> too_short (put_raw b []) = Ret (Ok b).
Proof.
  intros. unfold put_raw. rewrite len_nil. destruct (Z.ltb_spec (om_cap b) 0); [lia|]. cbn.
  rewrite app_nil_r, Z.sub_0_r. by destruct b.
Qed.

Lemma len_enc_pos v : varint v -> 1 <= len (enc_varint v) <= 8.
Proof. intros. rewrite len_enc_varint, varint_len_spec by done. repeat case_match; lia. Qed.

End laws.

Ltac emit_step :=
  first
  [ rewrite put_u8_spec by (unfold U8_MAX in *; lia); apply emit_bind_u8; intros ? ?
  | rewrite put_u16_spec by lia; apply emit_bind; intros ? ?
  | rewrite put_varint_spec by done; apply emit_bind; intros ? ?
  | rewrite put_bytes_spec; apply emit_bind; intros ? ? ].

Section refinement.
Context {oct : Octets} {laws : OctetsLaws oct}.
Implicit Types (b : OctetsMut) (p : Packet).

Lemma put_slice_spec b s : wf_slice s -> put_slice b s = too_short (put_raw b (enc_slice s)).
Proof.
  intros (? & ? & Hn & ?). assert (varint (num_slices s)) by (unfold varint, VARINT_MAX; lia).
  unfold put_slice, enc_slice. repeat emit_step. by rewrite put_bytes_spec.
Qed.

Lemma put_reliable_messages_spec b ms :
  0 <= om_cap b -> Forall (fun '(id, m) => varint id /\ varint (len m)) ms ->
  put_reliable_messages b ms = too_short (put_raw b (ms ≫= enc_reliable)).
Proof.
  intros Hb Hms. revert b Hb. induction Hms as [|[id m] ms [? ?] _ IH]; intros b Hb.
  { by rewrite emit_nil. }
  cbn. unfold enc_reliable at 1. rewrite <- !app_assoc. cbn [fst snd].
  repeat emit_step. by apply IH.
Qed.

Lemma put_unreliable_messages_spec b ms :
  0 <= om_cap b -> Forall (fun m => varint (len m)) ms ->
  put_unreliable_messages b ms = too_short (put_raw b (ms ≫= enc_unreliable)).
Proof.
  intros Hb Hms. revert b Hb. induction Hms as [|m ms ? _ IH]; intros b Hb.
  { by rewrite emit_nil. }
  cbn. unfold enc_unreliable at 1. rewrite <- !app_assoc.
  repeat emit_step. by apply IH.
Qed.

Lemma put_ack_gaps_spec b r it :
  0 <= om_cap b -> range_ok r -> Forall range_ok it -> StronglySorted (flip range_before) (r :: it) ->
  put_ack_gaps b (r_start r) it = too_short (put_raw b (enc_gaps (r_start r) it)).
Proof.
  intros Hb Hr Hit. revert b r Hb Hr. induction Hit as [|r' it Hr' _ IH]; intros b r Hb Hr Hs.
  { by rewrite emit_nil. }
  apply StronglySorted_cons in Hs as [Hb' Hs]. apply Forall_cons in Hb' as [Hb' _].
  unfold range_ok, flip, range_before, VARINT_MAX in *. cbn.
  rewrite !sub64_ok by lia. cbn. rewrite !sub64_ok by lia. cbn.
  rewrite put_varint_spec by (unfold VARINT_MAX; lia). apply emit_bind; intros b1 ?.
  rewrite put_varint_spec by (unfold VARINT_MAX; lia). apply emit_bind; intros b2 ?.
  by apply IH.
Qed.

Lemma put_ack_ranges_spec b rs :
  rs <> [] -> wf_ranges rs -> varint (len rs) ->
  put_ack_ranges b rs = too_short (put_raw b (enc_ranges rs)).
Proof.
  intros Hne [Hok Hs] Hlen. unfold put_ack_ranges, enc_ranges.
  apply Forall_rev in Hok. apply StronglySorted_rev in Hs.
  assert (len (rev rs) = len rs) as Hl by (unfold len; by rewrite length_rev).
  destruct (rev rs) as [|r it] eqn:E.
  { apply (f_equal (@rev _)) in E. rewrite rev_involutive in E. done. }
  apply Forall_cons in Hok as [Hr Hit]. rewrite len_cons in Hl. pose proof (len_nonneg it).
  pose proof Hr as Hr'. unfold range_ok, varint, VARINT_MAX in Hr', Hlen.
  rewrite sub64_ok by lia. cbn [out_bind]. rewrite sub64_ok by lia. cbn [out_bind].
  do 3 (rewrite put_varint_spec by (unfold VARINT_MAX; lia); apply emit_bind; intros ? ?).
  by apply put_ack_gaps_spec.
Qed.

Lemma put_packet_spec p b : wf_packet p -> put_packet p b = too_short (put_raw b (encode p)).
Proof.
  intros [Hseq Hp]. destruct p; cbn [sequence put_packet encode] in *.
  - destruct Hp as (? & Hlen & ?). pose proof (len_nonneg messages). unfold U16_MAX in *.
    rewrite Z.mod_small by lia. repeat emit_step.
    rewrite put_u16_spec by (unfold U16_MAX; lia). apply emit_bind. intros. by apply put_reliable_messages_spec.
  - destruct Hp as (? & Hlen & ?). pose proof (len_nonneg messages). unfold U16_MAX in *.
    rewrite Z.mod_small by lia. repeat emit_step.
    rewrite put_u16_spec by (unfold U16_MAX; lia). apply emit_bind. intros. by apply put_unreliable_messages_spec.
  - destruct Hp as (? & ?). repeat emit_step. by apply put_slice_spec.
  - destruct Hp as (? & ? & ?). repeat emit_step. by apply put_slice_spec.
  - destruct Hp as (? & ? & ?). repeat emit_step. by apply put_ack_ranges_spec.
Qed.

(** The functional behaviour of [to_bytes] on every packet the code builds. *)
Lemma to_bytes_encode p b :
  wf_packet p -> 0 <= om_cap b ->
  to_bytes p b =
    if om_cap b <? len (encode p) then Ret (Err BufferTooShort)
    else Ret (Ok (len (encode p),
                  mkOctetsMut (om_written b ++ encode p) (om_cap b - len (encode p)))).
Proof.
  intros Hp Hb. unfold to_bytes. cbn zeta. rewrite put_packet_spec by done.
  unfold put_raw. destruct (Z.ltb_spec (om_cap b) (len (encode p))); [done|]. cbn.
  pose proof (len_nonneg (encode p)). rewrite sub64_ok by lia. cbn. do 3 f_equal. lia.
Qed.

End refinement.

(** ** Parsing inverts the wire format *)

Section parsing.
Context {oct : Octets} {laws : OctetsLaws oct}.

Lemma get_bytes_enc m rest :
  varint (len m) -> get_bytes_with_varint_length (enc_varint (len m) ++ m ++ rest) = Some (m, rest).
Proof.
  intros Hm. rewrite get_bytes_spec, get_varint_enc by done.
  rewrite (proj2 (Z.ltb_ge _ _)) by (rewrite len_app; pose proof (len_nonneg rest); lia).
  unfold len. by rewrite Nat2Z.id, take_app_length, drop_app_length.
Qed.

Lemma get_reliable_messages_enc ms rest acc :
  Forall (fun '(id, m) => varint id /\ varint (len m)) ms ->
  get_reliable_messages (length ms) ((ms ≫= enc_reliable) ++ rest) acc = Ret (Ok (acc ++ ms)).
Proof.
  intros Hms. revert acc. induction Hms as [|[id m] ms [? ?] _ IH]; intros acc; cbn.
  { by rewrite app_nil_r. }
  unfold enc_reliable at 1; cbn [fst snd]. rewrite <- !app_assoc, get_varint_enc by done. cbn.
  rewrite get_bytes_enc by done. cbn. by rewrite IH, <- app_assoc.
Qed.

Lemma get_unreliable_messages_enc ms rest acc :
  Forall (fun m => varint (len m)) ms ->
  get_unreliable_messages (length ms) ((ms ≫= enc_unreliable) ++ rest) acc = Ret (Ok (acc ++ ms)).
Proof.
  intros Hms. revert acc. induction Hms as [|m ms ? _ IH]; intros acc; cbn.
  { by rewrite app_nil_r. }
  unfold enc_unreliable at 1. rewrite <- !app_assoc, get_bytes_enc by done. cbn.
  by rewrite IH, <- app_assoc.
Qed.

Lemma get_slice_enc check s rest :
  wf_slice s -> check (payload s) = None -> get_slice check (enc_slice s ++ rest) = Ret (Ok s).
Proof.
  intros (? & ? & ? & ?) Hc. unfold get_slice, enc_slice. rewrite <- !app_assoc.
  rewrite get_varint_enc by done. cbn. rewrite get_varint_enc by done. cbn.
  rewrite get_varint_enc by (unfold VARINT_MAX; lia). cbn.
  destruct (Z.eqb_spec (num_slices s) 0), (Z.ltb_spec 1000000 (num_slices s)); try lia. cbn.
  rewrite get_bytes_enc by done. cbn. rewrite Hc. by destruct s.
Qed.

Lemma get_ack_gaps_enc fuel r it rest acc :
  (length it <= fuel)%nat ->
  range_ok r -> Forall range_ok it -> StronglySorted (flip range_before) (r :: it) ->
  get_ack_gaps fuel (len it) (enc_gaps (r_start r) it ++ rest) (r_start r) acc = Ret (Ok (acc ++ it)).
Proof.
  intros Hf Hr Hit. revert fuel r acc Hf Hr.
  induction Hit as [|r' it Hr' _ IH]; intros fuel r acc Hf Hr Hs.
  { rewrite app_nil_r. by destruct fuel. }
  apply StronglySorted_cons in Hs as [Hb Hs]. apply Forall_cons in Hb as [Hb _].
  destruct fuel as [|fuel]; [cbn in Hf; lia|].
  pose proof Hr as Hr1. pose proof Hr' as Hr2.
  unfold range_ok, flip, range_before, VARINT_MAX in Hr1, Hr2, Hb.
  cbn [get_ack_gaps enc_gaps]. rewrite len_cons. pose proof (len_nonneg it).
  destruct (Z.leb_spec (1 + len it) 0); [lia|].
  rewrite <- !app_assoc, get_varint_enc by (unfold VARINT_MAX; lia). cbn.
  rewrite add64_ok by rlia. cbn.
  destruct (Z.ltb_spec (r_start r) (2 + (r_start r - r_end r' - 1))); [lia|].
  rewrite sub64_ok by lia. cbn. rewrite sub64_ok by lia. cbn.
  rewrite get_varint_enc by (unfold VARINT_MAX; lia). cbn.
  match goal with |- context [?e <? r_end r' - 1 - r_start r'] =>
    replace e with (r_end r' - 1) by lia end.
  destruct (Z.ltb_spec (r_end r' - 1) (r_end r' - 1 - r_start r')); [lia|].
  rewrite sub64_ok by lia. cbn. rewrite add64_ok by rlia. cbn.
  replace (r_end r' - 1 - (r_end r' - 1 - r_start r')) with (r_start r') by lia.
  replace (r_end r' - 1 + 1) with (r_end r') by lia.
  replace (1 + len it - 1) with (len it) by lia.
  rewrite IH; [|cbn in Hf; lia|done..]. rewrite <- app_assoc. by destruct r'.
Qed.

Lemma length_enc_gaps r it :
  range_ok r -> Forall range_ok it -> StronglySorted (flip range_before) (r :: it) ->
  (length it <= length (enc_gaps (r_start r) it))%nat.
Proof.
  intros Hr Hit. revert r Hr. induction Hit as [|r' it Hr' _ IH]; intros r Hr Hs; [cbn; lia|].
  apply StronglySorted_cons in Hs as [Hb Hs]. apply Forall_cons in Hb as [Hb _].
  specialize (IH r' Hr' Hs). cbn. rewrite !length_app.
  assert (varint (r_end r' - 1 - r_start r')) as Hv.
  { unfold range_ok, varint in *. lia. }
  apply len_enc_pos in Hv. unfold len in Hv. lia.
Qed.

Lemma get_ack_ranges_enc rs rest :
  rs <> [] -> wf_ranges rs -> varint (len rs) ->
  get_ack_ranges (enc_ranges rs ++ rest) = Ret (Ok rs).
Proof.
  intros Hne [Hok Hs] Hlen. unfold get_ack_ranges, enc_ranges.
  apply Forall_rev in Hok. apply StronglySorted_rev in Hs.
  assert (len (rev rs) = len rs) as Hl by (unfold len; by rewrite length_rev).
  destruct (rev rs) as [|r it] eqn:E.
  { apply (f_equal (@rev _)) in E. rewrite rev_involutive in E. done. }
  apply Forall_cons in Hok as [Hr Hit]. rewrite len_cons in Hl. pose proof (len_nonneg it).
  pose proof Hr as Hr'. unfold range_ok, varint, VARINT_MAX in Hr', Hlen.
  rewrite <- !app_assoc.
  do 3 (rewrite get_varint_enc by (unfold VARINT_MAX; lia); cbn [too_short try_bind]).
  destruct (Z.ltb_spec (r_end r - 1) (r_end r - 1 - r_start r)); [lia|].
  rewrite sub64_ok by lia. cbn [out_bind]. rewrite add64_ok by rlia. cbn [out_bind].
  replace (r_end r - 1 - (r_end r - 1 - r_start r)) with (r_start r) by lia.
  rewrite get_ack_gaps_enc; [|rewrite length_app; pose proof (length_enc_gaps r it Hr Hit Hs); lia|done..].
  cbn. replace (r_end r - 1 + 1) with (r_end r) by lia.
  apply (f_equal (@rev _)) in E. rewrite rev_involutive in E. rewrite E. cbn. by destruct r.
Qed.

(** [from_bytes] reads back the encoding of any well-formed packet. *)
Lemma from_bytes_encode p rest : wf_packet p -> from_bytes (encode p ++ rest) = Ret (Ok p).
Proof.
  intros [Hseq Hp]. unfold from_bytes, encode.
  destruct p; cbn [sequence app] in *; rewrite get_u8_spec; cbn [too_short try_bind];
    rewrite byte_val_of by lia; cbn [Z.eqb Pos.eqb]; rewrite <- ?app_assoc;
    rewrite get_varint_enc by done; cbn [too_short try_bind].
  - destruct Hp as (? & ? & ?). cbn [app]. rewrite get_u8_spec, byte_val_of by (unfold U8_MAX in *; lia).
    cbn [too_short try_bind]. rewrite <- app_assoc, get_u16_enc by (pose proof (len_nonneg messages); lia).
    cbn [too_short try_bind]. unfold len. rewrite Nat2Z.id.
    by rewrite get_reliable_messages_enc.
  - destruct Hp as (? & ? & ?). cbn [app]. rewrite get_u8_spec, byte_val_of by (unfold U8_MAX in *; lia).
    cbn [too_short try_bind]. rewrite <- app_assoc, get_u16_enc by (pose proof (len_nonneg messages); lia).
    cbn [too_short try_bind]. unfold len. rewrite Nat2Z.id.
    by rewrite get_unreliable_messages_enc.
  - destruct Hp as (? & ?). cbn [app]. rewrite get_u8_spec, byte_val_of by (unfold U8_MAX in *; lia).
    cbn [too_short try_bind]. by rewrite get_slice_enc.
  - destruct Hp as (? & ? & ?). cbn [app]. rewrite get_u8_spec, byte_val_of by (unfold U8_MAX in *; lia).
    cbn [too_short try_bind]. rewrite get_slice_enc; [done..|].
    unfold check_reliable_payload.
    destruct (Z.eqb_spec (len (payload slice)) 0), (Z.ltb_spec SLICE_SIZE (len (payload slice))); lia || done.
  - destruct Hp as (? & ? & ?). by rewrite get_ack_ranges_enc.
Qed.

End parsing.

(** ** What [from_bytes] accepts *)

Section soundness.
Context {oct : Octets} {laws : OctetsLaws oct}.

(** Inversion of one read; the remaining input shrinks. *)
Lemma too_short_inv {A} (o : option A) r : too_short o = Ret (Ok r) -> o = Some r.
Proof. destruct o; cbn; intros; simplify_eq; done. Qed.

Lemma too_short_total {A} (o : option A) : exists r, too_short o = Ret r.
Proof. destruct o; by eexists. Qed.

Lemma get_u8_inv b v rest :
  get_u8 b = Some (v, rest) -> 0 <= v <= U8_MAX /\ len rest < len b.
Proof.
  rewrite get_u8_spec. destruct b as [|x b]; intros; simplify_eq.
  rewrite len_cons. pose proof (byte_val_range x). unfold U8_MAX. lia.
Qed.

Lemma get_bytes_inv b m rest :
  get_bytes_with_varint_length b = Some (m, rest) -> len m + len rest < len b.
Proof.
  rewrite get_bytes_spec. destruct (get_varint b) as [[n r]|] eqn:E; [|done].
  apply get_varint_range in E as [Hn Hr]. destruct (Z.ltb_spec (len r) n); [done|].
  intros; simplify_eq. unfold len in *. rewrite length_take, length_drop. lia.
Qed.

End soundness.

Ltac get_inv :=
  repeat match goal with
  | H : too_short (get_varint _) = Ret (Ok _) |- _ =>
      apply too_short_inv, get_varint_range in H as [? ?]
  | H : too_short (get_u16 _) = Ret (Ok _) |- _ =>
      apply too_short_inv, get_u16_range in H as [? ?]
  | H : too_short (get_u8 _) = Ret (Ok _) |- _ =>
      apply too_short_inv, get_u8_inv in H as [? ?]
  | H : too_short (get_bytes_with_varint_length _) = Ret (Ok (?m, ?r)) |- _ =>
      apply too_short_inv, get_bytes_inv in H; pose proof (len_nonneg m); pose proof (len_nonneg r)
  end.

Section sound.
Context {oct : Octets} {laws : OctetsLaws oct}.

Lemma get_reliable_messages_sound n b acc ms :
  len b <= VARINT_MAX ->
  Forall (fun '(id, m) => varint id /\ varint (len m)) acc ->
  get_reliable_messages n b acc = Ret (Ok ms) ->
  length ms = (length acc + n)%nat /\ Forall (fun '(id, m) => varint id /\ varint (len m)) ms.
Proof.
  revert b acc. induction n as [|n IH]; intros b acc Hb Hacc H; cbn in H; out_inv.
  { split; [lia|done]. }
  get_inv. apply IH in H as [-> ?]; [|lia|].
  - split; [|done]. rewrite length_app; cbn; lia.
  - apply Forall_app. split; [done|]. repeat constructor; lia.
Qed.

Lemma get_unreliable_messages_sound n b acc ms :
  len b <= VARINT_MAX ->
  Forall (fun m => varint (len m)) acc ->
  get_unreliable_messages n b acc = Ret (Ok ms) ->
  length ms = (length acc + n)%nat /\ Forall (fun m => varint (len m)) ms.
Proof.
  revert b acc. induction n as [|n IH]; intros b acc Hb Hacc H; cbn in H; out_inv.
  { split; [lia|done]. }
  get_inv. apply IH in H as [-> ?]; [|lia|].
  - split; [|done]. rewrite length_app; cbn; lia.
  - apply Forall_app. split; [done|]. repeat constructor; lia.
Qed.

Lemma get_slice_sound check b s :
  len b <= VARINT_MAX -> get_slice check b = Ret (Ok s) -> wf_slice s /\ check (payload s) = None.
Proof.
  intros Hb H. unfold get_slice in H. out_inv.
  destruct (check _) eqn:?; out_inv. get_inv. apply orb_false_iff in E2 as [E2 E4].
  apply Z.eqb_neq in E2. apply Z.ltb_ge in E4. unfold wf_slice, varint. cbn. split_and!; lia || done.
Qed.

(** The ranges read so far, from the highest down. *)
Definition desc_ranges (prev : Z) (acc : list Range) : Prop :=
  Forall (fun r => range_ok r /\ prev <= r_start r) acc /\ StronglySorted (flip range_before) acc.

Lemma get_ack_gaps_sound fuel n b prev acc :
  (length b < fuel)%nat -> varint prev -> desc_ranges prev acc ->
  exists r, get_ack_gaps fuel n b prev acc = Ret r /\
    forall rs, r = Ok rs ->
      (exists prev', desc_ranges prev' rs) /\ (exists l, rs = acc ++ l) /\
      len rs <= len acc + len b.
Proof.
  revert n b prev acc. induction fuel as [|fuel IH]; intros n b prev acc Hf Hprev Hacc; [lia|].
  cbn [get_ack_gaps]. pose proof (len_nonneg b).
  destruct (Z.leb_spec n 0).
  { eexists; split; [done|]. intros rs [= <-]. split_and!; [by exists prev|exists []; by rewrite app_nil_r|lia]. }
  destruct (get_varint b) as [[gap b1]|] eqn:E1; cbn; [|by eexists].
  apply get_varint_range in E1 as [Hgap Hb1]. unfold varint, VARINT_MAX in Hgap, Hprev.
  rewrite add64_ok by rlia. cbn. destruct (Z.ltb_spec prev (2 + gap)); [by eexists|].
  rewrite sub64_ok by lia. cbn. rewrite sub64_ok by lia. cbn.
  destruct (get_varint b1) as [[size b2]|] eqn:E2; cbn; [|by eexists].
  apply get_varint_range in E2 as [Hsize Hb2].
  destruct (Z.ltb_spec (prev - gap - 2) size); [by eexists|].
  rewrite sub64_ok by lia. cbn. rewrite add64_ok by rlia. cbn.
  set (r := mkRange (prev - gap - 2 - size) (prev - gap - 2 + 1)).
  destruct (IH (n - 1) b2 (r_start r) (acc ++ [r])) as (o & Ho & Hr).
  - unfold len in *. lia.
  - unfold varint, VARINT_MAX; cbn. lia.
  - destruct Hacc as [Hok Hs]. split.
    + apply Forall_app. split; [|repeat constructor; unfold VARINT_MAX; cbn; lia].
      eapply Forall_impl; [done|]. cbn. intros x [? ?]. split; [done|]. lia.
    + apply StronglySorted_snoc. split; [done|]. eapply Forall_impl; [done|].
      unfold flip, range_before. cbn. intros x [? ?]. lia.
  - eexists; split; [done|]. intros rs Hrs. destruct (Hr rs Hrs) as (? & [l ->] & Hlen).
    split_and!; [done|exists (r :: l); by rewrite <- app_assoc|].
    rewrite (len_app acc [r]), len_cons, len_nil in Hlen. lia.
Qed.

#[local] Arguments get_ack_gaps : simpl never.

Lemma get_ack_ranges_sound b :
  len b <= VARINT_MAX ->
  exists r, get_ack_ranges b = Ret r /\
    forall rs, r = Ok rs -> rs <> [] /\ wf_ranges rs /\ varint (len rs).
Proof.
  intros Hb. unfold get_ack_ranges.
  destruct (get_varint b) as [[e b1]|] eqn:E1; cbn; [|by eexists].
  destruct (get_varint b1) as [[s b2]|] eqn:E2; cbn; [|by eexists].
  destruct (get_varint b2) as [[n b3]|] eqn:E3; cbn; [|by eexists].
  apply get_varint_range in E1 as [He ?], E2 as [? ?], E3 as [? ?].
  destruct (Z.ltb_spec e s); [by eexists|]. unfold VARINT_MAX in He.
  rewrite sub64_ok by lia. cbn. rewrite add64_ok by rlia. cbn.
  destruct (get_ack_gaps_sound (S (length b3)) n b3 (e - s) [mkRange (e - s) (e + 1)]) as (r & -> & Hr).
  - lia.
  - unfold varint, VARINT_MAX; lia.
  - split; repeat constructor; unfold VARINT_MAX; cbn; lia.
  - destruct r as [rs|err]; cbn; [|by eexists]. eexists; split; [done|]. intros rs' [= <-].
    destruct (Hr rs eq_refl) as ([p [Hok Hs]] & [l ->] & Hlen). split_and!.
    + intros E. apply (f_equal length) in E. rewrite length_rev, length_app in E. cbn in E. lia.
    + split.
      * apply Forall_rev. eapply Forall_impl; [done|]. by intros x [? _].
      * apply StronglySorted_rev in Hs. done.
    + unfold varint, len in *. rewrite length_rev. rewrite !length_app in *. cbn in *. lia.
Qed.

Lemma get_reliable_messages_total n b acc : exists r, get_reliable_messages n b acc = Ret r.
Proof.
  revert b acc. induction n as [|n IH]; intros b acc; cbn; [by eexists|].
  destruct (get_varint b) as [[id b1]|]; cbn; [|by eexists].
  destruct (get_bytes_with_varint_length b1) as [[m b2]|]; cbn; [apply IH|by eexists].
Qed.

Lemma get_unreliable_messages_total n b acc : exists r, get_unreliable_messages n b acc = Ret r.
Proof.
  revert b acc. induction n as [|n IH]; intros b acc; cbn; [by eexists|].
  destruct (get_bytes_with_varint_length b) as [[m b1]|]; cbn; [apply IH|by eexists].
Qed.

Lemma get_slice_total check b : exists r, get_slice check b = Ret r.
Proof.
  unfold get_slice.
  destruct (get_varint b) as [[? b1]|]; cbn; [|by eexists].
  destruct (get_varint b1) as [[? b2]|]; cbn; [|by eexists].
  destruct (get_varint b2) as [[n b3]|]; cbn; [|by eexists].
  destruct (_ || _); [by eexists|].
  destruct (get_bytes_with_varint_length b3) as [[m b4]|]; cbn; [|by eexists].
  destruct (check m); by eexists.
Qed.

(** Parsing never panics. *)
Lemma from_bytes_total b : len b <= VARINT_MAX -> exists r, from_bytes b = Ret r.
Proof.
  intros Hb. unfold from_bytes.
  destruct (get_u8 b) as [[ty b0]|] eqn:E0; cbn; [|by eexists]. apply get_u8_inv in E0 as [_ ?].
  destruct (get_varint b0) as [[seq b1]|] eqn:E1; cbn; [|repeat case_match; by eexists].
  apply get_varint_range in E1 as [_ ?].
  destruct (get_ack_ranges_sound b1) as ([rs|err] & Hacks & _); [lia|rewrite Hacks; clear Hacks..];
  (destruct (get_u8 b1) as [[ch b2]|] eqn:E2; cbn; [|repeat case_match; by eexists]);
  destruct (get_slice_total check_reliable_payload b2) as [[] ->];
  destruct (get_slice_total (fun _ => None) b2) as [[] ->];
  (destruct (get_u16 b2) as [[k b3]|]; cbn; [|repeat case_match; by eexists]);
  destruct (get_reliable_messages_total (Z.to_nat k) b3 []) as [[] ->];
  destruct (get_unreliable_messages_total (Z.to_nat k) b3 []) as [[] ->]; cbn;
  repeat case_match; by eexists.
Qed.

(** Whatever [from_bytes] accepts is a well-formed packet. *)
Lemma from_bytes_wf b p : len b <= VARINT_MAX -> from_bytes b = Ret (Ok p) -> wf_packet p.
Proof.
  intros Hb H. unfold from_bytes in H.
  out_inv; get_inv; split; cbn; try done; match goal with
  | H : get_reliable_messages _ _ _ = _ |- _ =>
      apply get_reliable_messages_sound in H as [Hl ?]; [|lia|constructor];
      split_and!; try done; try lia; unfold len; rewrite Hl; cbn; lia
  | H : get_unreliable_messages _ _ _ = _ |- _ =>
      apply get_unreliable_messages_sound in H as [Hl ?]; [|lia|constructor];
      split_and!; try done; try lia; unfold len; rewrite Hl; cbn; lia
  | H : get_slice check_reliable_payload _ = Ret (Ok ?s) |- _ =>
      apply get_slice_sound in H as [? Hc]; [|lia]; unfold check_reliable_payload in Hc;
      pose proof (len_nonneg (payload s));
      destruct (Z.eqb_spec (len (payload s)) 0), (Z.ltb_spec SLICE_SIZE (len (payload s)));
      try done; split_and!; lia || done
  | H : get_slice _ _ = _ |- _ => apply get_slice_sound in H as [? _]; [done|lia]
  | H : get_ack_ranges ?b = _ |- _ =>
      destruct (get_ack_ranges_sound b) as (r & Hr & Hwf); [lia|];
      rewrite H in Hr; simplify_eq; by apply Hwf
  end.
Qed.

End sound.

(** ** Properties *)

(** C19: [to_bytes] and [from_bytes] are inverse on every packet the code builds:
    into a buffer of [cap] bytes [to_bytes] either writes the packet, reports
    the number of bytes written, and [from_bytes] reads the same packet back, or
    fails with [BufferTooShort] because the wire format does not fit. *)
Theorem packet_round_trip {oct : Octets} {laws : OctetsLaws oct} p cap :
  wf_packet p -> 0 <= cap ->
  match to_bytes p (with_slice cap) with
  | Ret (Ok (n, b)) => n = len (om_written b) /\ n <= cap /\ from_bytes (om_written b) = Ret (Ok p)
  | Ret (Err e) => e = BufferTooShort /\ cap < len (encode p)
  | Panic => False
  end.
Proof.
  intros Hp Hcap. rewrite to_bytes_encode by done. cbn.
  destruct (Z.ltb_spec cap (len (encode p))); [done|]. split_and!; try done.
  rewrite <- (app_nil_r (encode p)). by apply from_bytes_encode.
Qed.

(** Two acknowledgement ranges, and two reliable messages. *)
Definition sample_ack : Packet := Ack 9 [mkRange 3 5; mkRange 20000 20040].
Definition sample_small : Packet := SmallReliable 70 2 [(1, [byte_of 1; byte_of 2]); (300, [])].

Lemma packet_round_trip_witness :
  (exists b, to_bytes sample_ack (with_slice 1400) = Ret (Ok (13, b)) /\ from_bytes (om_written b) = Ret (Ok sample_ack)) /\
  to_bytes sample_small (with_slice 5) = Ret (Err BufferTooShort).
Proof.
  split.
  - assert (wf_packet sample_ack) as Hwf.
    { unfold wf_packet, varint, wf_ranges, range_ok, VARINT_MAX. cbn. split_and!; try done; try lia.
      - repeat constructor; cbn; lia.
      - repeat constructor; unfold range_before; cbn; lia. }
    pose proof (packet_round_trip sample_ack 1400 Hwf ltac:(lia)) as H.
    assert (exists b, to_bytes sample_ack (with_slice 1400) = Ret (Ok (13, b))) as [b E] by (eexists; vm_compute; reflexivity).
    rewrite E in H. exists b. split; [exact E|apply H].
  - assert (wf_packet sample_small) as Hwf.
    { unfold wf_packet, varint, VARINT_MAX, U8_MAX, U16_MAX. cbn. split_and!; try done; try lia.
      apply Forall_cons; split; [vm_compute; repeat split; discriminate|].
      apply Forall_cons; split; [vm_compute; repeat split; discriminate|]. apply Forall_nil_2. }
    pose proof (packet_round_trip sample_small 5 Hwf ltac:(lia)) as H. vm_compute in H |- *. destruct H as [_ _]. reflexivity.
Defined.

(** C20: Parsing untrusted bytes is safe: on any datagram [from_bytes] returns (no
    panic, and the loops end), and what it accepts is a well-formed packet: in
    particular acknowledgement ranges are non-empty, increasing and disjoint, and
    slice counts are between 1 and 1,000,000. *)
Theorem from_bytes_untrusted {oct : Octets} {laws : OctetsLaws oct} b :
  len b <= VARINT_MAX ->
  exists r, from_bytes b = Ret r /\ forall p, r = Ok p -> wf_packet p.
Proof.
  intros Hb. destruct (from_bytes_total b Hb) as [r Hr]. exists r. split; [done|].
  intros p ->. by eapply from_bytes_wf.
Qed.

(** An acknowledgement whose second range would start below zero. *)
Definition hostile_ack : Bytes := byte_of <$> [4; 1; 10; 2; 1; 9; 0].

Lemma from_bytes_untrusted_witness :
  exists r, from_bytes hostile_ack = Ret r /\ r = Err InvalidAckRange.
Proof.
  destruct (from_bytes_untrusted hostile_ack) as (r & Hr & _); [vm_compute; discriminate|].
  exists r. split; [exact Hr|]. vm_compute in Hr. injection Hr as <-. reflexivity.
Defined.
