(* ===== verification/SliceConstructor.v ===== *)
(** * Reassembly of sliced messages (renet/src/channel/slice_constructor.rs)

    [SliceConstructor] collects the slices of one message. The lemmas relate
    its state to the message being received ([sc_inv]); the theorems show that
    the message comes out, whole and once, whatever the order and duplication
    of its slices, and what the code does on slices no honest peer sends. *)

From S2P Require Import Prelude Octets Packet.

Record SliceConstructor := mkSC {
  sc_message_id : Z;
  sc_num_slices : Z;
  num_received_slices : Z;
  received : list bool;
  sliced_data : Bytes;
}.

(** [SliceConstructor::new]. *)
Definition sc_new (message_id num_slices : Z) : out SliceConstructor :=
  let! size := mul64 num_slices SLICE_SIZE in
  Ret {| sc_message_id := message_id;
         sc_num_slices := num_slices;
         num_received_slices := 0;
         received := vec_repeat false num_slices;
         sliced_data := vec_repeat (byte_of 0) size |}.

(** The end of the last slice: [(self.num_slices - 1) * SLICE_SIZE + bytes.len()]. *)
Definition sc_last_end (self : SliceConstructor) (bytes : Bytes) : out Z :=
  let! last := sub64 (sc_num_slices self) 1 in
  let! last_start := mul64 last SLICE_SIZE in
  add64 last_start (len bytes).

(** The update of the branch [!self.received[slice_index]]. *)
Definition sc_store (self : SliceConstructor) (slice_index : Z) (bytes : Bytes) (is_last_slice : bool)
    : out SliceConstructor :=
  let! received := vec_set (received self) slice_index true in
  let! num_received_slices := add64 (num_received_slices self) 1 in
  let! data :=
    (if is_last_slice then
       let! len := sc_last_end self bytes in
       Ret (vec_resize (sliced_data self) len (byte_of 0))
     else Ret (sliced_data self)) in
  let! start := mul64 slice_index SLICE_SIZE in
  let! last := sub64 (sc_num_slices self) 1 in
  let! end_ :=
    (if slice_index =? last then sc_last_end self bytes
     else let! next := add64 slice_index 1 in mul64 next SLICE_SIZE) in
  let! data := copy_range data start end_ bytes in
  Ret {| sc_message_id := sc_message_id self;
         sc_num_slices := sc_num_slices self;
         num_received_slices := num_received_slices;
         received := received;
         sliced_data := data |}.

(** [SliceConstructor::process_slice]. *)
Definition sc_process_slice (self : SliceConstructor) (slice_index : Z) (bytes : Bytes)
    : out (SliceConstructor * result (option Bytes) ChannelError) :=
  let! last := sub64 (sc_num_slices self) 1 in
  let is_last_slice := slice_index =? last in
  if (if is_last_slice then SLICE_SIZE <? len bytes else negb (len bytes =? SLICE_SIZE))
  then Ret (self, Err InvalidSliceMessage)
  else
    let! seen := vec_get (received self) slice_index in
    let! self := (if seen then Ret self else sc_store self slice_index bytes is_last_slice) in
    if num_received_slices self =? sc_num_slices self then
      let message := sliced_data self in
      Ret ({| sc_message_id := sc_message_id self;
              sc_num_slices := sc_num_slices self;
              num_received_slices := num_received_slices self;
              received := received self;
              sliced_data := [] |}, Ok (Some message))
    else Ret (self, Ok None).

(** Processing a sequence of slices, with every answer. *)
Fixpoint sc_feed (self : SliceConstructor) (slices : list (Z * Bytes))
    : out (list (result (option Bytes) ChannelError)) :=
  match slices with
  | [] => Ret []
  | (i, bytes) :: slices' =>
      let! (self, r) := sc_process_slice self i bytes in
      let! rs := sc_feed self slices' in
      Ret (r :: rs)
  end.

(** ** The slices of a message *)

Definition num_slices_of (m : Bytes) : Z := div_ceil (len m) SLICE_SIZE.

Definition slice_bytes (m : Bytes) (i : Z) : Bytes :=
  take (Z.to_nat SLICE_SIZE) (drop (Z.to_nat (i * SLICE_SIZE)) m).

(** The constructor [sc] holds the received part of message [m]. *)
Record sc_inv (m : Bytes) (sc : SliceConstructor) : Prop := {
  inv_num : sc_num_slices sc = num_slices_of m;
  inv_len : len (received sc) = num_slices_of m;
  inv_count : num_received_slices sc = count_true (received sc);
  inv_data_len :
    len (sliced_data sc) =
      if bool_decide (received sc !! Z.to_nat (num_slices_of m - 1) = Some true)
      then len m else num_slices_of m * SLICE_SIZE;
  inv_data : forall k, (k < length m)%nat ->
    received sc !! (k / 1200)%nat = Some true -> sliced_data sc !! k = m !! k;
}.

Lemma num_slices_bounds m :
  0 < len m -> 1 <= num_slices_of m /\ (num_slices_of m - 1) * SLICE_SIZE < len m <= num_slices_of m * SLICE_SIZE.
Proof.
  intros Hm. unfold num_slices_of, div_ceil, SLICE_SIZE.
  pose proof (Z.div_mod (len m + 1200 - 1) 1200). pose proof (Z.mod_pos_bound (len m + 1200 - 1) 1200). lia.
Qed.

Lemma len_slice_bytes m i :
  0 < len m -> 0 <= i < num_slices_of m ->
  len (slice_bytes m i) = if i =? num_slices_of m - 1 then len m - i * SLICE_SIZE else SLICE_SIZE.
Proof.
  intros Hm Hi. destruct (num_slices_bounds m Hm) as [_ Hb].
  unfold slice_bytes, SLICE_SIZE in *. unfold len in *. rewrite length_take, length_drop.
  destruct (Z.eqb_spec i (num_slices_of m - 1)) as [->|]; [|assert (i <= num_slices_of m - 2) by lia]; lia.
Qed.

Lemma lookup_slice_bytes m i k :
  0 <= i -> slice_bytes m i !! k = if decide (k < 1200)%nat then m !! (Z.to_nat i * 1200 + k)%nat else None.
Proof.
  intros Hi. unfold slice_bytes, SLICE_SIZE. case_decide.
  - rewrite lookup_take_lt, lookup_drop by lia. f_equal. lia.
  - apply lookup_take_ge. lia.
Qed.

(** The slice cut by the sender, [message.slice(start..end)]. *)
Lemma sub_slice_slice m i :
  0 < len m -> 0 <= i < num_slices_of m ->
  sub_slice m (i * SLICE_SIZE) (if i =? num_slices_of m - 1 then len m else (i + 1) * SLICE_SIZE)
  = Ret (slice_bytes m i).
Proof.
  intros Hm Hi. destruct (num_slices_bounds m Hm) as [_ Hb].
  destruct (Z.eqb_spec i (num_slices_of m - 1)) as [->|]; rewrite sub_slice_ok; unfold SLICE_SIZE in *; try lia.
  - unfold slice_bytes, SLICE_SIZE. f_equal.
    rewrite take_ge by (rewrite length_drop; unfold len in *; lia).
    by rewrite take_ge by (rewrite length_drop; unfold len in *; lia).
  - unfold slice_bytes, SLICE_SIZE. do 2 f_equal. lia.
Qed.

Section receive.
Context (m : Bytes).
Context (Hpos : 0 < len m) (Hmax : len m + SLICE_SIZE <= U64_MAX).

Lemma sc_new_inv id :
  exists sc, sc_new id (num_slices_of m) = Ret sc /\ sc_inv m sc /\
    sc_message_id sc = id /\ received sc = vec_repeat false (num_slices_of m).
Proof using Hpos Hmax.
  destruct (num_slices_bounds m Hpos) as [Hn Hb]. unfold sc_new.
  rewrite mul64_ok by (unfold SLICE_SIZE in *; lia). cbn. eexists; split; [done|].
  assert (forall k, vec_repeat false (num_slices_of m) !! k <> Some true) as Hf.
  { intros k. unfold vec_repeat. intros [? _]%lookup_replicate. done. }
  split_and!; [|done..]. constructor; cbn.
  - done.
  - apply len_repeat. lia.
  - unfold vec_repeat. by rewrite count_true_replicate.
  - rewrite bool_decide_eq_false_2 by apply Hf. apply len_repeat. unfold SLICE_SIZE; lia.
  - intros k _ Hk. by apply Hf in Hk.
Qed.

Lemma sc_last_end_ok sc :
  sc_inv m sc -> sc_last_end sc (slice_bytes m (num_slices_of m - 1)) = Ret (len m).
Proof using Hpos Hmax.
  intros Hinv. destruct (num_slices_bounds m Hpos) as [Hn Hb]. unfold sc_last_end.
  rewrite (inv_num _ _ Hinv), sub64_ok by lia. cbn.
  rewrite mul64_ok by (unfold SLICE_SIZE in *; lia). cbn.
  rewrite len_slice_bytes, Z.eqb_refl by lia.
  rewrite add64_ok by lia. f_equal. lia.
Qed.

(** The buffer a slice is copied into: cut to the message's length on the last one. *)
Definition sc_buffer (sc : SliceConstructor) (i : Z) : Bytes :=
  if i =? num_slices_of m - 1 then vec_resize (sliced_data sc) (len m) (byte_of 0) else sliced_data sc.

Lemma sc_buffer_spec sc i :
  sc_inv m sc -> 0 <= i < num_slices_of m -> received sc !! Z.to_nat i = Some false ->
  len (sc_buffer sc i) = (if i =? num_slices_of m - 1 then len m else len (sliced_data sc)) /\
  i * SLICE_SIZE + len (slice_bytes m i) <= len (sc_buffer sc i) /\
  forall k, (k < length m)%nat -> sc_buffer sc i !! k = sliced_data sc !! k.
Proof using Hpos Hmax.
  intros Hinv Hi Hr. destruct (num_slices_bounds m Hpos) as [Hn Hb].
  pose proof (inv_data_len _ _ Hinv) as Hd. rewrite len_slice_bytes by lia. unfold sc_buffer.
  destruct (Z.eqb_spec i (num_slices_of m - 1)) as [->|].
  - rewrite bool_decide_eq_false_2 in Hd by congruence.
    unfold vec_resize, len in *. unfold SLICE_SIZE in *. rewrite resize_le by lia. split_and!.
    + rewrite length_take. lia.
    + rewrite length_take. lia.
    + intros k Hk. apply lookup_take_lt. lia.
  - split_and!; [done| |done]. rewrite Hd. unfold SLICE_SIZE in *. case_bool_decide; lia.
Qed.

(** Storing a new slice keeps the invariant and marks the slice. *)
Lemma sc_store_inv sc i :
  sc_inv m sc -> 0 <= i < num_slices_of m -> received sc !! Z.to_nat i = Some false ->
  exists sc', sc_store sc i (slice_bytes m i) (i =? num_slices_of m - 1) = Ret sc' /\
    sc_inv m sc' /\ sc_message_id sc' = sc_message_id sc /\
    received sc' = <[Z.to_nat i := true]> (received sc).
Proof using Hpos Hmax.
  intros Hinv Hi Hr. destruct (num_slices_bounds m Hpos) as [Hn Hb].
  destruct (sc_buffer_spec sc i Hinv Hi Hr) as (Hbl & Hbe & Hbk).
  pose proof (count_true_range (received sc)) as Hc. rewrite (inv_len _ _ Hinv) in Hc.
  pose proof (len_slice_bytes m i Hpos Hi) as Hls.
  unfold sc_store. rewrite vec_set_ok by (rewrite (inv_len _ _ Hinv); lia). cbn.
  rewrite (inv_count _ _ Hinv), add64_ok by (unfold SLICE_SIZE in *; lia). cbn.
  assert ((if i =? num_slices_of m - 1 then
             let! len0 := sc_last_end sc (slice_bytes m i) in
             Ret (vec_resize (sliced_data sc) len0 (byte_of 0))
           else Ret (sliced_data sc)) = Ret (sc_buffer sc i)) as ->.
  { unfold sc_buffer. destruct (Z.eqb_spec i (num_slices_of m - 1)) as [->|]; [|done].
    by rewrite sc_last_end_ok. }
  cbn. rewrite mul64_ok by (unfold SLICE_SIZE in *; lia). cbn.
  rewrite (inv_num _ _ Hinv), sub64_ok by lia. cbn.
  assert ((if i =? num_slices_of m - 1 then sc_last_end sc (slice_bytes m i)
           else let! next := add64 i 1 in mul64 next SLICE_SIZE)
          = Ret (i * SLICE_SIZE + len (slice_bytes m i))) as ->.
  { rewrite Hls. destruct (Z.eqb_spec i (num_slices_of m - 1)) as [->|].
    - rewrite sc_last_end_ok by done. f_equal. lia.
    - rewrite add64_ok by (unfold SLICE_SIZE in *; lia). cbn.
      rewrite mul64_ok by (unfold SLICE_SIZE in *; lia). f_equal. unfold SLICE_SIZE. lia. }
  cbn. rewrite copy_range_ok; [|unfold SLICE_SIZE; pose proof (len_nonneg (slice_bytes m i)); lia|lia|lia].
  cbn. eexists; split; [done|]. split_and!; [|done..].
  assert (Z.to_nat (i * SLICE_SIZE + len (slice_bytes m i))
          = (Z.to_nat (i * SLICE_SIZE) + length (slice_bytes m i))%nat) as ->.
  { unfold len, SLICE_SIZE. lia. }
  constructor; cbn.
  - done.
  - unfold len. rewrite length_insert. apply (inv_len _ _ Hinv).
  - rewrite count_true_set by done. lia.
  - rewrite !len_app. unfold len at 1 3. rewrite length_take, length_drop.
    transitivity (len (sc_buffer sc i)); [unfold len, SLICE_SIZE in *; lia|]. rewrite Hbl.
    destruct (Z.eqb_spec i (num_slices_of m - 1)) as [->|].
    + rewrite bool_decide_eq_true_2; [done|]. apply list_lookup_insert_eq.
      pose proof (inv_len _ _ Hinv) as Hl. unfold len in Hl. lia.
    + rewrite list_lookup_insert_ne by lia. apply (inv_data_len _ _ Hinv).
  - intros k Hk Hrk. rewrite lookup_copy by (unfold len, SLICE_SIZE in *; lia).
    pose proof (Nat.div_mod_eq k 1200). pose proof (Nat.mod_upper_bound k 1200 ltac:(lia)).
    destruct (decide (Z.to_nat i = (k / 1200)%nat)) as [E|E].
    + rewrite decide_True.
      * rewrite lookup_slice_bytes by lia. rewrite decide_True by (unfold SLICE_SIZE; lia).
        f_equal. unfold SLICE_SIZE. lia.
      * unfold len in *. unfold SLICE_SIZE in *. case_match; lia.
    + rewrite list_lookup_insert_ne in Hrk by done. rewrite decide_False.
      * rewrite Hbk by done. by apply (inv_data _ _ Hinv).
      * unfold len in *. unfold SLICE_SIZE in *. case_match; lia.
Qed.

(** When every slice is present the buffer is the message. *)
Lemma sc_inv_complete sc :
  sc_inv m sc -> num_received_slices sc = sc_num_slices sc -> sliced_data sc = m.
Proof using Hpos.
  intros Hinv Hc. destruct (num_slices_bounds m Hpos) as [Hn Hb].
  rewrite (inv_num _ _ Hinv), (inv_count _ _ Hinv), <- (inv_len _ _ Hinv) in Hc.
  rewrite count_true_full in Hc. pose proof (inv_len _ _ Hinv) as Hl.
  pose proof (inv_data_len _ _ Hinv) as Hd.
  rewrite bool_decide_eq_true_2 in Hd by (apply Hc; unfold len in Hl; lia).
  apply list_eq_same_length with (length m); [done|unfold len in Hd; lia|].
  intros k x y Hk Hx Hy. rewrite (inv_data _ _ Hinv) in Hx; [congruence|done|].
  apply Hc. apply Nat.Div0.div_lt_upper_bound. unfold len, SLICE_SIZE in *. lia.
Qed.

(** One slice of [m], in any state of the constructor: the flag is set, and the
    message is returned exactly when the flags are all set. *)
Lemma sc_process_slice_spec sc i :
  sc_inv m sc -> 0 <= i < num_slices_of m ->
  exists sc',
    received sc' = <[Z.to_nat i := true]> (received sc) /\
    sc_num_slices sc' = num_slices_of m /\
    if count_true (received sc') =? num_slices_of m
    then sc_process_slice sc i (slice_bytes m i) = Ret (sc', Ok (Some m))
    else sc_process_slice sc i (slice_bytes m i) = Ret (sc', Ok None) /\ sc_inv m sc'.
Proof using Hpos Hmax.
  intros Hinv Hi. destruct (num_slices_bounds m Hpos) as [Hn Hb].
  pose proof (inv_len _ _ Hinv) as Hl.
  unfold sc_process_slice. rewrite (inv_num _ _ Hinv), sub64_ok by lia. cbn.
  rewrite len_slice_bytes by lia.
  assert ((if i =? num_slices_of m - 1
           then SLICE_SIZE <? (if i =? num_slices_of m - 1 then len m - i * SLICE_SIZE else SLICE_SIZE)
           else negb ((if i =? num_slices_of m - 1 then len m - i * SLICE_SIZE else SLICE_SIZE) =? SLICE_SIZE))
          = false) as ->.
  { destruct (Z.eqb_spec i (num_slices_of m - 1)) as [->|]; [apply Z.ltb_ge; unfold SLICE_SIZE in *; lia|].
    by rewrite Z.eqb_refl. }
  destruct (vec_get_total (received sc) i) as (seen & -> & Hseen); [lia|]. cbn.
  assert (exists sc', (if seen then Ret sc else sc_store sc i (slice_bytes m i) (i =? num_slices_of m - 1)) = Ret sc'
    /\ sc_inv m sc' /\ received sc' = <[Z.to_nat i := true]> (received sc)) as (sc' & -> & Hinv' & Hr').
  { destruct seen.
    - exists sc. split_and!; [done..|]. by rewrite list_insert_id.
    - destruct (sc_store_inv sc i) as (sc' & ? & ? & _ & ?); [done..|]. by exists sc'. }
  cbn. rewrite (inv_count _ _ Hinv'), (inv_num _ _ Hinv').
  destruct (Z.eqb_spec (count_true (received sc')) (num_slices_of m)) as [E|E].
  - rewrite (sc_inv_complete sc') by (done || by rewrite (inv_count _ _ Hinv'), (inv_num _ _ Hinv')).
    exists (mkSC (sc_message_id sc') (num_slices_of m) (count_true (received sc')) (received sc') []).
    cbn. split_and!; [done|done|]. by rewrite E, Z.eqb_refl.
  - exists sc'. split_and!; [done|by rewrite (inv_num _ _ Hinv')|].
    by rewrite (proj2 (Z.eqb_neq _ _) E).
Qed.

End receive.

(** ** Whole runs *)

Lemma sc_flags_full m (l : list bool) :
  len l = num_slices_of m ->
  (forall j, 0 <= j < num_slices_of m -> l !! Z.to_nat j = Some true) ->
  count_true l = num_slices_of m.
Proof.
  intros Hl Hall. rewrite <- Hl. apply count_true_full. intros k Hk.
  rewrite <- (Nat2Z.id k). apply Hall. unfold len in Hl. lia.
Qed.

Lemma sc_flags_not_full m (l : list bool) j :
  len l = num_slices_of m -> 0 <= j < num_slices_of m -> l !! Z.to_nat j <> Some true ->
  count_true l <> num_slices_of m.
Proof.
  intros Hl Hj Hne E. rewrite <- Hl, count_true_full in E. apply Hne, E. unfold len in Hl. lia.
Qed.

Lemma sc_feed_spec m sc l i :
  0 < len m -> len m + SLICE_SIZE <= U64_MAX -> sc_inv m sc ->
  (forall j, j ∈ l ++ [i] -> 0 <= j < num_slices_of m) ->
  (exists j, 0 <= j < num_slices_of m /\ received sc !! Z.to_nat j = Some false /\ j ∉ l) ->
  (forall j, 0 <= j < num_slices_of m -> received sc !! Z.to_nat j = Some true \/ j ∈ l ++ [i]) ->
  sc_feed sc (map (fun j => (j, slice_bytes m j)) (l ++ [i]))
  = Ret (replicate (length l) (Ok None) ++ [Ok (Some m)]).
Proof.
  intros Hpos Hmax. revert sc. induction l as [|j0 l IH]; intros sc Hinv Hr (j & Hj & Hjf & Hjl) Hall.
  - assert (0 <= i < num_slices_of m) as Hi.
    { apply Hr. rewrite elem_of_app, list_elem_of_singleton. by right. }
    cbn. destruct (sc_process_slice_spec m Hpos Hmax sc i Hinv Hi) as (sc' & Hr' & Hn' & Hp).
    pose proof (inv_len _ _ Hinv) as Hl. rewrite (sc_flags_full m), Z.eqb_refl in Hp.
    + by rewrite Hp.
    + rewrite Hr'. unfold len in *. by rewrite length_insert.
    + intros k Hk. rewrite Hr'. destruct (decide (k = i)) as [->|Hne].
      * apply list_lookup_insert_eq. unfold len in Hl. lia.
      * rewrite list_lookup_insert_ne by lia. destruct (Hall k Hk); [done|set_solver].
  - cbn. destruct (sc_process_slice_spec m Hpos Hmax sc j0 Hinv) as (sc' & Hr' & Hn' & Hp).
    { apply Hr. left. }
    pose proof (inv_len _ _ Hinv) as Hl.
    assert (0 <= j0 < num_slices_of m) as Hj0 by (apply Hr; set_solver).
    assert (j <> j0) by set_solver.
    rewrite (proj2 (Z.eqb_neq _ _)) in Hp.
    + destruct Hp as [-> Hinv']. cbn. rewrite (IH sc'); [done|done|set_solver| |].
      * exists j. rewrite Hr', list_lookup_insert_ne by lia. set_solver.
      * intros k Hk. rewrite Hr'. destruct (decide (k = j0)) as [->|Hne].
        -- left. apply list_lookup_insert_eq. unfold len in Hl. lia.
        -- rewrite list_lookup_insert_ne by lia. destruct (Hall k Hk); [by left|set_solver].
    + apply (sc_flags_not_full _ _ j); [|done|rewrite Hr', list_lookup_insert_ne by lia; congruence].
      rewrite Hr'. unfold len in *. by rewrite length_insert.
Qed.

(** C33: whatever the order and the repetitions in which the slices of a message
    arrive, the constructor answers [Ok None] until the last missing slice and
    then returns exactly the message. *)
Theorem sc_reassembly m id l i :
  0 < len m -> len m + SLICE_SIZE <= U64_MAX ->
  (forall j, j ∈ l ++ [i] -> 0 <= j < num_slices_of m) ->
  (exists j, 0 <= j < num_slices_of m /\ j ∉ l) ->
  (forall j, 0 <= j < num_slices_of m -> j ∈ l ++ [i]) ->
  (let! sc := sc_new id (num_slices_of m) in
   sc_feed sc (map (fun j => (j, slice_bytes m j)) (l ++ [i])))
  = Ret (replicate (length l) (Ok None) ++ [Ok (Some m)]).
Proof.
  intros Hpos Hmax Hr (j & Hj & Hjl) Hall.
  destruct (sc_new_inv m Hpos Hmax id) as (sc & -> & Hinv & _ & Hrec). cbn.
  apply sc_feed_spec; [done..| |by auto]. exists j.
  rewrite Hrec. unfold vec_repeat. rewrite lookup_replicate_2 by lia. done.
Qed.

(** A message of two slices whose second slice comes first, twice. *)
Definition two_slice_message : Bytes := replicate 1200 (byte_of 7) ++ [byte_of 8; byte_of 9].

Lemma sc_reassembly_witness :
  (let! sc := sc_new 5 (num_slices_of two_slice_message) in
   sc_feed sc (map (fun j => (j, slice_bytes two_slice_message j)) ([1; 1] ++ [0])))
  = Ret [Ok None; Ok None; Ok (Some two_slice_message)].
Proof.
  apply (sc_reassembly two_slice_message 5 [1; 1] 0).
  - reflexivity.
  - vm_compute. discriminate.
  - change (num_slices_of two_slice_message) with 2. set_solver by lia.
  - change (num_slices_of two_slice_message) with 2. exists 0. split; [lia|set_solver].
  - change (num_slices_of two_slice_message) with 2. intros j Hj.
    assert (j = 0 \/ j = 1) as [-> | ->] by lia; set_solver.
Defined.

(** a slice index at or above the number of slices is not rejected: on a
    full-sized payload the code indexes [received] out of bounds and panics. *)
Theorem sc_process_slice_panics sc slice_index bytes :
  len (received sc) = sc_num_slices sc -> 1 <= sc_num_slices sc <= slice_index ->
  len bytes = SLICE_SIZE ->
  sc_process_slice sc slice_index bytes = Panic.
Proof.
  intros Hl Hi Hb. unfold sc_process_slice. rewrite sub64_ok by lia. cbn.
  destruct (Z.eqb_spec slice_index (sc_num_slices sc - 1)); [lia|].
  rewrite Hb, Z.eqb_refl. cbn. by rewrite vec_get_oob by lia.
Qed.

Lemma sc_process_slice_panics_witness :
  sc_process_slice (mkSC 0 2 0 [false; false] (replicate 2400 (byte_of 0))) 2 (replicate 1200 (byte_of 0)) = Panic.
Proof. apply sc_process_slice_panics; [reflexivity|cbn; lia|reflexivity]. Defined.
