(* ===== verification/ReliableSend.v ===== *)
(** * The sending half of a reliable channel
      ([SendChannelReliable] of renet/src/channel/reliable.rs)

    State, operations and the properties of the operations: memory accounting,
    acknowledgements, and [get_packets_to_send] (byte budget, sequence numbers,
    resend times, sizes of the packets). *)

From S2P Require Import Prelude Octets Packet SliceConstructor.

Inductive UnackedMessage :=
  | Small (message : Bytes) (last_sent : option Z)
  | Sliced (message : Bytes) (num_slices num_acked_slices next_slice_to_send : Z)
      (acked : list bool) (last_sent : list (option Z)).

Record SendChannelReliable := mkSendReliable {
  sr_channel_id : Z;
  unacked_messages : gmap Z UnackedMessage;
  next_reliable_message_id : Z;
  resend_time : Z;
  sr_max_memory : Z;
  sr_memory : Z;
}.

(** [UnackedMessage::new_sliced]. *)
Definition new_sliced (payload : Bytes) : UnackedMessage :=
  let num_slices := div_ceil (len payload) SLICE_SIZE in
  Sliced payload num_slices 0 0 (vec_repeat false num_slices) (vec_repeat None num_slices).

(** [SendChannelReliable::new]. *)
Definition sr_new (channel_id resend_time max_memory_usage_bytes : Z) : SendChannelReliable :=
  mkSendReliable channel_id ∅ 0 resend_time max_memory_usage_bytes 0.

Definition sr_available_memory (self : SendChannelReliable) : out Z :=
  sub64 (sr_max_memory self) (sr_memory self).

Definition sr_can_send_message (self : SendChannelReliable) (size_bytes : Z) : out bool :=
  let! total := add64 size_bytes (sr_memory self) in
  Ret (total <=? sr_max_memory self).

Definition sr_set_unacked (self : SendChannelReliable) (m : gmap Z UnackedMessage) : SendChannelReliable :=
  mkSendReliable (sr_channel_id self) m (next_reliable_message_id self) (resend_time self)
    (sr_max_memory self) (sr_memory self).

Definition sr_set_memory (self : SendChannelReliable) (memory : Z) : SendChannelReliable :=
  mkSendReliable (sr_channel_id self) (unacked_messages self) (next_reliable_message_id self)
    (resend_time self) (sr_max_memory self) memory.

(** [SendChannelReliable::send_message]. *)
Definition sr_send_message (self : SendChannelReliable) (message : Bytes)
    : out (SendChannelReliable * result unit ChannelError) :=
  let! total := add64 (sr_memory self) (len message) in
  if sr_max_memory self <? total then Ret (self, Err ReliableChannelMaxMemoryReached)
  else
    let unacked_message :=
      if SLICE_SIZE <? len message then new_sliced message else Small message None in
    let! next := add64 (next_reliable_message_id self) 1 in
    Ret (mkSendReliable (sr_channel_id self)
           (<[next_reliable_message_id self := unacked_message]> (unacked_messages self))
           next (resend_time self) (sr_max_memory self) total, Ok tt).

(** [SendChannelReliable::process_message_ack]. *)
Definition sr_process_message_ack (self : SendChannelReliable) (message_id : Z) : out SendChannelReliable :=
  match unacked_messages self !! message_id with
  | None => Ret self
  | Some (Small payload _) =>
      let! memory := sub64 (sr_memory self) (len payload) in
      Ret (sr_set_memory (sr_set_unacked self (delete message_id (unacked_messages self))) memory)
  | Some (Sliced _ _ _ _ _ _) => Panic
  end.

(** [SendChannelReliable::process_slice_message_ack]. *)
Definition sr_process_slice_message_ack (self : SendChannelReliable) (message_id slice_index : Z)
    : out SendChannelReliable :=
  match unacked_messages self !! message_id with
  | None => Ret self
  | Some (Small _ _) => Panic
  | Some (Sliced message num_slices num_acked_slices next_slice_to_send acked last_sent) =>
      let! seen := vec_get acked slice_index in
      if seen then Ret self
      else
        let! acked := vec_set acked slice_index true in
        let! num_acked_slices := add64 num_acked_slices 1 in
        if num_acked_slices =? num_slices then
          let! memory := sub64 (sr_memory self) (len message) in
          Ret (sr_set_memory (sr_set_unacked self (delete message_id (unacked_messages self))) memory)
        else
          Ret (sr_set_unacked self
                 (<[message_id := Sliced message num_slices num_acked_slices next_slice_to_send acked last_sent]>
                    (unacked_messages self)))
  end.

(** ** [SendChannelReliable::get_packets_to_send] *)

(** The variables the loop mutates. *)
Record send_loop := mkSendLoop {
  sl_packets : list Packet;
  sl_small : list (Z * Bytes);
  sl_small_bytes : Z;
  sl_sequence : Z;
  sl_available : Z;
}.

(** [current_time - last_sent < self.resend_time], when it was sent before. *)
Definition sent_recently (current_time resend_time : Z) (last_sent : option Z) : out bool :=
  match last_sent with
  | Some last_sent =>
      let! elapsed := dur_sub current_time last_sent in
      Ret (elapsed <? resend_time)
  | None => Ret false
  end.

Section get_packets.
Context {oct : Octets}.
Context (channel_id resend_time current_time : Z).

(** Flush the pending small messages into a packet. *)
Definition push_small (st : send_loop) : out send_loop :=
  let! sequence := add64 (sl_sequence st) 1 in
  Ret {| sl_packets := sl_packets st ++ [SmallReliable (sl_sequence st) channel_id (sl_small st)];
         sl_small := [];
         sl_small_bytes := 0;
         sl_sequence := sequence;
         sl_available := sl_available st |}.

(** The [UnackedMessage::Small] arm. *)
Definition send_small (st : send_loop) (message_id : Z) (message : Bytes) (last_sent : option Z)
    : out (send_loop * UnackedMessage) :=
  if sl_available st <? len message then Ret (st, Small message last_sent)
  else
    let! recently := sent_recently current_time resend_time last_sent in
    if (recently : bool) then Ret (st, Small message last_sent)
    else
      let! available := sub64 (sl_available st) (len message) in
      let! serialized_size := add64 (len message) (varint_len (len message)) in
      let! serialized_size := add64 serialized_size (varint_len message_id) in
      let! total := add64 (sl_small_bytes st) serialized_size in
      let! st := (if SLICE_SIZE <? total then push_small st else Ret st) in
      let! small_bytes := add64 (sl_small_bytes st) serialized_size in
      Ret ({| sl_packets := sl_packets st;
              sl_small := sl_small st ++ [(message_id, message)];
              sl_small_bytes := small_bytes;
              sl_sequence := sl_sequence st;
              sl_available := available |},
           Small message (Some current_time)).

(** The loop over the slices of an [UnackedMessage::Sliced]; [turns] are the
    values of the loop variable still to come. Running out of available bytes
    continues with the next message. *)
Fixpoint send_slices (message_id : Z) (message : Bytes) (num_slices start_index : Z) (acked : list bool)
    (turns : list Z) (st : send_loop) (next_slice_to_send : Z) (last_sent : list (option Z))
    : out (send_loop * Z * list (option Z)) :=
  match turns with
  | [] => Ret (st, next_slice_to_send, last_sent)
  | turn :: turns' =>
      if sl_available st <? SLICE_SIZE then Ret (st, next_slice_to_send, last_sent)
      else
        let! pos := add64 start_index turn in
        let i := pos mod num_slices in
        let! is_acked := vec_get acked i in
        if (is_acked : bool) then
          send_slices message_id message num_slices start_index acked turns' st next_slice_to_send last_sent
        else
          let! last := vec_get last_sent i in
          let! recently := sent_recently current_time resend_time last in
          if (recently : bool) then
            send_slices message_id message num_slices start_index acked turns' st next_slice_to_send last_sent
          else
            let! start := mul64 i SLICE_SIZE in
            let! last_index := sub64 num_slices 1 in
            let! end_ := (if i =? last_index then Ret (len message)
                          else let! next := add64 i 1 in mul64 next SLICE_SIZE) in
            let! payload := sub_slice message start end_ in
            let! available := sub64 (sl_available st) (len payload) in
            let slice := mkSlice message_id i num_slices payload in
            let! sequence := add64 (sl_sequence st) 1 in
            let! last_sent := vec_set last_sent i (Some current_time) in
            let! next_slice_to_send := add64 i (1 mod num_slices) in
            send_slices message_id message num_slices start_index acked turns'
              {| sl_packets := sl_packets st ++ [ReliableSlice (sl_sequence st) channel_id slice];
                 sl_small := sl_small st;
                 sl_small_bytes := sl_small_bytes st;
                 sl_sequence := sequence;
                 sl_available := available |}
              next_slice_to_send last_sent
  end.

(** One turn of ['messages], on one message. *)
Definition send_one (st : send_loop) (message_id : Z) (unacked_message : UnackedMessage)
    : out (send_loop * UnackedMessage) :=
  match unacked_message with
  | Small message last_sent => send_small st message_id message last_sent
  | Sliced message num_slices num_acked_slices next_slice_to_send acked last_sent =>
      let! (st, next_slice_to_send, last_sent) :=
        send_slices message_id message num_slices next_slice_to_send acked
          (seqZ 0 num_slices) st next_slice_to_send last_sent in
      Ret (st, Sliced message num_slices num_acked_slices next_slice_to_send acked last_sent)
  end.

(** The loop ['messages: for ... in self.unacked_messages.iter_mut()]. *)
Fixpoint send_loop_messages (st : send_loop) (it : list (Z * UnackedMessage)) (unacked : gmap Z UnackedMessage)
    : out (send_loop * gmap Z UnackedMessage) :=
  match it with
  | [] => Ret (st, unacked)
  | (message_id, unacked_message) :: it' =>
      let! (st, unacked_message) := send_one st message_id unacked_message in
      send_loop_messages st it' (<[message_id := unacked_message]> unacked)
  end.

End get_packets.

(** The packets, the advanced [packet_sequence] and the remaining [available_bytes]. *)
Definition sr_get_packets_to_send {oct : Octets} (self : SendChannelReliable)
    (packet_sequence available_bytes current_time : Z)
    : out (SendChannelReliable * Z * Z * list Packet) :=
  if bool_decide (unacked_messages self = ∅) then Ret (self, packet_sequence, available_bytes, [])
  else
    let! (st, unacked) :=
      send_loop_messages (sr_channel_id self) (resend_time self) current_time
        {| sl_packets := []; sl_small := []; sl_small_bytes := 0;
           sl_sequence := packet_sequence; sl_available := available_bytes |}
        (btree_iter (unacked_messages self)) (unacked_messages self) in
    let! st := (if bool_decide (sl_small st = []) then Ret st else push_small (sr_channel_id self) st) in
    Ret (sr_set_unacked self unacked, sl_sequence st, sl_available st, sl_packets st).

(** ** Invariant *)

(** The largest size of a Rust allocation. *)
Definition ISIZE_MAX : Z := 9223372036854775807.

Definition um_message (um : UnackedMessage) : Bytes :=
  match um with
  | Small message _ => message
  | Sliced message _ _ _ _ _ => message
  end.

Definition sent_before (now : Z) (last_sent : option Z) : Prop :=
  match last_sent with Some t => t <= now | None => True end.

Definition um_wf (now : Z) (um : UnackedMessage) : Prop :=
  match um with
  | Small m last_sent => len m <= SLICE_SIZE /\ sent_before now last_sent
  | Sliced m n num_acked next acked last_sent =>
      SLICE_SIZE < len m <= ISIZE_MAX /\ n = num_slices_of m /\
      num_acked = count_true acked /\ num_acked < n /\ 0 <= next <= n /\
      len acked = n /\ len last_sent = n /\ Forall (sent_before now) last_sent
  end.

(** At time [now]: ids are below the next one, the messages are consistent, and
    [memory_usage_bytes] is the total length of the unacknowledged messages. *)
Record sr_inv (now : Z) (self : SendChannelReliable) : Prop := {
  sr_ids : map_Forall (fun id um => 0 <= id < next_reliable_message_id self /\ um_wf now um) (unacked_messages self);
  sr_mem : sr_memory self = map_sum (fun um => len (um_message um)) (unacked_messages self);
  sr_mem_max : sr_memory self <= sr_max_memory self <= ISIZE_MAX;
  sr_next : 0 <= next_reliable_message_id self <= VARINT_MAX;
}.

Lemma um_wf_mono now now' um : now <= now' -> um_wf now um -> um_wf now' um.
Proof.
  intros Hle. assert (forall ls, sent_before now ls -> sent_before now' ls) as Hs.
  { intros [t|]; cbn; [lia|done]. }
  destruct um; cbn; [naive_solver|]. intros (? & ? & ? & ? & ? & ? & ? & Hf). split_and!; try (done || lia).
  eapply Forall_impl; [exact Hf|]. apply Hs.
Qed.

Lemma sr_inv_mono now now' self : now <= now' -> sr_inv now self -> sr_inv now' self.
Proof.
  intros Hle [Hids ? ? ?]. constructor; try done. intros id um Hu.
  destruct (Hids id um Hu). split; [done|]. by eapply um_wf_mono.
Qed.

Lemma sr_new_inv now ch rt max : 0 <= max <= ISIZE_MAX -> sr_inv now (sr_new ch rt max).
Proof. intros. constructor; cbn; [apply map_Forall_empty|by rewrite map_sum_empty|lia|unfold VARINT_MAX; lia]. Qed.

Lemma sr_mem_nonneg now self : sr_inv now self -> 0 <= sr_memory self.
Proof. intros H. rewrite (sr_mem _ _ H). apply map_sum_nonneg. intros. apply len_nonneg. Qed.

(** ** [send_message] *)

Lemma new_sliced_wf now m : SLICE_SIZE < len m <= ISIZE_MAX -> um_wf now (new_sliced m).
Proof.
  intros Hm. destruct (num_slices_bounds m) as [Hn _]; [unfold SLICE_SIZE in *; lia|].
  unfold new_sliced. change (div_ceil (len m) SLICE_SIZE) with (num_slices_of m). cbn.
  unfold vec_repeat at 1. rewrite count_true_replicate, !len_repeat by lia.
  split_and!; try done; try lia. unfold vec_repeat. by apply Forall_replicate.
Qed.

(** The entry under which a message is queued. *)
Definition fresh_message (message : Bytes) : UnackedMessage :=
  if SLICE_SIZE <? len message then new_sliced message else Small message None.

Lemma fresh_message_message m : um_message (fresh_message m) = m.
Proof. unfold fresh_message. by case_match. Qed.

(** The behaviour of [send_message]: refused when the memory limit would be
    exceeded, otherwise queued under the next id. *)
Lemma sr_send_message_spec now self message :
  sr_inv now self -> len message <= ISIZE_MAX -> next_reliable_message_id self < VARINT_MAX ->
  if sr_max_memory self <? sr_memory self + len message then
    sr_send_message self message = Ret (self, Err ReliableChannelMaxMemoryReached)
  else exists self',
    sr_send_message self message = Ret (self', Ok tt) /\ sr_inv now self' /\
    unacked_messages self !! next_reliable_message_id self = None /\
    self' = mkSendReliable (sr_channel_id self)
      (<[next_reliable_message_id self := fresh_message message]> (unacked_messages self))
      (next_reliable_message_id self + 1) (resend_time self) (sr_max_memory self) (sr_memory self + len message).
Proof.
  intros Hinv Hlen Hnext. pose proof (sr_mem_nonneg _ _ Hinv). pose proof (len_nonneg message).
  destruct Hinv as [Hids Hmem Hmax Hn]. unfold sr_send_message.
  rewrite add64_ok by (unfold ISIZE_MAX, U64_MAX in *; lia). cbn.
  destruct (Z.ltb_spec (sr_max_memory self) (sr_memory self + len message)); [done|].
  rewrite add64_ok by (unfold VARINT_MAX, U64_MAX in *; lia). cbn. eexists; split; [done|].
  assert (unacked_messages self !! next_reliable_message_id self = None) as Hfresh.
  { destruct (unacked_messages self !! next_reliable_message_id self) eqn:E; [|done].
    apply Hids in E. lia. }
  split_and!; [|done..]. fold (fresh_message message). constructor; cbn.
  - apply map_Forall_insert_2.
    + split; [lia|]. unfold fresh_message. destruct (Z.ltb_spec SLICE_SIZE (len message)); [by apply new_sliced_wf|done].
    + intros id um' Hu. apply Hids in Hu as [? ?]. split; [lia|done].
  - rewrite map_sum_insert, fresh_message_message by done. lia.
  - lia.
  - lia.
Qed.

(** ** Acknowledgements *)

(** Removing a message gives its memory back. *)
Lemma sr_inv_delete now self id um :
  sr_inv now self -> unacked_messages self !! id = Some um ->
  len (um_message um) <= sr_memory self /\
  sr_inv now (sr_set_memory (sr_set_unacked self (delete id (unacked_messages self)))
                (sr_memory self - len (um_message um))).
Proof.
  intros Hinv Hu.
  assert (len (um_message um) <= map_sum (fun um => len (um_message um)) (unacked_messages self)) as Hle.
  { apply (map_sum_lookup_le (fun um => len (um_message um)) _ id); [|done]. intros. apply len_nonneg. }
  destruct Hinv as [Hids Hmem Hmax Hn]. split; [lia|].
  constructor; cbn; [by apply map_Forall_delete| |pose proof (len_nonneg (um_message um)); lia|done].
  rewrite Hmem, (map_sum_delete _ _ id um) by done. lia.
Qed.

Lemma sr_process_message_ack_spec now self id :
  sr_inv now self ->
  (forall um, unacked_messages self !! id = Some um -> exists m ls, um = Small m ls) ->
  exists self', sr_process_message_ack self id = Ret self' /\ sr_inv now self' /\
    unacked_messages self' = delete id (unacked_messages self) /\
    next_reliable_message_id self' = next_reliable_message_id self /\ sr_channel_id self' = sr_channel_id self.
Proof.
  intros Hinv Hk. unfold sr_process_message_ack.
  destruct (unacked_messages self !! id) as [um|] eqn:Hu.
  - destruct (Hk um eq_refl) as (m & ls & ->).
    destruct (sr_inv_delete now self id _ Hinv Hu) as [Hle Hinv']. cbn in Hle, Hinv'.
    rewrite sub64_ok by lia. cbn. by eexists.
  - exists self. split_and!; try done. symmetry. by apply delete_id.
Qed.

(** Acknowledging a slice either marks it or, when it is the last one missing,
    forgets the message. *)
Lemma sr_process_slice_ack_spec now self id i :
  sr_inv now self ->
  (forall um, unacked_messages self !! id = Some um ->
     exists m n na nx acked ls, um = Sliced m n na nx acked ls /\ 0 <= i < n) ->
  exists self', sr_process_slice_message_ack self id i = Ret self' /\ sr_inv now self' /\
    next_reliable_message_id self' = next_reliable_message_id self /\ sr_channel_id self' = sr_channel_id self /\
    match unacked_messages self !! id with
    | Some (Sliced m n na nx acked ls) =>
        unacked_messages self' =
          if count_true (<[Z.to_nat i := true]> acked) =? n then delete id (unacked_messages self)
          else <[id := Sliced m n (count_true (<[Z.to_nat i := true]> acked)) nx (<[Z.to_nat i := true]> acked) ls]>
                 (unacked_messages self)
    | _ => self' = self
    end.
Proof.
  intros Hinv Hk. unfold sr_process_slice_message_ack.
  destruct (unacked_messages self !! id) as [um|] eqn:Hu; [|by exists self].
  destruct (Hk um eq_refl) as (m & n & na & nx & acked & ls & -> & Hi).
  pose proof (sr_ids _ _ Hinv _ _ Hu) as [Hid (Hm & Hn & Hna & Hlt & Hnx & Hla & Hls & Hf)].
  destruct (vec_get_total acked i) as (seen & -> & Hseen); [lia|]. cbn.
  destruct seen.
  { exists self. split_and!; try done. rewrite list_insert_id by done.
    rewrite <- Hna, (proj2 (Z.eqb_neq _ _)) by lia. by rewrite insert_id. }
  rewrite vec_set_ok by lia. cbn. pose proof (count_true_set _ _ Hseen) as Hc.
  rewrite add64_ok by (pose proof (count_true_range acked); destruct (num_slices_bounds m); unfold SLICE_SIZE, ISIZE_MAX, U64_MAX in *; lia).
  cbn. replace (na + 1) with (count_true (<[Z.to_nat i := true]> acked)) by lia.
  destruct (Z.eqb_spec (count_true (<[Z.to_nat i := true]> acked)) n) as [E|E].
  - destruct (sr_inv_delete now self id _ Hinv Hu) as [Hle Hinv']. cbn in Hle, Hinv'.
    rewrite sub64_ok by lia. cbn. by eexists.
  - eexists; split; [done|]. split_and!; try done. destruct Hinv as [Hids Hmem Hmax Hnn]. constructor; cbn; try done.
    + apply map_Forall_insert_2; [|done]. split; [done|]. cbn.
      assert (len (<[Z.to_nat i := true]> acked) = n) by (unfold len in *; by rewrite length_insert).
      pose proof (count_true_range (<[Z.to_nat i := true]> acked)). split_and!; try done; lia.
    + rewrite (map_sum_update _ _ _ _ _ Hu). cbn. lia.
Qed.

(** ** What [get_packets_to_send] transmits *)

(** Payload bytes counted against [available_bytes]. *)
Definition packet_payload (p : Packet) : Z :=
  match p with
  | SmallReliable _ _ messages => sum_with (fun m => len m.2) messages
  | SmallUnreliable _ _ messages => sum_with len messages
  | UnreliableSlice _ _ slice | ReliableSlice _ _ slice => len (payload slice)
  | Ack _ _ => 0
  end.

(** A message or slice that [resend_time] allows to be sent at time [now]. *)
Definition due (now rt : Z) (last_sent : option Z) : Prop :=
  match last_sent with Some t => rt <= now - t | None => True end.

#[export] Instance due_dec now rt ls : Decision (due now rt ls).
Proof. destruct ls; cbn; apply _. Defined.

(** The packets contain a small message ([None]) or a slice of a message. *)
Definition conveyed (ps : list Packet) (id : Z) (part : option Z) : Prop :=
  match part with
  | None => exists seq c ms m, SmallReliable seq c ms ∈ ps /\ (id, m) ∈ ms
  | Some i => exists seq c s, ReliableSlice seq c s ∈ ps /\ message_id s = id /\ slice_index s = i
  end.

(** What becomes of a message or slice: it is sent, and its send time is now; or
    its send time stays, and then, unless the budget has run out, it was
    acknowledged or not due. *)
Definition fate (now rt available : Z) (sent : Prop) (acked : bool) (last_sent last_sent' : option Z) : Prop :=
  (sent /\ last_sent' = Some now) \/
  (last_sent' = last_sent /\ (SLICE_SIZE <= available -> acked = true \/ ~ due now rt last_sent)).

Definition um_fate (now rt available : Z) (sent : option Z -> Prop) (um um' : UnackedMessage) : Prop :=
  match um, um' with
  | Small _ last_sent, Small _ last_sent' => fate now rt available (sent None) false last_sent last_sent'
  | Sliced _ n _ _ acked last_sent, Sliced _ _ _ _ _ last_sent' =>
      forall i a l, 0 <= i < n -> acked !! Z.to_nat i = Some a -> last_sent !! Z.to_nat i = Some l ->
        exists l', last_sent' !! Z.to_nat i = Some l' /\ fate now rt available (sent (Some i)) a l l'
  | _, _ => False
  end.

Lemma fate_later now rt available available' (sent sent' : Prop) acked l l' :
  (sent -> sent') -> available' <= available -> fate now rt available sent acked l l' -> fate now rt available' sent' acked l l'.
Proof. intros Hs Ha [[? ?]|[? H]]; [left; auto|right]. split; [done|]. intros. apply H. lia. Qed.

Lemma um_fate_later now rt available available' (sent sent' : option Z -> Prop) um um' :
  (forall part, sent part -> sent' part) -> available' <= available ->
  um_fate now rt available sent um um' -> um_fate now rt available' sent' um um'.
Proof.
  intros Hs Ha. destruct um, um'; cbn; try done; [by apply fate_later; auto|].
  intros H i a l Hi Hk Hl. destruct (H i a l Hi Hk Hl) as (l' & ? & Hf). exists l'. split; [done|]. eapply fate_later; [|exact Ha|exact Hf]. apply Hs.
Qed.

(** The parts of a message that sending it does not change. *)
Definition um_core (um : UnackedMessage) : Bytes * option (Z * Z * list bool) :=
  match um with
  | Small m _ => (m, None)
  | Sliced m n na _ acked _ => (m, Some (n, na, acked))
  end.

(** The number of packets a message can need. *)
Definition um_weight (um : UnackedMessage) : Z :=
  match um with Small _ _ => 1 | Sliced _ n _ _ _ _ => n end.

(** Sequence numbers are consecutive from [seq0]. *)
Definition numbered (seq0 : Z) (ps : list Packet) : Prop :=
  sequence <$> ps = seqZ seq0 (len ps).

Lemma numbered_snoc seq0 ps p :
  numbered seq0 ps -> sequence p = seq0 + len ps -> numbered seq0 (ps ++ [p]).
Proof.
  unfold numbered. intros Hps Hp. rewrite fmap_app, Hps. cbn. rewrite len_app, len_cons, len_nil, Hp.
  rewrite seqZ_app by (pose proof (len_nonneg ps); lia). done.
Qed.

Lemma sent_recently_spec now rt ls :
  sent_before now ls -> sent_recently now rt ls = Ret (negb (bool_decide (due now rt ls))).
Proof.
  destruct ls as [t|]; cbn; intros Ht.
  - rewrite dur_sub_ok by done. cbn. f_equal.
    case_bool_decide; [apply Z.ltb_ge; lia|apply Z.ltb_lt; lia].
  - done.
Qed.

Section sending.
Context {oct : Octets} {laws : OctetsLaws oct}.

(** The size of a small message inside a packet. *)
Definition small_size (m : Z * Bytes) : Z := len m.2 + varint_len (len m.2) + varint_len m.1.

Lemma varint_len_range v : 1 <= varint_len v <= 8.
Proof. rewrite varint_len_spec. repeat case_match; lia. Qed.

Lemma varint_len_slice v : v <= SLICE_SIZE -> varint_len v <= 2.
Proof. unfold SLICE_SIZE. intros. rewrite varint_len_spec. repeat case_match; lia. Qed.

Context (channel_id rt now seq0 avail0 : Z) (U : gmap Z UnackedMessage).
Context (HU : map_Forall (fun id um => varint id /\ um_wf now um) U).

(** A small message of [U] that was due. *)
Definition small_due (m : Z * Bytes) : Prop :=
  exists ls, U !! m.1 = Some (Small m.2 ls) /\ due now rt ls.

(** The small messages of one packet: within [SLICE_SIZE] bytes, or only one. *)
Definition small_group (ms : list (Z * Bytes)) : Prop :=
  Forall small_due ms /\ (sum_with small_size ms <= SLICE_SIZE \/ exists m, ms = [m]).

(** A slice of a message of [U] that was neither acknowledged nor sent recently. *)
Definition slice_due (s : Slice) : Prop :=
  exists m na nx acked ls t,
    U !! message_id s = Some (Sliced m (num_slices s) na nx acked ls) /\
    0 <= slice_index s < num_slices s /\
    acked !! Z.to_nat (slice_index s) = Some false /\
    ls !! Z.to_nat (slice_index s) = Some t /\ due now rt t /\
    payload s = slice_bytes m (slice_index s).

Definition packet_due (p : Packet) : Prop :=
  match p with
  | SmallReliable _ c ms => c = channel_id /\ small_group ms
  | ReliableSlice _ c s => c = channel_id /\ slice_due s
  | _ => False
  end.

Record loop_inv (st : send_loop) : Prop := {
  li_seq : sl_sequence st = seq0 + len (sl_packets st);
  li_numbered : numbered seq0 (sl_packets st);
  li_budget : sl_available st + sum_with packet_payload (sl_packets st)
              + sum_with (fun m => len m.2) (sl_small st) = avail0;
  li_available : 0 <= sl_available st;
  li_bytes : sl_small_bytes st = sum_with small_size (sl_small st);
  li_small : small_group (sl_small st);
  li_packets : Forall packet_due (sl_packets st);
}.

(** What a state of the loop holds: also the small messages that wait for their packet. *)
Definition loaded (st : send_loop) (id : Z) (part : option Z) : Prop :=
  conveyed (sl_packets st) id part \/ (part = None /\ exists m, (id, m) ∈ sl_small st).

Definition grows (st st' : send_loop) : Prop := forall id part, loaded st id part -> loaded st' id part.

#[local] Instance grows_preorder : PreOrder grows.
Proof. split; [by intros st id part|]. intros s1 s2 s3 H1 H2 id part H. by apply H2, H1. Qed.

Lemma conveyed_app ps ps' id part : conveyed ps id part -> conveyed (ps ++ ps') id part.
Proof using.
  destruct part as [i|]; cbn.
  - intros (seq & c & s & H & ?). exists seq, c, s. split; [|done]. apply elem_of_app. by left.
  - intros (seq & c & ms & m & H & ?). exists seq, c, ms, m. split; [|done]. apply elem_of_app. by left.
Qed.

Lemma small_due_len m : small_due m -> len m.2 <= SLICE_SIZE.
Proof using HU. intros (ls & Hu & _). apply HU in Hu as [_ [? _]]. done. Qed.

Lemma small_size_range m : small_due m -> 2 <= small_size m <= SLICE_SIZE + 10.
Proof using HU laws.
  intros Hm. pose proof (small_due_len m Hm) as Hl. unfold small_size.
  pose proof (varint_len_range m.1). pose proof (varint_len_range (len m.2)).
  pose proof (varint_len_slice _ Hl). pose proof (len_nonneg m.2). lia.
Qed.

Lemma small_group_size ms : small_group ms -> 0 <= sum_with small_size ms <= SLICE_SIZE + 10.
Proof using HU laws.
  intros [Hms Hg]. split.
  - rewrite Forall_forall in Hms. pose proof (sum_with_ge_len small_size ms 0 ltac:(lia)) as H.
    lapply H; [lia|]. intros x Hx. apply Hms, small_size_range in Hx. lia.
  - destruct Hg as [?|[m ->]]; [lia|]. apply Forall_cons in Hms as [Hm _].
    apply small_size_range in Hm. cbn. lia.
Qed.

Lemma push_small_spec st :
  loop_inv st -> sl_sequence st + 1 <= U64_MAX ->
  exists st', push_small channel_id st = Ret st' /\ loop_inv st' /\
    sl_small st' = [] /\ sl_small_bytes st' = 0 /\
    sl_sequence st' = sl_sequence st + 1 /\ sl_available st' = sl_available st /\ grows st st'.
Proof.
  intros [Hseq Hnum Hbud Hav Hby Hsm Hps] Hs. unfold push_small. rewrite add64_ok by done. cbn.
  eexists; split; [done|]. split_and!; try done.
  2:{ intros id part [H|[-> [m H]]]; left; [by apply conveyed_app|]. cbn. eexists _, _, _, m. split; [|exact H]. apply elem_of_app. right. by left. }
  constructor; cbn.
  - rewrite len_app, len_cons, len_nil. lia.
  - by apply numbered_snoc.
  - rewrite sum_with_app. cbn. lia.
  - done.
  - done.
  - split; [done|]. left. cbn. unfold SLICE_SIZE. lia.
  - apply Forall_app. split; [done|]. by apply Forall_singleton.
Qed.

Lemma send_small_spec st id m ls :
  loop_inv st -> U !! id = Some (Small m ls) -> sl_sequence st + 1 <= U64_MAX ->
  exists st' ls', send_small channel_id rt now st id m ls = Ret (st', Small m ls') /\
    loop_inv st' /\ sent_before now ls' /\
    fate now rt (sl_available st') (loaded st' id None) false ls ls' /\ grows st st' /\
    sl_available st' <= sl_available st /\ sl_sequence st' <= sl_sequence st + 1.
Proof using HU laws.
  intros Hinv Hu Hs. destruct (HU _ _ Hu) as [Hid [Hm Hls]]. pose proof (len_nonneg m).
  unfold send_small. destruct (Z.ltb_spec (sl_available st) (len m)).
  { exists st, ls. split_and!; try done; try lia. right. split; [done|]. intros. lia. }
  rewrite sent_recently_spec by done. cbn. case_bool_decide as Hdue; cbn.
  2: { exists st, ls. split_and!; try done; try lia. right. split; [done|]. by right. }
  assert (small_due (id, m)) as Hsd by by exists ls.
  pose proof (small_size_range _ Hsd) as Hsz. unfold small_size in Hsz. cbn in Hsz.
  pose proof (small_group_size _ (li_small _ Hinv)) as Hg. rewrite <- (li_bytes _ Hinv) in Hg.
  pose proof (varint_len_range id). pose proof (varint_len_range (len m)).
  unfold SLICE_SIZE, U64_MAX in *.
  rewrite sub64_ok by done. cbn. rewrite add64_ok by rlia. cbn. rewrite add64_ok by rlia. cbn.
  rewrite add64_ok by rlia. cbn.
  set (sz := len m + varint_len (len m) + varint_len id) in *.
  assert (exists st1, (if SLICE_SIZE <? sl_small_bytes st + sz then push_small channel_id st else Ret st) = Ret st1 /\
    loop_inv st1 /\ sl_available st1 = sl_available st /\
    sl_sequence st <= sl_sequence st1 <= sl_sequence st + 1 /\ small_group (sl_small st1 ++ [(id, m)]) /\ grows st st1)
    as (st1 & E & Hinv1 & Ha1 & Hs1 & Hg1 & Hgr).
  { destruct (Z.ltb_spec SLICE_SIZE (sl_small_bytes st + sz)).
    - destruct (push_small_spec st Hinv ltac:(rlia)) as (st1 & ? & ? & E1 & ? & ? & ? & ?).
      exists st1. split_and!; try done; try lia. rewrite E1. split; [by apply Forall_singleton|right; by eexists].
    - exists st. split_and!; try done; try lia. destruct (li_small _ Hinv) as [Hf _].
      split; [apply Forall_app; split; [done|by apply Forall_singleton]|]. left. rewrite sum_with_app. cbn.
      rewrite <- (li_bytes _ Hinv). unfold small_size; cbn. unfold sz in *. lia. }
  unfold SLICE_SIZE in E. rewrite E. cbn.
  pose proof (small_group_size _ (li_small _ Hinv1)) as Hg2. rewrite <- (li_bytes _ Hinv1) in Hg2. unfold SLICE_SIZE in Hg2.
  rewrite add64_ok by rlia. cbn. eexists _, _; split; [done|]. cbn. split_and!; try lia.
  - destruct Hinv1 as [Hseq Hnum Hbud Hav Hby Hsm Hps]. constructor; cbn; try done.
    + rewrite sum_with_app. cbn. lia.
    + lia.
    + rewrite sum_with_app. cbn. unfold small_size at 2. cbn. unfold sz. lia.
  - left. split; [|done]. right. split; [done|]. exists m. cbn. apply elem_of_app. right. by left.
  - etrans; [exact Hgr|]. intros id' part [Hc|[-> [m' Hc]]]; [by left|right]. split; [done|]. exists m'. cbn. apply elem_of_app. by left.
Qed.

Lemma mod_shift_inj n a t1 t2 :
  0 <= t1 < n -> 0 <= t2 < n -> (a + t1) mod n = (a + t2) mod n -> t1 = t2.
Proof.
  intros H1 H2 E. pose proof (Z.div_mod (a + t1) n). pose proof (Z.div_mod (a + t2) n).
  rewrite E in *. assert (n * ((a + t1) / n - (a + t2) / n) = t1 - t2) by lia.
  assert ((a + t1) / n - (a + t2) / n = 0) by nia. nia.
Qed.

(** Sending one slice that is due. *)
Lemma send_slice_inv st id m n na nx acked ls i t :
  loop_inv st -> U !! id = Some (Sliced m n na nx acked ls) -> 0 <= i < n ->
  acked !! Z.to_nat i = Some false -> ls !! Z.to_nat i = Some t -> due now rt t ->
  SLICE_SIZE <= sl_available st -> sl_sequence st + 1 <= U64_MAX ->
  len (slice_bytes m i) <= SLICE_SIZE /\
  loop_inv {| sl_packets := sl_packets st ++ [ReliableSlice (sl_sequence st) channel_id (mkSlice id i n (slice_bytes m i))];
              sl_small := sl_small st; sl_small_bytes := sl_small_bytes st;
              sl_sequence := sl_sequence st + 1; sl_available := sl_available st - len (slice_bytes m i) |}.
Proof using HU.
  intros [Hseq Hnum Hbud Hav Hby Hsm Hps] Hu Hi Ha Hl Hd Hle Hs.
  assert (len (slice_bytes m i) <= SLICE_SIZE) as Hsl.
  { unfold slice_bytes, len, SLICE_SIZE. rewrite length_take. lia. }
  split; [done|]. constructor; cbn; try done.
  - rewrite len_app, len_cons, len_nil. lia.
  - by apply numbered_snoc.
  - rewrite sum_with_app. cbn. lia.
  - lia.
  - apply Forall_app. split; [done|]. apply Forall_singleton. split; [done|].
    exists m, na, nx, acked, ls, t. by cbn.
Qed.

(** The outcome [r] of the slice loop over [turns], from state [st] and send times [ls]. *)
Definition slices_post (id n nx : Z) (acked : list bool) (turns : list Z) (st : send_loop) (ls : list (option Z))
    (r : out (send_loop * Z * list (option Z))) : Prop :=
  exists st' next' ls', r = Ret (st', next', ls') /\
    loop_inv st' /\ 0 <= next' <= n /\ len ls' = n /\ Forall (sent_before now) ls' /\
    sl_available st' <= sl_available st /\ sl_sequence st' <= sl_sequence st + len turns /\
    (forall k, (forall t, t ∈ turns -> Z.to_nat ((nx + t) mod n) <> k) -> ls' !! k = ls !! k) /\
    grows st st' /\
    (forall t a l, t ∈ turns -> acked !! Z.to_nat ((nx + t) mod n) = Some a -> ls !! Z.to_nat ((nx + t) mod n) = Some l ->
       exists l', ls' !! Z.to_nat ((nx + t) mod n) = Some l' /\
         fate now rt (sl_available st') (loaded st' id (Some ((nx + t) mod n))) a l l').

(** Stopping early, for lack of available bytes or of turns. *)
Lemma slices_post_stop id n nx acked turns st next ls :
  loop_inv st -> 0 <= next <= n -> len ls = n -> Forall (sent_before now) ls ->
  turns = [] \/ sl_available st < SLICE_SIZE ->
  slices_post id n nx acked turns st ls (Ret (st, next, ls)).
Proof.
  intros ? ? ? ? Hstop. exists st, next, ls. pose proof (len_nonneg turns).
  split_and!; try done; try lia. intros t a l Ht _ Hl. exists l. split; [done|]. right. split; [done|].
  destruct Hstop as [->|]; [by apply elem_of_nil in Ht|lia].
Qed.

(** A turn that sends nothing: the slice is acknowledged or was sent recently. *)
Lemma slices_post_skip id n nx acked t turns st ls a l r :
  slices_post id n nx acked turns st ls r ->
  (forall t', t' ∈ turns -> Z.to_nat ((nx + t') mod n) <> Z.to_nat ((nx + t) mod n)) ->
  acked !! Z.to_nat ((nx + t) mod n) = Some a -> ls !! Z.to_nat ((nx + t) mod n) = Some l ->
  a = true \/ ~ due now rt l ->
  slices_post id n nx acked (t :: turns) st ls r.
Proof.
  intros (st' & next' & ls' & -> & ? & ? & ? & ? & ? & ? & Hfr & ? & Hset) Hdist Ha Hl Hs.
  exists st', next', ls'. rewrite len_cons. split_and!; try done; try lia.
  - intros k Hk. apply Hfr. intros; apply Hk; by right.
  - intros t0 a0 l0 [->|Hin]%elem_of_cons Ha0 Hl0; [|by apply Hset].
    exists l0. rewrite Hfr by done. split; [done|]. right. split; [done|]. intros _. congruence.
Qed.

(** A turn that sends the slice. *)
Lemma slices_post_send id n nx acked t turns st st1 ls r :
  slices_post id n nx acked turns st1 (<[Z.to_nat ((nx + t) mod n) := Some now]> ls) r ->
  (forall t', t' ∈ turns -> Z.to_nat ((nx + t') mod n) <> Z.to_nat ((nx + t) mod n)) ->
  (Z.to_nat ((nx + t) mod n) < length ls)%nat ->
  sl_available st1 <= sl_available st -> sl_sequence st1 = sl_sequence st + 1 ->
  grows st st1 -> loaded st1 id (Some ((nx + t) mod n)) ->
  slices_post id n nx acked (t :: turns) st ls r.
Proof.
  intros (st' & next' & ls' & -> & ? & ? & ? & ? & ? & ? & Hfr & Hgr & Hset) Hdist Hl Hav Hseq Hg1 Hc.
  exists st', next', ls'. rewrite len_cons. split_and!; try done; try lia.
  - intros k Hk. rewrite Hfr by (intros; apply Hk; by right). apply list_lookup_insert_ne. apply Hk. left.
  - by etrans.
  - intros t0 a0 l0 [->|Hin]%elem_of_cons Ha0 Hl0.
    + exists (Some now). rewrite Hfr by done. split; [by apply list_lookup_insert_eq|]. left. split; [by apply Hgr|done].
    + apply Hset; [done|done|]. rewrite list_lookup_insert_ne; [done|]. intros E. symmetry in E. by eapply Hdist.
Qed.

Lemma send_slices_spec id m n na nx acked ls0 turns st next ls :
  U !! id = Some (Sliced m n na nx acked ls0) -> loop_inv st ->
  0 <= next <= n -> len ls = n -> Forall (sent_before now) ls ->
  NoDup turns -> (forall t, t ∈ turns -> 0 <= t < n) ->
  (forall t, t ∈ turns -> ls !! Z.to_nat ((nx + t) mod n) = ls0 !! Z.to_nat ((nx + t) mod n)) ->
  sl_sequence st + len turns <= U64_MAX ->
  slices_post id n nx acked turns st ls (send_slices channel_id rt now id m n nx acked turns st next ls).
Proof using HU.
  intros Hu. destruct (HU _ _ Hu) as [Hid (Hm & Hn & Hna & Hlt & Hnx & Hla & Hls0 & Hf0)].
  destruct (num_slices_bounds m) as [Hn1 Hb]; [unfold SLICE_SIZE in *; lia|].
  assert (2 <= n /\ n * SLICE_SIZE <= U64_MAX) as [Hn2 Hnm] by (unfold SLICE_SIZE, ISIZE_MAX, U64_MAX in *; lia).
  revert st next ls. induction turns as [|t turns IH]; intros st next ls Hinv Hnext Hls Hf Hnd Ht Hsame Hs.
  { apply slices_post_stop; auto. }
  apply NoDup_cons in Hnd as [Hnin Hnd]. rewrite len_cons in Hs. pose proof (len_nonneg turns).
  assert (0 <= t < n) as Ht0 by (apply Ht; left). unfold SLICE_SIZE, U64_MAX in Hnm.
  cbn [send_slices]. destruct (Z.ltb_spec (sl_available st) SLICE_SIZE); [apply slices_post_stop; auto|].
  rewrite add64_ok by rlia. cbn [out_bind].
  assert (forall t', t' ∈ turns -> Z.to_nat ((nx + t') mod n) <> Z.to_nat ((nx + t) mod n)) as Hdist.
  { intros t' Ht' E. assert (t' = t); [|subst; done]. apply (mod_shift_inj n nx); [apply Ht; by right|done|].
    pose proof (Z.mod_pos_bound (nx + t') n ltac:(lia)). pose proof (Z.mod_pos_bound (nx + t) n ltac:(lia)). lia. }
  pose proof (Hsame t ltac:(left)) as Hst.
  assert (0 <= (nx + t) mod n < n) as Hi by (apply Z.mod_pos_bound; lia).
  destruct (vec_get_total acked ((nx + t) mod n)) as (a & -> & Ha); [lia|]. cbn [out_bind].
  destruct (vec_get_total ls ((nx + t) mod n)) as (l & Hgl & Hl); [lia|].
  assert (sent_before now l) as Hlb by (rewrite Forall_forall in Hf; apply Hf, list_elem_of_lookup; eauto).
  assert (slices_post id n nx acked turns st ls (send_slices channel_id rt now id m n nx acked turns st next ls)) as Hskip.
  { apply IH; try done; try lia; intros; [apply Ht|apply Hsame]; by right. }
  destruct a; [eapply slices_post_skip; [exact Hskip|exact Hdist|exact Ha|exact Hl|by left]|]. rewrite Hgl. cbn [out_bind].
  rewrite sent_recently_spec by done. cbn [out_bind]. case_bool_decide as Hdue; cbn [negb].
  2: { eapply slices_post_skip; [exact Hskip|exact Hdist|exact Ha|exact Hl|by right]. }
  clear Hskip. rewrite mul64_ok by (unfold SLICE_SIZE; rlia). cbn [out_bind]. rewrite sub64_ok by lia. cbn [out_bind].
  assert ((if (nx + t) mod n =? n - 1 then Ret (len m) else let! next0 := add64 ((nx + t) mod n) 1 in mul64 next0 SLICE_SIZE)
          = Ret (if (nx + t) mod n =? n - 1 then len m else ((nx + t) mod n + 1) * SLICE_SIZE)) as ->.
  { destruct (Z.eqb_spec ((nx + t) mod n) (n - 1)); [done|]. rewrite add64_ok by rlia. cbn.
    by rewrite mul64_ok by (unfold SLICE_SIZE; rlia). }
  pose proof (sub_slice_slice m ((nx + t) mod n)) as Hss. rewrite <- Hn in Hss.
  cbn [out_bind]. rewrite Hss by (unfold SLICE_SIZE in *; lia). cbn [out_bind].
  destruct (send_slice_inv st id m n na nx acked ls0 ((nx + t) mod n) l) as [Hsl Hinv']; try done; try lia; [congruence|].
  rewrite sub64_ok, add64_ok, vec_set_ok by lia. cbn [out_bind].
  rewrite (Z.mod_small 1 n), add64_ok by rlia. cbn [out_bind].
  pose proof (len_nonneg (slice_bytes m ((nx + t) mod n))).
  eapply slices_post_send; [apply IH|done|unfold len in Hls; lia|cbn..]; try done; try lia.
  - unfold len in *. by rewrite length_insert.
  - apply Forall_insert; [done|]. cbn. lia.
  - intros; apply Ht; by right.
  - intros t' Ht'. rewrite list_lookup_insert_ne by (intros E; symmetry in E; by eapply Hdist).
    apply Hsame. by right.
  - cbn. lia.
  - intros id' part [Hc|Hc]; [left; by apply conveyed_app|by right].
  - left. eexists _, _, _. split; [apply elem_of_app; right; by left|done].
Qed.

Lemma send_one_spec st id um :
  loop_inv st -> U !! id = Some um -> sl_sequence st + um_weight um <= U64_MAX ->
  exists st' um', send_one channel_id rt now st id um = Ret (st', um') /\ loop_inv st' /\
    um_wf now um' /\ um_core um' = um_core um /\
    sl_available st' <= sl_available st /\ sl_sequence st' <= sl_sequence st + um_weight um /\ grows st st' /\
    um_fate now rt (sl_available st') (loaded st' id) um um'.
Proof using HU laws.
  intros Hinv Hu Hs. pose proof (HU _ _ Hu) as [_ Hwf]. destruct um as [m ls|m n na nx acked ls]; cbn [um_weight] in Hs.
  - destruct (send_small_spec st id m ls Hinv Hu Hs) as (st' & ls' & E & ? & ? & ? & ? & ? & ?).
    cbn. rewrite E. eexists _, _. split; [done|]. destruct Hwf. by split_and!.
  - destruct Hwf as (Hm & Hn & Hna & Hlt & Hnx & Hla & Hls & Hf).
    assert (len (seqZ 0 n) = n) as Hlen.
    { unfold len. rewrite length_seqZ. lia. }
    destruct (send_slices_spec id m n na nx acked ls (seqZ 0 n) st nx ls)
      as (st' & next' & ls' & E & ? & ? & ? & ? & ? & ? & _ & ? & Hset); try done; try lia.
    { apply NoDup_seqZ. } { intros t Ht%elem_of_seqZ. lia. }
    cbn [send_one]. rewrite E. cbn. eexists _, _. split; [done|]. split_and!; try done; try lia.
    intros i a l Hi. pose proof (Z.mod_pos_bound (i - nx) n ltac:(lia)).
    assert ((nx + (i - nx) mod n) mod n = i) as <-.
    { rewrite Zplus_mod_idemp_r. replace (nx + (i - nx)) with i by lia. by apply Z.mod_small. }
    apply Hset. apply elem_of_seqZ. lia.
Qed.

Lemma send_loop_messages_spec it : forall st acc,
  loop_inv st -> NoDup it.*1 -> (forall id um, (id, um) ∈ it -> U !! id = Some um) ->
  sl_sequence st + sum_with (fun p => um_weight p.2) it <= U64_MAX ->
  exists st' acc', send_loop_messages channel_id rt now st it acc = Ret (st', acc') /\ loop_inv st' /\
    sl_available st' <= sl_available st /\
    sl_sequence st' <= sl_sequence st + sum_with (fun p => um_weight p.2) it /\ grows st st' /\
    (forall id, id ∉ it.*1 -> acc' !! id = acc !! id) /\
    (forall id um, (id, um) ∈ it -> exists um', acc' !! id = Some um' /\ um_wf now um' /\
       um_core um' = um_core um /\ um_fate now rt (sl_available st') (loaded st' id) um um').
Proof using HU laws.
  assert (forall id um, U !! id = Some um -> 0 <= um_weight um) as Hw.
  { intros id um Hu. apply HU in Hu as [_ Hu]. destruct um; cbn in *; lia. }
  induction it as [|[id um] it IH]; intros st acc Hinv Hnd Hit Hs.
  { exists st, acc. cbn. split_and!; try done; try lia. intros ? ? []%elem_of_nil. }
  cbn in Hnd. apply NoDup_cons in Hnd as [Hnin Hnd]. cbn in Hs.
  assert (0 <= sum_with (fun p : Z * UnackedMessage => um_weight p.2) it) as Hsum.
  { pose proof (sum_with_ge_len (fun p : Z * UnackedMessage => um_weight p.2) it 0 ltac:(lia)) as Hg.
    lapply Hg; [lia|]. intros [id' um'] Hin. eapply Hw, Hit. by right. }
  destruct (send_one_spec st id um Hinv) as (st1 & um1 & E & Hinv1 & ? & ? & ? & ? & ? & Hset).
  { apply Hit. left. } { lia. }
  destruct (IH st1 (<[id := um1]> acc) Hinv1 Hnd) as (st' & acc' & E' & ? & ? & ? & Hgr & Hfr & Hin').
  { intros; apply Hit. by right. } { lia. }
  cbn. rewrite E. cbn. rewrite E'. exists st', acc'. split_and!; try done; try lia.
  - by etrans.
  - intros id' [Hne Hn]%not_elem_of_cons. rewrite Hfr by done. by rewrite lookup_insert_ne.
  - intros id' um' [?|Hin]%elem_of_cons; [simplify_eq|by apply Hin'].
    exists um1. rewrite Hfr, lookup_insert_eq by done. split_and!; try done. eapply um_fate_later; [apply Hgr|done|exact Hset].
Qed.

End sending.

(** The contract of [get_packets_to_send]. *)
Record sr_sends {oct : Octets} (now : Z) (self : SendChannelReliable) (sequence0 available0 : Z)
    (self' : SendChannelReliable) (sequence1 available1 : Z) (packets : list Packet) : Prop := {
  ss_inv : sr_inv now self';
  ss_frame : self' = sr_set_unacked self (unacked_messages self');
  ss_core : forall id, um_core <$> (unacked_messages self' !! id) = um_core <$> (unacked_messages self !! id);
  ss_sequence : sequence1 = sequence0 + len packets;
  ss_numbered : numbered sequence0 packets;
  ss_bound : len packets <= map_sum um_weight (unacked_messages self) + 1;
  ss_budget : available1 + sum_with packet_payload packets = available0;
  ss_available : 0 <= available1;
  ss_due : Forall (packet_due (sr_channel_id self) (resend_time self) now (unacked_messages self)) packets;
  ss_fate : forall id um, unacked_messages self !! id = Some um ->
    exists um', unacked_messages self' !! id = Some um' /\ um_fate now (resend_time self) available1 (conveyed packets id) um um';
}.

Lemma um_core_message um um' : um_core um' = um_core um -> um_message um' = um_message um.
Proof. destruct um, um'; cbn; intros; simplify_eq; done. Qed.

Section get_packets_spec.
Context {oct : Octets} {laws : OctetsLaws oct}.

Lemma sr_inv_update now self unacked :
  sr_inv now self ->
  (forall id, um_core <$> (unacked !! id) = um_core <$> (unacked_messages self !! id)) ->
  map_Forall (fun _ => um_wf now) unacked ->
  sr_inv now (sr_set_unacked self unacked).
Proof.
  intros [Hids Hmem Hmax Hn] Hcore Hwf. constructor; cbn; try done.
  - intros id um Hu. split; [|by eapply Hwf]. pose proof (Hcore id) as Hc. rewrite Hu in Hc. cbn in Hc.
    symmetry in Hc. apply fmap_Some in Hc as (um0 & Hu0 & _). by apply Hids in Hu0 as [? _].
  - rewrite Hmem. apply map_sum_ext. intros id. specialize (Hcore id).
    destruct (unacked !! id) as [um|], (unacked_messages self !! id) as [um0|]; cbn in *; simplify_eq; try done.
    do 2 f_equal. symmetry. by apply um_core_message.
Qed.

Lemma sr_get_packets_spec now self sequence0 available0 :
  sr_inv now self -> 0 <= available0 ->
  sequence0 + map_sum um_weight (unacked_messages self) + 1 <= U64_MAX ->
  exists self' sequence1 available1 packets,
    sr_get_packets_to_send self sequence0 available0 now = Ret (self', sequence1, available1, packets) /\
    sr_sends now self sequence0 available0 self' sequence1 available1 packets.
Proof using laws.
  intros Hinv Hav Hs. pose proof Hinv as [Hids Hmem Hmax Hn]. unfold sr_get_packets_to_send.
  case_bool_decide as He.
  { eexists _, _, _, _. split; [done|]. constructor; try done; try (cbn; lia).
    - by destruct self.
    - rewrite len_nil. lia.
    - rewrite len_nil, He, map_sum_empty. lia.
    - intros id um Hu. by rewrite He, lookup_empty in Hu. }
  set (U := unacked_messages self) in *.
  assert (map_Forall (fun id um => varint id /\ um_wf now um) U) as HU.
  { intros id um Hu. destruct (Hids id um Hu). unfold varint. split; [lia|done]. }
  set (st0 := {| sl_packets := []; sl_small := []; sl_small_bytes := 0; sl_sequence := sequence0; sl_available := available0 |}).
  assert (loop_inv (sr_channel_id self) (resend_time self) now sequence0 available0 U st0) as Hinv0.
  { constructor; cbn; try done; try lia; [rewrite len_nil; lia|]. split; [constructor|left; done]. }
  destruct (send_loop_messages_spec (sr_channel_id self) (resend_time self) now sequence0 available0 U HU
              (btree_iter U) st0 U Hinv0)
    as (st1 & unacked & -> & Hinv1 & Hav1 & Hseq1 & _ & Hfr & Hin); cbn.
  { apply btree_iter_NoDup. } { intros id um Hin. by apply elem_of_btree_iter. }
  { rewrite <- map_sum_iter. lia. }
  rewrite <- map_sum_iter in Hseq1. cbn in Hseq1.
  assert (exists st', (if bool_decide (sl_small st1 = []) then Ret st1 else push_small (sr_channel_id self) st1) = Ret st' /\
    loop_inv (sr_channel_id self) (resend_time self) now sequence0 available0 U st' /\
    sl_small st' = [] /\ sl_available st' = sl_available st1 /\ sl_sequence st' <= sl_sequence st1 + 1 /\ grows st1 st')
    as (st' & -> & Hinv' & Hsm & Hav' & Hseq' & Hgr).
  { case_bool_decide; [exists st1; split_and!; try done; try lia; by intros ? ?|].
    edestruct push_small_spec as (st' & ? & ? & ? & ? & ? & ? & ?); [exact Hinv1|lia|].
    exists st'. split_and!; try done; lia. }
  cbn. eexists _, _, _, _. split; [done|].
  assert (forall id um', unacked !! id = Some um' -> um_wf now um') as Hback.
  { intros id um' Hu'. destruct (U !! id) as [um|] eqn:Hu.
    - apply elem_of_btree_iter in Hu as Hin'. destruct (Hin id um Hin') as (um'' & E & ? & _). congruence.
    - rewrite Hfr, Hu in Hu'; [done|]. rewrite elem_of_btree_keys, Hu. by intros []. }
  assert (forall id, um_core <$> (unacked !! id) = um_core <$> (U !! id)) as Hcore.
  { intros id. destruct (U !! id) as [um|] eqn:Hu.
    - apply elem_of_btree_iter in Hu as Hin'. destruct (Hin id um Hin') as (um' & -> & _ & E & _). cbn. by rewrite E.
    - rewrite Hfr, Hu; [done|]. rewrite elem_of_btree_keys, Hu. by intros []. }
  destruct Hinv' as [Hq Hnum Hbud Hav2 Hby Hsm2 Hps]. constructor; cbn; try done.
  - by apply sr_inv_update.
  - fold U. lia.
  - rewrite Hsm in Hbud. cbn in Hbud. lia.
  - intros id um Hu. apply elem_of_btree_iter in Hu. destruct (Hin id um Hu) as (um' & E & _ & _ & Hf). exists um'. split; [done|].
    apply (um_fate_later _ _ (sl_available st1) _ (loaded st1 id)); [|lia|exact Hf]. intros part [Hc|[_ [m Hc]]]%Hgr; [done|]. rewrite Hsm in Hc. by apply elem_of_nil in Hc.
Qed.

End get_packets_spec.

(** ** Properties *)

(** C34: The contract of [get_packets_to_send] on a channel whose state is
    consistent, if the packet sequences have room: it does not panic; the packets are numbered consecutively from
    the connection's sequence; the payload bytes never exceed the available
    budget and are exactly what is subtracted from it; only messages and slices
    that are unacknowledged and whose resend time has passed are in the packets;
    if at least one slice's worth of budget is left, every such message and slice
    is; the send time of a message or slice becomes the current time, and then it
    is in the packets, or stays; and nothing but these times and the cursors
    changes. *)
Theorem reliable_send_contract {oct : Octets} {laws : OctetsLaws oct} now self sequence0 available0 :
  sr_inv now self -> 0 <= available0 ->
  sequence0 + map_sum um_weight (unacked_messages self) + 1 <= U64_MAX ->
  exists self' sequence1 available1 packets,
    sr_get_packets_to_send self sequence0 available0 now = Ret (self', sequence1, available1, packets) /\
    sequence <$> packets = seqZ sequence0 (len packets) /\ sequence1 = sequence0 + len packets /\
    available1 + sum_with packet_payload packets = available0 /\ 0 <= available1 /\
    Forall (packet_due (sr_channel_id self) (resend_time self) now (unacked_messages self)) packets /\
    (forall id um, unacked_messages self !! id = Some um ->
       exists um', unacked_messages self' !! id = Some um' /\
         um_fate now (resend_time self) available1 (conveyed packets id) um um') /\
    sr_inv now self' /\ self' = sr_set_unacked self (unacked_messages self') /\
    (forall id, um_core <$> (unacked_messages self' !! id) = um_core <$> (unacked_messages self !! id)).
Proof.
  intros Hinv Hav Hs. destruct (sr_get_packets_spec now self sequence0 available0 Hinv Hav Hs)
    as (self' & q & a & ps & E & []). exists self', q, a, ps. by split_and!.
Qed.

(** A channel holding a small message and one of two slices, the first of which
    was sent at time 0 and the second acknowledged. *)
Definition sample_channel : SendChannelReliable :=
  mkSendReliable 2
    {[0 := Small [byte_of 1] None;
      1 := Sliced (replicate 1500 (byte_of 7)) 2 1 1 [false; true] [Some 0; Some 0]]}
    2 (from_millis 300) 10000 1501.

Lemma reliable_send_contract_witness :
  exists self' packets,
    sr_get_packets_to_send sample_channel 5 60000 (from_millis 300) = Ret (self', 7, 60000 - 1201, packets) /\
    sequence <$> packets = [5; 6] /\
    Forall (packet_due 2 (from_millis 300) (from_millis 300) (unacked_messages sample_channel)) packets /\
    conveyed packets 0 None.
Proof.
  assert (sr_inv (from_millis 300) sample_channel) as Hinv.
  { constructor; [|vm_compute; reflexivity|vm_compute; split; discriminate|vm_compute; split; discriminate].
    apply map_Forall_insert_2; [|apply map_Forall_singleton].
    - split; [cbn; lia|]. split; [vm_compute; discriminate|exact I].
    - split; [cbn; lia|]. unfold um_wf.
      split; [split; [vm_compute; reflexivity|vm_compute; discriminate]|].
      split; [vm_compute; reflexivity|]. split; [vm_compute; reflexivity|]. split; [vm_compute; reflexivity|].
      split; [split; vm_compute; discriminate|]. split; [vm_compute; reflexivity|]. split; [vm_compute; reflexivity|].
      repeat (apply Forall_cons; split; [cbn; unfold from_millis; lia|]). apply Forall_nil_2. }
  destruct (reliable_send_contract (from_millis 300) sample_channel 5 60000 Hinv) as (self' & q & a & ps & E & Hn & Hq & Hb & _ & Hdue & Hfate & _);
    [lia|vm_compute; discriminate|].
  assert (len ps = 2 /\ a = 60000 - 1201) as [Hl ->].
  { assert ((fun r => (len r.2, r.1.2)) <$> out_to_option (sr_get_packets_to_send sample_channel 5 60000 (from_millis 300))
      = Some (2, 60000 - 1201)) as H by (vm_compute; reflexivity).
    rewrite E in H. injection H as -> ->. done. }
  exists self', ps. rewrite Hl in *. subst q. split_and!; [exact E|exact Hn|exact Hdue|].
  destruct (Hfate 0 (Small [byte_of 1] None) ltac:(reflexivity)) as (um' & _ & Hf).
  destruct um' as [m l|]; [|destruct Hf]. destruct Hf as [[H _]|[_ H]]; [exact H|].
  destruct H as [H|H]; [vm_compute; discriminate|discriminate|]. destruct (H I).
Defined.

(** [send_message] on a reliable channel never panics: the message is refused
    with [ReliableChannelMaxMemoryReached], leaving the channel as it was, exactly
    when the memory limit would be exceeded; otherwise it is queued under the next
    id and its length is counted. *)
Theorem reliable_send_message now self message :
  sr_inv now self -> len message <= ISIZE_MAX -> next_reliable_message_id self < VARINT_MAX ->
  if sr_max_memory self <? sr_memory self + len message then
    sr_send_message self message = Ret (self, Err ReliableChannelMaxMemoryReached)
  else exists self',
    sr_send_message self message = Ret (self', Ok tt) /\ sr_inv now self' /\
    um_message <$> (unacked_messages self' !! next_reliable_message_id self) = Some message /\
    (forall id, id <> next_reliable_message_id self -> unacked_messages self' !! id = unacked_messages self !! id) /\
    next_reliable_message_id self' = next_reliable_message_id self + 1 /\
    sr_memory self' = sr_memory self + len message.
Proof.
  intros Hinv Hl Hn. pose proof (sr_send_message_spec now self message Hinv Hl Hn) as H.
  destruct (_ <? _); [done|]. destruct H as (self' & E & Hinv' & Hfresh & ->). eexists. split; [done|]. cbn.
  split_and!; try done.
  - rewrite lookup_insert_eq. cbn. by rewrite fresh_message_message.
  - intros id Hne. by rewrite lookup_insert_ne.
Qed.

Lemma reliable_send_message_witness :
  (exists self', sr_send_message (sr_new 0 0 10) [byte_of 1; byte_of 2] = Ret (self', Ok tt) /\ sr_memory self' = 2) /\
  sr_send_message (sr_new 0 0 1) [byte_of 1; byte_of 2] = Ret (sr_new 0 0 1, Err ReliableChannelMaxMemoryReached).
Proof.
  split.
  - destruct (reliable_send_message 0 (sr_new 0 0 10) [byte_of 1; byte_of 2]) as (self' & E & _ & _ & _ & _ & Hm);
      [apply sr_new_inv; unfold ISIZE_MAX; lia|vm_compute; discriminate|reflexivity|].
    exists self'. split; [exact E|exact Hm].
  - exact (reliable_send_message 0 (sr_new 0 0 1) [byte_of 1; byte_of 2]
      ltac:(apply sr_new_inv; unfold ISIZE_MAX; lia) ltac:(vm_compute; discriminate) ltac:(reflexivity)).
Defined.
