(* ===== verification/ReliableRecv.v ===== *)
(** * The receiving half of a reliable channel
      ([ReceiveChannelReliable] of renet/src/channel/reliable.rs)

    State and operations, ordered and unordered, and their behaviour when the
    peer is honest: every message or slice processed belongs to the list
    [sent] of messages the peer sent, a message's id being its position. *)

From S2P Require Import Prelude Octets Packet SliceConstructor ReliableSend.

Inductive ReliableOrder :=
  | Ordered
  | Unordered (most_recent_message_id : Z) (received_messages : gset Z).

Record ReceiveChannelReliable := mkRecvReliable {
  rr_slices : gmap Z SliceConstructor;
  rr_messages : gmap Z Bytes;
  oldest_pending_message_id : Z;
  reliable_order : ReliableOrder;
  rr_memory : Z;
  rr_max_memory : Z;
}.

(** [ReceiveChannelReliable::new]. *)
Definition rr_new (max_memory_usage_bytes : Z) (ordered : bool) : ReceiveChannelReliable :=
  mkRecvReliable ∅ ∅ 0 (if ordered then Ordered else Unordered 0 ∅) 0 max_memory_usage_bytes.

Definition rr_set_memory (self : ReceiveChannelReliable) (memory : Z) : ReceiveChannelReliable :=
  mkRecvReliable (rr_slices self) (rr_messages self) (oldest_pending_message_id self)
    (reliable_order self) memory (rr_max_memory self).

Definition rr_set_slices (self : ReceiveChannelReliable) (slices : gmap Z SliceConstructor) : ReceiveChannelReliable :=
  mkRecvReliable slices (rr_messages self) (oldest_pending_message_id self)
    (reliable_order self) (rr_memory self) (rr_max_memory self).

Definition rr_set_order (self : ReceiveChannelReliable) (order : ReliableOrder) : ReceiveChannelReliable :=
  mkRecvReliable (rr_slices self) (rr_messages self) (oldest_pending_message_id self)
    order (rr_memory self) (rr_max_memory self).

(** Memory check and insertion into [self.messages], common to both orders. *)
Definition rr_store (self : ReceiveChannelReliable) (message : Bytes) (message_id : Z) (order : ReliableOrder)
    : out (ReceiveChannelReliable * result unit ChannelError) :=
  let! total := add64 (rr_memory self) (len message) in
  if rr_max_memory self <? total then Ret (self, Err ReliableChannelMaxMemoryReached)
  else
    Ret (mkRecvReliable (rr_slices self) (<[message_id := message]> (rr_messages self))
           (oldest_pending_message_id self) order total (rr_max_memory self), Ok tt).

(** [ReceiveChannelReliable::process_message]. *)
Definition rr_process_message (self : ReceiveChannelReliable) (message : Bytes) (message_id : Z)
    : out (ReceiveChannelReliable * result unit ChannelError) :=
  if message_id <? oldest_pending_message_id self then Ret (self, Ok tt)
  else
    match reliable_order self with
    | Ordered =>
        match rr_messages self !! message_id with
        | Some _ => Ret (self, Ok tt)
        | None => rr_store self message message_id Ordered
        end
    | Unordered most_recent_message_id received_messages =>
        let most_recent_message_id :=
          if most_recent_message_id <? message_id then message_id else most_recent_message_id in
        let self := rr_set_order self (Unordered most_recent_message_id received_messages) in
        if bool_decide (message_id ∈ received_messages) then Ret (self, Ok tt)
        else rr_store self message message_id
               (Unordered most_recent_message_id ({[message_id]} ∪ received_messages))
    end.

(** The second part of [process_slice], once memory for the message is reserved. *)
Definition rr_add_slice (self : ReceiveChannelReliable) (slice : Slice) (constructor : SliceConstructor)
    : out (ReceiveChannelReliable * result unit ChannelError) :=
  let! (constructor, r) := sc_process_slice constructor (slice_index slice) (payload slice) in
  let self := rr_set_slices self (<[message_id slice := constructor]> (rr_slices self)) in
  match r with
  | Err e => Ret (self, Err e)
  | Ok None => Ret (self, Ok tt)
  | Ok (Some message) =>
      let! message_len := mul64 (num_slices slice) SLICE_SIZE in
      let! memory := sub64 (rr_memory self) message_len in
      let! (self, r) := rr_process_message (rr_set_memory self memory) message (message_id slice) in
      match r with
      | Err e => Ret (self, Err e)
      | Ok _ => Ret (rr_set_slices self (delete (message_id slice) (rr_slices self)), Ok tt)
      end
  end.

(** [ReceiveChannelReliable::process_slice]. *)
Definition rr_process_slice (self : ReceiveChannelReliable) (slice : Slice)
    : out (ReceiveChannelReliable * result unit ChannelError) :=
  if bool_decide (is_Some (rr_messages self !! message_id slice))
     || (message_id slice <? oldest_pending_message_id self)
  then Ret (self, Ok tt)
  else
    match rr_slices self !! message_id slice with
    | Some constructor => rr_add_slice self slice constructor
    | None =>
        let! message_len := mul64 (num_slices slice) SLICE_SIZE in
        let! total := add64 (rr_memory self) message_len in
        if rr_max_memory self <? total then Ret (self, Err ReliableChannelMaxMemoryReached)
        else
          let! constructor := sc_new (message_id slice) (num_slices slice) in
          rr_add_slice (rr_set_memory self total) slice constructor
    end.

(** The loop of [receive_message] that skips the ids already received; [fuel]
    above the size of [received] is never exhausted. *)
Fixpoint skip_received (fuel : nat) (oldest : Z) (received : gset Z) : out (Z * gset Z) :=
  if bool_decide (oldest ∈ received) then
    match fuel with
    | 0%nat => Panic
    | S fuel' =>
        let! next := add64 oldest 1 in
        skip_received fuel' next (received ∖ {[oldest]})
    end
  else Ret (oldest, received).

(** [ReceiveChannelReliable::receive_message]. *)
Definition rr_receive_message (self : ReceiveChannelReliable) : out (ReceiveChannelReliable * option Bytes) :=
  match reliable_order self with
  | Ordered =>
      match rr_messages self !! oldest_pending_message_id self with
      | None => Ret (self, None)
      | Some message =>
          let! oldest := add64 (oldest_pending_message_id self) 1 in
          let! memory := sub64 (rr_memory self) (len message) in
          Ret (mkRecvReliable (rr_slices self) (delete (oldest_pending_message_id self) (rr_messages self))
                 oldest Ordered memory (rr_max_memory self), Some message)
      end
  | Unordered most_recent_message_id received_messages =>
      match pop_first (rr_messages self) with
      | None => Ret (self, None)
      | Some (message_id, message, messages) =>
          let! (oldest, received_messages) :=
            (if oldest_pending_message_id self =? message_id
             then skip_received (S (size received_messages)) (oldest_pending_message_id self) received_messages
             else Ret (oldest_pending_message_id self, received_messages)) in
          let! memory := sub64 (rr_memory self) (len message) in
          Ret (mkRecvReliable (rr_slices self) messages oldest
                 (Unordered most_recent_message_id received_messages) memory (rr_max_memory self), Some message)
      end
  end.

(** ** Invariant *)

Definition sent_at (sent : list Bytes) (id : Z) (m : Bytes) : Prop :=
  0 <= id /\ sent !! Z.to_nat id = Some m.

(** The ids whose message has arrived, delivered to the application or not. *)
Definition has_received (self : ReceiveChannelReliable) (id : Z) : Prop :=
  id < oldest_pending_message_id self \/
  match reliable_order self with
  | Ordered => is_Some (rr_messages self !! id)
  | Unordered _ received_messages => id ∈ received_messages
  end.

Definition rr_usage (self : ReceiveChannelReliable) : Z :=
  map_sum len (rr_messages self) + map_sum (fun sc => sc_num_slices sc * SLICE_SIZE) (rr_slices self).

(** What holds of a channel that has only been given messages and slices of [sent]. *)
Record rr_inv (sent : list Bytes) (self : ReceiveChannelReliable) : Prop := {
  rr_inv_messages : forall id m, rr_messages self !! id = Some m ->
    sent_at sent id m /\ has_received self id /\
    (reliable_order self = Ordered -> oldest_pending_message_id self <= id);
  rr_inv_slices : forall id sc, rr_slices self !! id = Some sc ->
    rr_messages self !! id = None /\
    exists m, sent_at sent id m /\ SLICE_SIZE < len m /\ sc_inv m sc /\
      count_true (received sc) < num_slices_of m;
  rr_inv_received : forall mr received id,
    reliable_order self = Unordered mr received -> id ∈ received -> oldest_pending_message_id self <= id;
  rr_inv_has : forall id, 0 <= id -> has_received self id -> exists m, sent_at sent id m;
  rr_inv_memory : rr_memory self = rr_usage self;
  rr_inv_max : rr_memory self <= rr_max_memory self <= ISIZE_MAX;
  rr_inv_oldest : 0 <= oldest_pending_message_id self <= len sent;
}.

Definition sent_ok (sent : list Bytes) : Prop :=
  Forall (fun m => len m + SLICE_SIZE <= ISIZE_MAX) sent /\ len sent <= VARINT_MAX.

#[export] Instance has_received_dec self id : Decision (has_received self id).
Proof. unfold has_received. destruct (reliable_order self); apply _. Defined.

Lemma sent_at_inj sent id m m' : sent_at sent id m -> sent_at sent id m' -> m = m'.
Proof. intros [_ H] [_ H']. congruence. Qed.

Lemma sent_at_app sent l id m : sent_at sent id m -> sent_at (sent ++ l) id m.
Proof. intros [? H]. split; [done|]. by apply lookup_app_l_Some. Qed.

Lemma sent_at_lt sent id m : sent_at sent id m -> 0 <= id < len sent.
Proof. intros [? H]. apply lookup_lt_Some in H. unfold len. lia. Qed.

Lemma sent_at_len sent id m : sent_ok sent -> sent_at sent id m -> len m + SLICE_SIZE <= ISIZE_MAX.
Proof. intros [H _] [_ Hm]. exact (Forall_lookup_1 _ _ _ _ H Hm). Qed.

Lemma rr_new_inv max ordered : 0 <= max <= ISIZE_MAX -> rr_inv [] (rr_new max ordered).
Proof.
  intros Hmax. constructor; cbn; try done; try lia.
  - intros mr received id H. destruct ordered; [done|]. simplify_eq. set_solver.
  - intros id Hid [Hlt|H]; cbn in *; [lia|]. destruct ordered; [by destruct H|set_solver].
Qed.

Lemma rr_inv_app sent l self : rr_inv sent self -> rr_inv (sent ++ l) self.
Proof.
  intros [Hm Hs Hr Hh Hmem Hmax Ho]. constructor; try done.
  - intros id m Hid. destruct (Hm id m Hid) as (? & ? & ?). split_and!; try done. by apply sent_at_app.
  - intros id sc Hid. destruct (Hs id sc Hid) as (? & m & ? & ?). split; [done|].
    exists m. split; [by apply sent_at_app|done].
  - intros id Hid H. destruct (Hh id Hid H) as [m ?]. exists m. by apply sent_at_app.
  - rewrite len_app. pose proof (len_nonneg l). lia.
Qed.

(** ** [process_message] *)

(** The bookkeeping done even when the message is dropped. *)
Definition rr_bump (self : ReceiveChannelReliable) (id : Z) : ReceiveChannelReliable :=
  match reliable_order self with
  | Ordered => self
  | Unordered mr received =>
      if id <? oldest_pending_message_id self then self
      else rr_set_order self (Unordered (if mr <? id then id else mr) received)
  end.

(** The state after [message] has been stored. *)
Definition rr_stored (self : ReceiveChannelReliable) (message : Bytes) (id : Z) : ReceiveChannelReliable :=
  mkRecvReliable (rr_slices self) (<[id := message]> (rr_messages self)) (oldest_pending_message_id self)
    (match reliable_order self with
     | Ordered => Ordered
     | Unordered mr received => Unordered (if mr <? id then id else mr) ({[id]} ∪ received)
     end) (rr_memory self + len message) (rr_max_memory self).

(** The complete behaviour of [process_message]. *)
Lemma rr_process_message_spec self message id :
  rr_memory self + len message <= U64_MAX ->
  rr_process_message self message id =
    Ret (if decide (has_received self id) then (rr_bump self id, Ok tt)
         else if rr_max_memory self <? rr_memory self + len message
         then (rr_bump self id, Err ReliableChannelMaxMemoryReached)
         else (rr_stored self message id, Ok tt)).
Proof.
  intros Hle. unfold rr_process_message, rr_bump, rr_stored, rr_store.
  destruct (Z.ltb_spec id (oldest_pending_message_id self)).
  { rewrite decide_True by (by left). by destruct (reliable_order self). }
  destruct self as [sl ms oldest [|mr received] mem mx]; cbn -[has_received has_received_dec] in *.
  - destruct (ms !! id) as [m|] eqn:Hm.
    + rewrite decide_True by (right; by eexists). done.
    + rewrite decide_False by (intros [?|[? ?]]; cbn in *; [lia|congruence]).
      rewrite add64_ok by done. cbn. by destruct (mx <? _).
  - case_bool_decide.
    + rewrite decide_True by by right. done.
    + rewrite decide_False by (intros [?|?]; cbn in *; [lia|done]).
      rewrite add64_ok by done. cbn. by destruct (mx <? _).
Qed.

Lemma has_received_bump self id id' : has_received (rr_bump self id) id' <-> has_received self id'.
Proof.
  unfold has_received, rr_bump. destruct (reliable_order self) as [|mr received] eqn:E; [by rewrite E|].
  destruct (id <? _); cbn; by rewrite ?E.
Qed.

Lemma has_received_stored self m id id' :
  has_received (rr_stored self m id) id' <-> has_received self id' \/ id' = id.
Proof.
  unfold has_received, rr_stored. destruct (reliable_order self) as [|mr received]; cbn.
  - rewrite lookup_insert_is_Some. split; [|intros [[?|?]| ->]; auto]; [|by destruct (decide (id = id')); auto].
    intros [?|[->|[? ?]]]; auto.
  - set_solver.
Qed.

Lemma rr_bump_inv sent self id : rr_inv sent self -> rr_inv sent (rr_bump self id).
Proof.
  intros [Hm Hs Hr Hh Hmem Hmax Ho]. unfold rr_bump.
  destruct (reliable_order self) as [|mr received] eqn:E; [by constructor; rewrite ?E|].
  destruct (id <? _); [by constructor; rewrite ?E|]. constructor; cbn; try done.
  - intros id' m Hid. destruct (Hm id' m Hid) as (? & Hhr & ?). split_and!; try done.
    unfold has_received in *. cbn. by rewrite E in Hhr.
  - intros ? ? id' H Hin. simplify_eq. eauto.
  - intros id' Hid Hhr. apply Hh; [done|]. unfold has_received in *. cbn in *. by rewrite E.
Qed.

Lemma rr_stored_inv sent self m id :
  rr_inv sent self -> sent_at sent id m -> ~ has_received self id -> rr_slices self !! id = None ->
  rr_memory self + len m <= rr_max_memory self ->
  rr_inv sent (rr_stored self m id).
Proof.
  intros [Hm Hs Hr Hh Hmem Hmax Ho] Hsent Hnr Hns Hle.
  assert (rr_messages self !! id = None) as Hnm.
  { destruct (rr_messages self !! id) eqn:E; [|done]. by apply Hm in E as (_ & ? & _). }
  assert (oldest_pending_message_id self <= id) by (unfold has_received in Hnr; lia).
  constructor; cbn -[has_received]; try done.
  - intros id' m' [[-> ->]|[Hne Hid]]%lookup_insert_Some.
    + split_and!; [done|apply has_received_stored; by right|lia].
    + destruct (Hm id' m' Hid) as (? & ? & Hord). split_and!; [done|apply has_received_stored; by left|].
      destruct (reliable_order self); [intros _; by apply Hord|done].
  - intros id' sc Hid. destruct (Hs id' sc Hid) as (? & ?). split; [|done].
    rewrite lookup_insert_ne; [done|]. intros ->. congruence.
  - intros mr' received' id' E Hin. destruct (reliable_order self) as [|mr received]; simplify_eq.
    apply elem_of_union in Hin as [->%elem_of_singleton|Hin]; [done|eauto].
  - intros id' Hid [?| ->]%has_received_stored; [eauto|by exists m].
  - unfold rr_usage in *. cbn. rewrite map_sum_insert by done. lia.
  - pose proof (len_nonneg m). lia.
Qed.

(** ** [process_slice] *)

(** [s] is a slice of a message of [sent]. *)
Definition slice_of (sent : list Bytes) (s : Slice) (m : Bytes) : Prop :=
  sent_at sent (message_id s) m /\ SLICE_SIZE < len m /\ num_slices s = num_slices_of m /\
  0 <= slice_index s < num_slices_of m /\ payload s = slice_bytes m (slice_index s).

(** The ids already handed to the application. *)
Definition delivered (self : ReceiveChannelReliable) (id : Z) : Prop :=
  has_received self id /\ rr_messages self !! id = None.

(** Slice [i] of message [id] has arrived, alone or with the whole message. *)
Definition slice_recorded (self : ReceiveChannelReliable) (id i : Z) : Prop :=
  has_received self id \/
  exists sc, rr_slices self !! id = Some sc /\ received sc !! Z.to_nat i = Some true.

(** Nothing that had arrived is forgotten, nothing is delivered. *)
Record rr_grows (self self' : ReceiveChannelReliable) : Prop := {
  grows_received : forall id, has_received self id -> has_received self' id;
  grows_recorded : forall id i, slice_recorded self id i -> slice_recorded self' id i;
  grows_delivered : forall id, delivered self' id <-> delivered self id;
  grows_oldest : oldest_pending_message_id self' = oldest_pending_message_id self;
  grows_order : reliable_order self' = Ordered <-> reliable_order self = Ordered;
}.

#[export] Instance rr_grows_refl : Reflexive rr_grows.
Proof. intros x. by constructor. Qed.

#[export] Instance rr_grows_trans : Transitive rr_grows.
Proof.
  intros x y z [Hr1 Hc1 Hd1 Ho1 Hk1] [Hr2 Hc2 Hd2 Ho2 Hk2]. constructor; eauto.
  - intros id. by rewrite Hd2, Hd1.
  - congruence.
  - by rewrite Hk2, Hk1.
Qed.

Lemma rr_bump_frame self id :
  rr_slices (rr_bump self id) = rr_slices self /\ rr_messages (rr_bump self id) = rr_messages self /\
  oldest_pending_message_id (rr_bump self id) = oldest_pending_message_id self /\
  (reliable_order (rr_bump self id) = Ordered <-> reliable_order self = Ordered).
Proof. unfold rr_bump. destruct (reliable_order self) eqn:E; [by rewrite E|]. destruct (id <? _); cbn; by rewrite ?E. Qed.

Lemma rr_bump_grows self id : rr_grows self (rr_bump self id).
Proof.
  destruct (rr_bump_frame self id) as (Hs & Hm & Ho & Hord). constructor; try done.
  - intros id' H. by apply has_received_bump.
  - intros id' i. unfold slice_recorded. by rewrite has_received_bump, Hs.
  - intros id'. unfold delivered. by rewrite has_received_bump, Hm.
Qed.

Lemma rr_stored_grows self m id : ~ has_received self id -> rr_grows self (rr_stored self m id).
Proof.
  intros Hn. constructor.
  - intros id' H. apply has_received_stored. by left.
  - intros id' i [H|H]; [left; apply has_received_stored; by left|by right].
  - intros id'. unfold delivered. rewrite has_received_stored. cbn. rewrite lookup_insert_None. naive_solver.
  - done.
  - unfold rr_stored. cbn. by destruct (reliable_order self).
Qed.

(** The state without the constructor of message [id], whose memory is given back. *)
Definition rr_without (self : ReceiveChannelReliable) (id n : Z) : ReceiveChannelReliable :=
  rr_set_slices (rr_set_memory self (rr_memory self - n * SLICE_SIZE)) (delete id (rr_slices self)).

Lemma rr_slices_nonneg sent self :
  rr_inv sent self -> forall id sc, rr_slices self !! id = Some sc -> 0 <= sc_num_slices sc * SLICE_SIZE.
Proof.
  intros Hinv id sc Hsc. destruct (rr_inv_slices _ _ Hinv _ _ Hsc) as (_ & m & _ & Hlen & Hsci & _).
  rewrite (inv_num _ _ Hsci). destruct (num_slices_bounds m); unfold SLICE_SIZE in *; lia.
Qed.

Lemma rr_memory_nonneg sent self : rr_inv sent self -> 0 <= rr_memory self.
Proof.
  intros Hinv. rewrite (rr_inv_memory _ _ Hinv). unfold rr_usage. apply Z.add_nonneg_nonneg.
  - apply map_sum_nonneg. intros. apply len_nonneg.
  - apply map_sum_nonneg_lookup. eauto using rr_slices_nonneg.
Qed.

Lemma rr_without_inv sent self id sc :
  rr_inv sent self -> rr_slices self !! id = Some sc ->
  rr_inv sent (rr_without self id (sc_num_slices sc)) /\ sc_num_slices sc * SLICE_SIZE <= rr_memory self.
Proof.
  intros Hsl Hsc. pose proof Hsl as [Hm Hs Hr Hh Hmem Hmax Ho]. unfold rr_usage in Hmem.
  rewrite (map_sum_delete (fun sc => sc_num_slices sc * SLICE_SIZE) _ _ _ Hsc) in Hmem.
  pose proof (rr_slices_nonneg _ _ Hsl) as Hnn.
  assert (0 <= map_sum len (rr_messages self)) by (apply map_sum_nonneg; intros; apply len_nonneg).
  assert (0 <= map_sum (fun sc => sc_num_slices sc * SLICE_SIZE) (delete id (rr_slices self))).
  { apply map_sum_nonneg_lookup. intros id' sc' [_ H']%lookup_delete_Some. eauto. }
  split; [|lia]. pose proof (Hnn id sc Hsc). constructor; cbn -[has_received]; try done.
  - intros id' sc' [_ H']%lookup_delete_Some. by apply Hs.
  - unfold rr_usage. cbn. lia.
  - lia.
Qed.

Lemma rr_inv_add_sc sent self id m sc :
  rr_inv sent (rr_without self id (num_slices_of m)) -> rr_messages self !! id = None ->
  sent_at sent id m -> SLICE_SIZE < len m -> sc_inv m sc -> count_true (received sc) < num_slices_of m ->
  rr_memory self <= rr_max_memory self <= ISIZE_MAX ->
  rr_inv sent (rr_set_slices self (<[id := sc]> (rr_slices self))).
Proof.
  intros [Hm Hs Hr Hh Hmem Hmax Ho] Hnm Hsent Hlen Hinv Hc Hle. cbn in *.
  constructor; cbn -[has_received]; try done.
  - intros id' sc' [[-> ->]|[Hne H']]%lookup_insert_Some; [split; [done|by exists m]|].
    apply Hs. by rewrite lookup_delete_ne.
  - unfold rr_usage in *. cbn in *. rewrite <- insert_delete_eq, map_sum_insert by apply lookup_delete_eq.
    rewrite (inv_num _ _ Hinv). lia.
Qed.

(** Processing a genuine slice in a state that has memory reserved for it. *)
Lemma rr_add_slice_spec sent self s m sc :
  sent_ok sent -> slice_of sent s m -> rr_inv sent (rr_without self (message_id s) (num_slices s)) ->
  rr_messages self !! message_id s = None -> sc_inv m sc -> count_true (received sc) < num_slices_of m ->
  num_slices s * SLICE_SIZE <= rr_memory self <= rr_max_memory self -> rr_max_memory self <= ISIZE_MAX ->
  exists self', rr_add_slice self s sc = Ret (self', Ok tt) /\ rr_inv sent self' /\
    rr_grows (rr_without self (message_id s) (num_slices s)) self' /\
    forall i, i = slice_index s \/ received sc !! Z.to_nat i = Some true -> slice_recorded self' (message_id s) i.
Proof.
  intros Hok (Hsent & Hlen & Hn & Hi & Hp) Hbase Hnm Hsc Hc Hmem Hmax.
  assert (0 < len m) as Hpos by (unfold SLICE_SIZE in *; lia).
  pose proof (sent_at_len _ _ _ Hok Hsent) as Hlm. destruct (num_slices_bounds m Hpos) as [Hn1 Hb].
  destruct (sc_process_slice_spec m Hpos ltac:(unfold SLICE_SIZE, ISIZE_MAX, U64_MAX in *; lia) sc (slice_index s) Hsc Hi)
    as (sc' & Hr' & Hn' & Hps).
  assert (forall i, i = slice_index s \/ received sc !! Z.to_nat i = Some true -> received sc' !! Z.to_nat i = Some true) as Hrec.
  { intros i Hor. rewrite Hr'. pose proof (inv_len _ _ Hsc) as Hl. unfold len in Hl.
    destruct (decide (Z.to_nat (slice_index s) = Z.to_nat i)) as [E|E].
    - rewrite E. apply list_lookup_insert_eq. lia.
    - rewrite list_lookup_insert_ne by done. destruct Hor; [congruence|done]. }
  unfold rr_add_slice. rewrite Hp. destruct (Z.eqb_spec (count_true (received sc')) (num_slices_of m)) as [E|E].
  - rewrite Hps. cbn. rewrite mul64_ok by (unfold SLICE_SIZE, ISIZE_MAX, U64_MAX in *; lia). cbn.
    rewrite sub64_ok by lia. cbn. rewrite rr_process_message_spec by (cbn; unfold SLICE_SIZE, ISIZE_MAX, U64_MAX in *; lia).
    cbn [rr_memory rr_max_memory rr_set_memory rr_set_slices].
    set (base := rr_without self (message_id s) (num_slices s)) in *.
    match goal with |- context [decide (has_received ?x _)] => set (self1 := x) end.
    assert (forall id, has_received self1 id <-> has_received base id) as Hsame by done.
    assert (rr_slices self1 = <[message_id s := sc']> (rr_slices self)) as Hsl1 by done.
    assert (delete (message_id s) (rr_slices self1) = rr_slices base) as Hsl by (rewrite Hsl1; apply delete_insert_eq).
    destruct (decide (has_received self1 (message_id s))) as [Hhr|Hhr]; cbn.
    + exists (rr_bump base (message_id s)). split_and!.
      * do 3 f_equal. unfold rr_bump. cbn. destruct (reliable_order self); [|destruct (message_id s <? _)];
          unfold rr_set_slices, rr_set_order; cbn; rewrite ?delete_insert_eq; done.
      * by apply rr_bump_inv.
      * apply rr_bump_grows.
      * intros i _. left. apply has_received_bump. by apply Hsame.
    + rewrite (proj2 (Z.ltb_ge _ _)) by lia. exists (rr_stored base m (message_id s)). split_and!.
      * do 3 f_equal. unfold rr_set_slices, rr_stored. cbn. by rewrite delete_insert_eq.
      * apply rr_stored_inv; try done; cbn; [by rewrite lookup_delete_eq|lia].
      * by apply rr_stored_grows.
      * intros i _. left. apply has_received_stored. by right.
  - destruct Hps as [-> Hinv']. cbn. eexists; split; [done|]. split_and!.
    + eapply rr_inv_add_sc; try done; [by rewrite <- Hn| |lia].
      pose proof (count_true_range (received sc')). rewrite (inv_len _ _ Hinv') in *. lia.
    + constructor; try done. intros id i [H|(sc0 & H0 & H1)]; [by left|right]. cbn in *.
      apply lookup_delete_Some in H0 as [Hne H0]. exists sc0. by rewrite lookup_insert_ne.
    + intros i Hor. right. exists sc'. cbn. rewrite lookup_insert_eq. split; [done|]. by apply Hrec.
Qed.

Lemma rr_without_absent self id n :
  rr_slices self !! id = None ->
  rr_without (rr_set_memory self (rr_memory self + n * SLICE_SIZE)) id n = self.
Proof.
  intros H. destruct self. unfold rr_without, rr_set_memory, rr_set_slices. cbn in *.
  rewrite delete_id by done. f_equal. lia.
Qed.

(** Dropping a constructor loses its slices only. *)
Lemma rr_without_grows self self' id n :
  rr_grows (rr_without self id n) self' ->
  (forall sc i, rr_slices self !! id = Some sc -> received sc !! Z.to_nat i = Some true -> slice_recorded self' id i) ->
  rr_grows self self'.
Proof.
  intros [Hr Hrec Hd Ho Hord] Hid. constructor; try done.
  intros id' i [H|(sc & Hsc & H)]; [left; by apply Hr|].
  destruct (decide (id' = id)) as [->|Hne]; [by eapply Hid|].
  apply Hrec. right. exists sc. cbn. by rewrite lookup_delete_ne.
Qed.

(** The behaviour of [process_slice] on a slice of a message that was sent: it
    never panics, and unless the memory for a new message is refused, the
    slice is recorded and the invariant kept. *)
Lemma rr_process_slice_spec sent self s m :
  sent_ok sent -> slice_of sent s m -> rr_inv sent self ->
  exists self' r, rr_process_slice self s = Ret (self', r) /\ rr_inv sent self' /\ rr_grows self self' /\
    match r with
    | Ok _ => slice_recorded self' (message_id s) (slice_index s)
    | Err e => e = ReliableChannelMaxMemoryReached /\ self' = self /\ rr_slices self !! message_id s = None /\
        rr_max_memory self < rr_memory self + num_slices s * SLICE_SIZE
    end.
Proof.
  intros Hok Hs Hinv. pose proof Hs as (Hsent & Hlen & Hn & Hi & Hp).
  assert (0 < len m) as Hpos by (unfold SLICE_SIZE in *; lia).
  pose proof (sent_at_len _ _ _ Hok Hsent) as Hlm. destruct (num_slices_bounds m Hpos) as [Hn1 Hb].
  pose proof (rr_inv_max _ _ Hinv) as Hmax. unfold rr_process_slice. case_bool_decide as Hin; cbn.
  { exists self, (Ok tt). split_and!; try done. left. destruct Hin as [m' Hm']. by apply (rr_inv_messages _ _ Hinv) in Hm' as (_ & ? & _). }
  destruct (Z.ltb_spec (message_id s) (oldest_pending_message_id self)) as [Hlt|Hge].
  { exists self, (Ok tt). split_and!; try done. left. by left. }
  apply eq_None_not_Some in Hin. destruct (rr_slices self !! message_id s) as [sc|] eqn:Hsc.
  - destruct (rr_inv_slices _ _ Hinv _ _ Hsc) as (_ & m' & Hs' & _ & Hscinv & Hc).
    rewrite (sent_at_inj _ _ _ _ Hs' Hsent) in *. pose proof (inv_num _ _ Hscinv) as Hnum.
    destruct (rr_without_inv _ _ _ _ Hinv Hsc) as [Hbase Hmem]. rewrite Hnum, <- Hn in Hbase, Hmem.
    destruct (rr_add_slice_spec sent self s m sc) as (self' & -> & Hinv' & Hg & Hrec); try done; try lia.
    exists self', (Ok tt). split_and!; try done; [|apply Hrec; by left].
    eapply rr_without_grows; [done|]. intros sc0 i H0 Hr0. simplify_eq. apply Hrec. by right.
  - rewrite mul64_ok by (unfold SLICE_SIZE, ISIZE_MAX, U64_MAX in *; lia). cbn.
    rewrite add64_ok by (unfold SLICE_SIZE, ISIZE_MAX, U64_MAX in *; lia). cbn.
    destruct (Z.ltb_spec (rr_max_memory self) (rr_memory self + num_slices s * SLICE_SIZE)) as [Hfull|Hroom].
    { by exists self, (Err ReliableChannelMaxMemoryReached). }
    destruct (sc_new_inv m Hpos ltac:(unfold SLICE_SIZE, ISIZE_MAX, U64_MAX in *; lia) (message_id s)) as (sc & Hnew & Hscinv & Hz).
    rewrite Hn, Hnew, <- Hn. cbn.
    pose proof (rr_memory_nonneg _ _ Hinv).
    assert (count_true (received sc) < num_slices_of m).
    { destruct Hz as [_ ->]. unfold vec_repeat. rewrite count_true_replicate. lia. }
    destruct (rr_add_slice_spec sent (rr_set_memory self (rr_memory self + num_slices s * SLICE_SIZE)) s m sc)
      as (self' & -> & Hinv' & Hg & Hrec); try done; cbn; try lia.
    { by rewrite rr_without_absent. }
    rewrite rr_without_absent in Hg by done. exists self', (Ok tt). split_and!; try done. apply Hrec. by left.
Qed.

(** ** [receive_message] *)

Lemma skip_received_spec fuel oldest received :
  (size received <= fuel)%nat -> (forall id, id ∈ received -> id < U64_MAX) ->
  exists oldest' received', skip_received fuel oldest received = Ret (oldest', received') /\
    oldest <= oldest' /\ (oldest' ∉ received') /\
    (forall id, oldest <= id < oldest' -> id ∈ received) /\
    (forall id, id ∈ received' <-> id ∈ received /\ ~ (oldest <= id < oldest')).
Proof.
  revert oldest received. induction fuel as [|fuel IH]; intros oldest received Hsz Hlt; cbn.
  - assert (received = ∅) as -> by (apply leibniz_equiv, size_empty_inv; lia).
    rewrite bool_decide_false by set_solver. exists oldest, ∅. split_and!; try done; try lia; set_solver.
  - case_bool_decide as Hin; [|exists oldest, received; split_and!; try done; try lia; intros; split; [split; [done|lia]|tauto]].
    specialize (Hlt oldest Hin) as Hlo. rewrite add64_ok by lia. cbn.
    destruct (IH (oldest + 1) (received ∖ {[oldest]})) as (o' & r' & -> & Hle & Hn & Hskip & Hmem).
    + rewrite size_difference by set_solver. rewrite size_singleton. lia.
    + intros id Hid. apply Hlt. set_solver.
    + exists o', r'. split_and!; try done; try lia.
      * intros id Hid. destruct (decide (id = oldest)) as [->|]; [done|].
        assert (id ∈ received ∖ {[oldest]}) by (apply Hskip; lia). set_solver.
      * intros id. rewrite Hmem, elem_of_difference, elem_of_singleton. destruct (decide (id = oldest)); [subst; lia|].
        split; intros [? ?]; split_and!; try tauto; lia.
Qed.

(** What [receive_message] does to the state when it answers [r]. *)
Definition received_answer (self self' : ReceiveChannelReliable) (r : option Bytes) : Prop :=
  match r with
  | None => self' = self /\
      match reliable_order self with
      | Ordered => rr_messages self !! oldest_pending_message_id self = None
      | Unordered _ _ => rr_messages self = ∅
      end
  | Some m => exists id, rr_messages self !! id = Some m /\ rr_messages self' = delete id (rr_messages self) /\
      match reliable_order self with
      | Ordered => id = oldest_pending_message_id self /\ oldest_pending_message_id self' = id + 1
      | Unordered _ _ => forall id', is_Some (rr_messages self !! id') -> id <= id'
      end
  end.

(** The part of the invariant that does not mention the stored messages, when one is removed. *)
Lemma rr_inv_pop sent self id m oldest order :
  rr_inv sent self -> rr_messages self !! id = Some m ->
  let self' := mkRecvReliable (rr_slices self) (delete id (rr_messages self)) oldest order
                 (rr_memory self - len m) (rr_max_memory self) in
  (forall id', has_received self' id' <-> has_received self id') ->
  (forall mr received id', order = Unordered mr received -> id' ∈ received -> oldest <= id') ->
  (order = Ordered -> reliable_order self = Ordered /\ oldest = id + 1 /\ id = oldest_pending_message_id self) ->
  0 <= oldest <= len sent -> rr_inv sent self'.
Proof.
  intros Hinv Hid self' Hhas Hrec Hord Ho. pose proof Hinv as [Hm Hs _ Hh Hmem Hmax _].
  pose proof (len_nonneg m). constructor; cbn; try done.
  - intros id' m' [Hne H']%lookup_delete_Some. destruct (Hm id' m' H') as (? & ? & Hle). split_and!; [done|by apply Hhas|].
    intros [E [-> ->]]%Hord. specialize (Hle E). lia.
  - intros id' sc H'. destruct (Hs id' sc H') as [? ?]. split; [|done]. apply lookup_delete_None. by right.
  - intros id' Hp Hr. apply Hh; [done|]. by apply Hhas.
  - rewrite Hmem. unfold rr_usage. cbn. rewrite (map_sum_delete len _ _ _ Hid). lia.
  - lia.
Qed.

Lemma rr_receive_spec sent self :
  sent_ok sent -> rr_inv sent self ->
  exists self' r, rr_receive_message self = Ret (self', r) /\ rr_inv sent self' /\
    (forall id, has_received self' id <-> has_received self id) /\
    rr_slices self' = rr_slices self /\
    (reliable_order self' = Ordered <-> reliable_order self = Ordered) /\
    received_answer self self' r.
Proof.
  intros Hok Hinv. pose proof Hinv as [Hm Hs Hr Hh Hmem Hmax Ho]. unfold rr_receive_message, received_answer.
  assert (forall id m, rr_messages self !! id = Some m -> len m <= rr_memory self) as Hle.
  { intros id m Hid. rewrite Hmem. unfold rr_usage. pose proof (map_sum_lookup_le len _ _ _ len_nonneg Hid).
    pose proof (map_sum_nonneg_lookup _ _ (rr_slices_nonneg _ _ Hinv)). lia. }
  destruct (reliable_order self) as [|mr received] eqn:E.
  - destruct (rr_messages self !! oldest_pending_message_id self) as [m|] eqn:Em.
    2:{ exists self, None. rewrite E. done. }
    pose proof (Hm _ _ Em) as (Hsent & _). pose proof (sent_at_lt _ _ _ Hsent). pose proof (Hle _ _ Em).
    pose proof (proj2 Hok). rewrite add64_ok by (unfold VARINT_MAX, U64_MAX in *; lia). cbn. rewrite sub64_ok by lia. cbn.
    assert (forall id', has_received (mkRecvReliable (rr_slices self) (delete (oldest_pending_message_id self) (rr_messages self))
      (oldest_pending_message_id self + 1) Ordered (rr_memory self - len m) (rr_max_memory self)) id' <-> has_received self id') as Hhas.
    { intros id'. unfold has_received. rewrite E. cbn. rewrite lookup_delete_is_Some.
      destruct (decide (id' = oldest_pending_message_id self)) as [->|]; [|naive_solver lia].
      split; [intros _; right; by eexists|intros _; left; lia]. }
    eexists _, _. split; [done|]. split_and!; try done; [apply rr_inv_pop; try done; lia|by eauto].
  - destruct (pop_first (rr_messages self)) as [[[id m] ms]|] eqn:Ep.
    2:{ exists self, None. rewrite E. split_and!; try done. by apply pop_first_None. }
    apply pop_first_Some in Ep as (Eid & -> & Hleast). pose proof (Hle _ _ Eid).
    assert (forall id', id' ∈ received -> id' < U64_MAX) as Hlt.
    { intros id' Hin. destruct (Hh id') as [m' Hm']; [pose proof (Hr _ _ _ eq_refl Hin); lia|right; by rewrite E|].
      apply sent_at_lt in Hm'. pose proof (proj2 Hok). unfold VARINT_MAX, U64_MAX in *. lia. }
    assert (exists o' rec', (if oldest_pending_message_id self =? id
       then skip_received (S (size received)) (oldest_pending_message_id self) received
       else Ret (oldest_pending_message_id self, received)) = Ret (o', rec') /\
       oldest_pending_message_id self <= o' /\ (forall i, oldest_pending_message_id self <= i < o' -> i ∈ received) /\
       (forall i, i ∈ rec' <-> i ∈ received /\ ~ (oldest_pending_message_id self <= i < o'))) as (o' & rec' & -> & Ho' & Hskip & Hrec).
    { destruct (_ =? id).
      - destruct (skip_received_spec (S (size received)) (oldest_pending_message_id self) received) as (? & ? & ? & ? & ? & ? & ?); try done; [lia|].
        by eexists _, _.
      - eexists _, _. split; [done|]. split_and!; [lia|intros; lia|]. intros; split; [split; [done|lia]|tauto]. }
    cbn. rewrite sub64_ok by lia. cbn. eexists _, _. split; [done|].
    assert (forall id', has_received (mkRecvReliable (rr_slices self) (delete id (rr_messages self)) o' (Unordered mr rec')
      (rr_memory self - len m) (rr_max_memory self)) id' <-> has_received self id') as Hhas.
    { intros id'. unfold has_received. rewrite E. cbn. rewrite Hrec.
      destruct (decide (oldest_pending_message_id self <= id' < o')) as [Hi|]; [|tauto || (split; [intros [?|[? ?]]|intros [?|?]]; try tauto; lia)].
      pose proof (Hskip id' Hi). split; intros; [by right|left; lia]. }
    split_and!; try done; [|exists id; split_and!; try done; intros id' [m' H']; by eapply Hleast].
    apply rr_inv_pop; try done.
    + intros mr' r' id' H' Hin. simplify_eq. apply Hrec in Hin as [Hin Hni]. pose proof (Hr _ _ _ eq_refl Hin). lia.
    + destruct (decide (o' = oldest_pending_message_id self)) as [->|]; [lia|].
      destruct (Hh (o' - 1)) as [m' Hm']; [lia|right; rewrite E; apply Hskip; lia|]. apply sent_at_lt in Hm'. lia.
Qed.

(** ** Properties *)

(** The complete behaviour of [process_message] on a reliable channel: a
    message already received (delivered or waiting) changes nothing but the
    largest id seen; a new one is refused with [ReliableChannelMaxMemoryReached]
    exactly when it does not fit in memory, and otherwise stored, marked as
    received and counted. *)
Theorem reliable_process_message self message id :
  rr_memory self + len message <= U64_MAX ->
  rr_process_message self message id =
    Ret (if decide (has_received self id) then (rr_bump self id, Ok tt)
         else if rr_max_memory self <? rr_memory self + len message
         then (rr_bump self id, Err ReliableChannelMaxMemoryReached)
         else (rr_stored self message id, Ok tt)).
Proof. apply rr_process_message_spec. Qed.

Lemma reliable_process_message_witness :
  (let! (self, _) := rr_process_message (rr_new 10 false) [byte_of 1] 3 in
   let! (self, _) := rr_process_message self [byte_of 1] 3 in
   Ret (rr_memory self)) = Ret 1.
Proof.
  rewrite (reliable_process_message (rr_new 10 false) [byte_of 1] 3) by (vm_compute; discriminate).
  vm_compute. reflexivity.
Defined.

(** A message of two slices and its slices. *)
Definition leak_message : Bytes := replicate 1201 (byte_of 1).
Definition leak_slice (i : Z) : Slice := mkSlice 1 i 2 (slice_bytes leak_message i).

(** On an unordered channel, a repeated slice of a message that was already
    delivered, but whose predecessor is still missing, reserves memory for the
    message again, and that memory is never given back: when both messages have
    been delivered and nothing is pending, 2400 bytes remain counted. *)
Theorem unordered_duplicate_slice_leaks :
  (let! (self, _) := rr_process_slice (rr_new 100000 false) (leak_slice 0) in
   let! (self, _) := rr_process_slice self (leak_slice 1) in
   let! (self, m1) := rr_receive_message self in
   let! (self, _) := rr_process_slice self (leak_slice 0) in
   let! (self, _) := rr_process_message self [byte_of 2] 0 in
   let! (self, m0) := rr_receive_message self in
   let! (self, none) := rr_receive_message self in
   Ret (len <$> m1, len <$> m0, none, oldest_pending_message_id self, rr_memory self))
  = Ret (Some 1201, Some 1, None, 2, 2400).
Proof. vm_compute. reflexivity. Qed.
