(* ===== verification/Unreliable.v ===== *)
(** * The unreliable channels
      ([SendChannelUnreliable], [ReceiveChannelUnreliable] of renet/src/channel/unreliable.rs)

    State and operations of both halves, memory accounting, the packets that
    [get_packets_to_send] builds, and reassembly of sliced messages with the
    expiry of incomplete ones. *)

From S2P Require Import Prelude Octets Packet SliceConstructor ReliableSend ReliableRecv.

Record SendChannelUnreliable := mkSendUnreliable {
  su_channel_id : Z;
  unreliable_messages : list Bytes;
  sliced_message_id : Z;
  su_max_memory : Z;
  su_memory : Z;
}.

Record ReceiveChannelUnreliable := mkRecvUnreliable {
  ru_channel_id : Z;
  ru_messages : list Bytes;
  ru_slices : gmap Z SliceConstructor;
  slices_last_received : gmap Z Z;
  ru_max_memory : Z;
  ru_memory : Z;
}.

(** ** Sending *)

(** [SendChannelUnreliable::new]. *)
Definition su_new (channel_id max_memory_usage_bytes : Z) : SendChannelUnreliable :=
  mkSendUnreliable channel_id [] 0 max_memory_usage_bytes 0.

Definition su_can_send_message (self : SendChannelUnreliable) (size_bytes : Z) : out bool :=
  let! total := add64 size_bytes (su_memory self) in
  Ret (total <=? su_max_memory self).

Definition su_available_memory (self : SendChannelUnreliable) : out Z :=
  sub64 (su_max_memory self) (su_memory self).

(** [SendChannelUnreliable::send_message]; the warnings it logs are not modelled. *)
Definition su_send_message (self : SendChannelUnreliable) (message : Bytes) : out SendChannelUnreliable :=
  let! total := add64 (su_memory self) (len message) in
  if su_max_memory self <? total then Ret self
  else
    Ret (mkSendUnreliable (su_channel_id self) (unreliable_messages self ++ [message])
           (sliced_message_id self) (su_max_memory self) total).

(** The variables the loop of [get_packets_to_send] mutates. *)
Record usend_loop := mkUSendLoop {
  ul_packets : list Packet;
  ul_small : list Bytes;
  ul_small_bytes : Z;
  ul_sequence : Z;
  ul_available : Z;
  ul_memory : Z;
  ul_sliced_id : Z;
}.

Section get_packets.
Context {oct : Octets}.
Context (channel_id : Z).

(** The packets of one sliced message: the loop over [slice_index]. *)
Fixpoint usend_slices (message_id : Z) (message : Bytes) (num_slices : Z) (indices : list Z)
    (packets : list Packet) (sequence : Z) : out (list Packet * Z) :=
  match indices with
  | [] => Ret (packets, sequence)
  | slice_index :: indices' =>
      let! start := mul64 slice_index SLICE_SIZE in
      let! last := sub64 num_slices 1 in
      let! end_ := (if slice_index =? last then Ret (len message)
                    else let! next := add64 slice_index 1 in mul64 next SLICE_SIZE) in
      let! payload := sub_slice message start end_ in
      let slice := mkSlice message_id slice_index num_slices payload in
      let! sequence' := add64 sequence 1 in
      usend_slices message_id message num_slices indices'
        (packets ++ [UnreliableSlice sequence channel_id slice]) sequence'
  end.

(** Flush the pending small messages into a packet. *)
Definition upush_small (st : usend_loop) : out usend_loop :=
  let! sequence := add64 (ul_sequence st) 1 in
  Ret {| ul_packets := ul_packets st ++ [SmallUnreliable (ul_sequence st) channel_id (ul_small st)];
         ul_small := [];
         ul_small_bytes := 0;
         ul_sequence := sequence;
         ul_available := ul_available st;
         ul_memory := ul_memory st;
         ul_sliced_id := ul_sliced_id st |}.

(** A message that fits in a packet. *)
Definition usend_small (st : usend_loop) (message : Bytes) (memory available : Z) : out usend_loop :=
  let! serialized_size := add64 (len message) (varint_len (len message)) in
  let! total := add64 (ul_small_bytes st) serialized_size in
  let! st := (if SLICE_SIZE <? total then upush_small st else Ret st) in
  let! small_bytes := add64 (ul_small_bytes st) serialized_size in
  Ret {| ul_packets := ul_packets st; ul_small := ul_small st ++ [message]; ul_small_bytes := small_bytes;
         ul_sequence := ul_sequence st; ul_available := available; ul_memory := memory;
         ul_sliced_id := ul_sliced_id st |}.

(** One turn of the loop, on the message just popped. *)
Definition usend_one (st : usend_loop) (message : Bytes) : out usend_loop :=
  let! memory := sub64 (ul_memory st) (len message) in
  if ul_available st <? len message then
    Ret {| ul_packets := ul_packets st; ul_small := ul_small st; ul_small_bytes := ul_small_bytes st;
           ul_sequence := ul_sequence st; ul_available := ul_available st; ul_memory := memory;
           ul_sliced_id := ul_sliced_id st |}
  else
    let! available := sub64 (ul_available st) (len message) in
    if SLICE_SIZE <? len message then
      let num_slices := div_ceil (len message) SLICE_SIZE in
      let! (packets, sequence) :=
        usend_slices (ul_sliced_id st) message num_slices (seqZ 0 num_slices) (ul_packets st) (ul_sequence st) in
      let! sliced_id := add64 (ul_sliced_id st) 1 in
      Ret {| ul_packets := packets; ul_small := ul_small st; ul_small_bytes := ul_small_bytes st;
             ul_sequence := sequence; ul_available := available; ul_memory := memory;
             ul_sliced_id := sliced_id |}
    else
      usend_small st message memory available.

End get_packets.

(** [SendChannelUnreliable::get_packets_to_send]: the packets, the advanced
    [packet_sequence] and the remaining [available_bytes]. *)
Definition su_get_packets_to_send {oct : Octets} (self : SendChannelUnreliable)
    (packet_sequence available_bytes : Z) : out (SendChannelUnreliable * Z * Z * list Packet) :=
  let! st := fold_out (usend_one (su_channel_id self))
    {| ul_packets := []; ul_small := []; ul_small_bytes := 0; ul_sequence := packet_sequence;
       ul_available := available_bytes; ul_memory := su_memory self; ul_sliced_id := sliced_message_id self |}
    (unreliable_messages self) in
  let! st := (if bool_decide (ul_small st = []) then Ret st else upush_small (su_channel_id self) st) in
  Ret (mkSendUnreliable (su_channel_id self) [] (ul_sliced_id st) (su_max_memory self) (ul_memory st),
       ul_sequence st, ul_available st, ul_packets st).

(** ** Receiving *)

(** [ReceiveChannelUnreliable::new]. *)
Definition ru_new (channel_id max_memory_usage_bytes : Z) : ReceiveChannelUnreliable :=
  mkRecvUnreliable channel_id [] ∅ ∅ max_memory_usage_bytes 0.

(** [ReceiveChannelUnreliable::process_message]. *)
Definition ru_process_message (self : ReceiveChannelUnreliable) (message : Bytes) : out ReceiveChannelUnreliable :=
  let! total := add64 (ru_memory self) (len message) in
  if ru_max_memory self <? total then Ret self
  else Ret (mkRecvUnreliable (ru_channel_id self) (ru_messages self ++ [message]) (ru_slices self)
              (slices_last_received self) (ru_max_memory self) total).

(** The second part of [process_slice], once memory for the message is reserved. *)
Definition ru_add_slice (self : ReceiveChannelUnreliable) (slice : Slice) (current_time : Z)
    (constructor : SliceConstructor) (memory : Z) : out (ReceiveChannelUnreliable * result unit ChannelError) :=
  let! (constructor, r) := sc_process_slice constructor (slice_index slice) (payload slice) in
  match r with
  | Err e =>
      Ret (mkRecvUnreliable (ru_channel_id self) (ru_messages self)
             (<[message_id slice := constructor]> (ru_slices self)) (slices_last_received self)
             (ru_max_memory self) memory, Err e)
  | Ok (Some message) =>
      let! message_len := mul64 (num_slices slice) SLICE_SIZE in
      let! memory := sub64 memory message_len in
      let! memory := add64 memory (len message) in
      Ret (mkRecvUnreliable (ru_channel_id self) (ru_messages self ++ [message])
             (delete (message_id slice) (ru_slices self))
             (delete (message_id slice) (slices_last_received self))
             (ru_max_memory self) memory, Ok tt)
  | Ok None =>
      Ret (mkRecvUnreliable (ru_channel_id self) (ru_messages self)
             (<[message_id slice := constructor]> (ru_slices self))
             (<[message_id slice := current_time]> (slices_last_received self))
             (ru_max_memory self) memory, Ok tt)
  end.

(** [ReceiveChannelUnreliable::process_slice]. *)
Definition ru_process_slice (self : ReceiveChannelUnreliable) (slice : Slice) (current_time : Z)
    : out (ReceiveChannelUnreliable * result unit ChannelError) :=
  match ru_slices self !! message_id slice with
  | Some constructor => ru_add_slice self slice current_time constructor (ru_memory self)
  | None =>
      let! message_len := mul64 (num_slices slice) SLICE_SIZE in
      let! total := add64 (ru_memory self) message_len in
      if ru_max_memory self <? total then Ret (self, Ok tt)
      else
        let! constructor := sc_new (message_id slice) (num_slices slice) in
        ru_add_slice self slice current_time constructor total
  end.

Definition SLICE_DISCARD_AFTER : Z := from_secs 3.

(** The first loop of [discard_incomplete_old_slices]: it stops at the first
    message that has not expired. *)
Fixpoint lost_messages (current_time : Z) (it : list (Z * Z)) : out (list Z) :=
  match it with
  | [] => Ret []
  | (message_id, last_received) :: it' =>
      let! elapsed := dur_sub current_time last_received in
      if SLICE_DISCARD_AFTER <=? elapsed then
        let! rest := lost_messages current_time it' in
        Ret (message_id :: rest)
      else Ret []
  end.

(** One turn of its second loop. *)
Definition ru_discard (self : ReceiveChannelUnreliable) (message_id : Z) : out ReceiveChannelUnreliable :=
  let! slice := unwrap (ru_slices self !! message_id) in
  let! message_len := mul64 (sc_num_slices slice) SLICE_SIZE in
  let! memory := sub64 (ru_memory self) message_len in
  Ret (mkRecvUnreliable (ru_channel_id self) (ru_messages self) (delete message_id (ru_slices self))
         (delete message_id (slices_last_received self)) (ru_max_memory self) memory).

(** [ReceiveChannelUnreliable::discard_incomplete_old_slices]. *)
Definition ru_discard_incomplete_old_slices (self : ReceiveChannelUnreliable) (current_time : Z)
    : out ReceiveChannelUnreliable :=
  let! lost := lost_messages current_time (btree_iter (slices_last_received self)) in
  fold_out ru_discard self lost.

(** [ReceiveChannelUnreliable::receive_message]. *)
Definition ru_receive_message (self : ReceiveChannelUnreliable) : out (ReceiveChannelUnreliable * option Bytes) :=
  match ru_messages self with
  | message :: messages =>
      let! memory := sub64 (ru_memory self) (len message) in
      Ret (mkRecvUnreliable (ru_channel_id self) messages (ru_slices self) (slices_last_received self)
             (ru_max_memory self) memory, Some message)
  | [] => Ret (self, None)
  end.

(** ** What [get_packets_to_send] transmits *)

(** The queued messages that fit the byte budget, taken greedily in order. *)
Fixpoint transmitted (available : Z) (messages : list Bytes) : list Bytes :=
  match messages with
  | [] => []
  | m :: messages' =>
      if available <? len m then transmitted available messages'
      else m :: transmitted (available - len m) messages'
  end.

Definition is_big (m : Bytes) : Prop := SLICE_SIZE < len m.

#[export] Instance is_big_dec m : Decision (is_big m).
Proof. unfold is_big. apply _. Defined.

Definition bigs (ms : list Bytes) : list Bytes := filter is_big ms.
Definition smalls (ms : list Bytes) : list Bytes := filter (fun m => ~ is_big m) ms.

(** Every slice of message [m]. *)
Definition all_slices (id : Z) (m : Bytes) : list Slice :=
  (fun i => mkSlice id i (num_slices_of m) (slice_bytes m i)) <$> seqZ 0 (num_slices_of m).

(** The slices of messages numbered from [id]. *)
Fixpoint slices_from (id : Z) (ms : list Bytes) : list Slice :=
  match ms with
  | [] => []
  | m :: ms' => all_slices id m ++ slices_from (id + 1) ms'
  end.

Definition small_unreliable (p : Packet) : list Bytes :=
  match p with SmallUnreliable _ _ ms => ms | _ => [] end.

Definition unreliable_slice (p : Packet) : list Slice :=
  match p with UnreliableSlice _ _ s => [s] | _ => [] end.

Definition small_content (ps : list Packet) : list Bytes := concat (small_unreliable <$> ps).
Definition slice_content (ps : list Packet) : list Slice := concat (unreliable_slice <$> ps).

Lemma small_content_app ps qs : small_content (ps ++ qs) = small_content ps ++ small_content qs.
Proof. unfold small_content. by rewrite fmap_app, concat_app. Qed.

Lemma slice_content_app ps qs : slice_content (ps ++ qs) = slice_content ps ++ slice_content qs.
Proof. unfold slice_content. by rewrite fmap_app, concat_app. Qed.

(** The most packets the queued messages can need. *)
Definition max_packets (ms : list Bytes) : Z := sum_with (fun m => num_slices_of m + 1) ms.

#[local] Arguments small_content : simpl never.
#[local] Arguments slice_content : simpl never.

Section usending.
Context {oct : Octets} {laws : OctetsLaws oct}.

Definition usmall_size (m : Bytes) : Z := len m + varint_len (len m).

(** The small messages of one packet: within [SLICE_SIZE] bytes, or only one. *)
Definition usmall_group (ms : list Bytes) : Prop :=
  Forall (fun m => len m <= SLICE_SIZE) ms /\ (sum_with usmall_size ms <= SLICE_SIZE \/ exists m, ms = [m]).

(** What the packets of channel [channel_id] look like. *)
Definition upacket_ok (channel_id : Z) (p : Packet) : Prop :=
  match p with
  | SmallUnreliable _ c ms => c = channel_id /\ usmall_group ms
  | UnreliableSlice _ c s => c = channel_id /\ len (payload s) <= SLICE_SIZE
  | _ => False
  end.

Context (channel_id seq0 : Z).

Record uloop_inv (st : usend_loop) : Prop := {
  ui_seq : ul_sequence st = seq0 + len (ul_packets st);
  ui_numbered : numbered seq0 (ul_packets st);
  ui_bytes : ul_small_bytes st = sum_with usmall_size (ul_small st);
  ui_small : usmall_group (ul_small st);
  ui_packets : Forall (upacket_ok channel_id) (ul_packets st);
  ui_available : 0 <= ul_available st;
}.

Lemma usmall_size_range m : len m <= SLICE_SIZE -> 1 <= usmall_size m <= SLICE_SIZE + 2.
Proof using laws.
  intros Hm. unfold usmall_size. pose proof (varint_len_range (len m)). pose proof (varint_len_slice _ Hm).
  pose proof (len_nonneg m). lia.
Qed.

Lemma usmall_group_size ms : usmall_group ms -> 0 <= sum_with usmall_size ms <= SLICE_SIZE + 2.
Proof using laws.
  intros [Hms Hg]. split.
  - rewrite Forall_forall in Hms. pose proof (sum_with_ge_len usmall_size ms 0 ltac:(lia)) as H.
    lapply H; [lia|]. intros x Hx. apply Hms, usmall_size_range in Hx. lia.
  - destruct Hg as [?|[m ->]]; [lia|]. apply Forall_cons in Hms as [Hm _].
    apply usmall_size_range in Hm. cbn. lia.
Qed.

Lemma upush_small_spec st :
  uloop_inv st -> ul_sequence st + 1 <= U64_MAX ->
  exists st', upush_small channel_id st = Ret st' /\ uloop_inv st' /\
    ul_packets st' = ul_packets st ++ [SmallUnreliable (ul_sequence st) channel_id (ul_small st)] /\
    ul_small st' = [] /\ ul_small_bytes st' = 0 /\ ul_sequence st' = ul_sequence st + 1 /\
    ul_available st' = ul_available st /\ ul_memory st' = ul_memory st /\ ul_sliced_id st' = ul_sliced_id st.
Proof.
  intros [Hseq Hnum Hby Hsm Hps Hav] Hs. unfold upush_small. rewrite add64_ok by done. cbn.
  eexists; split; [done|]. split_and!; try done. constructor; cbn; try done.
  - rewrite len_app, len_cons, len_nil. lia.
  - by apply numbered_snoc.
  - split; [done|]. left. cbn. unfold SLICE_SIZE. lia.
  - apply Forall_app. split; [done|]. by apply Forall_singleton.
Qed.

Lemma usend_slices_spec id m k indices packets seq :
  is_big m -> len m <= ISIZE_MAX -> indices = seqZ k (num_slices_of m - k) -> 0 <= k <= num_slices_of m ->
  numbered seq0 packets -> Forall (upacket_ok channel_id) packets -> seq = seq0 + len packets ->
  seq + len indices <= U64_MAX ->
  exists packets', usend_slices channel_id id m (num_slices_of m) indices packets seq
      = Ret (packets', seq + len indices) /\
    numbered seq0 packets' /\ Forall (upacket_ok channel_id) packets' /\
    seq + len indices = seq0 + len packets' /\
    small_content packets' = small_content packets /\
    slice_content packets' = slice_content packets ++
      ((fun i => mkSlice id i (num_slices_of m) (slice_bytes m i)) <$> indices).
Proof.
  unfold is_big. intros Hbig Hmax. destruct (num_slices_bounds m) as [Hn1 Hb]; [unfold SLICE_SIZE in *; lia|].
  revert k packets seq. induction indices as [|i indices IH]; intros k packets seq Hi Hk Hnum Hps Hseq Hle.
  { exists packets. change (len (@nil Z)) with 0 in *. cbn. rewrite Z.add_0_r, app_nil_r. split_and!; try done; lia. }
  assert (num_slices_of m - k <> 0) by (intros E; by rewrite E in Hi).
  rewrite seqZ_cons in Hi by lia. simplify_eq. replace (Z.pred (num_slices_of m - k)) with (num_slices_of m - Z.succ k) in * by lia.
  rewrite len_cons in *. pose proof (len_nonneg (seqZ (Z.succ k) (num_slices_of m - Z.succ k))).
  assert (num_slices_of m * SLICE_SIZE <= U64_MAX) by (unfold SLICE_SIZE, ISIZE_MAX, U64_MAX in *; lia).
  cbn [usend_slices]. rewrite mul64_ok by (unfold SLICE_SIZE in *; lia). cbn [out_bind]. rewrite sub64_ok by lia. cbn [out_bind].
  assert ((if k =? num_slices_of m - 1 then Ret (len m) else let! next0 := add64 k 1 in mul64 next0 SLICE_SIZE)
          = Ret (if k =? num_slices_of m - 1 then len m else (k + 1) * SLICE_SIZE)) as ->.
  { destruct (Z.eqb_spec k (num_slices_of m - 1)); [done|]. rewrite add64_ok by (unfold SLICE_SIZE, U64_MAX in *; lia). cbn.
    by rewrite mul64_ok by (unfold SLICE_SIZE in *; lia). }
  cbn [out_bind]. rewrite (sub_slice_slice m k) by (unfold SLICE_SIZE in *; lia). cbn [out_bind].
  rewrite add64_ok by lia. cbn [out_bind].
  destruct (IH (Z.succ k) (packets ++ [UnreliableSlice (seq0 + len packets) channel_id (mkSlice id k (num_slices_of m) (slice_bytes m k))])
              (seq0 + len packets + 1)) as (ps' & -> & Hn' & Hf' & Hq' & Hsm' & Hsl'); try done; try lia.
  - by apply numbered_snoc.
  - apply Forall_app. split; [done|]. apply Forall_singleton. split; [done|]. cbn.
    unfold slice_bytes, len, SLICE_SIZE. rewrite length_take. lia.
  - rewrite len_app, len_cons, len_nil. lia.
  - exists ps'. split_and!; try done; try lia; [do 2 f_equal; lia|..].
    + rewrite Hsm', small_content_app. cbn. by rewrite app_nil_r.
    + rewrite Hsl', slice_content_app, <- app_assoc. done.
Qed.

(** The small messages put in packets or waiting for one, in order. *)
Definition ucontent (st : usend_loop) : list Bytes := small_content (ul_packets st) ++ ul_small st.

(** [st'] is [st] after the messages [ms] have been popped. *)
Record usent (ms : list Bytes) (st st' : usend_loop) : Prop := {
  us_inv : uloop_inv st';
  us_memory : ul_memory st' = ul_memory st - sum_with len ms;
  us_sequence : ul_sequence st <= ul_sequence st' <= ul_sequence st + max_packets ms;
  us_available : ul_available st' = ul_available st - sum_with len (transmitted (ul_available st) ms);
  us_small : ucontent st' = ucontent st ++ smalls (transmitted (ul_available st) ms);
  us_slices : slice_content (ul_packets st') =
    slice_content (ul_packets st) ++ slices_from (ul_sliced_id st) (bigs (transmitted (ul_available st) ms));
  us_sliced_id : ul_sliced_id st' = ul_sliced_id st + len (bigs (transmitted (ul_available st) ms));
}.

Lemma transmitted_cons a m ms :
  transmitted a (m :: ms) = transmitted a [m] ++ transmitted (a - sum_with len (transmitted a [m])) ms.
Proof. cbn. destruct (a <? len m); cbn; [by rewrite Z.sub_0_r|]. by rewrite Z.add_0_r. Qed.

Lemma slices_from_app id a b : slices_from id (a ++ b) = slices_from id a ++ slices_from (id + len a) b.
Proof.
  revert id. induction a as [|m a IH]; intros id; cbn; [by rewrite len_nil, Z.add_0_r|].
  rewrite IH, len_cons, <- app_assoc. do 3 f_equal. lia.
Qed.

Lemma num_slices_nonneg m : 0 <= num_slices_of m.
Proof.
  destruct (decide (len m = 0)) as [E|E]; [unfold num_slices_of; by rewrite E|].
  pose proof (len_nonneg m). destruct (num_slices_bounds m); lia.
Qed.

Lemma max_packets_nonneg ms : 0 <= max_packets ms.
Proof. apply sum_with_nonneg. intros m. pose proof (num_slices_nonneg m). lia. Qed.

Lemma usend_small_spec st m memory :
  uloop_inv st -> len m <= SLICE_SIZE -> len m <= ul_available st -> ul_sequence st + 1 <= U64_MAX ->
  memory = ul_memory st - len m ->
  exists st', usend_small channel_id st m memory (ul_available st - len m) = Ret st' /\
  ul_memory st' = memory /\ ul_available st' = ul_available st - len m /\
  uloop_inv st' /\ ul_sequence st <= ul_sequence st' <= ul_sequence st + 1 /\
  ucontent st' = ucontent st ++ [m] /\ slice_content (ul_packets st') = slice_content (ul_packets st) /\
  ul_sliced_id st' = ul_sliced_id st.
Proof using laws.
  intros Hinv Hm Hav Hs ->. pose proof (usmall_size_range m Hm) as Hsz. pose proof (len_nonneg m).
  pose proof (usmall_group_size _ (ui_small _ Hinv)) as Hg. rewrite <- (ui_bytes _ Hinv) in Hg.
  pose proof (varint_len_range (len m)). unfold usmall_size in Hsz. unfold usend_small, SLICE_SIZE in *.
  rewrite add64_ok by rlia. cbn. rewrite add64_ok by rlia. cbn.
  destruct (Z.ltb_spec 1200 (ul_small_bytes st + (len m + varint_len (len m)))) as [Hfull|Hfit].
  - destruct (upush_small_spec st Hinv Hs) as (st1 & -> & Hinv1 & Hp & Hsm & Hb & Hq & Ha & Hme & Hid).
    cbn. rewrite Hb, add64_ok by rlia. cbn. eexists; split; [done|].
    cbn. rewrite Hsm, Hid. split_and!; try lia; try done.
    + destruct Hinv1 as [H1 H2 H3 H4 H5 H6]. constructor; cbn; try done; try lia; [unfold usmall_size; lia|].
      split; [by apply Forall_singleton|right; by eexists].
    + unfold ucontent. cbn. rewrite Hp, small_content_app. unfold small_content at 2. cbn. by rewrite app_nil_r.
    + rewrite Hp, slice_content_app. cbn. by rewrite app_nil_r.
  - cbn. rewrite add64_ok by rlia. cbn. eexists; split; [done|].
    cbn. split_and!; try lia; try done.
    + destruct Hinv as [H1 H2 H3 [H4 H4'] H5 H6]. constructor; cbn; try done; try lia.
      * rewrite sum_with_app. cbn. unfold usmall_size at 2. lia.
      * split; [apply Forall_app; split; [done|by apply Forall_singleton]|]. left. rewrite sum_with_app. cbn.
        unfold usmall_size at 2. unfold SLICE_SIZE. lia.
    + unfold ucontent. cbn. by rewrite app_assoc.
Qed.

Lemma usend_one_spec st m :
  uloop_inv st -> len m <= ul_memory st -> len m <= ISIZE_MAX ->
  ul_sequence st + max_packets [m] <= U64_MAX -> ul_sliced_id st + 1 <= U64_MAX ->
  exists st', usend_one channel_id st m = Ret st' /\ usent [m] st st'.
Proof using laws.
  intros Hinv Hmem Hmax Hs Hid. pose proof (len_nonneg m). pose proof (num_slices_nonneg m).
  unfold max_packets in Hs. cbn in Hs.
  unfold usend_one. rewrite sub64_ok by lia. cbn. destruct (Z.ltb_spec (ul_available st) (len m)) as [Hlt|Hge].
  { eexists; split; [done|]. destruct Hinv. constructor; cbn [transmitted ul_available ul_packets ul_sequence ul_memory ul_sliced_id ul_small];
      rewrite ?(proj2 (Z.ltb_lt _ _) Hlt); try (by constructor); cbn; rewrite ?app_nil_r, ?len_nil; try lia; done. }
  assert (transmitted (ul_available st) [m] = [m]) as Htx by (cbn; by rewrite (proj2 (Z.ltb_ge _ _) Hge)).
  rewrite sub64_ok by lia. cbn. destruct (Z.ltb_spec SLICE_SIZE (len m)) as [Hbig|Hsmall].
  - change (div_ceil (len m) SLICE_SIZE) with (num_slices_of m).
    assert (len (seqZ 0 (num_slices_of m)) = num_slices_of m) as Hl by (unfold len; rewrite length_seqZ; lia).
    destruct (usend_slices_spec (ul_sliced_id st) m 0 (seqZ 0 (num_slices_of m)) (ul_packets st) (ul_sequence st))
      as (ps & -> & Hn' & Hf' & Hq' & Hsm' & Hsl'); try done; try lia; [by rewrite Z.sub_0_r|apply Hinv..|].
    cbn. rewrite add64_ok by lia. cbn. eexists; split; [done|].
    assert (bigs [m] = [m] /\ smalls [m] = []) as [Hb Hsm].
    { unfold bigs, smalls. cbn. rewrite decide_True, decide_False by (unfold is_big; lia). done. }
    constructor; cbn -[transmitted]; rewrite ?Htx, ?Hb, ?Hsm.
    + destruct Hinv. constructor; cbn; try done; lia.
    + cbn. lia.
    + unfold max_packets. cbn. lia.
    + cbn. lia.
    + unfold ucontent. cbn. by rewrite Hsm', app_nil_r.
    + cbn. by rewrite Hsl', app_nil_r.
    + rewrite len_cons, len_nil. lia.
  - destruct (usend_small_spec st m (ul_memory st - len m)) as (st' & -> & Hme & Ha & Hinv1 & Hq & Hc & Hsl & Hid1); try done; try lia.
    eexists; split; [done|].
    assert (bigs [m] = [] /\ smalls [m] = [m]) as [Hb Hsm].
    { unfold bigs, smalls. cbn. rewrite decide_False, decide_True by (unfold is_big; lia). done. }
    constructor; cbn -[transmitted]; rewrite ?Htx, ?Hb, ?Hsm; try done; cbn in *; try lia.
    + by rewrite app_nil_r.
    + rewrite len_nil. lia.
Qed.

Lemma usent_cons st st1 st2 m ms : usent [m] st st1 -> usent ms st1 st2 -> usent (m :: ms) st st2.
Proof.
  intros [I1 M1 Q1 A1 C1 L1 D1] [I2 M2 Q2 A2 C2 L2 D2].
  assert (transmitted (ul_available st) (m :: ms) =
    transmitted (ul_available st) [m] ++ transmitted (ul_available st1) ms) as Htx by (by rewrite transmitted_cons, A1).
  constructor; rewrite ?Htx; unfold bigs, smalls, max_packets in *; rewrite ?filter_app, ?sum_with_app, ?len_app; try done.
  - rewrite M2, M1. cbn. lia.
  - cbn in *. lia.
  - lia.
  - by rewrite C2, C1, app_assoc.
  - by rewrite L2, L1, D1, slices_from_app, app_assoc.
  - lia.
Qed.

Lemma usend_all_spec ms : forall st,
  uloop_inv st -> sum_with len ms <= ul_memory st -> Forall (fun m => len m <= ISIZE_MAX) ms ->
  ul_sequence st + max_packets ms <= U64_MAX -> ul_sliced_id st + len ms <= U64_MAX ->
  exists st', fold_out (usend_one channel_id) st ms = Ret st' /\ usent ms st st'.
Proof using laws.
  induction ms as [|m ms IH]; intros st Hinv Hmem Hmax Hs Hid.
  { exists st. split; [done|]. constructor; cbn; rewrite ?app_nil_r, ?len_nil; try done; unfold max_packets; cbn; lia. }
  apply Forall_cons in Hmax as [Hm Hmax]. rewrite len_cons in Hid. pose proof (len_nonneg ms).
  pose proof (max_packets_nonneg ms). pose proof (num_slices_nonneg m).
  assert (0 <= sum_with len ms) by (apply sum_with_nonneg; intros; apply len_nonneg).
  unfold max_packets in *. cbn in Hmem, Hs.
  destruct (usend_one_spec st m) as (st1 & E & Hu1); try done; try (unfold max_packets; cbn); try lia.
  pose proof Hu1 as [I1 M1 Q1 A1 C1 L1 D1]. unfold max_packets in Q1. cbn [sum_with] in M1, Q1.
  assert (len (bigs (transmitted (ul_available st) [m])) <= 1).
  { cbn. destruct (_ <? _); [done|]. unfold bigs. cbn. destruct (decide _); done. }
  destruct (IH st1) as (st2 & E2 & Hu2); try done; try lia.
  cbn [fold_out]. rewrite E. cbn [out_bind]. exists st2. split; [done|]. by eapply usent_cons.
Qed.

End usending.

(** The memory counter is the total length of the queued messages. *)
Record su_inv (self : SendChannelUnreliable) : Prop := {
  su_inv_memory : su_memory self = sum_with len (unreliable_messages self);
  su_inv_max : su_memory self <= su_max_memory self <= ISIZE_MAX;
  su_inv_len : Forall (fun m => len m <= ISIZE_MAX) (unreliable_messages self);
  su_inv_id : 0 <= sliced_message_id self <= VARINT_MAX;
}.

Lemma su_new_inv ch max : 0 <= max <= ISIZE_MAX -> su_inv (su_new ch max).
Proof. intros. constructor; cbn; try done; unfold VARINT_MAX; lia. Qed.

Lemma su_memory_nonneg self : su_inv self -> 0 <= su_memory self.
Proof. intros [-> _ _ _]. apply sum_with_nonneg. intros. apply len_nonneg. Qed.

(** [send_message] queues the message, or drops it when memory is short. *)
Lemma su_send_message_spec self m :
  su_inv self -> len m <= ISIZE_MAX ->
  exists self', su_send_message self m = Ret self' /\ su_inv self' /\
    unreliable_messages self' = unreliable_messages self ++
      (if su_max_memory self <? su_memory self + len m then [] else [m]) /\
    sliced_message_id self' = sliced_message_id self /\ su_channel_id self' = su_channel_id self.
Proof.
  intros Hinv Hm. pose proof (su_memory_nonneg _ Hinv). pose proof Hinv as [Hmem Hmax Hl Hid]. pose proof (len_nonneg m).
  unfold su_send_message. rewrite add64_ok by (unfold ISIZE_MAX, U64_MAX in *; lia). cbn.
  destruct (Z.ltb_spec (su_max_memory self) (su_memory self + len m)).
  { exists self. rewrite app_nil_r. done. }
  eexists; split; [done|]. split_and!; try done. constructor; cbn; try done; try lia.
  - rewrite sum_with_app. cbn. lia.
  - apply Forall_app. split; [done|by apply Forall_singleton].
Qed.

(** The contract of [get_packets_to_send]. *)
Record su_sends {oct : Octets} (self : SendChannelUnreliable) (sequence0 available0 : Z)
    (self' : SendChannelUnreliable) (sequence1 available1 : Z) (packets : list Packet) : Prop := {
  uss_self : self' = mkSendUnreliable (su_channel_id self) []
    (sliced_message_id self + len (bigs (transmitted available0 (unreliable_messages self)))) (su_max_memory self) 0;
  uss_sequence : sequence1 = sequence0 + len packets;
  uss_numbered : numbered sequence0 packets;
  uss_bound : len packets <= max_packets (unreliable_messages self) + 1;
  uss_available : available1 = available0 - sum_with len (transmitted available0 (unreliable_messages self)) /\ 0 <= available1;
  uss_packets : Forall (upacket_ok (su_channel_id self)) packets;
  uss_small : small_content packets = smalls (transmitted available0 (unreliable_messages self));
  uss_slices : slice_content packets =
    slices_from (sliced_message_id self) (bigs (transmitted available0 (unreliable_messages self)));
}.

Lemma su_get_packets_spec {oct : Octets} {laws : OctetsLaws oct} self sequence0 available0 :
  su_inv self -> 0 <= available0 ->
  sequence0 + max_packets (unreliable_messages self) + 1 <= U64_MAX ->
  sliced_message_id self + len (unreliable_messages self) <= VARINT_MAX ->
  exists self' sequence1 available1 packets,
    su_get_packets_to_send self sequence0 available0 = Ret (self', sequence1, available1, packets) /\
    su_sends self sequence0 available0 self' sequence1 available1 packets.
Proof.
  intros [Hmem Hmax Hl Hid] Hav Hs Hids. unfold su_get_packets_to_send.
  match goal with |- context [fold_out _ ?s _] => set (st0 := s) end.
  destruct (usend_all_spec (su_channel_id self) sequence0 (unreliable_messages self) st0) as (st & -> & [I M Q A C L D]);
    cbn; try done; try (unfold VARINT_MAX, U64_MAX in *; lia).
  { constructor; cbn; try done; [rewrite len_nil; lia|]. split; [done|left; done]. }
  unfold ucontent in C. cbn in M, Q, A, C, L, D.
  assert (exists st', (if bool_decide (ul_small st = []) then Ret st else upush_small (su_channel_id self) st) = Ret st' /\
    uloop_inv (su_channel_id self) sequence0 st' /\ small_content (ul_packets st') = small_content (ul_packets st) ++ ul_small st /\
    slice_content (ul_packets st') = slice_content (ul_packets st) /\ ul_available st' = ul_available st /\
    ul_memory st' = ul_memory st /\ ul_sliced_id st' = ul_sliced_id st /\ ul_sequence st' <= ul_sequence st + 1)
    as (st' & -> & I' & C' & L' & A' & M' & D' & Q').
  { case_bool_decide as E; [exists st; rewrite E, app_nil_r; split_and!; try done; lia|].
    destruct (upush_small_spec _ _ st I) as (st' & ? & ? & Hp & ? & ? & ? & ? & ? & ?); [lia|].
    exists st'. rewrite Hp, small_content_app, slice_content_app. unfold small_content at 2, slice_content at 2. cbn.
    rewrite !app_nil_r. split_and!; try done; lia. }
  cbn. eexists _, _, _, _. split; [done|]. pose proof I' as [S' N' _ _ P' Av']. constructor; try done.
  - f_equal; [rewrite D'; done|lia].
  - lia.
  - split; [lia|done].
  - by rewrite C', C.
  - by rewrite L', L.
Qed.

(** ** The receiving half *)

Definition ru_usage (self : ReceiveChannelUnreliable) : Z :=
  sum_with len (ru_messages self) + map_sum (fun sc => sc_num_slices sc * SLICE_SIZE) (ru_slices self).

(** What holds at time [now] of a channel that was only given messages that
    satisfy [P] and slices of the messages [sent], which satisfy [P]. *)
Record ru_inv (P : Bytes -> Prop) (sent : list Bytes) (now : Z) (self : ReceiveChannelUnreliable) : Prop := {
  ru_inv_messages : Forall P (ru_messages self);
  ru_inv_slices : forall id sc, ru_slices self !! id = Some sc ->
    exists m, sent_at sent id m /\ SLICE_SIZE < len m /\ sc_inv m sc /\ count_true (received sc) < num_slices_of m;
  ru_inv_times : forall id, is_Some (slices_last_received self !! id) <-> is_Some (ru_slices self !! id);
  ru_inv_now : forall id t, slices_last_received self !! id = Some t -> t <= now;
  ru_inv_memory : ru_memory self = ru_usage self;
  ru_inv_max : ru_memory self <= ru_max_memory self <= ISIZE_MAX;
}.

Lemma ru_new_inv P sent now ch max : 0 <= max <= ISIZE_MAX -> ru_inv P sent now (ru_new ch max).
Proof. intros. constructor; cbn; try done; try lia. intros id. rewrite !lookup_empty. done. Qed.

Lemma ru_inv_mono P sent l now now' self : now <= now' -> ru_inv P sent now self -> ru_inv P (sent ++ l) now' self.
Proof.
  intros Hle [Hm Hs Ht Hn Hmem Hmax]. constructor; try done.
  - intros id sc Hid. destruct (Hs id sc Hid) as (m & ? & ?). exists m. split; [by apply sent_at_app|done].
  - intros id t Hid. specialize (Hn id t Hid). lia.
Qed.

Lemma ru_slices_nonneg P sent now self :
  ru_inv P sent now self -> forall id sc, ru_slices self !! id = Some sc -> 0 <= sc_num_slices sc * SLICE_SIZE.
Proof.
  intros Hinv id sc Hsc. destruct (ru_inv_slices _ _ _ _ Hinv _ _ Hsc) as (m & _ & Hlen & Hsci & _).
  rewrite (inv_num _ _ Hsci). destruct (num_slices_bounds m); unfold SLICE_SIZE in *; lia.
Qed.

Lemma ru_usage_parts P sent now self :
  ru_inv P sent now self -> 0 <= sum_with len (ru_messages self) /\
  0 <= map_sum (fun sc => sc_num_slices sc * SLICE_SIZE) (ru_slices self).
Proof.
  intros Hinv. split; [apply sum_with_nonneg; intros; apply len_nonneg|].
  apply map_sum_nonneg_lookup. eauto using ru_slices_nonneg.
Qed.

(** [process_message] keeps the message, or drops it when memory is short. *)
Lemma ru_process_message_spec P sent now self m :
  ru_inv P sent now self -> P m -> len m <= ISIZE_MAX ->
  exists self', ru_process_message self m = Ret self' /\ ru_inv P sent now self' /\
    ru_messages self' = ru_messages self ++ (if ru_max_memory self <? ru_memory self + len m then [] else [m]) /\
    ru_slices self' = ru_slices self.
Proof.
  intros Hinv HP Hm. pose proof (ru_usage_parts _ _ _ _ Hinv). pose proof Hinv as [Hms Hs Ht Hn Hmem Hmax].
  unfold ru_usage in Hmem. pose proof (len_nonneg m).
  unfold ru_process_message. rewrite add64_ok by (unfold ISIZE_MAX, U64_MAX in *; lia). cbn.
  destruct (Z.ltb_spec (ru_max_memory self) (ru_memory self + len m)).
  { exists self. by rewrite app_nil_r. }
  eexists; split; [done|]. split_and!; try done. constructor; cbn; try done; try lia.
  - apply Forall_app. split; [done|by apply Forall_singleton].
  - unfold ru_usage. cbn. rewrite sum_with_app. cbn. lia.
Qed.

(** Adding a slice of message [m] to a constructor whose memory is counted in [memory]. *)
Lemma ru_add_slice_spec P sent now self s m sc memory :
  ru_inv P sent now self -> Forall P sent -> slice_of sent s m -> len m + SLICE_SIZE <= ISIZE_MAX ->
  sc_inv m sc -> count_true (received sc) < num_slices_of m ->
  memory = sum_with len (ru_messages self) + num_slices_of m * SLICE_SIZE +
    map_sum (fun sc => sc_num_slices sc * SLICE_SIZE) (delete (message_id s) (ru_slices self)) ->
  memory <= ru_max_memory self ->
  exists self', ru_add_slice self s now sc memory = Ret (self', Ok tt) /\ ru_inv P sent now self' /\
    (ru_messages self' = ru_messages self \/ ru_messages self' = ru_messages self ++ [m]).
Proof.
  intros Hinv HPs (Hsent & Hlen & Hn & Hi & Hp) Hmax Hsc Hc Hmem Hle.
  assert (0 < len m) as Hpos by (unfold SLICE_SIZE in *; lia). destruct (num_slices_bounds m Hpos) as [Hn1 Hb].
  destruct (sc_process_slice_spec m Hpos ltac:(unfold SLICE_SIZE, ISIZE_MAX, U64_MAX in *; lia) sc (slice_index s) Hsc Hi)
    as (sc' & Hr' & Hn' & Hps).
  pose proof (ru_usage_parts _ _ _ _ Hinv) as [Hms0 _]. pose proof (ru_slices_nonneg _ _ _ _ Hinv) as Hnn.
  assert (0 <= map_sum (fun sc => sc_num_slices sc * SLICE_SIZE) (delete (message_id s) (ru_slices self))).
  { apply map_sum_nonneg_lookup. intros id' sc0 [_ H']%lookup_delete_Some. eauto. }
  pose proof Hinv as [Hms Hs Ht Hnow Hm Hmx]. unfold ru_add_slice. rewrite Hp.
  destruct (Z.eqb_spec (count_true (received sc')) (num_slices_of m)) as [E|E].
  - rewrite Hps. cbn. rewrite Hn, mul64_ok by (unfold SLICE_SIZE, ISIZE_MAX, U64_MAX in *; lia). cbn.
    rewrite sub64_ok by lia. cbn. rewrite add64_ok by (unfold SLICE_SIZE, ISIZE_MAX, U64_MAX in *; lia). cbn.
    eexists; split; [done|]. split; [|by right]. constructor; cbn.
    + apply Forall_app. split; [done|]. apply Forall_singleton. eapply Forall_lookup_1; [exact HPs|apply Hsent].
    + intros id' sc0 [_ H']%lookup_delete_Some. eauto.
    + intros id'. rewrite !lookup_delete_is_Some. by rewrite Ht.
    + intros id' t [_ H']%lookup_delete_Some. eauto.
    + unfold ru_usage. cbn. rewrite sum_with_app. cbn. lia.
    + lia.
  - destruct Hps as [-> Hinv']. cbn. eexists; split; [done|]. split; [|by left]. constructor; cbn; try done.
    + intros id' sc0 [[<- <-]|[Hne H']]%lookup_insert_Some; [|eauto]. exists m. split_and!; try done.
      pose proof (count_true_range (received sc')). rewrite (inv_len _ _ Hinv') in *. lia.
    + intros id'. rewrite !lookup_insert_is_Some. by rewrite Ht.
    + intros id' t [[<- <-]|[_ H']]%lookup_insert_Some; [lia|eauto].
    + unfold ru_usage. cbn. rewrite <- insert_delete_eq, map_sum_insert by apply lookup_delete_eq.
      rewrite (inv_num _ _ Hinv'). lia.
    + lia.
Qed.

(** A genuine slice is stored (or dropped when memory is short) without error;
    the queue grows at most by the message the slice belongs to. *)
Lemma ru_process_slice_spec P sent now self s m :
  ru_inv P sent now self -> Forall P sent -> slice_of sent s m -> len m + SLICE_SIZE <= ISIZE_MAX ->
  exists self', ru_process_slice self s now = Ret (self', Ok tt) /\ ru_inv P sent now self' /\
    (ru_messages self' = ru_messages self \/ ru_messages self' = ru_messages self ++ [m]).
Proof.
  intros Hinv HPs Hs Hmax. pose proof Hs as (Hsent & Hlen & Hn & Hi & Hp).
  assert (0 < len m) as Hpos by (unfold SLICE_SIZE in *; lia). destruct (num_slices_bounds m Hpos) as [Hn1 Hb].
  pose proof Hinv as [_ Hsl _ _ Hmem Hmx]. unfold ru_usage in Hmem. unfold ru_process_slice.
  destruct (ru_slices self !! message_id s) as [sc|] eqn:Hsc.
  - destruct (Hsl _ _ Hsc) as (m' & Hs' & _ & Hscinv & Hc). rewrite (sent_at_inj _ _ _ _ Hs' Hsent) in *.
    apply (ru_add_slice_spec P sent now self s m sc); try done; [|lia].
    rewrite (map_sum_delete (fun sc => sc_num_slices sc * SLICE_SIZE) _ _ _ Hsc), (inv_num _ _ Hscinv) in Hmem. lia.
  - rewrite Hn, mul64_ok by (unfold SLICE_SIZE, ISIZE_MAX, U64_MAX in *; lia). cbn.
    rewrite add64_ok by (unfold SLICE_SIZE, ISIZE_MAX, U64_MAX in *; lia). cbn.
    destruct (Z.ltb_spec (ru_max_memory self) (ru_memory self + num_slices_of m * SLICE_SIZE)) as [Hfull|Hroom].
    { exists self. split_and!; try done. by left. }
    destruct (sc_new_inv m Hpos ltac:(unfold SLICE_SIZE, ISIZE_MAX, U64_MAX in *; lia) (message_id s)) as (sc & -> & Hscinv & _ & Hz).
    cbn. apply (ru_add_slice_spec P sent now self s m sc); try done; [|by rewrite delete_id by done; lia].
    rewrite Hz. unfold vec_repeat. rewrite count_true_replicate. lia.
Qed.

(** The ids whose last slice is too old, up to the first that is not. *)
Fixpoint expired_prefix (now : Z) (it : list (Z * Z)) : list Z :=
  match it with
  | [] => []
  | (id, t) :: it' => if SLICE_DISCARD_AFTER <=? now - t then id :: expired_prefix now it' else []
  end.

Lemma lost_messages_spec now it :
  Forall (fun p => p.2 <= now) it -> lost_messages now it = Ret (expired_prefix now it).
Proof.
  induction it as [|[id t] it IH]; intros Hf; [done|]. apply Forall_cons in Hf as [Ht Hf]. cbn in *.
  rewrite dur_sub_ok by done. cbn. destruct (_ <=? _); [|done]. by rewrite IH.
Qed.

Lemma expired_prefix_sub now it id : id ∈ expired_prefix now it -> exists t, (id, t) ∈ it /\ SLICE_DISCARD_AFTER <= now - t.
Proof.
  induction it as [|[id' t'] it IH]; cbn; [by intros []%elem_of_nil|].
  destruct (Z.leb_spec SLICE_DISCARD_AFTER (now - t')); [|by intros []%elem_of_nil].
  intros [->|Hin]%elem_of_cons; [exists t'; split; [left|done]|].
  destruct (IH Hin) as (t & ? & ?). exists t. split; [by right|done].
Qed.

Lemma expired_prefix_NoDup now it : NoDup it.*1 -> NoDup (expired_prefix now it).
Proof.
  induction it as [|[id t] it IH]; cbn; [intros; constructor|]. intros [Hni Hnd]%NoDup_cons.
  destruct (_ <=? _); [|constructor]. constructor; [|by apply IH].
  intros (t' & Hin & _)%expired_prefix_sub. apply Hni. apply list_elem_of_fmap. by exists (id, t').
Qed.

Lemma ru_discard_spec P sent now self id :
  sent_ok sent -> ru_inv P sent now self -> is_Some (ru_slices self !! id) ->
  exists self', ru_discard self id = Ret self' /\ ru_inv P sent now self' /\
    ru_messages self' = ru_messages self /\ ru_slices self' = delete id (ru_slices self) /\
    slices_last_received self' = delete id (slices_last_received self).
Proof.
  intros Hok Hinv [sc Hsc]. pose proof (ru_usage_parts _ _ _ _ Hinv) as [Hms0 _].
  pose proof (ru_slices_nonneg _ _ _ _ Hinv) as Hnn. pose proof Hinv as [Hms Hs Ht Hn Hmem Hmx].
  assert (0 <= map_sum (fun sc => sc_num_slices sc * SLICE_SIZE) (delete id (ru_slices self))).
  { apply map_sum_nonneg_lookup. intros id' sc' [_ H']%lookup_delete_Some. eauto. }
  unfold ru_usage in Hmem. rewrite (map_sum_delete (fun sc => sc_num_slices sc * SLICE_SIZE) _ _ _ Hsc) in Hmem.
  pose proof (Hnn _ _ Hsc). unfold ru_discard. rewrite Hsc. cbn.
  rewrite mul64_ok by (unfold ISIZE_MAX, U64_MAX in *; lia). cbn. rewrite sub64_ok by lia. cbn. eexists; split; [done|].
  split_and!; try done. constructor; cbn; try done.
  - intros id' sc' [_ H']%lookup_delete_Some. eauto.
  - intros id'. rewrite !lookup_delete_is_Some. by rewrite Ht.
  - intros id' t [_ H']%lookup_delete_Some. eauto.
  - unfold ru_usage. cbn. lia.
  - lia.
Qed.

Lemma ru_discard_all_spec P sent now lost : forall self,
  sent_ok sent -> ru_inv P sent now self -> NoDup lost -> (forall id, id ∈ lost -> is_Some (ru_slices self !! id)) ->
  exists self', fold_out ru_discard self lost = Ret self' /\ ru_inv P sent now self' /\
    ru_messages self' = ru_messages self /\
    (forall id, ru_slices self' !! id = if decide (id ∈ lost) then None else ru_slices self !! id).
Proof.
  induction lost as [|id lost IH]; intros self Hok Hinv Hnd Hin; [by exists self|].
  apply NoDup_cons in Hnd as [Hni Hnd].
  destruct (ru_discard_spec P sent now self id) as (self1 & E1 & Hinv1 & Hm1 & Hs1 & _); try done; [apply Hin; left|].
  destruct (IH self1) as (self2 & E2 & Hinv2 & Hm2 & Hs2); try done.
  { intros id' Hid'. rewrite Hs1, lookup_delete_ne by congruence. apply Hin. by right. }
  exists self2. cbn. rewrite E1. cbn. split_and!; try done; [congruence|].
  intros id'. rewrite Hs2, Hs1. destruct (decide (id' = id)) as [->|Hne].
  - rewrite lookup_delete_eq, (decide_True (P := id ∈ id :: lost)) by left. by destruct (decide _).
  - rewrite lookup_delete_ne by done. destruct (decide (id' ∈ lost)).
    + rewrite decide_True by by right. done.
    + rewrite decide_False by (intros [?|?]%elem_of_cons; done). done.
Qed.

(** [discard_incomplete_old_slices] drops exactly the leading run, in id order,
    of messages that received nothing for three seconds. *)
Lemma ru_discard_old_spec P sent now self :
  sent_ok sent -> ru_inv P sent now self ->
  exists self', ru_discard_incomplete_old_slices self now = Ret self' /\ ru_inv P sent now self' /\
    ru_messages self' = ru_messages self /\
    (forall id, ru_slices self' !! id =
       if decide (id ∈ expired_prefix now (btree_iter (slices_last_received self))) then None else ru_slices self !! id).
Proof.
  intros Hok Hinv. unfold ru_discard_incomplete_old_slices. rewrite lost_messages_spec.
  - cbn. apply (ru_discard_all_spec P sent now); try done.
    + apply expired_prefix_NoDup, btree_iter_NoDup.
    + intros id (t & Hin & _)%expired_prefix_sub. apply (ru_inv_times _ _ _ _ Hinv).
      apply elem_of_btree_iter in Hin. by eexists.
  - apply Forall_forall. intros [id t] Hin. apply elem_of_btree_iter in Hin. by eapply (ru_inv_now _ _ _ _ Hinv).
Qed.

Lemma ru_receive_spec P sent now self :
  ru_inv P sent now self ->
  exists self' r, ru_receive_message self = Ret (self', r) /\ ru_inv P sent now self' /\
    match r with
    | Some m => ru_messages self = m :: ru_messages self' /\ P m
    | None => ru_messages self = [] /\ self' = self
    end.
Proof.
  intros Hinv. pose proof (ru_usage_parts _ _ _ _ Hinv) as [Hms0 Hsl0]. pose proof Hinv as [Hms Hs Ht Hn Hmem Hmx].
  unfold ru_usage in Hmem. unfold ru_receive_message. destruct (ru_messages self) as [|m ms] eqn:E; [by exists self, None|].
  cbn in Hmem, Hms0. apply Forall_cons in Hms as [HP Hms]. pose proof (len_nonneg m).
  assert (0 <= sum_with len ms) by (apply sum_with_nonneg; intros; apply len_nonneg).
  rewrite sub64_ok by lia. cbn. eexists _, _. split; [done|]. split; [|done].
  constructor; cbn; try done; [unfold ru_usage; cbn; lia|lia].
Qed.

(** ** Properties *)

(** The contract of [get_packets_to_send] of an unreliable channel: it does
    not panic, empties the queue and frees its memory; of the queued messages it
    sends, in order, exactly those that fit the remaining byte budget (greedily)
    and drops the others; small messages travel whole, larger ones as all of
    their slices under consecutive ids; packets are numbered consecutively. *)
Theorem unreliable_send_contract {oct : Octets} {laws : OctetsLaws oct} self sequence0 available0 :
  su_inv self -> 0 <= available0 ->
  sequence0 + max_packets (unreliable_messages self) + 1 <= U64_MAX ->
  sliced_message_id self + len (unreliable_messages self) <= VARINT_MAX ->
  let tx := transmitted available0 (unreliable_messages self) in
  exists self' sequence1 available1 packets,
    su_get_packets_to_send self sequence0 available0 = Ret (self', sequence1, available1, packets) /\
    unreliable_messages self' = [] /\ su_memory self' = 0 /\
    sequence <$> packets = seqZ sequence0 (len packets) /\ sequence1 = sequence0 + len packets /\
    available1 = available0 - sum_with len tx /\ 0 <= available1 /\
    small_content packets = smalls tx /\
    slice_content packets = slices_from (sliced_message_id self) (bigs tx) /\
    sliced_message_id self' = sliced_message_id self + len (bigs tx).
Proof.
  intros Hinv Hav Hs Hid. cbv zeta. destruct (su_get_packets_spec self sequence0 available0 Hinv Hav Hs Hid)
    as (self' & q & a & ps & E & [-> ? ? ? [? ?] ? ? ?]). eexists _, q, a, ps. split; [exact E|]. by split_and!.
Qed.

(** Three messages, of which the second does not fit the budget and the third is sliced. *)
Definition sample_queue : SendChannelUnreliable :=
  mkSendUnreliable 0 [[byte_of 1]; replicate 2000 (byte_of 2); replicate 1300 (byte_of 3)] 4 10000 3301.

Lemma unreliable_send_contract_witness :
  exists self' packets,
    su_get_packets_to_send sample_queue 0 1500 = Ret (self', 3, 199, packets) /\
    small_content packets = [[byte_of 1]] /\
    slice_content packets = slices_from 4 [replicate 1300 (byte_of 3)].
Proof.
  assert (su_inv sample_queue) as Hinv.
  { constructor; [vm_compute; reflexivity|vm_compute; split; discriminate| |vm_compute; split; discriminate].
    repeat (apply Forall_cons; split; [vm_compute; discriminate|]). apply Forall_nil_2. }
  destruct (unreliable_send_contract sample_queue 0 1500 Hinv) as (self' & q & a & ps & E & _ & _ & _ & _ & _ & _ & Hsm & Hsl & _);
    [lia|vm_compute; discriminate|vm_compute; discriminate|].
  assert (q = 3 /\ a = 199) as [-> ->].
  { assert ((fun r => (r.1.1.2, r.1.2)) <$> out_to_option (su_get_packets_to_send sample_queue 0 1500) = Some (3, 199)) as H
      by (vm_compute; reflexivity). rewrite E in H. by injection H. }
  exists self', ps. split; [exact E|]. split; [rewrite Hsm; vm_compute; reflexivity|rewrite Hsl; vm_compute; reflexivity].
Defined.

(** [discard_incomplete_old_slices] never panics on a consistent channel and
    drops exactly the leading run, in id order, of the incomplete messages that
    received nothing for three seconds, giving their memory back. *)
Theorem unreliable_discard_exact P sent now self :
  sent_ok sent -> ru_inv P sent now self ->
  exists self', ru_discard_incomplete_old_slices self now = Ret self' /\ ru_inv P sent now self' /\
    ru_messages self' = ru_messages self /\
    (forall id, ru_slices self' !! id =
       if decide (id ∈ expired_prefix now (btree_iter (slices_last_received self))) then None else ru_slices self !! id).
Proof. apply ru_discard_old_spec. Qed.

Lemma unreliable_discard_exact_witness :
  exists self', ru_discard_incomplete_old_slices (ru_new 0 10) 0 = Ret self' /\ ru_messages self' = [].
Proof.
  destruct (unreliable_discard_exact (fun _ => True) [] 0 (ru_new 0 10)) as (self' & E & _ & Hm & _).
  - split; [apply Forall_nil_2|vm_compute; discriminate].
  - apply ru_new_inv. unfold ISIZE_MAX. lia.
  - exists self'. split; [exact E|exact Hm].
Defined.

(** Slices of two messages: message 1 is started first, then message 0. *)
Definition expiry_slice (id i : Z) : Slice := mkSlice id i 2 (replicate 1200 (byte_of 1)).

(** The loop stops at the first id that has not expired, although later ids
    may have received their last slice earlier: message 1 received nothing for
    ten seconds, and is kept because message 0 received a slice recently. *)
Theorem unreliable_expired_slice_kept :
  (let! (self, _) := ru_process_slice (ru_new 0 100000) (expiry_slice 1 0) 0 in
   let! (self, _) := ru_process_slice self (expiry_slice 0 0) (from_secs 9) in
   let! self := ru_discard_incomplete_old_slices self (from_secs 10) in
   Ret (bool_decide (is_Some (ru_slices self !! 1)), ru_memory self)) = Ret (true, 4800).
Proof. vm_compute. reflexivity. Qed.
