(* ===== verification/PendingAcks.v ===== *)
(** * Acknowledgement ranges
      ([add_pending_ack], [acked_largest] of renet/src/remote_connection.rs)

    [RenetClient::pending_acks] is a vector of disjoint, sorted, non-adjacent
    ranges of packet sequences. It is compared with the set of sequences it
    stands for. *)

From S2P Require Import Prelude Octets Packet.

(** ** Operations *)

(** The loop of [add_pending_ack] over the ranges; [None] when no range took the
    sequence. *)
Fixpoint fit_pending_ack (sequence : Z) (pending_acks : list Range) : out (option (list Range)) :=
  match pending_acks with
  | [] => Ret None
  | range :: rest =>
      if (r_start range <=? sequence) && (sequence <? r_end range) then Ret (Some pending_acks)
      else
        let! next := add64 sequence 1 in
        if r_start range =? next then Ret (Some (mkRange sequence (r_end range) :: rest))
        else if r_end range =? sequence then
          match rest with
          | following :: rest' =>
              if next =? r_start following
              then Ret (Some (mkRange (r_start range) (r_end following) :: rest'))
              else Ret (Some (mkRange (r_start range) next :: rest))
          | [] => Ret (Some [mkRange (r_start range) next])
          end
        else if next <? r_start range then Ret (Some (mkRange sequence next :: pending_acks))
        else
          let! fitted := fit_pending_ack sequence rest in
          Ret (cons range <$> fitted)
  end.

Definition MAX_PENDING_RANGES : Z := 64.

(** [RenetClient::add_pending_ack]. *)
Definition add_pending_ack (pending_acks : list Range) (sequence : Z) : out (list Range) :=
  match pending_acks with
  | [] => let! next := add64 sequence 1 in Ret [mkRange sequence next]
  | _ =>
      let! fitted := fit_pending_ack sequence pending_acks in
      match fitted with
      | Some pending_acks => Ret pending_acks
      | None =>
          let! next := add64 sequence 1 in
          let pending_acks := pending_acks ++ [mkRange sequence next] in
          Ret (if MAX_PENDING_RANGES <? len pending_acks then tl pending_acks else pending_acks)
      end
  end.

(** [RenetClient::acked_largest]. *)
Fixpoint acked_largest (pending_acks : list Range) (largest_ack : Z) : out (list Range) :=
  match pending_acks with
  | [] => Ret []
  | range :: rest =>
      if largest_ack <? r_start range then Ret pending_acks
      else if r_end range <=? largest_ack then acked_largest rest largest_ack
      else
        let! start := add64 largest_ack 1 in
        if start <? r_end range then Ret (mkRange start (r_end range) :: rest) else Ret rest
  end.

(** ** The set of sequences *)

Definition in_range (x : Z) (r : Range) : Prop := r_start r <= x < r_end r.

Definition acks (rs : list Range) (x : Z) : Prop := Exists (in_range x) rs.

Lemma acks_cons r rs x : acks (r :: rs) x <-> in_range x r \/ acks rs x.
Proof. apply Exists_cons. Qed.

Lemma acks_app rs1 rs2 x : acks (rs1 ++ rs2) x <-> acks rs1 x \/ acks rs2 x.
Proof. apply Exists_app. Qed.

Lemma acks_nil x : acks [] x <-> False.
Proof. apply Exists_nil. Qed.

Lemma wf_ranges_cons r rs :
  wf_ranges (r :: rs) <-> range_ok r /\ Forall (range_before r) rs /\ wf_ranges rs.
Proof.
  unfold wf_ranges. rewrite Forall_cons. split.
  - intros [[? ?] Hs]. apply StronglySorted_inv in Hs as [? ?]. done.
  - intros (? & ? & ? & ?). split; [done|]. by constructor.
Qed.

Lemma wf_ranges_nil : wf_ranges [].
Proof. split; constructor. Qed.

(** A well-formed list lies entirely to the right of a range before its head. *)
Lemma range_before_trans r r1 rs : wf_ranges (r1 :: rs) -> range_before r r1 -> Forall (range_before r) (r1 :: rs).
Proof.
  intros (Hok & Hb & _)%wf_ranges_cons Hr. constructor; [done|]. eapply Forall_impl; [exact Hb|].
  unfold range_before, range_ok in *. intros r2 ?. lia.
Qed.

Lemma Forall_before_acks r rs x : Forall (range_before r) rs -> acks rs x -> r_end r < x.
Proof.
  intros Hf Hx. apply Exists_exists in Hx as (r' & Hin & Hx). rewrite Forall_forall in Hf.
  specialize (Hf r' Hin). unfold in_range, range_before in *. lia.
Qed.

(** What fitting a sequence into a range does: the result is well formed, keeps
    to the right of everything that was on its left, and stands for one more
    sequence; otherwise the sequence lies strictly to the right. *)
Lemma fit_pending_ack_spec s rs :
  wf_ranges rs -> varint s ->
  exists fitted, fit_pending_ack s rs = Ret fitted /\
    match fitted with
    | Some rs' => wf_ranges rs' /\ (forall x, acks rs' x <-> acks rs x \/ x = s) /\
        len rs - 1 <= len rs' <= len rs + 1 /\
        (forall r, Forall (range_before r) rs -> r_end r < s -> Forall (range_before r) rs')
    | None => Forall (fun r => r_end r < s) rs
    end.
Proof.
  intros Hwf Hs. induction rs as [|r rs IH]; [by exists None|].
  pose proof Hwf as (Hr & Hb & Hwf')%wf_ranges_cons. cbn [fit_pending_ack].
  assert (s + 1 <= U64_MAX) as Hs1 by (unfold varint, VARINT_MAX, U64_MAX in *; lia).
  unfold range_ok, varint in *.
  destruct (decide (in_range s r)) as [Hin|Hin]; unfold in_range in Hin.
  { rewrite (proj2 (Z.leb_le _ _)), (proj2 (Z.ltb_lt _ _)) by lia. cbn. eexists; split; [done|].
    split_and!; try done; try lia. intros x. rewrite acks_cons. unfold in_range. intuition lia. }
  assert ((r_start r <=? s) && (s <? r_end r) = false) as ->.
  { apply andb_false_iff. rewrite Z.leb_gt, Z.ltb_ge. lia. }
  rewrite add64_ok by lia. cbn [out_bind].
  destruct (Z.eqb_spec (r_start r) (s + 1)) as [E|E].
  { eexists; split; [done|]. rewrite !len_cons. split_and!; try lia.
    - apply wf_ranges_cons. split_and!; [split; cbn; lia| |done]. eapply Forall_impl; [exact Hb|]. done.
    - intros x. rewrite !acks_cons. unfold in_range. cbn. intuition lia.
    - intros r0 [Hr0 Hf]%Forall_cons Hlt. constructor; [done|done]. }
  destruct (Z.eqb_spec (r_end r) s) as [E2|E2].
  { destruct rs as [|r' rs].
    { eexists; split; [done|]. rewrite !len_cons. split_and!; try lia.
      - apply wf_ranges_cons. split_and!; [split; cbn; lia|constructor|apply wf_ranges_nil].
      - intros x. rewrite !acks_cons, acks_nil. unfold in_range. cbn. intuition lia.
      - intros r0 [Hr0 Hf]%Forall_cons Hlt. by constructor. }
    pose proof Hwf' as (Hr' & Hb' & Hwf'')%wf_ranges_cons. unfold range_ok in Hr'.
    apply Forall_cons in Hb as [Hrr' Hb]. unfold range_before in Hrr'.
    destruct (Z.eqb_spec (s + 1) (r_start r')) as [E3|E3]; (eexists; split; [done|]; rewrite !len_cons; split_and!; try lia).
    - apply wf_ranges_cons. split_and!; [split; cbn; lia| |done]. eapply Forall_impl; [exact Hb'|]. done.
    - intros x. rewrite !acks_cons. unfold in_range. cbn. intuition lia.
    - intros r0 [Hr0 Hf]%Forall_cons Hlt. apply Forall_cons in Hf as [_ Hf]. by constructor.
    - apply wf_ranges_cons. split_and!; [split; cbn; lia| |done]. apply range_before_trans; [done|]. unfold range_before. cbn. lia.
    - intros x. rewrite !acks_cons. unfold in_range. cbn. intuition lia.
    - intros r0 [Hr0 Hf]%Forall_cons Hlt. by constructor. }
  destruct (Z.ltb_spec (s + 1) (r_start r)) as [E4|E4].
  { eexists; split; [done|]. rewrite !len_cons. split_and!; try lia.
    - apply wf_ranges_cons. split_and!; [split; cbn; lia| |done]. apply range_before_trans; [done|]. unfold range_before. cbn. lia.
    - intros x. rewrite !acks_cons. unfold in_range. cbn. intuition lia.
    - intros r0 Hf Hlt. by constructor. }
  destruct (IH Hwf') as (fitted & -> & Hfit). cbn. eexists; split; [done|].
  destruct fitted as [rs'|]; cbn; [|constructor; [lia|done]].
  destruct Hfit as (Hw & Hx & Hl & Hp). rewrite !len_cons. split_and!; try lia.
  - apply wf_ranges_cons. split_and!; [done| |done]. apply Hp; [done|lia].
  - intros x. rewrite !acks_cons, Hx. tauto.
  - intros r0 [Hr0 Hf]%Forall_cons Hlt. constructor; [done|by apply Hp].
Qed.

(** The complete behaviour of [add_pending_ack]: one more sequence, except that
    appending a 65th range forgets the lowest one. *)
Lemma add_pending_ack_spec rs s :
  wf_ranges rs -> varint s ->
  exists rs', add_pending_ack rs s = Ret rs' /\ wf_ranges rs' /\ rs' <> [] /\ len rs' <= len rs + 1 /\
    ((forall x, acks rs' x <-> acks rs x \/ x = s) \/
     (MAX_PENDING_RANGES <= len rs /\ Forall (fun r => r_end r < s) rs /\
      forall x, acks rs' x <-> acks (tl rs) x \/ x = s)).
Proof.
  intros Hwf Hs. assert (s + 1 <= U64_MAX) as Hs1 by (unfold varint, VARINT_MAX, U64_MAX in *; lia).
  assert (range_ok (mkRange s (s + 1))) as Hnew by (unfold range_ok, varint in *; cbn; lia).
  assert (forall x, in_range x (mkRange s (s + 1)) <-> x = s) as Hx by (intros; unfold in_range; cbn; lia).
  unfold add_pending_ack. destruct rs as [|r rs].
  { rewrite add64_ok by done. cbn. eexists; split; [done|]. split_and!; try done.
    - apply wf_ranges_cons. split_and!; [done|constructor|apply wf_ranges_nil].
    - left. intros x. rewrite acks_cons, acks_nil, Hx. tauto. }
  destruct (fit_pending_ack_spec s (r :: rs) Hwf Hs) as (fitted & -> & Hfit). cbn [out_bind].
  destruct fitted as [rs'|].
  { destruct Hfit as (Hw & Hxs & Hl & _). exists rs'. split_and!; try done; [|lia|by left].
    intros ->. assert (acks [] s) as H%acks_nil by (apply Hxs; by right). done. }
  rewrite add64_ok by done. cbn [out_bind]. eexists; split; [done|].
  assert (forall rs, wf_ranges rs -> Forall (fun r => r_end r < s) rs -> wf_ranges (rs ++ [mkRange s (s + 1)])) as Hsnoc.
  { clear -Hnew. induction rs as [|r rs IH]; cbn; intros Hw Hf.
    - apply wf_ranges_cons. split_and!; [done|constructor|apply wf_ranges_nil].
    - apply wf_ranges_cons in Hw as (? & ? & ?). apply Forall_cons in Hf as [? ?].
      apply wf_ranges_cons. split_and!; [done| |by apply IH]. apply Forall_app. split; [done|]. by apply Forall_singleton. }
  pose proof Hwf as (_ & _ & Hwf')%wf_ranges_cons. pose proof Hfit as [_ Hfit']%Forall_cons.
  assert (len ((r :: rs) ++ [mkRange s (s + 1)]) = len rs + 2) as Hlen by (rewrite len_app, !len_cons, len_nil; lia).
  rewrite len_cons. destruct (Z.ltb_spec MAX_PENDING_RANGES (len ((r :: rs) ++ [mkRange s (s + 1)]))) as [Hlt|Hge].
  - cbn [tl app]. split_and!; [by apply Hsnoc|by destruct rs|rewrite len_app, len_cons, len_nil; lia|].
    right. split_and!; [lia|done|]. intros x. rewrite acks_app, acks_cons, acks_nil, Hx. tauto.
  - split_and!; [by apply Hsnoc|done|lia|].
    left. intros x. rewrite acks_app, !acks_cons, acks_nil, Hx. tauto.
Qed.

(** [acked_largest] forgets exactly the sequences up to [largest]. *)
Lemma acked_largest_spec rs largest :
  wf_ranges rs -> 0 <= largest <= VARINT_MAX ->
  exists rs', acked_largest rs largest = Ret rs' /\ wf_ranges rs' /\ len rs' <= len rs /\
    (forall x, acks rs' x <-> acks rs x /\ largest < x).
Proof.
  intros Hwf Hl. induction rs as [|r rs IH].
  { exists []. cbn. split_and!; try done. intros x. rewrite acks_nil. tauto. }
  pose proof Hwf as (Hr & Hb & Hwf')%wf_ranges_cons. unfold range_ok in Hr. cbn [acked_largest]. rewrite len_cons.
  pose proof (fun x => Forall_before_acks r rs x Hb) as Hright.
  destruct (Z.ltb_spec largest (r_start r)).
  { eexists; split; [done|]. rewrite len_cons. split_and!; try done; try lia. intros x. rewrite acks_cons.
    specialize (Hright x). unfold in_range. split; [|tauto]. intros [?|?]; split; try tauto; [lia|]. specialize (Hright ltac:(done)). lia. }
  destruct (Z.leb_spec (r_end r) largest).
  { destruct (IH Hwf') as (rs' & -> & Hw & Hlen & Hx). exists rs'. split_and!; try done; try lia.
    intros x. rewrite Hx, acks_cons. unfold in_range. intuition lia. }
  rewrite add64_ok by (unfold VARINT_MAX, U64_MAX in *; lia). cbn [out_bind].
  destruct (Z.ltb_spec (largest + 1) (r_end r)); (eexists; split; [done|]; rewrite ?len_cons; split_and!; try done; try lia).
  - apply wf_ranges_cons. split_and!; [unfold range_ok; cbn; lia| |done]. eapply Forall_impl; [exact Hb|]. done.
  - intros x. rewrite !acks_cons. specialize (Hright x). unfold in_range. cbn. intuition lia.
  - intros x. rewrite acks_cons. specialize (Hright x). unfold in_range. intuition lia.
Qed.

(** ** The limit of 64 ranges *)

(** Even sequences below [2 * n], highest first. *)
Definition evens_down (n : nat) : list Z := (fun i => 2 * Z.of_nat i) <$> rev (seq 0 n).

Lemma evens_down_S n : evens_down (S n) = 2 * Z.of_nat n :: evens_down n.
Proof. unfold evens_down. by rewrite seq_S, rev_app_distr. Qed.

Lemma add_evens_down n : forall rs,
  2 * Z.of_nat n <= VARINT_MAX ->
  match rs with [] => True | r :: _ => 2 * Z.of_nat n <= r_start r < r_end r end ->
  exists rs', fold_out add_pending_ack rs (evens_down n) = Ret rs' /\ len rs' = len rs + Z.of_nat n.
Proof.
  induction n as [|n IH]; intros rs Hn Hrs; [exists rs; split; [done|lia]|].
  rewrite evens_down_S. cbn [fold_out].
  assert (add_pending_ack rs (2 * Z.of_nat n) = Ret (mkRange (2 * Z.of_nat n) (2 * Z.of_nat n + 1) :: rs)) as ->.
  { unfold add_pending_ack. destruct rs as [|r rs]; cbn [fit_pending_ack].
    - by rewrite add64_ok by (unfold VARINT_MAX, U64_MAX in *; lia).
    - rewrite (proj2 (Z.leb_gt _ _)) by lia. cbn [andb]. rewrite add64_ok by (unfold VARINT_MAX, U64_MAX in *; lia). cbn [out_bind].
      rewrite !(proj2 (Z.eqb_neq _ _)) by lia. by rewrite (proj2 (Z.ltb_lt _ _)) by lia. }
  cbn [out_bind]. destruct (IH (mkRange (2 * Z.of_nat n) (2 * Z.of_nat n + 1) :: rs)) as (rs' & E & Hl); [lia|cbn; lia|].
  exists rs'. split; [done|]. rewrite Hl, len_cons. lia.
Qed.

(** ** Properties *)

Lemma add_pending_acks ss : forall rs,
  wf_ranges rs -> Forall varint ss ->
  exists rs', fold_out add_pending_ack rs ss = Ret rs' /\ wf_ranges rs' /\ len rs' <= len rs + len ss /\
    (forall x, acks rs' x -> acks rs x \/ x ∈ ss) /\
    (len rs + len ss <= MAX_PENDING_RANGES -> forall x, acks rs x \/ x ∈ ss -> acks rs' x).
Proof.
  induction ss as [|s ss IH]; intros rs Hwf Hss.
  { exists rs. split_and!; try done; [rewrite len_nil; lia|by left|]. by intros _ x [?|[]%elem_of_nil]. }
  apply Forall_cons in Hss as [Hs Hss]. rewrite len_cons. pose proof (len_nonneg ss).
  destruct (add_pending_ack_spec rs s Hwf Hs) as (rs1 & E1 & Hwf1 & _ & Hlen1 & Hx1).
  destruct (IH rs1 Hwf1 Hss) as (rs2 & E2 & Hwf2 & Hlen2 & Hsound & Hcomplete).
  exists rs2. cbn [fold_out]. rewrite E1. cbn [out_bind]. split_and!; try done; [lia|..].
  - intros x Hx. apply Hsound in Hx as [Hx|Hx]; [|right; by right].
    destruct Hx1 as [Hx1|(_ & _ & Hx1)]; apply Hx1 in Hx as [Hx| ->]; [by left|right; left| |right; left].
    left. destruct rs; [done|]. apply acks_cons. by right.
  - intros Hmax x Hx. apply Hcomplete; [lia|]. destruct Hx1 as [Hx1|(Hfull & _)]; [|lia].
    destruct Hx as [Hx|[->|Hx]%elem_of_cons]; [left; apply Hx1; by left|left; apply Hx1; by right|by right].
Qed.

(** C35: The pending acknowledgements are the packets received. Whatever sequences
    arrive, in whatever order and however often, [add_pending_ack] does not panic
    and keeps the ranges non-empty, sorted and disjoint with gaps between them;
    only received sequences are ever acknowledged, and up to 64 arrivals all are. *)
Theorem pending_acks_are_received ss :
  Forall varint ss ->
  exists rs, fold_out add_pending_ack [] ss = Ret rs /\ wf_ranges rs /\
    (forall x, acks rs x -> x ∈ ss) /\ (len ss <= MAX_PENDING_RANGES -> forall x, x ∈ ss -> acks rs x).
Proof.
  intros Hss. destruct (add_pending_acks ss [] wf_ranges_nil Hss) as (rs & E & Hwf & _ & Hsound & Hcomplete).
  exists rs. split_and!; try done.
  - intros x Hx. destruct (Hsound x Hx) as [?%acks_nil|?]; done.
  - intros Hl x Hx. apply Hcomplete; [rewrite len_nil; lia|by right].
Qed.

(** The unit test of the code. *)
Lemma pending_acks_are_received_witness :
  exists rs, fold_out add_pending_ack [] [3; 4; 2; 0; 5; 1; 7] = Ret rs /\ rs = [mkRange 0 6; mkRange 7 8] /\
    wf_ranges rs.
Proof.
  destruct (pending_acks_are_received [3; 4; 2; 0; 5; 1; 7]) as (rs & E & Hwf & _).
  - apply Forall_forall. intros x Hx. unfold varint, VARINT_MAX. set_unfold. lia.
  - exists rs. split; [exact E|]. split; [|exact Hwf]. vm_compute in E. injection E as <-. reflexivity.
Defined.

(** When the peer confirms that an acknowledgement reaching up to [largest]
    arrived, [acked_largest] forgets exactly the sequences up to [largest] and
    keeps the ranges well formed. *)
Theorem acked_largest_forgets rs largest :
  wf_ranges rs -> 0 <= largest <= VARINT_MAX ->
  exists rs', acked_largest rs largest = Ret rs' /\ wf_ranges rs' /\
    forall x, acks rs' x <-> acks rs x /\ largest < x.
Proof.
  intros Hwf Hl. destruct (acked_largest_spec rs largest Hwf Hl) as (rs' & ? & ? & _ & ?). by exists rs'.
Qed.

Lemma acked_largest_forgets_witness :
  exists rs', acked_largest [mkRange 0 5; mkRange 10 20; mkRange 30 31] 15 = Ret rs' /\
    rs' = [mkRange 16 20; mkRange 30 31] /\ wf_ranges rs'.
Proof.
  destruct (acked_largest_forgets [mkRange 0 5; mkRange 10 20; mkRange 30 31] 15) as (rs' & E & Hwf & _).
  - rewrite !wf_ranges_cons. unfold range_ok, range_before, VARINT_MAX. split_and!; cbn; try lia; try apply wf_ranges_nil;
      repeat (apply Forall_cons; split; [cbn; lia|]); apply Forall_nil_2.
  - unfold VARINT_MAX. lia.
  - exists rs'. split; [exact E|]. split; [|exact Hwf]. vm_compute in E. injection E as <-. reflexivity.
Defined.

(** The limit of 64 pending ranges is not enforced on ranges inserted before
    an existing one: receiving [n] even sequences in decreasing order leaves [n]
    ranges, for any [n]. *)
Theorem pending_acks_unbounded n :
  2 * Z.of_nat n <= VARINT_MAX ->
  exists rs, fold_out add_pending_ack [] (evens_down n) = Ret rs /\ len rs = Z.of_nat n.
Proof. intros Hn. destruct (add_evens_down n [] Hn I) as (rs & ? & ?). by exists rs. Qed.

Lemma pending_acks_unbounded_witness :
  exists rs, fold_out add_pending_ack [] (evens_down 100) = Ret rs /\ len rs = 100.
Proof. apply (pending_acks_unbounded 100). vm_compute. discriminate. Defined.
