(* ===== verification/Stats.v ===== *)
(** * Connection statistics (renet/src/connection_stats.rs)

    Four rings of 20 counters, one per 300 ms of the last 6 s, and the figures
    derived from them. [f64] is IEEE binary64, computed by the executable
    specification of the Standard Library (round to nearest, ties to even). *)

From Stdlib Require Import SpecFloat.
From S2P Require Import Prelude.

(** ** [f64] *)

Abbreviation f64 := spec_float.

(** [x as f64]. *)
Definition f64_of (x : Z) : f64 := binary_normalize 53 1024 x 0 false.
Definition f64_add : f64 -> f64 -> f64 := SFadd 53 1024.
Definition f64_sub : f64 -> f64 -> f64 := SFsub 53 1024.
Definition f64_mul : f64 -> f64 -> f64 := SFmul 53 1024.
Definition f64_div : f64 -> f64 -> f64 := SFdiv 53 1024.

(** [Duration::as_secs_f64]. *)
Definition as_secs_f64 (d : Z) : f64 :=
  f64_add (f64_of (d / NANOS_PER_SEC)) (f64_div (f64_of (d mod NANOS_PER_SEC)) (f64_of NANOS_PER_SEC)).

(** ** The counters *)

Definition RESOLUTION : Z := from_millis 300.
Definition WINDOW : Z := from_millis 6000.
Definition SIZE : Z := as_millis WINDOW / as_millis RESOLUTION.

Record ConnectionStats := mkStats {
  packets_sent : list Z;
  packets_acked : list Z;
  bytes_sent : list Z;
  bytes_received : list Z;
  current_index : Z;
}.

Definition stats_new : ConnectionStats :=
  mkStats (vec_repeat 0 SIZE) (vec_repeat 0 SIZE) (vec_repeat 0 SIZE) (vec_repeat 0 SIZE) 0.

(** [ConnectionStats::index]; [as usize] truncates to 64 bits. *)
Definition stats_index (time : Z) : Z := (as_millis time / as_millis RESOLUTION) mod 2 ^ 64 mod SIZE.

(** [ConnectionStats::update]. *)
Definition stats_update (self : ConnectionStats) (current_time : Z) : out ConnectionStats :=
  let i := stats_index current_time in
  if current_index self =? i then Ret self
  else
    let! packets_sent := vec_set (packets_sent self) i 0 in
    let! bytes_sent := vec_set (bytes_sent self) i 0 in
    let! bytes_received := vec_set (bytes_received self) i 0 in
    let! packets_acked := vec_set (packets_acked self) i 0 in
    Ret (mkStats packets_sent packets_acked bytes_sent bytes_received i).

(** [counters[i] += n]. *)
Definition vec_add (counters : list Z) (i n : Z) : out (list Z) :=
  let! old := vec_get counters i in
  let! new := add64 old n in
  vec_set counters i new.

(** [ConnectionStats::sent_packets]. *)
Definition stats_sent_packets (self : ConnectionStats) (num_packets bytes : Z) : out ConnectionStats :=
  let! packets_sent := vec_add (packets_sent self) (current_index self) num_packets in
  let! bytes_sent := vec_add (bytes_sent self) (current_index self) bytes in
  Ret (mkStats packets_sent (packets_acked self) bytes_sent (bytes_received self) (current_index self)).

(** [ConnectionStats::received_packet]. *)
Definition stats_received_packet (self : ConnectionStats) (bytes : Z) : out ConnectionStats :=
  let! bytes_received := vec_add (bytes_received self) (current_index self) bytes in
  Ret (mkStats (packets_sent self) (packets_acked self) (bytes_sent self) bytes_received (current_index self)).

(** [ConnectionStats::acked_packet]. *)
Definition stats_acked_packet (self : ConnectionStats) (sent_at current_time : Z) : out ConnectionStats :=
  let! delta := dur_sub current_time sent_at in
  if WINDOW <? delta then Ret self
  else
    let! packets_acked := vec_add (packets_acked self) (stats_index sent_at) 1 in
    Ret (mkStats (packets_sent self) packets_acked (bytes_sent self) (bytes_received self) (current_index self)).

(** [counters.iter().sum()]. *)
Definition vec_sum (counters : list Z) : out Z := fold_out add64 0 counters.

(** The common body of [bytes_sent_per_second] and [bytes_received_per_second]. *)
Definition bytes_per_second (counters : list Z) (current_index current_time : Z) : out f64 :=
  let! total_bytes := vec_sum counters in
  if current_time <? WINDOW then Ret (f64_div (f64_of total_bytes) (as_secs_f64 current_time))
  else
    let! current := vec_get counters current_index in
    let! total_bytes := sub64 total_bytes current in
    Ret (f64_div (f64_of total_bytes) (as_secs_f64 (WINDOW - RESOLUTION))).

Definition bytes_sent_per_second (self : ConnectionStats) (current_time : Z) : out f64 :=
  bytes_per_second (bytes_sent self) (current_index self) current_time.

Definition bytes_received_per_second (self : ConnectionStats) (current_time : Z) : out f64 :=
  bytes_per_second (bytes_received self) (current_index self) current_time.

(** The sum of the counters but the current and last two. *)
Definition settled_sum (counters : list Z) (current_index : Z) : out Z :=
  let! sum := vec_sum counters in
  let! current := vec_get counters current_index in
  let! sum := sub64 sum current in
  let! last := vec_get counters ((current_index + SIZE - 1) mod SIZE) in
  let! sum := sub64 sum last in
  let! last := vec_get counters ((current_index + SIZE - 2) mod SIZE) in
  sub64 sum last.

(** [ConnectionStats::packet_loss]. *)
Definition packet_loss (self : ConnectionStats) : out f64 :=
  let! sent := settled_sum (packets_sent self) (current_index self) in
  let! acked := settled_sum (packets_acked self) (current_index self) in
  let total_packets_sent := f64_of sent in
  let total_packets_acked := f64_of acked in
  if SFeqb total_packets_sent (f64_of 0) then Ret (f64_of 0)
  else Ret (f64_div (f64_sub total_packets_sent total_packets_acked) total_packets_sent).

(** ** The window as a history *)

(** A history gives the amount counted in each 300 ms slot since the start. *)
Definition slot (time : Z) : Z := as_millis time / as_millis RESOLUTION.

(** The ring of counters holds the last [SIZE] slots of [hist]. *)
Definition ring_ok (now : Z) (hist : Z -> Z) (ring : list Z) : Prop :=
  len ring = SIZE /\ forall j, now - SIZE < j <= now -> ring !! Z.to_nat (j mod SIZE) = Some (hist j).

Definition bump (hist : Z -> Z) (j n : Z) : Z -> Z := fun k => if decide (k = j) then hist k + n else hist k.

(** The amount counted in the [n] slots from [j]. *)
Definition slots_sum (hist : Z -> Z) (j n : Z) : Z := sum_with hist (seqZ j n).

Lemma SIZE_val : SIZE = 20.
Proof. reflexivity. Qed.

Lemma mod_SIZE_inj j k now :
  now - SIZE < j <= now -> now - SIZE < k <= now -> Z.to_nat (j mod SIZE) = Z.to_nat (k mod SIZE) -> j = k.
Proof.
  rewrite SIZE_val. intros Hj Hk E. apply Z2Nat.inj in E; [|apply Z.mod_pos_bound; lia..].
  Z.div_mod_to_equations. lia.
Qed.

Lemma slot_index t : 0 <= t -> slot t < 2 ^ 64 -> stats_index t = slot t mod SIZE.
Proof.
  intros Ht Hs. unfold stats_index. fold (slot t). rewrite (Z.mod_small (slot t)); [done|]. split; [|done].
  unfold slot, as_millis, RESOLUTION, from_millis. apply Z.div_pos; [|done]. by apply Z.div_pos.
Qed.

Lemma ring_get now hist ring j :
  ring_ok now hist ring -> now - SIZE < j <= now -> vec_get ring (j mod SIZE) = Ret (hist j).
Proof.
  intros [Hl Hr] Hj. apply vec_get_ok; [|by apply Hr]. apply Z.mod_pos_bound. rewrite SIZE_val. lia.
Qed.

Lemma ring_set now hist hist' ring j :
  ring_ok now hist ring -> now - SIZE < j <= now ->
  (forall k, now - SIZE < k <= now -> k <> j -> hist' k = hist k) ->
  ring_ok now hist' (<[Z.to_nat (j mod SIZE) := hist' j]> ring).
Proof.
  intros [Hl Hr] Hj Hh. split; [unfold len in *; by rewrite length_insert|]. intros k Hk.
  pose proof (Z.mod_pos_bound j SIZE ltac:(rewrite SIZE_val; lia)).
  destruct (decide (k = j)) as [->|Hne]; [apply list_lookup_insert_eq; unfold len in Hl; lia|].
  rewrite list_lookup_insert_ne; [rewrite Hh by done; by apply Hr|].
  intros E. apply Hne. symmetry. by eapply mod_SIZE_inj.
Qed.

Lemma ring_add now hist ring j n :
  ring_ok now hist ring -> now - SIZE < j <= now -> hist j + n <= U64_MAX ->
  exists ring', vec_add ring (j mod SIZE) n = Ret ring' /\ ring_ok now (bump hist j n) ring'.
Proof.
  intros Hr Hj Hn. unfold vec_add. rewrite (ring_get now hist) by done. cbn. rewrite add64_ok by done. cbn.
  pose proof (Z.mod_pos_bound j SIZE ltac:(rewrite SIZE_val; lia)).
  rewrite vec_set_ok by (rewrite (proj1 Hr); lia). eexists; split; [done|].
  replace (hist j + n) with (bump hist j n j) by (unfold bump; by rewrite decide_True).
  eapply ring_set; [done..|]. intros k _ Hne. unfold bump. by rewrite decide_False.
Qed.

(** Entering a new slot reuses the oldest counter. *)
Lemma ring_advance now hist ring :
  ring_ok now hist ring -> hist (now + 1) = 0 ->
  exists ring', vec_set ring ((now + 1) mod SIZE) 0 = Ret ring' /\ ring_ok (now + 1) hist ring'.
Proof.
  intros [Hl Hr] H0. pose proof (Z.mod_pos_bound (now + 1) SIZE ltac:(rewrite SIZE_val; lia)).
  rewrite vec_set_ok by lia. eexists; split; [done|]. split; [unfold len in *; by rewrite length_insert|].
  intros k Hk. destruct (decide (k = now + 1)) as [->|Hne].
  - rewrite H0. apply list_lookup_insert_eq. unfold len in Hl; lia.
  - rewrite list_lookup_insert_ne; [apply Hr; lia|]. intros E. apply Hne. symmetry.
    apply (mod_SIZE_inj _ _ (now + 1)); [rewrite SIZE_val; lia|lia|done].
Qed.

(** ** Sums over the window *)

Lemma sum_with_ext {A} (f g : A -> Z) l : (forall x, x ∈ l -> f x = g x) -> sum_with f l = sum_with g l.
Proof.
  induction l as [|x l IH]; intros Hf; [done|]. cbn. rewrite (Hf x), IH; [done|..].
  - intros; apply Hf; by right.
  - left.
Qed.

Lemma sum_with_fmap {A B} (f : B -> Z) (g : A -> B) l : sum_with f (g <$> l) = sum_with (fun x => f (g x)) l.
Proof. induction l as [|x l IH]; cbn; [done|]. by rewrite IH. Qed.

(** The residues of [SIZE] consecutive slots. *)
Lemma slots_perm now : (fun j => j mod SIZE) <$> seqZ (now - SIZE + 1) SIZE ≡ₚ seqZ 0 SIZE.
Proof.
  apply NoDup_Permutation; [|apply NoDup_seqZ|].
  - apply NoDup_fmap_2_strong; [|apply NoDup_seqZ]. intros j k Hj%elem_of_seqZ Hk%elem_of_seqZ E.
    apply (mod_SIZE_inj j k now); [lia..|]. by rewrite E.
  - intros x. rewrite list_elem_of_fmap, elem_of_seqZ. split.
    + intros (j & -> & _). rewrite Z.add_0_l. apply Z.mod_pos_bound. rewrite SIZE_val. lia.
    + intros Hx. exists (now - (now - x) mod SIZE). rewrite SIZE_val in *.
      pose proof (Z.mod_pos_bound (now - x) 20 ltac:(lia)). split; [|apply elem_of_seqZ; lia].
      Z.div_mod_to_equations. lia.
Qed.

Lemma ring_sum now hist ring :
  ring_ok now hist ring -> sum_with id ring = slots_sum hist (now - SIZE + 1) SIZE.
Proof.
  intros [Hl Hr]. set (at_ i := default 0 (ring !! Z.to_nat i)).
  assert (ring = at_ <$> seqZ 0 SIZE) as Hring.
  { apply (list_eq_same_length _ _ (length ring)); [rewrite length_fmap, length_seqZ; unfold len in Hl; lia|done|].
    intros i x y Hi Hx Hy. apply list_lookup_fmap_Some in Hy as (k & -> & Hk). apply lookup_seqZ in Hk as [-> ?].
    unfold at_. by rewrite Z.add_0_l, Nat2Z.id, Hx. }
  rewrite Hring at 1. rewrite sum_with_fmap, <- (sum_with_perm _ _ _ (slots_perm now)), sum_with_fmap.
  apply sum_with_ext. intros j Hj%elem_of_seqZ. unfold at_. cbn. rewrite Hr by lia. done.
Qed.

Lemma vec_sum_spec_from l : forall acc,
  Forall (fun x => 0 <= x) l -> acc + sum_with id l <= U64_MAX -> fold_out add64 acc l = Ret (acc + sum_with id l).
Proof.
  induction l as [|x l IH]; intros acc Hf Hs; cbn in *; [by rewrite Z.add_0_r|].
  apply Forall_cons in Hf as [Hx Hf]. unfold id in *.
  assert (0 <= sum_with (fun x => x) l).
  { pose proof (sum_with_ge_len (fun x => x) l 0 ltac:(lia)) as Hg. lapply Hg; [lia|]. by apply Forall_forall. }
  rewrite add64_ok by lia. cbn. rewrite IH by (done || lia). f_equal. lia.
Qed.

Lemma ring_nonneg now hist ring : ring_ok now hist ring -> (forall j, 0 <= hist j) -> Forall (fun x => 0 <= x) ring.
Proof.
  intros [Hl Hr] Hh. apply Forall_lookup. intros i x Hi. pose proof (lookup_lt_Some _ _ _ Hi).
  assert (Z.of_nat i ∈ seqZ 0 SIZE) as Hin by (apply elem_of_seqZ; unfold len in Hl; lia).
  rewrite <- (slots_perm now) in Hin. apply list_elem_of_fmap in Hin as (j & E & Hj%elem_of_seqZ).
  specialize (Hr j ltac:(lia)). rewrite <- E, Nat2Z.id, Hi in Hr. simplify_eq. done.
Qed.

Lemma ring_vec_sum now hist ring :
  ring_ok now hist ring -> (forall j, 0 <= hist j) -> slots_sum hist (now - SIZE + 1) SIZE <= U64_MAX ->
  vec_sum ring = Ret (slots_sum hist (now - SIZE + 1) SIZE).
Proof.
  intros Hr Hh Hs. unfold vec_sum. rewrite vec_sum_spec_from.
  - by rewrite Z.add_0_l, (ring_sum now hist).
  - by eapply ring_nonneg.
  - by rewrite Z.add_0_l, (ring_sum now hist).
Qed.

Lemma slots_sum_snoc hist j n : 0 <= n -> slots_sum hist j (n + 1) = slots_sum hist j n + hist (j + n).
Proof. intros Hn. unfold slots_sum. rewrite seqZ_app by lia. rewrite sum_with_app. change (seqZ (j + n) 1) with [j + n]. cbn. lia. Qed.

Lemma mod_back now k : (now mod SIZE + SIZE - k) mod SIZE = (now - k) mod SIZE.
Proof.
  replace (now mod SIZE + SIZE - k) with (now - k + (1 - now / SIZE) * SIZE).
  - by rewrite Z.mod_add.
  - pose proof (Z.div_mod now SIZE ltac:(done)). lia.
Qed.

(** [packet_loss] looks at the 17 slots that are complete and old enough. *)
Lemma ring_settled_sum now hist ring :
  ring_ok now hist ring -> (forall j, 0 <= hist j) -> slots_sum hist (now - SIZE + 1) SIZE <= U64_MAX ->
  settled_sum ring (now mod SIZE) = Ret (slots_sum hist (now - SIZE + 1) (SIZE - 3)).
Proof.
  intros Hr Hh Hs. unfold settled_sum. rewrite (ring_vec_sum now hist) by done. cbn [out_bind].
  pose proof (slots_sum_snoc hist (now - SIZE + 1) (SIZE - 1) ltac:(done)) as H1.
  pose proof (slots_sum_snoc hist (now - SIZE + 1) (SIZE - 2) ltac:(done)) as H2.
  pose proof (slots_sum_snoc hist (now - SIZE + 1) (SIZE - 3) ltac:(done)) as H3.
  assert (0 <= slots_sum hist (now - SIZE + 1) (SIZE - 3)) by (by apply sum_with_nonneg).
  replace (SIZE - 1 + 1) with SIZE in H1 by lia. replace (SIZE - 2 + 1) with (SIZE - 1) in H2 by lia.
  replace (SIZE - 3 + 1) with (SIZE - 2) in H3 by lia.
  replace (now - SIZE + 1 + (SIZE - 1)) with now in H1 by lia. replace (now - SIZE + 1 + (SIZE - 2)) with (now - 1) in H2 by lia.
  replace (now - SIZE + 1 + (SIZE - 3)) with (now - 2) in H3 by lia.
  pose proof (Hh now). pose proof (Hh (now - 1)). pose proof (Hh (now - 2)). rewrite !mod_back.
  assert (SIZE = 20) as HS by done.
  rewrite (ring_get now hist ring now Hr) by lia. cbn [out_bind]. rewrite sub64_ok by lia. cbn [out_bind].
  rewrite (ring_get now hist ring (now - 1) Hr) by lia. cbn [out_bind]. rewrite sub64_ok by lia. cbn [out_bind].
  rewrite (ring_get now hist ring (now - 2) Hr) by lia. cbn [out_bind]. rewrite sub64_ok by lia.
  f_equal. lia.
Qed.

(** ** A run of the statistics against its history *)

Record history := mkHistory {
  h_now : Z;
  h_packets_sent : Z -> Z;
  h_packets_acked : Z -> Z;
  h_bytes_sent : Z -> Z;
  h_bytes_received : Z -> Z;
}.

Definition h_start : history := mkHistory 0 (fun _ => 0) (fun _ => 0) (fun _ => 0) (fun _ => 0).

Inductive stats_op :=
  | OpUpdate (current_time : Z)
  | OpSent (num_packets bytes : Z)
  | OpReceived (bytes : Z)
  | OpAcked (sent_at current_time : Z).

Definition stats_step (self : ConnectionStats) (op : stats_op) : out ConnectionStats :=
  match op with
  | OpUpdate t => stats_update self t
  | OpSent n b => stats_sent_packets self n b
  | OpReceived b => stats_received_packet self b
  | OpAcked s t => stats_acked_packet self s t
  end.

(** What the operation means for the history. *)
Definition history_step (h : history) (op : stats_op) : history :=
  match op with
  | OpUpdate t => mkHistory (slot t) (h_packets_sent h) (h_packets_acked h) (h_bytes_sent h) (h_bytes_received h)
  | OpSent n b => mkHistory (h_now h) (bump (h_packets_sent h) (h_now h) n) (h_packets_acked h)
                    (bump (h_bytes_sent h) (h_now h) b) (h_bytes_received h)
  | OpReceived b => mkHistory (h_now h) (h_packets_sent h) (h_packets_acked h) (h_bytes_sent h)
                      (bump (h_bytes_received h) (h_now h) b)
  | OpAcked s t => mkHistory (h_now h) (h_packets_sent h) (bump (h_packets_acked h) (slot s) 1)
                     (h_bytes_sent h) (h_bytes_received h)
  end.

(** The calls a client makes: time moves forward by at most one slot per
    update, acknowledged packets are at most three seconds old, counters fit. *)
Definition op_ok (h : history) (op : stats_op) : Prop :=
  match op with
  | OpUpdate t => 0 <= t /\ h_now h <= slot t <= h_now h + 1 /\ slot t < 2 ^ 64
  | OpSent n b => 0 <= n /\ 0 <= b /\ h_packets_sent h (h_now h) + n <= U64_MAX /\ h_bytes_sent h (h_now h) + b <= U64_MAX
  | OpReceived b => 0 <= b /\ h_bytes_received h (h_now h) + b <= U64_MAX
  | OpAcked s t => 0 <= s <= t /\ t - s <= from_secs 3 /\ slot t = h_now h /\ h_packets_acked h (slot s) + 1 <= U64_MAX
  end.

Fixpoint ops_ok (h : history) (ops : list stats_op) : Prop :=
  match ops with
  | [] => True
  | op :: ops' => op_ok h op /\ ops_ok (history_step h op) ops'
  end.

Record stats_inv (h : history) (self : ConnectionStats) : Prop := {
  si_index : current_index self = h_now h mod SIZE;
  si_packets_sent : ring_ok (h_now h) (h_packets_sent h) (packets_sent self);
  si_packets_acked : ring_ok (h_now h) (h_packets_acked h) (packets_acked self);
  si_bytes_sent : ring_ok (h_now h) (h_bytes_sent h) (bytes_sent self);
  si_bytes_received : ring_ok (h_now h) (h_bytes_received h) (bytes_received self);
  si_future : forall j, h_now h < j -> h_packets_sent h j = 0 /\ h_packets_acked h j = 0 /\
    h_bytes_sent h j = 0 /\ h_bytes_received h j = 0;
  si_nonneg : forall j, 0 <= h_packets_sent h j /\ 0 <= h_packets_acked h j /\
    0 <= h_bytes_sent h j /\ 0 <= h_bytes_received h j;
  si_now : 0 <= h_now h < 2 ^ 64;
}.

Lemma bump_other hist j n k : k <> j -> bump hist j n k = hist k.
Proof. intros. unfold bump. by rewrite decide_False. Qed.

Lemma bump_nonneg hist j n k : 0 <= hist k -> 0 <= n -> 0 <= bump hist j n k.
Proof. intros. unfold bump. case_decide; lia. Qed.

Lemma stats_new_inv : stats_inv h_start stats_new.
Proof.
  assert (ring_ok 0 (fun _ => 0) (vec_repeat 0 SIZE)) as Hr.
  { split; [by rewrite len_repeat|]. intros j Hj. unfold vec_repeat. apply lookup_replicate. split; [done|].
    pose proof (Z.mod_pos_bound j SIZE ltac:(done)). lia. }
  constructor; cbn; try exact Hr; try (intros; lia). done.
Qed.

Lemma slot_recent s t : 0 <= s <= t -> t - s <= from_secs 3 -> slot t - SIZE < slot s <= slot t.
Proof.
  rewrite SIZE_val. unfold slot, as_millis, from_secs, RESOLUTION, from_millis, NANOS_PER_SEC. intros.
  change (300 * 1000000 / 1000000) with 300. rewrite !Z.div_div by lia. Z.div_mod_to_equations. lia.
Qed.

Lemma stats_step_spec h self op :
  stats_inv h self -> op_ok h op ->
  exists self', stats_step self op = Ret self' /\ stats_inv (history_step h op) self'.
Proof.
  intros [Hi Hps Hpa Hbs Hbr Hf Hn Hnow] Hop. assert (h_now h - SIZE < h_now h <= h_now h) as Hcur by (rewrite SIZE_val; lia).
  destruct op as [t|n b|b|s t]; cbn [stats_step history_step op_ok] in *.
  - destruct Hop as (Ht & Hs & Hlt). unfold stats_update. rewrite slot_index, Hi by done.
    destruct (decide (slot t = h_now h)) as [E|E].
    + rewrite E, Z.eqb_refl. exists self. split; [done|]. by constructor.
    + assert (slot t = h_now h + 1) as -> by lia. rewrite (proj2 (Z.eqb_neq _ _)).
      2:{ rewrite SIZE_val. Z.div_mod_to_equations. lia. }
      destruct (Hf (h_now h + 1) ltac:(lia)) as (F1 & F2 & F3 & F4).
      destruct (ring_advance _ _ _ Hps F1) as (r1 & -> & R1), (ring_advance _ _ _ Hbs F3) as (r3 & -> & R3),
        (ring_advance _ _ _ Hbr F4) as (r4 & -> & R4), (ring_advance _ _ _ Hpa F2) as (r2 & -> & R2).
      cbn [out_bind]. eexists; split; [done|]. constructor; cbn; try done; [|lia]. intros j Hj. apply Hf. lia.
  - destruct Hop as (H1 & H2 & H3 & H4). unfold stats_sent_packets. rewrite Hi.
    destruct (ring_add _ _ _ _ n Hps Hcur H3) as (r1 & -> & R1), (ring_add _ _ _ _ b Hbs Hcur H4) as (r2 & -> & R2).
    cbn [out_bind]. eexists; split; [done|]. constructor; cbn; try done.
    + intros j Hj. rewrite !bump_other by lia. by apply Hf.
    + intros j. destruct (Hn j) as (? & ? & ? & ?). split_and!; try done; by apply bump_nonneg.
  - destruct Hop as (H1 & H2). unfold stats_received_packet. rewrite Hi.
    destruct (ring_add _ _ _ _ b Hbr Hcur H2) as (r1 & -> & R1).
    cbn [out_bind]. eexists; split; [done|]. constructor; cbn; try done.
    + intros j Hj. rewrite !bump_other by lia. by apply Hf.
    + intros j. destruct (Hn j) as (? & ? & ? & ?). split_and!; try done; by apply bump_nonneg.
  - destruct Hop as (H1 & H2 & H3 & H4). pose proof (slot_recent s t H1 H2) as Hs. rewrite H3 in Hs.
    unfold stats_acked_packet. rewrite dur_sub_ok by lia. cbn [out_bind].
    rewrite (proj2 (Z.ltb_ge _ _)) by (unfold WINDOW, from_millis, from_secs, NANOS_PER_SEC in *; lia).
    rewrite slot_index by lia. destruct (ring_add _ _ _ _ 1 Hpa Hs H4) as (r1 & -> & R1).
    cbn [out_bind]. eexists; split; [done|]. constructor; cbn; try done.
    + intros j Hj. rewrite !bump_other by lia. by apply Hf.
    + intros j. destruct (Hn j) as (? & ? & ? & ?). split_and!; try done; by apply bump_nonneg.
Qed.

Lemma stats_run_spec ops : forall h self,
  stats_inv h self -> ops_ok h ops ->
  exists self', fold_out stats_step self ops = Ret self' /\ stats_inv (foldl history_step h ops) self'.
Proof.
  induction ops as [|op ops IH]; intros h self Hinv Hok; [by exists self|]. destruct Hok as [Hop Hok].
  destruct (stats_step_spec h self op Hinv Hop) as (self1 & E1 & Hinv1).
  destruct (IH _ _ Hinv1 Hok) as (self2 & E2 & Hinv2). exists self2. cbn. by rewrite E1.
Qed.

(** ** Room in the counters *)

(** Every counter can still grow by [n]. *)
Definition ring_room (n : Z) (ring : list Z) : Prop :=
  len ring = SIZE /\ Forall (fun x => 0 <= x /\ x + n <= U64_MAX) ring.

Record stats_room (n : Z) (self : ConnectionStats) : Prop := {
  room_index : 0 <= current_index self < SIZE;
  room_packets_sent : ring_room n (packets_sent self);
  room_packets_acked : ring_room n (packets_acked self);
  room_bytes_sent : ring_room n (bytes_sent self);
  room_bytes_received : ring_room n (bytes_received self);
}.

Lemma ring_room_le n m ring : m <= n -> ring_room n ring -> ring_room m ring.
Proof. intros Hle [? Hf]. split; [done|]. eapply Forall_impl; [exact Hf|]. cbn. intros. lia. Qed.

Lemma ring_room_set n ring i x :
  ring_room n ring -> 0 <= i < SIZE -> 0 <= x -> x + n <= U64_MAX ->
  exists ring', vec_set ring i x = Ret ring' /\ ring_room n ring'.
Proof.
  intros [Hl Hf] Hi Hx Hn. rewrite vec_set_ok by lia. eexists; split; [done|].
  split; [unfold len in *; by rewrite length_insert|]. by apply Forall_insert.
Qed.

Lemma ring_room_add n m ring i :
  ring_room n ring -> 0 <= i < SIZE -> 0 <= m <= n ->
  exists ring', vec_add ring i m = Ret ring' /\ ring_room (n - m) ring'.
Proof.
  intros Hr Hi Hm. pose proof Hr as [Hl Hf]. unfold vec_add.
  destruct (vec_get_total ring i) as (x & -> & Hx); [lia|]. cbn.
  destruct (Forall_lookup_1 _ _ _ _ Hf Hx) as [Hx0 Hxn]. rewrite add64_ok by lia. cbn.
  apply ring_room_set; [|done|lia|lia]. apply (ring_room_le n); [lia|done].
Qed.

Lemma stats_index_range t : 0 <= stats_index t < SIZE.
Proof. unfold stats_index. by apply Z.mod_pos_bound. Qed.

Lemma stats_room_le n m self : m <= n -> stats_room n self -> stats_room m self.
Proof. intros Hle []. constructor; [done|by eapply ring_room_le..]. Qed.

Lemma stats_received_room n self bytes :
  stats_room n self -> 0 <= bytes <= n ->
  exists self', stats_received_packet self bytes = Ret self' /\ stats_room (n - bytes) self'.
Proof.
  intros Hr Hb. pose proof (stats_room_le n (n - bytes) self ltac:(lia) Hr) as [].
  unfold stats_received_packet. destruct (ring_room_add n bytes (bytes_received self) (current_index self)) as (r & -> & ?);
    [apply Hr|apply Hr|done|]. cbn. eexists; split; [done|]. by constructor.
Qed.

Lemma stats_acked_room n self sent_at now :
  stats_room n self -> 1 <= n -> sent_at <= now ->
  exists self', stats_acked_packet self sent_at now = Ret self' /\ stats_room (n - 1) self'.
Proof.
  intros Hr Hn Ht. pose proof (stats_room_le n (n - 1) self ltac:(lia) Hr) as Hr'.
  unfold stats_acked_packet. rewrite dur_sub_ok by done. cbn. destruct (_ <? _); [by exists self|].
  destruct (ring_room_add n 1 (packets_acked self) (stats_index sent_at)) as (r & -> & ?);
    [apply Hr|apply stats_index_range|lia|]. cbn. eexists; split; [done|]. destruct Hr'. by constructor.
Qed.

Lemma stats_sent_room n self num bytes :
  stats_room n self -> 0 <= num <= n -> 0 <= bytes <= n ->
  exists self', stats_sent_packets self num bytes = Ret self'.
Proof.
  intros Hr Hn Hb. unfold stats_sent_packets.
  destruct (ring_room_add n num (packets_sent self) (current_index self)) as (r & -> & ?); [apply Hr|apply Hr|done|].
  destruct (ring_room_add n bytes (bytes_sent self) (current_index self)) as (r' & -> & ?); [apply Hr|apply Hr|done|].
  cbn. by eexists.
Qed.

Lemma stats_update_room n self now :
  stats_room n self -> n <= U64_MAX -> exists self', stats_update self now = Ret self' /\ stats_room n self'.
Proof.
  intros [] Hn. unfold stats_update. cbv zeta. destruct (_ =? _); [by exists self|].
  pose proof (stats_index_range now) as Hi.
  destruct (ring_room_set n (packets_sent self) (stats_index now) 0) as (? & -> & ?); [done|done|lia|lia|].
  destruct (ring_room_set n (bytes_sent self) (stats_index now) 0) as (? & -> & ?); [done|done|lia|lia|].
  destruct (ring_room_set n (bytes_received self) (stats_index now) 0) as (? & -> & ?); [done|done|lia|lia|].
  destruct (ring_room_set n (packets_acked self) (stats_index now) 0) as (? & -> & ?); [done|done|lia|lia|].
  cbn. eexists; split; [done|]. by constructor.
Qed.

(** The lengths of the arrays, which every operation keeps. *)
Definition stats_shape (self : ConnectionStats) : Prop :=
  len (packets_sent self) = SIZE /\ len (packets_acked self) = SIZE /\ len (bytes_sent self) = SIZE /\ len (bytes_received self) = SIZE.

Lemma len_vec_set (l l' : list Z) i x : vec_set l i x = Ret l' -> len l' = len l.
Proof. intros [_ ->]%vec_set_inv. unfold len. by rewrite length_insert. Qed.

Lemma len_vec_add l l' i x : vec_add l i x = Ret l' -> len l' = len l.
Proof.
  unfold vec_add. destruct (vec_get _ _); cbn [out_bind]; [|done]. destruct (add64 _ _); cbn [out_bind]; [|done]. apply len_vec_set.
Qed.

Lemma stats_new_shape : stats_shape stats_new.
Proof. by vm_compute. Qed.

Lemma stats_update_shape self now : stats_shape self -> exists self', stats_update self now = Ret self' /\ stats_shape self'.
Proof.
  intros Hs. unfold stats_update. destruct (_ =? _); [exists self; split; [reflexivity|exact Hs]|]. pose proof (stats_index_range now).
  destruct Hs as (H1 & H2 & H3 & H4). rewrite !vec_set_ok by lia. cbn [out_bind]. eexists. split; [reflexivity|].
  split_and!; cbn [packets_sent packets_acked bytes_sent bytes_received]; unfold len in *; rewrite length_insert; assumption.
Qed.

Lemma stats_sent_shape self num bytes self' : stats_sent_packets self num bytes = Ret self' -> stats_shape self -> stats_shape self'.
Proof.
  unfold stats_sent_packets. intros H. destruct (vec_add (packets_sent self) _ _) eqn:E1; cbn [out_bind] in H; [|discriminate H].
  destruct (vec_add (bytes_sent self) _ _) eqn:E2; cbn [out_bind] in H; [|discriminate H]. injection H as <-.
  apply len_vec_add in E1, E2. intros (H1 & H2 & H3 & H4). split_and!; cbn; congruence.
Qed.

Lemma stats_received_shape self bytes self' : stats_received_packet self bytes = Ret self' -> stats_shape self -> stats_shape self'.
Proof.
  unfold stats_received_packet. intros H. destruct (vec_add _ _ _) eqn:E1; cbn [out_bind] in H; [|discriminate H].
  injection H as <-. apply len_vec_add in E1. intros (H1 & H2 & H3 & H4). split_and!; cbn; congruence.
Qed.

Lemma stats_acked_shape self sent_at now self' : stats_acked_packet self sent_at now = Ret self' -> stats_shape self -> stats_shape self'.
Proof.
  unfold stats_acked_packet. intros H. destruct (dur_sub _ _); cbn [out_bind] in H; [|discriminate H].
  destruct (_ <? _); [injection H as <-; intros Hs; exact Hs|].
  destruct (vec_add _ _ _) eqn:E1; cbn [out_bind] in H; [|discriminate H]. injection H as <-. apply len_vec_add in E1.
  intros (H1 & H2 & H3 & H4). split_and!; cbn; congruence.
Qed.

(** ** Properties *)

(** After any run of updates, sends and acknowledgements in which time never
    skips a 300 ms slot, [packet_loss] does not panic and is the loss rate over
    the 17 slots that precede the current one and the last two: zero if nothing
    was sent there, otherwise (sent - acknowledged) / sent in binary64. *)
Theorem packet_loss_of_history ops h :
  ops_ok h_start ops -> foldl history_step h_start ops = h ->
  slots_sum (h_packets_sent h) (h_now h - SIZE + 1) SIZE <= U64_MAX ->
  slots_sum (h_packets_acked h) (h_now h - SIZE + 1) SIZE <= U64_MAX ->
  exists stats, fold_out stats_step stats_new ops = Ret stats /\
    let sent := f64_of (slots_sum (h_packets_sent h) (h_now h - SIZE + 1) (SIZE - 3)) in
    let acked := f64_of (slots_sum (h_packets_acked h) (h_now h - SIZE + 1) (SIZE - 3)) in
    packet_loss stats =
      Ret (if SFeqb sent (f64_of 0) then f64_of 0 else f64_div (f64_sub sent acked) sent).
Proof.
  intros Hok <- Hs Ha. destruct (stats_run_spec ops _ _ stats_new_inv Hok) as (stats & E & [Hi H1 H2 _ _ _ Hn _]).
  exists stats. split; [done|]. cbv zeta. unfold packet_loss. rewrite Hi.
  rewrite (ring_settled_sum _ _ _ H1) by (done || apply Hn). cbn [out_bind].
  rewrite (ring_settled_sum _ _ _ H2) by (done || apply Hn). cbn [out_bind]. by case_match.
Qed.

(** Twenty updates, 100 ms apart, sending two packets and acknowledging one each time. *)
Definition loss_run : list stats_op :=
  i ← seqZ 0 20; [OpUpdate (from_millis (100 * i)); OpSent 2 100; OpAcked (from_millis (100 * i)) (from_millis (100 * i))].

Ltac decide_ops := vm_compute; repeat split; intros ?; discriminate.

(** The unit test of the code: half of the packets are lost. *)
Lemma packet_loss_of_history_witness :
  exists stats, fold_out stats_step stats_new loss_run = Ret stats /\
    packet_loss stats = Ret (f64_div (f64_of 1) (f64_of 2)).
Proof.
  destruct (packet_loss_of_history loss_run (foldl history_step h_start loss_run)) as (stats & E & Hl);
    [decide_ops|reflexivity|decide_ops..|].
  exists stats. split; [exact E|]. rewrite Hl. vm_compute. reflexivity.
Defined.

(** Under the same conditions, once six seconds have passed
    [bytes_sent_per_second] is the number of bytes sent in the 19 complete slots
    of the window divided by 5.7 s, in binary64; before that, all bytes sent
    divided by the elapsed time. *)
Theorem bytes_sent_of_history ops h now :
  ops_ok h_start ops -> foldl history_step h_start ops = h ->
  slots_sum (h_bytes_sent h) (h_now h - SIZE + 1) SIZE <= U64_MAX ->
  exists stats, fold_out stats_step stats_new ops = Ret stats /\
    bytes_sent_per_second stats now =
      Ret (if now <? WINDOW
           then f64_div (f64_of (slots_sum (h_bytes_sent h) (h_now h - SIZE + 1) SIZE)) (as_secs_f64 now)
           else f64_div (f64_of (slots_sum (h_bytes_sent h) (h_now h - SIZE + 1) (SIZE - 1)))
                  (as_secs_f64 (from_millis 5700))).
Proof.
  intros Hok <- Hs. destruct (stats_run_spec ops _ _ stats_new_inv Hok) as (stats & E & [Hi _ _ H1 _ _ Hn _]).
  exists stats. split; [done|]. unfold bytes_sent_per_second, bytes_per_second. rewrite Hi.
  rewrite (ring_vec_sum _ _ _ H1) by (done || apply Hn). cbn [out_bind]. destruct (now <? WINDOW); [done|].
  set (h := foldl history_step h_start ops) in *.
  rewrite (ring_get (h_now h) (h_bytes_sent h) _ (h_now h) H1) by (assert (SIZE = 20) by done; lia). cbn [out_bind].
  pose proof (slots_sum_snoc (h_bytes_sent h) (h_now h - SIZE + 1) (SIZE - 1) ltac:(done)) as Hsn.
  replace (SIZE - 1 + 1) with SIZE in Hsn by lia. replace (h_now h - SIZE + 1 + (SIZE - 1)) with (h_now h) in Hsn by lia.
  assert (0 <= slots_sum (h_bytes_sent h) (h_now h - SIZE + 1) (SIZE - 1)) by (apply sum_with_nonneg; intros; apply Hn).
  rewrite sub64_ok by lia. cbn [out_bind]. do 2 f_equal. f_equal. lia.
Qed.

(** 100 bytes every 100 ms for six seconds. *)
Definition bytes_run : list stats_op :=
  i ← seqZ 0 60; [OpUpdate (from_millis (100 * i)); OpSent 10 100].

(** The unit test of the code: 1000 bytes per second. *)
Lemma bytes_sent_of_history_witness :
  exists stats, fold_out stats_step stats_new bytes_run = Ret stats /\
    bytes_sent_per_second stats (from_millis 6000) = Ret (f64_of 1000).
Proof.
  destruct (bytes_sent_of_history bytes_run (foldl history_step h_start bytes_run) (from_millis 6000)) as (stats & E & Hl);
    [decide_ops|reflexivity|decide_ops|].
  exists stats. split; [exact E|]. rewrite Hl. vm_compute. reflexivity.
Defined.

(** The condition on time is needed: [update] clears only the slot it enters,
    so counters of slots that were skipped survive. 1000 bytes sent at time 0
    are still reported as 1000 / 5.7 bytes per second after a pause of a minute
    (plus one slot). *)
Theorem stats_update_keeps_stale_slots :
  (let! stats := fold_out stats_step stats_new [OpUpdate 0; OpSent 1 1000; OpUpdate (from_millis 60300)] in
   bytes_sent_per_second stats (from_millis 60300))
  = Ret (f64_div (f64_of 1000) (as_secs_f64 (from_millis 5700))).
Proof. vm_compute. reflexivity. Qed.
