(* ===== verification/Connection.v ===== *)
(** * A connection (renet/src/remote_connection.rs, renet/src/channel/mod.rs)

    [RenetClient]: channels by id, packet sequences, acknowledgements and
    status, with every operation of the file. *)

From Stdlib Require Import SpecFloat.
From S2P Require Import Prelude Octets Packet SliceConstructor ReliableSend ReliableRecv Unreliable PendingAcks Stats.

(** ** Configuration *)

Inductive SendType :=
  | STUnreliable
  | STReliableOrdered (resend_time : Z)
  | STReliableUnordered (resend_time : Z).

Record ChannelConfig := mkChannelConfig {
  cc_channel_id : Z;
  cc_max_memory : Z;
  cc_send_type : SendType;
}.

Inductive DefaultChannel :=
  | DefaultUnreliable
  | DefaultReliableOrdered
  | DefaultReliableUnordered.

(** [impl From<DefaultChannel> for u8]. *)
Definition default_channel_id (c : DefaultChannel) : Z :=
  match c with
  | DefaultUnreliable => 0
  | DefaultReliableUnordered => 1
  | DefaultReliableOrdered => 2
  end.

(** [DefaultChannel::config]. *)
Definition default_channels : list ChannelConfig :=
  [mkChannelConfig 0 (5 * 1024 * 1024) STUnreliable;
   mkChannelConfig 1 (5 * 1024 * 1024) (STReliableUnordered (from_millis 300));
   mkChannelConfig 2 (5 * 1024 * 1024) (STReliableOrdered (from_millis 300))].

Record ConnectionConfig := mkConnectionConfig {
  cfg_available_bytes_per_tick : Z;
  server_channels_config : list ChannelConfig;
  client_channels_config : list ChannelConfig;
}.

(** [impl Default for ConnectionConfig]. *)
Definition default_config : ConnectionConfig := mkConnectionConfig 60000 default_channels default_channels.

(** ** State *)

Inductive PacketSentInfo :=
  | InfoNone
  | InfoReliableMessages (channel_id : Z) (message_ids : list Z)
  | InfoReliableSliceMessage (channel_id message_id slice_index : Z)
  | InfoAck (largest_acked_packet : Z).

Record PacketSent := mkPacketSent {
  ps_sent_at : Z;
  ps_info : PacketSentInfo;
}.

Inductive ChannelOrder :=
  | OrderReliable (channel_id : Z)
  | OrderUnreliable (channel_id : Z).

Inductive RenetConnectionStatus :=
  | Connected
  | Connecting
  | Disconnected (reason : DisconnectReason).

Record RenetClient := mkClient {
  packet_sequence : Z;
  current_time : Z;
  sent_packets : gmap Z PacketSent;
  pending_acks : list Range;
  channel_send_order : list ChannelOrder;
  send_unreliable_channels : gmap Z SendChannelUnreliable;
  receive_unreliable_channels : gmap Z ReceiveChannelUnreliable;
  send_reliable_channels : gmap Z SendChannelReliable;
  receive_reliable_channels : gmap Z ReceiveChannelReliable;
  stats : ConnectionStats;
  available_bytes_per_tick : Z;
  connection_status : RenetConnectionStatus;
  rtt : f64;
}.

Definition set_status (c : RenetClient) (x : RenetConnectionStatus) : RenetClient :=
  mkClient (packet_sequence c) (current_time c) (sent_packets c) (pending_acks c) (channel_send_order c)
    (send_unreliable_channels c) (receive_unreliable_channels c) (send_reliable_channels c)
    (receive_reliable_channels c) (stats c) (available_bytes_per_tick c) x (rtt c).
Definition set_sequence (c : RenetClient) (x : Z) : RenetClient :=
  mkClient x (current_time c) (sent_packets c) (pending_acks c) (channel_send_order c)
    (send_unreliable_channels c) (receive_unreliable_channels c) (send_reliable_channels c)
    (receive_reliable_channels c) (stats c) (available_bytes_per_tick c) (connection_status c) (rtt c).
Definition set_time (c : RenetClient) (x : Z) : RenetClient :=
  mkClient (packet_sequence c) x (sent_packets c) (pending_acks c) (channel_send_order c)
    (send_unreliable_channels c) (receive_unreliable_channels c) (send_reliable_channels c)
    (receive_reliable_channels c) (stats c) (available_bytes_per_tick c) (connection_status c) (rtt c).
Definition set_sent_packets (c : RenetClient) (x : gmap Z PacketSent) : RenetClient :=
  mkClient (packet_sequence c) (current_time c) x (pending_acks c) (channel_send_order c)
    (send_unreliable_channels c) (receive_unreliable_channels c) (send_reliable_channels c)
    (receive_reliable_channels c) (stats c) (available_bytes_per_tick c) (connection_status c) (rtt c).
Definition set_pending_acks (c : RenetClient) (x : list Range) : RenetClient :=
  mkClient (packet_sequence c) (current_time c) (sent_packets c) x (channel_send_order c)
    (send_unreliable_channels c) (receive_unreliable_channels c) (send_reliable_channels c)
    (receive_reliable_channels c) (stats c) (available_bytes_per_tick c) (connection_status c) (rtt c).
Definition set_send_unreliable (c : RenetClient) (x : gmap Z SendChannelUnreliable) : RenetClient :=
  mkClient (packet_sequence c) (current_time c) (sent_packets c) (pending_acks c) (channel_send_order c)
    x (receive_unreliable_channels c) (send_reliable_channels c)
    (receive_reliable_channels c) (stats c) (available_bytes_per_tick c) (connection_status c) (rtt c).
Definition set_receive_unreliable (c : RenetClient) (x : gmap Z ReceiveChannelUnreliable) : RenetClient :=
  mkClient (packet_sequence c) (current_time c) (sent_packets c) (pending_acks c) (channel_send_order c)
    (send_unreliable_channels c) x (send_reliable_channels c)
    (receive_reliable_channels c) (stats c) (available_bytes_per_tick c) (connection_status c) (rtt c).
Definition set_send_reliable (c : RenetClient) (x : gmap Z SendChannelReliable) : RenetClient :=
  mkClient (packet_sequence c) (current_time c) (sent_packets c) (pending_acks c) (channel_send_order c)
    (send_unreliable_channels c) (receive_unreliable_channels c) x
    (receive_reliable_channels c) (stats c) (available_bytes_per_tick c) (connection_status c) (rtt c).
Definition set_receive_reliable (c : RenetClient) (x : gmap Z ReceiveChannelReliable) : RenetClient :=
  mkClient (packet_sequence c) (current_time c) (sent_packets c) (pending_acks c) (channel_send_order c)
    (send_unreliable_channels c) (receive_unreliable_channels c) (send_reliable_channels c)
    x (stats c) (available_bytes_per_tick c) (connection_status c) (rtt c).
Definition set_stats (c : RenetClient) (x : ConnectionStats) : RenetClient :=
  mkClient (packet_sequence c) (current_time c) (sent_packets c) (pending_acks c) (channel_send_order c)
    (send_unreliable_channels c) (receive_unreliable_channels c) (send_reliable_channels c)
    (receive_reliable_channels c) x (available_bytes_per_tick c) (connection_status c) (rtt c).
Definition set_rtt (c : RenetClient) (x : f64) : RenetClient :=
  mkClient (packet_sequence c) (current_time c) (sent_packets c) (pending_acks c) (channel_send_order c)
    (send_unreliable_channels c) (receive_unreliable_channels c) (send_reliable_channels c)
    (receive_reliable_channels c) (stats c) (available_bytes_per_tick c) (connection_status c) x.

(** ** Construction *)

(** The first loop of [from_channels]; the assertion panics on a repeated id
    (of the same kind). *)
Fixpoint add_send_channels (configs : list ChannelConfig) (unreliable : gmap Z SendChannelUnreliable)
    (reliable : gmap Z SendChannelReliable) (order : list ChannelOrder)
    : out (gmap Z SendChannelUnreliable * gmap Z SendChannelReliable * list ChannelOrder) :=
  match configs with
  | [] => Ret (unreliable, reliable, order)
  | cfg :: configs' =>
      let id := cc_channel_id cfg in
      match cc_send_type cfg with
      | STUnreliable =>
          if bool_decide (is_Some (unreliable !! id)) then Panic
          else add_send_channels configs' (<[id := su_new id (cc_max_memory cfg)]> unreliable) reliable
                 (order ++ [OrderUnreliable id])
      | STReliableOrdered resend_time | STReliableUnordered resend_time =>
          if bool_decide (is_Some (reliable !! id)) then Panic
          else add_send_channels configs' unreliable
                 (<[id := sr_new id resend_time (cc_max_memory cfg)]> reliable) (order ++ [OrderReliable id])
      end
  end.

(** Its second loop. *)
Fixpoint add_receive_channels (configs : list ChannelConfig) (unreliable : gmap Z ReceiveChannelUnreliable)
    (reliable : gmap Z ReceiveChannelReliable)
    : out (gmap Z ReceiveChannelUnreliable * gmap Z ReceiveChannelReliable) :=
  match configs with
  | [] => Ret (unreliable, reliable)
  | cfg :: configs' =>
      let id := cc_channel_id cfg in
      match cc_send_type cfg with
      | STUnreliable =>
          if bool_decide (is_Some (unreliable !! id)) then Panic
          else add_receive_channels configs' (<[id := ru_new id (cc_max_memory cfg)]> unreliable) reliable
      | STReliableOrdered _ =>
          if bool_decide (is_Some (reliable !! id)) then Panic
          else add_receive_channels configs' unreliable (<[id := rr_new (cc_max_memory cfg) true]> reliable)
      | STReliableUnordered _ =>
          if bool_decide (is_Some (reliable !! id)) then Panic
          else add_receive_channels configs' unreliable (<[id := rr_new (cc_max_memory cfg) false]> reliable)
      end
  end.

(** [RenetClient::from_channels]. *)
Definition from_channels (available_bytes_per_tick : Z) (send_channels receive_channels : list ChannelConfig)
    : out RenetClient :=
  let! (send_unreliable, send_reliable, order) := add_send_channels send_channels ∅ ∅ [] in
  let! (receive_unreliable, receive_reliable) := add_receive_channels receive_channels ∅ ∅ in
  Ret (mkClient 0 0 ∅ [] order send_unreliable receive_unreliable send_reliable receive_reliable
         stats_new available_bytes_per_tick Connecting (f64_of 0)).

(** [RenetClient::new]. *)
Definition client_new (config : ConnectionConfig) : out RenetClient :=
  from_channels (cfg_available_bytes_per_tick config) (client_channels_config config) (server_channels_config config).

(** [RenetClient::new_from_server]. *)
Definition client_new_from_server (config : ConnectionConfig) : out RenetClient :=
  from_channels (cfg_available_bytes_per_tick config) (server_channels_config config) (client_channels_config config).

(** ** Status *)

Definition is_connected (c : RenetClient) : bool :=
  match connection_status c with Connected => true | _ => false end.

Definition is_connecting (c : RenetClient) : bool :=
  match connection_status c with Connecting => true | _ => false end.

Definition is_disconnected (c : RenetClient) : bool :=
  match connection_status c with Disconnected _ => true | _ => false end.

Definition disconnect_reason (c : RenetClient) : option DisconnectReason :=
  match connection_status c with Disconnected reason => Some reason | _ => None end.

Definition set_connected (c : RenetClient) : RenetClient :=
  if is_disconnected c then c else set_status c Connected.

Definition set_connecting (c : RenetClient) : RenetClient :=
  if is_disconnected c then c else set_status c Connecting.

Definition disconnect_with_reason (c : RenetClient) (reason : DisconnectReason) : RenetClient :=
  if is_disconnected c then c else set_status c (Disconnected reason).

Definition disconnect (c : RenetClient) : RenetClient := disconnect_with_reason c DisconnectedByClient.

Definition disconnect_due_to_transport (c : RenetClient) : RenetClient := disconnect_with_reason c Transport.

(** ** Statistics *)

Record NetworkInfo := mkNetworkInfo {
  ni_rtt : f64;
  ni_packet_loss : f64;
  ni_bytes_sent_per_second : f64;
  ni_bytes_received_per_second : f64;
}.

Definition client_packet_loss (c : RenetClient) : out f64 := packet_loss (stats c).

Definition bytes_sent_per_sec (c : RenetClient) : out f64 := bytes_sent_per_second (stats c) (current_time c).

Definition bytes_received_per_sec (c : RenetClient) : out f64 :=
  bytes_received_per_second (stats c) (current_time c).

Definition network_info (c : RenetClient) : out NetworkInfo :=
  let! loss := packet_loss (stats c) in
  let! sent := bytes_sent_per_second (stats c) (current_time c) in
  let! received := bytes_received_per_second (stats c) (current_time c) in
  Ret (mkNetworkInfo (rtt c) loss sent received).

(** ** Messages *)

Definition channel_available_memory (c : RenetClient) (channel_id : Z) : out Z :=
  match send_reliable_channels c !! channel_id with
  | Some channel => sr_available_memory channel
  | None =>
      match send_unreliable_channels c !! channel_id with
      | Some channel => su_available_memory channel
      | None => Panic
      end
  end.

Definition can_send_message (c : RenetClient) (channel_id size_bytes : Z) : out bool :=
  match send_reliable_channels c !! channel_id with
  | Some channel => sr_can_send_message channel size_bytes
  | None =>
      match send_unreliable_channels c !! channel_id with
      | Some channel => su_can_send_message channel size_bytes
      | None => Panic
      end
  end.

(** [RenetClient::send_message]. *)
Definition send_message (c : RenetClient) (channel_id : Z) (message : Bytes) : out RenetClient :=
  if is_disconnected c then Ret c
  else
    match send_reliable_channels c !! channel_id with
    | Some channel =>
        let! (channel, r) := sr_send_message channel message in
        let c := set_send_reliable c (<[channel_id := channel]> (send_reliable_channels c)) in
        match r with
        | Err error => Ret (disconnect_with_reason c (SendChannelError channel_id error))
        | Ok _ => Ret c
        end
    | None =>
        match send_unreliable_channels c !! channel_id with
        | Some channel =>
            let! channel := su_send_message channel message in
            Ret (set_send_unreliable c (<[channel_id := channel]> (send_unreliable_channels c)))
        | None => Panic
        end
    end.

(** [RenetClient::receive_message]. *)
Definition receive_message (c : RenetClient) (channel_id : Z) : out (RenetClient * option Bytes) :=
  if is_disconnected c then Ret (c, None)
  else
    match receive_reliable_channels c !! channel_id with
    | Some channel =>
        let! (channel, message) := rr_receive_message channel in
        Ret (set_receive_reliable c (<[channel_id := channel]> (receive_reliable_channels c)), message)
    | None =>
        match receive_unreliable_channels c !! channel_id with
        | Some channel =>
            let! (channel, message) := ru_receive_message channel in
            Ret (set_receive_unreliable c (<[channel_id := channel]> (receive_unreliable_channels c)), message)
        | None => Panic
        end
    end.

(** ** [RenetClient::update] *)

Definition PACKET_DISCARD_AFTER : Z := from_secs 3.

(** The loop that collects lost packets, oldest sequence first; it stops at the
    first packet that is not lost. *)
Fixpoint lost_packets (current_time : Z) (it : list (Z * PacketSent)) : out (list Z) :=
  match it with
  | [] => Ret []
  | (sequence, sent_packet) :: it' =>
      let! elapsed := dur_sub current_time (ps_sent_at sent_packet) in
      if PACKET_DISCARD_AFTER <=? elapsed then
        let! rest := lost_packets current_time it' in
        Ret (sequence :: rest)
      else Ret []
  end.

Definition remove_packets (sent : gmap Z PacketSent) (sequences : list Z) : gmap Z PacketSent :=
  foldl (fun sent sequence => delete sequence sent) sent sequences.

Definition client_update (c : RenetClient) (duration : Z) : out RenetClient :=
  let! time := dur_add (current_time c) duration in
  let c := set_time c time in
  let! s := stats_update (stats c) time in
  let c := set_stats c s in
  let! channels :=
    map_values_mut (fun channel => ru_discard_incomplete_old_slices channel time) (receive_unreliable_channels c) in
  let c := set_receive_unreliable c channels in
  let! lost := lost_packets time (btree_iter (sent_packets c)) in
  Ret (set_sent_packets c (remove_packets (sent_packets c) lost)).

(** ** [RenetClient::process_packet] *)

(** The loop over the messages of a [SmallReliable] packet. *)
Fixpoint receive_reliable_messages (channel : ReceiveChannelReliable) (messages : list (Z * Bytes))
    : out (ReceiveChannelReliable * result unit ChannelError) :=
  match messages with
  | [] => Ret (channel, Ok tt)
  | (message_id, message) :: messages' =>
      let! (channel, r) := rr_process_message channel message message_id in
      match r with
      | Err error => Ret (channel, Err error)
      | Ok _ => receive_reliable_messages channel messages'
      end
  end.

(** The sequences of [sent_packets] acknowledged by the ranges;
    [BTreeMap::range] panics on a range that ends before it starts. *)
Fixpoint new_acks (sent : gmap Z PacketSent) (ack_ranges : list Range) : out (list Z) :=
  match ack_ranges with
  | [] => Ret []
  | range :: ack_ranges' =>
      if r_end range <? r_start range then Panic
      else
        let! rest := new_acks sent ack_ranges' in
        Ret (range_keys sent (r_start range) (r_end range) ++ rest)
  end.

Definition F64_EPSILON : f64 := binary_normalize 53 1024 1 (-52) false.
Definition F64_0_875 : f64 := binary_normalize 53 1024 7 (-3) false.
Definition F64_0_125 : f64 := binary_normalize 53 1024 1 (-3) false.

Definition next_rtt (old sample : f64) : f64 :=
  if SFltb old F64_EPSILON then sample
  else f64_add (f64_mul old F64_0_875) (f64_mul sample F64_0_125).

(** The [match sent_packet.info]. *)
Definition process_ack_info (c : RenetClient) (info : PacketSentInfo) : out RenetClient :=
  match info with
  | InfoReliableMessages channel_id message_ids =>
      let! channel := unwrap (send_reliable_channels c !! channel_id) in
      let! channel := fold_out sr_process_message_ack channel message_ids in
      Ret (set_send_reliable c (<[channel_id := channel]> (send_reliable_channels c)))
  | InfoReliableSliceMessage channel_id message_id slice_index =>
      let! channel := unwrap (send_reliable_channels c !! channel_id) in
      let! channel := sr_process_slice_message_ack channel message_id slice_index in
      Ret (set_send_reliable c (<[channel_id := channel]> (send_reliable_channels c)))
  | InfoAck largest_acked_packet =>
      let! acks := acked_largest (pending_acks c) largest_acked_packet in
      Ret (set_pending_acks c acks)
  | InfoNone => Ret c
  end.

(** One turn of the loop over [new_acks]. *)
Definition process_ack (c : RenetClient) (sequence : Z) : out RenetClient :=
  let! sent_packet := unwrap (sent_packets c !! sequence) in
  let c := set_sent_packets c (delete sequence (sent_packets c)) in
  let! s := stats_acked_packet (stats c) (ps_sent_at sent_packet) (current_time c) in
  let c := set_stats c s in
  let! elapsed := dur_sub (current_time c) (ps_sent_at sent_packet) in
  let c := set_rtt c (next_rtt (rtt c) (as_secs_f64 elapsed)) in
  process_ack_info c (ps_info sent_packet).

(** The [match packet], after the packet's sequence has been queued for acknowledgement. *)
Definition dispatch_packet (c : RenetClient) (packet : Packet) : out RenetClient :=
  match packet with
  | SmallReliable _ channel_id messages =>
      match receive_reliable_channels c !! channel_id with
      | None => Ret (disconnect_with_reason c (ReceivedInvalidChannelId channel_id))
      | Some channel =>
          let! (channel, r) := receive_reliable_messages channel messages in
          let c := set_receive_reliable c (<[channel_id := channel]> (receive_reliable_channels c)) in
          match r with
          | Err error => Ret (disconnect_with_reason c (ReceiveChannelError channel_id error))
          | Ok _ => Ret c
          end
      end
  | SmallUnreliable _ channel_id messages =>
      match receive_unreliable_channels c !! channel_id with
      | None => Ret (disconnect_with_reason c (ReceivedInvalidChannelId channel_id))
      | Some channel =>
          let! channel := fold_out ru_process_message channel messages in
          Ret (set_receive_unreliable c (<[channel_id := channel]> (receive_unreliable_channels c)))
      end
  | ReliableSlice _ channel_id slice =>
      match receive_reliable_channels c !! channel_id with
      | None => Ret (disconnect_with_reason c (ReceivedInvalidChannelId channel_id))
      | Some channel =>
          let! (channel, r) := rr_process_slice channel slice in
          let c := set_receive_reliable c (<[channel_id := channel]> (receive_reliable_channels c)) in
          match r with
          | Err error => Ret (disconnect_with_reason c (ReceiveChannelError channel_id error))
          | Ok _ => Ret c
          end
      end
  | UnreliableSlice _ channel_id slice =>
      match receive_unreliable_channels c !! channel_id with
      | None => Ret (disconnect_with_reason c (ReceivedInvalidChannelId channel_id))
      | Some channel =>
          let! (channel, r) := ru_process_slice channel slice (current_time c) in
          let c := set_receive_unreliable c (<[channel_id := channel]> (receive_unreliable_channels c)) in
          match r with
          | Err error => Ret (disconnect_with_reason c (ReceiveChannelError channel_id error))
          | Ok _ => Ret c
          end
      end
  | Ack _ ack_ranges =>
      let! acks := new_acks (sent_packets c) ack_ranges in
      fold_out process_ack c acks
  end.

Definition process_packet {oct : Octets} (c : RenetClient) (packet : Bytes) : out RenetClient :=
  if is_disconnected c then Ret c
  else
    let! s := stats_received_packet (stats c) (len packet) in
    let c := set_stats c s in
    let! r := from_bytes packet in
    match r with
    | Err err => Ret (disconnect_with_reason c (PacketDeserialization err))
    | Ok packet =>
        let! acks := add_pending_ack (pending_acks c) (sequence packet) in
        dispatch_packet (set_pending_acks c acks) packet
    end.

(** ** [RenetClient::get_packets_to_send] *)

(** The loop over [channel_send_order], threading the remaining bytes. *)
Fixpoint collect_packets {oct : Octets} (c : RenetClient) (order : list ChannelOrder)
    (available_bytes : Z) (packets : list Packet) : out (RenetClient * list Packet) :=
  match order with
  | [] => Ret (c, packets)
  | OrderReliable channel_id :: order' =>
      let! channel := unwrap (send_reliable_channels c !! channel_id) in
      let! (channel, sequence, available_bytes, new_packets) :=
        sr_get_packets_to_send channel (packet_sequence c) available_bytes (current_time c) in
      let c := set_send_reliable c (<[channel_id := channel]> (send_reliable_channels c)) in
      collect_packets (set_sequence c sequence) order' available_bytes (packets ++ new_packets)
  | OrderUnreliable channel_id :: order' =>
      let! channel := unwrap (send_unreliable_channels c !! channel_id) in
      let! (channel, sequence, available_bytes, new_packets) :=
        su_get_packets_to_send channel (packet_sequence c) available_bytes in
      let c := set_send_unreliable c (<[channel_id := channel]> (send_unreliable_channels c)) in
      collect_packets (set_sequence c sequence) order' available_bytes (packets ++ new_packets)
  end.

(** What is remembered of a packet until it is acknowledged or lost. *)
Definition sent_info (packet : Packet) : out PacketSentInfo :=
  match packet with
  | SmallReliable _ channel_id messages => Ret (InfoReliableMessages channel_id messages.*1)
  | ReliableSlice _ channel_id slice =>
      Ret (InfoReliableSliceMessage channel_id (message_id slice) (slice_index slice))
  | SmallUnreliable _ _ _ | UnreliableSlice _ _ _ => Ret InfoNone
  | Ack _ ack_ranges =>
      let! last_range := unwrap (last ack_ranges) in
      let! largest_acked_packet := sub64 (r_end last_range) 1 in
      Ret (InfoAck largest_acked_packet)
  end.

Definition record_sent (sent_at : Z) (sent : gmap Z PacketSent) (packet : Packet) : out (gmap Z PacketSent) :=
  let! info := sent_info packet in
  Ret (<[sequence packet := mkPacketSent sent_at info]> sent).

(** The serialization loop: every packet is written in a buffer of 1400 bytes. *)
Definition PACKET_BUFFER : Z := 1400.

Fixpoint serialize_packets {oct : Octets} (packets : list Packet) (bytes_sent : Z) (serialized : list Bytes)
    : out (result (list Bytes * Z) SerializationError) :=
  match packets with
  | [] => Ret (Ok (serialized, bytes_sent))
  | packet :: packets' =>
      let? (n, oct) := to_bytes packet (with_slice PACKET_BUFFER) in
      let! bytes_sent := add64 bytes_sent n in
      serialize_packets packets' bytes_sent (serialized ++ [take (Z.to_nat n) (om_written oct)])
  end.

Definition get_packets_to_send {oct : Octets} (c : RenetClient) : out (RenetClient * list Bytes) :=
  if is_disconnected c then Ret (c, [])
  else
    let! (c, packets) := collect_packets c (channel_send_order c) (available_bytes_per_tick c) [] in
    let! (c, packets) :=
      match pending_acks c with
      | [] => Ret (c, packets)
      | _ =>
          let! next := add64 (packet_sequence c) 1 in
          Ret (set_sequence c next, packets ++ [Ack (packet_sequence c) (pending_acks c)])
      end in
    let! sent := fold_out (record_sent (current_time c)) (sent_packets c) packets in
    let c := set_sent_packets c sent in
    let! r := serialize_packets packets 0 [] in
    match r with
    | Err err => Ret (disconnect_with_reason c (PacketSerialization err), [])
    | Ok (serialized, bytes_sent) =>
        let! s := stats_sent_packets (stats c) (len serialized) bytes_sent in
        Ret (set_stats c s, serialized)
    end.
