(* ===== verification/ConnectionSpec.v ===== *)
(** * What a connection maintains

    Invariants of a [RenetClient] relative to the history of the two
    directions of the conversation (the messages sent on each channel and the
    packets built), and their preservation by every operation. *)

From Stdlib Require Import SpecFloat.
From S2P Require Import Prelude Octets Packet SliceConstructor ReliableSend ReliableRecv Unreliable PendingAcks Stats Connection.

(** ** The history of one direction *)

Record dir := mkDir {
  d_sent : gmap Z (list Bytes);
  d_offered : gmap Z (list Bytes);
  d_sliced : gmap Z (list Bytes);
  d_emitted : list Packet;
}.

(** The messages a reliable channel accepted: a message's id is its position. *)
Definition sent_of (d : dir) (ch : Z) : list Bytes := default [] (d_sent d !! ch).

(** The messages given to an unreliable channel. *)
Definition offered_of (d : dir) (ch : Z) : list Bytes := default [] (d_offered d !! ch).

(** Those that were sent in slices: the id in the slices is the position. *)
Definition sliced_of (d : dir) (ch : Z) : list Bytes := default [] (d_sliced d !! ch).

(** The receiver refuses messages of more than 1,000,000 slices. *)
Definition MAX_MESSAGE : Z := 1000000 * SLICE_SIZE.

(** A packet that speaks of messages of [d] only. *)
Definition honest (d : dir) (p : Packet) : Prop :=
  match p with
  | SmallReliable _ ch ms => Forall (fun x => sent_at (sent_of d ch) x.1 x.2 /\ len x.2 <= SLICE_SIZE) ms
  | ReliableSlice _ ch s => exists m, slice_of (sent_of d ch) s m
  | SmallUnreliable _ ch ms => Forall (fun m => m ∈ offered_of d ch) ms
  | UnreliableSlice _ ch s => exists m, slice_of (sliced_of d ch) s m
  | Ack _ rs => rs <> [] /\ wf_ranges rs
  end.

(** The history has grown. *)
Record dir_le (d d' : dir) : Prop := {
  le_sent : forall ch, sent_of d ch `prefix_of` sent_of d' ch;
  le_offered : forall ch m, m ∈ offered_of d ch -> m ∈ offered_of d' ch;
  le_sliced : forall ch, sliced_of d ch `prefix_of` sliced_of d' ch;
  le_emitted : d_emitted d `prefix_of` d_emitted d';
}.

#[export] Instance dir_le_refl : Reflexive dir_le.
Proof. intros d. by constructor. Qed.

Lemma sent_at_prefix l l' id m : l `prefix_of` l' -> sent_at l id m -> sent_at l' id m.
Proof. intros [k ->]. apply sent_at_app. Qed.

Lemma slice_of_prefix l l' s m : l `prefix_of` l' -> slice_of l s m -> slice_of l' s m.
Proof. intros Hp (? & ?). split; [by eapply sent_at_prefix|done]. Qed.

Lemma honest_le d d' p : dir_le d d' -> honest d p -> honest d' p.
Proof.
  intros Hle. destruct p; cbn; try done.
  - intros H. eapply Forall_impl; [exact H|]. cbn. intros x [? ?]. split; [|done].
    eapply sent_at_prefix; [apply Hle|done].
  - intros H. eapply Forall_impl; [exact H|]. intros. by apply (le_offered _ _ Hle).
  - intros [m ?]. exists m. eapply slice_of_prefix; [apply Hle|done].
  - intros [m ?]. exists m. eapply slice_of_prefix; [apply Hle|done].
Qed.

(** The conversation stays within the limits of the protocol: messages of sizes
    the peer accepts, fewer than 2^62 messages and packets. *)
Record dir_ok (d : dir) : Prop := {
  ok_sent : forall ch, Forall (fun m => len m <= MAX_MESSAGE) (sent_of d ch) /\ len (sent_of d ch) <= VARINT_MAX;
  ok_offered : forall ch, Forall (fun m => len m <= MAX_MESSAGE) (offered_of d ch);
  ok_sliced : forall ch, Forall (fun m => is_big m /\ m ∈ offered_of d ch) (sliced_of d ch) /\
    len (sliced_of d ch) <= len (d_emitted d);
  ok_numbered : numbered 0 (d_emitted d);
  ok_emitted : len (d_emitted d) <= VARINT_MAX;
  ok_honest : Forall (fun p => honest d p /\ wf_packet p) (d_emitted d);
}.

Lemma dir_ok_sent_ok d ch : dir_ok d -> sent_ok (sent_of d ch).
Proof.
  intros H. destruct (ok_sent _ H ch) as [Hf ?]. split; [|done]. eapply Forall_impl; [exact Hf|].
  unfold MAX_MESSAGE, SLICE_SIZE, ISIZE_MAX. cbn. intros. lia.
Qed.

Lemma dir_ok_sliced_ok d ch : dir_ok d -> sent_ok (sliced_of d ch).
Proof.
  intros H. destruct (ok_sliced _ H ch) as [Hf ?]. pose proof (ok_emitted _ H). split; [|lia]. eapply Forall_impl; [exact Hf|].
  intros m [_ Hin]. pose proof (ok_offered _ H ch) as Ho. rewrite Forall_forall in Ho. specialize (Ho m Hin).
  unfold MAX_MESSAGE, SLICE_SIZE, ISIZE_MAX in *. cbn in *. lia.
Qed.

(** A packet built with sequence [x]. *)
Definition emitted_at (d : dir) (x : Z) (p : Packet) : Prop := 0 <= x /\ d_emitted d !! Z.to_nat x = Some p.

Lemma emitted_at_le d d' x p : dir_le d d' -> emitted_at d x p -> emitted_at d' x p.
Proof. intros Hle [? H]. split; [done|]. eapply prefix_lookup_Some; [done|apply Hle]. Qed.

Lemma emitted_sequence d p : dir_ok d -> p ∈ d_emitted d -> emitted_at d (sequence p) p.
Proof.
  intros H [i Hi]%list_elem_of_lookup. pose proof (ok_numbered _ H) as Hn. unfold numbered in Hn.
  assert ((sequence <$> d_emitted d) !! i = Some (sequence p)) as Hs by (by rewrite list_lookup_fmap, Hi).
  rewrite Hn in Hs. apply lookup_seqZ in Hs as [Hs _]. rewrite Z.add_0_l in Hs. split; [lia|].
  rewrite Hs. by rewrite Nat2Z.id.
Qed.

(** ** The sending side *)

(** The state of one reliable channel against its history. *)
Record rel_ok (d : dir) (now ch : Z) (chan : SendChannelReliable) : Prop := {
  rel_inv : sr_inv now chan;
  rel_id : sr_channel_id chan = ch;
  rel_next : next_reliable_message_id chan = len (sent_of d ch);
  rel_messages : forall id um, unacked_messages chan !! id = Some um -> sent_at (sent_of d ch) id (um_message um);
}.

Record unrel_ok (d : dir) (ch : Z) (chan : SendChannelUnreliable) : Prop := {
  unrel_inv : su_inv chan;
  unrel_id : su_channel_id chan = ch;
  unrel_next : sliced_message_id chan = len (sliced_of d ch);
  unrel_messages : Forall (fun m => m ∈ offered_of d ch) (unreliable_messages chan);
}.

(** What the sent-packet table remembers of packet [x]. *)
Definition remembered (d : dir) (now x : Z) (ps : PacketSent) : Prop :=
  ps_sent_at ps <= now /\ exists p, emitted_at d x p /\ sent_info p = Ret (ps_info ps).

Definition order_ok (c : RenetClient) (o : ChannelOrder) : Prop :=
  match o with
  | OrderReliable ch => is_Some (send_reliable_channels c !! ch)
  | OrderUnreliable ch => is_Some (send_unreliable_channels c !! ch)
  end.

(** The reliable channel of packet [p] exists. *)
Definition chan_ok (c : RenetClient) (p : Packet) : Prop :=
  match p with
  | SmallReliable _ ch _ | ReliableSlice _ ch _ => is_Some (send_reliable_channels c !! ch)
  | _ => True
  end.

Record sender_inv (d : dir) (c : RenetClient) : Prop := {
  snd_rel : forall ch chan, send_reliable_channels c !! ch = Some chan ->
    0 <= ch <= U8_MAX /\ rel_ok d (current_time c) ch chan;
  snd_unrel : forall ch chan, send_unreliable_channels c !! ch = Some chan ->
    0 <= ch <= U8_MAX /\ unrel_ok d ch chan;
  snd_sequence : packet_sequence c = len (d_emitted d);
  snd_packets : forall x ps, sent_packets c !! x = Some ps -> remembered d (current_time c) x ps;
  snd_order : Forall (order_ok c) (channel_send_order c) /\ NoDup (channel_send_order c);
  snd_acks : wf_ranges (pending_acks c);
  snd_bytes : 0 <= available_bytes_per_tick c;
  snd_chans : Forall (chan_ok c) (d_emitted d);
}.

(** ** The receiving side *)

Record receiver_inv (e : dir) (c : RenetClient) : Prop := {
  rcv_rel : forall ch chan, receive_reliable_channels c !! ch = Some chan -> rr_inv (sent_of e ch) chan;
  rcv_unrel : forall ch chan, receive_unreliable_channels c !! ch = Some chan ->
    ru_inv (fun m => m ∈ offered_of e ch) (sliced_of e ch) (current_time c) chan;
}.

Definition received_by (c : RenetClient) (ch id : Z) : Prop :=
  exists chan, receive_reliable_channels c !! ch = Some chan /\ has_received chan id.

Definition recorded_by (c : RenetClient) (ch id i : Z) : Prop :=
  exists chan, receive_reliable_channels c !! ch = Some chan /\ slice_recorded chan id i.

(** Everything reliable that packet [p] carries has arrived at [c]. *)
Definition absorbed (c : RenetClient) (p : Packet) : Prop :=
  match p with
  | SmallReliable _ ch ms => Forall (fun x => received_by c ch x.1) ms
  | ReliableSlice _ ch s => recorded_by c ch (message_id s) (slice_index s)
  | _ => True
  end.

Definition absorbed_at (e : dir) (c : RenetClient) (x : Z) : Prop :=
  exists p, emitted_at e x p /\ absorbed c p.

(** Only packets that were absorbed are, or will be, acknowledged. *)
Record acks_ok (d e : dir) (c : RenetClient) : Prop := {
  aok_pending : is_disconnected c = false -> forall x, acks (pending_acks c) x -> absorbed_at e c x;
  aok_emitted : forall seq rs x, Ack seq rs ∈ d_emitted d -> acks rs x -> absorbed_at e c x;
}.

(** [c'] has received at least what [c] had. *)
Definition client_grows (c c' : RenetClient) : Prop :=
  forall ch chan, receive_reliable_channels c !! ch = Some chan ->
  exists chan', receive_reliable_channels c' !! ch = Some chan' /\
    (forall id, has_received chan id -> has_received chan' id) /\
    (forall id i, slice_recorded chan id i -> slice_recorded chan' id i).

#[export] Instance client_grows_refl : Reflexive client_grows.
Proof. intros c ch chan H. by exists chan. Qed.

#[export] Instance client_grows_trans : Transitive client_grows.
Proof.
  intros c1 c2 c3 H12 H23 ch chan H. destruct (H12 ch chan H) as (chan2 & H2 & ? & ?).
  destruct (H23 ch chan2 H2) as (chan3 & H3 & ? & ?). exists chan3. split_and!; auto.
Qed.

(** Moreover nothing has been delivered to the application. *)
Definition client_quiet (c c' : RenetClient) : Prop :=
  forall ch, option_Forall2 rr_grows (receive_reliable_channels c !! ch) (receive_reliable_channels c' !! ch).

#[export] Instance client_quiet_refl : Reflexive client_quiet.
Proof. intros c ch. destruct (receive_reliable_channels c !! ch); by constructor. Qed.

#[export] Instance client_quiet_trans : Transitive client_quiet.
Proof. intros c1 c2 c3 H12 H23 ch. specialize (H12 ch). specialize (H23 ch). destruct H12; inv H23; constructor. by etrans. Qed.

Lemma client_quiet_grows c c' : client_quiet c c' -> client_grows c c'.
Proof.
  intros Hq ch chan H. specialize (Hq ch). rewrite H in Hq. inv Hq as [? chan' Hg|]. exists chan'.
  split_and!; [done|apply Hg..].
Qed.

Lemma client_quiet_eq c c' : receive_reliable_channels c' = receive_reliable_channels c -> client_quiet c c'.
Proof. intros E ch. rewrite E. destruct (_ !! ch); by constructor. Qed.

Lemma received_by_grows c c' ch id : client_grows c c' -> received_by c ch id -> received_by c' ch id.
Proof. intros Hg (chan & H & ?). destruct (Hg ch chan H) as (chan' & ? & ? & ?). exists chan'. auto. Qed.

Lemma recorded_by_grows c c' ch id i : client_grows c c' -> recorded_by c ch id i -> recorded_by c' ch id i.
Proof. intros Hg (chan & H & ?). destruct (Hg ch chan H) as (chan' & ? & ? & ?). exists chan'. auto. Qed.

Lemma absorbed_grows c c' p : client_grows c c' -> absorbed c p -> absorbed c' p.
Proof.
  intros Hg. destruct p; cbn; try done; [|by apply recorded_by_grows].
  intros H. eapply Forall_impl; [exact H|]. intros. by eapply received_by_grows.
Qed.

Lemma absorbed_at_grows e e' c c' x : dir_le e e' -> client_grows c c' -> absorbed_at e c x -> absorbed_at e' c' x.
Proof. intros Hle Hg (p & ? & ?). exists p. split; [by eapply emitted_at_le|by eapply absorbed_grows]. Qed.

(** ** Retention: what the sender no longer holds has arrived *)

Definition retained (c' : RenetClient) (ch id : Z) (o : option UnackedMessage) : Prop :=
  match o with
  | None => received_by c' ch id
  | Some (Small _ _) => True
  | Some (Sliced _ _ _ _ acked _) => forall i, 0 <= i -> acked !! Z.to_nat i = Some true -> recorded_by c' ch id i
  end.

(** [c] is the sender, [c'] its peer. *)
Definition retention (c c' : RenetClient) : Prop :=
  forall ch chan id, send_reliable_channels c !! ch = Some chan -> 0 <= id < next_reliable_message_id chan ->
    retained c' ch id (unacked_messages chan !! id).

Lemma retained_grows c c' ch id o : client_grows c c' -> retained c ch id o -> retained c' ch id o.
Proof.
  intros Hg. destruct o as [[]|]; cbn; [done| |by apply received_by_grows].
  intros H i Hi Ha. eapply recorded_by_grows; [done|]. by apply H.
Qed.

(** The invariant of one peer: [d] is what it sends, [e] what it receives. *)
Record peer_inv (d e : dir) (c : RenetClient) : Prop := {
  peer_sender : sender_inv d c;
  peer_receiver : receiver_inv e c;
  peer_acks : acks_ok d e c;
}.

(** The other peer's history growing does not disturb it. *)
Lemma peer_inv_le d e e' c : dir_le e e' -> peer_inv d e c -> peer_inv d e' c.
Proof.
  intros Hle [Hs [Hr Hu] [Hp He]]. constructor; [done|constructor|constructor].
  - intros ch chan H. destruct (le_sent _ _ Hle ch) as [l ->]. by apply rr_inv_app, Hr.
  - intros ch chan H. destruct (le_sliced _ _ Hle ch) as [l ->]. specialize (Hu ch chan H).
    apply (ru_inv_mono _ _ l _ (current_time c)) in Hu; [|lia]. destruct Hu. constructor; try done.
    eapply Forall_impl; [done|]. intros. by apply (le_offered _ _ Hle).
  - intros Hd x Hx. eapply absorbed_at_grows; [done|reflexivity|by apply Hp].
  - intros seq rs x Hin Hx. eapply absorbed_at_grows; [done|reflexivity|by eapply He].
Qed.

(** ** Operations that change no channel *)

(** [c'] differs from [c] only in its status, statistics and round-trip time. *)
Definition same_core (c c' : RenetClient) : Prop :=
  packet_sequence c' = packet_sequence c /\ current_time c' = current_time c /\
  sent_packets c' = sent_packets c /\ pending_acks c' = pending_acks c /\
  channel_send_order c' = channel_send_order c /\
  send_unreliable_channels c' = send_unreliable_channels c /\
  receive_unreliable_channels c' = receive_unreliable_channels c /\
  send_reliable_channels c' = send_reliable_channels c /\
  receive_reliable_channels c' = receive_reliable_channels c /\
  available_bytes_per_tick c' = available_bytes_per_tick c /\
  (is_disconnected c = true -> is_disconnected c' = true).

Lemma same_core_inv d e c c' : same_core c c' -> peer_inv d e c -> peer_inv d e c'.
Proof.
  destruct c, c'. intros (?&?&?&?&?&?&?&?&?&?&Hd) [[] [] [Hp He]]. cbn in *. subst.
  constructor; [by constructor|by constructor|constructor; [|done]]. cbn in *.
  intros Hn. apply Hp. unfold is_disconnected in *. cbn in *. destruct connection_status; [done..|]. by rewrite Hd in Hn.
Qed.

Lemma same_core_quiet c c' : same_core c c' -> client_quiet c c'.
Proof. intros Hc. apply client_quiet_eq. by destruct Hc as (_&_&_&_&_&_&_&_&->&_). Qed.

Lemma same_core_retention c c' c2 : same_core c c' -> retention c c2 -> retention c' c2.
Proof. intros Hc Hr ch chan id. destruct Hc as (_&_&_&_&_&_&_&->&_). apply Hr. Qed.

Lemma disconnect_same_core c reason : same_core c (disconnect_with_reason c reason).
Proof. unfold disconnect_with_reason. destruct (is_disconnected c) eqn:E; by split_and!. Qed.

Lemma disconnect_is_disconnected c reason : is_disconnected (disconnect_with_reason c reason) = true.
Proof. unfold disconnect_with_reason. by destruct (is_disconnected c) eqn:E. Qed.

Lemma set_stats_same_core c s : same_core c (set_stats c s).
Proof. by split_and!. Qed.

(** The client after one of the operations on its status. *)
Inductive status_op : RenetClient -> RenetClient -> Prop :=
  | status_connected c : status_op c (set_connected c)
  | status_connecting c : status_op c (set_connecting c)
  | status_disconnect c reason : status_op c (disconnect_with_reason c reason).

Lemma status_op_same_core c c' : status_op c c' -> same_core c c'.
Proof.
  destruct 1; [..|apply disconnect_same_core]; unfold set_connected, set_connecting;
    (destruct (is_disconnected c) eqn:E; [by split_and!|]); split_and!; try done; congruence.
Qed.

(** ** [send_message] *)

Definition push (log : gmap Z (list Bytes)) (ch : Z) (m : Bytes) : gmap Z (list Bytes) :=
  <[ch := default [] (log !! ch) ++ [m]]> log.

(** The history after [send_message c ch m] has led to [c']: a message counts as
    sent on a reliable channel when the connection survives the call. *)
Definition log_sent (c c' : RenetClient) (ch : Z) (m : Bytes) (log : gmap Z (list Bytes)) : gmap Z (list Bytes) :=
  if is_disconnected c' then log
  else if bool_decide (is_Some (send_reliable_channels c !! ch)) then push log ch m else log.

Definition log_offered (c c' : RenetClient) (ch : Z) (m : Bytes) (log : gmap Z (list Bytes)) : gmap Z (list Bytes) :=
  if is_disconnected c' then log
  else if bool_decide (is_Some (send_reliable_channels c !! ch)) then log else push log ch m.

Lemma push_lookup log ch m ch' :
  default [] (push log ch m !! ch') = default [] (log !! ch') ++ (if decide (ch' = ch) then [m] else []).
Proof.
  unfold push. destruct (decide (ch' = ch)) as [->|]; [by rewrite lookup_insert_eq|].
  rewrite lookup_insert_ne by done. by rewrite app_nil_r.
Qed.

Definition dir_send (d : dir) (ch : Z) (m : Bytes) : dir :=
  mkDir (push (d_sent d) ch m) (d_offered d) (d_sliced d) (d_emitted d).

Definition dir_offer (d : dir) (ch : Z) (m : Bytes) : dir :=
  mkDir (d_sent d) (push (d_offered d) ch m) (d_sliced d) (d_emitted d).

Lemma dir_send_le d ch m : dir_le d (dir_send d ch m).
Proof. constructor; try done. intros ch'. unfold sent_of. cbn. rewrite push_lookup. by apply prefix_app_r. Qed.

Lemma dir_offer_le d ch m : dir_le d (dir_offer d ch m).
Proof.
  constructor; try done. intros ch' m'. unfold offered_of. cbn. rewrite push_lookup. intros. by apply elem_of_app; left.
Qed.

Lemma dir_send_ok d ch m : dir_ok d -> len m <= MAX_MESSAGE -> len (sent_of d ch) < VARINT_MAX -> dir_ok (dir_send d ch m).
Proof.
  intros H Hm Hn. pose proof H as [Hs Ho Hl Hnum He Hh]. constructor; try done.
  - intros ch'. unfold sent_of in *. cbn. rewrite push_lookup. destruct (Hs ch') as [? ?].
    destruct (decide (ch' = ch)) as [->|]; [|by rewrite app_nil_r]. split; [|rewrite len_app, len_cons, len_nil; lia].
    apply Forall_app. split; [done|by apply Forall_singleton].
  - eapply Forall_impl; [exact Hh|]. intros p [? ?]. split; [|done]. eapply honest_le; [apply dir_send_le|done].
Qed.

Lemma dir_offer_ok d ch m : dir_ok d -> len m <= MAX_MESSAGE -> dir_ok (dir_offer d ch m).
Proof.
  intros H Hm. pose proof H as [Hs Ho Hl Hnum He Hh]. pose proof (dir_offer_le d ch m) as Hle. constructor; try done.
  - intros ch'. unfold offered_of in *. cbn. rewrite push_lookup. specialize (Ho ch').
    destruct (decide (ch' = ch)) as [->|]; [|by rewrite app_nil_r].
    apply Forall_app. split; [done|by apply Forall_singleton].
  - intros ch'. destruct (Hl ch') as [Hf ?]. split; [|done]. eapply Forall_impl; [exact Hf|].
    intros x [? ?]. split; [done|]. by apply (le_offered _ _ Hle).
  - eapply Forall_impl; [exact Hh|]. intros p [? ?]. split; [|done]. by eapply honest_le.
Qed.

(** Replacing a channel. *)
Lemma rel_ok_le d d' now ch chan :
  dir_le d d' -> sent_of d' ch = sent_of d ch -> rel_ok d now ch chan -> rel_ok d' now ch chan.
Proof. intros Hle Hs [? ? ? ?]. constructor; rewrite ?Hs; done. Qed.

Lemma unrel_ok_le d d' ch chan :
  dir_le d d' -> sliced_of d' ch = sliced_of d ch -> unrel_ok d ch chan -> unrel_ok d' ch chan.
Proof.
  intros Hle Hs [? ? ? Hf]. constructor; rewrite ?Hs; try done.
  eapply Forall_impl; [exact Hf|]. intros. by apply (le_offered _ _ Hle).
Qed.

Lemma remembered_le d d' now now' x ps : dir_le d d' -> now <= now' -> remembered d now x ps -> remembered d' now' x ps.
Proof. intros Hle Hn (? & p & ? & ?). split; [lia|]. exists p. split; [by eapply emitted_at_le|done]. Qed.

Lemma order_ok_insert_rel c ch chan o :
  order_ok c o -> order_ok (set_send_reliable c (<[ch := chan]> (send_reliable_channels c))) o.
Proof. destruct o; cbn; [|done]. rewrite lookup_insert_is_Some'. auto. Qed.

Lemma chan_ok_insert c ch chan p :
  chan_ok c p -> chan_ok (set_send_reliable c (<[ch := chan]> (send_reliable_channels c))) p.
Proof. destruct p; cbn; try done; rewrite lookup_insert_is_Some'; auto. Qed.

Lemma order_ok_insert_unrel c ch chan o :
  order_ok c o -> order_ok (set_send_unreliable c (<[ch := chan]> (send_unreliable_channels c))) o.
Proof. destruct o; cbn; [done|]. rewrite lookup_insert_is_Some'. auto. Qed.

Lemma set_send_reliable_inv d d' c ch chan :
  dir_le d d' -> (forall ch', ch' <> ch -> sent_of d' ch' = sent_of d ch') -> (forall ch', sliced_of d' ch' = sliced_of d ch') ->
  d_emitted d' = d_emitted d -> 0 <= ch <= U8_MAX ->
  sender_inv d c -> rel_ok d' (current_time c) ch chan ->
  sender_inv d' (set_send_reliable c (<[ch := chan]> (send_reliable_channels c))).
Proof.
  intros Hle Hs Hl He Hch [Hr Hu Hq Hp [Ho Hnd] Ha Hb Hc] Hok. constructor; try done; cbn.
  - intros ch' chan' [[<- <-]|[Hne H]]%lookup_insert_Some; [done|].
    destruct (Hr _ _ H). split; [done|]. apply (rel_ok_le d); auto.
  - intros ch' chan' H. destruct (Hu _ _ H). split; [done|]. by apply (unrel_ok_le d).
  - by rewrite He.
  - intros x ps H. apply (remembered_le d d' (current_time c)); auto; lia.
  - split; [|done]. eapply Forall_impl; [exact Ho|]. intros. by apply order_ok_insert_rel.
  - rewrite He. eapply Forall_impl; [exact Hc|]. intros. by apply chan_ok_insert.
Qed.

Lemma set_send_unreliable_inv d d' c ch chan :
  dir_le d d' -> (forall ch', sent_of d' ch' = sent_of d ch') -> (forall ch', ch' <> ch -> sliced_of d' ch' = sliced_of d ch') ->
  d_emitted d' = d_emitted d -> 0 <= ch <= U8_MAX ->
  sender_inv d c -> unrel_ok d' ch chan ->
  sender_inv d' (set_send_unreliable c (<[ch := chan]> (send_unreliable_channels c))).
Proof.
  intros Hle Hs Hl He Hch [Hr Hu Hq Hp [Ho Hnd] Ha Hb Hc] Hok. constructor; try done; cbn.
  - intros ch' chan' H. destruct (Hr _ _ H). split; [done|]. by apply (rel_ok_le d).
  - intros ch' chan' [[<- <-]|[Hne H]]%lookup_insert_Some; [done|].
    destruct (Hu _ _ H). split; [done|]. apply (unrel_ok_le d); auto.
  - by rewrite He.
  - intros x ps H. apply (remembered_le d d' (current_time c)); auto; lia.
  - split; [|done]. eapply Forall_impl; [exact Ho|]. intros. by apply order_ok_insert_unrel.
  - by rewrite He.
Qed.

(** What [send_message] does to an invariant peer. *)
Lemma send_message_inv d e c ch m c' :
  dir_ok d -> peer_inv d e c -> len m <= MAX_MESSAGE -> len (sent_of d ch) < VARINT_MAX ->
  send_message c ch m = Ret c' ->
  let d' := mkDir (log_sent c c' ch m (d_sent d)) (log_offered c c' ch m (d_offered d)) (d_sliced d) (d_emitted d) in
  dir_ok d' /\ dir_le d d' /\ peer_inv d' e c' /\ client_quiet c c' /\ (forall c2, retention c c2 -> retention c' c2).
Proof.
  intros Hok [Hs Hr Ha] Hm Hn Hsend. cbv zeta. unfold send_message in Hsend.
  destruct (is_disconnected c) eqn:Hd.
  { simplify_eq. unfold log_sent, log_offered. rewrite Hd. destruct d. done. }
  assert (len m <= ISIZE_MAX) as Hm' by (unfold MAX_MESSAGE, SLICE_SIZE, ISIZE_MAX in *; lia).
  destruct (send_reliable_channels c !! ch) as [chan|] eqn:Hch.
  - destruct (snd_rel _ _ Hs _ _ Hch) as [Hid [Hinv Hc Hnext Hmsgs]].
    pose proof (sr_send_message_spec _ _ m Hinv Hm' ltac:(lia)) as Hspec.
    destruct (sr_max_memory chan <? sr_memory chan + len m).
    + rewrite Hspec in Hsend. cbn in Hsend. injection Hsend as <-.
      unfold log_sent, log_offered. rewrite disconnect_is_disconnected. destruct d as [d1 d2 d3 d4]. cbn.
      assert (set_send_reliable c (<[ch:=chan]> (send_reliable_channels c)) = c) as -> by (rewrite insert_id by done; by destruct c).
      split_and!; try done; [|apply same_core_quiet, disconnect_same_core|intros c2; apply same_core_retention, disconnect_same_core].
      eapply same_core_inv; [apply disconnect_same_core|by constructor].
    + destruct Hspec as (chan' & E & Hinv' & Hfresh & Hchan'). rewrite E in Hsend. cbn in Hsend. injection Hsend as <-.
      unfold log_sent, log_offered. change (is_disconnected (set_send_reliable _ _)) with (is_disconnected c). rewrite Hd, Hch.
      rewrite bool_decide_true by done. fold (dir_send d ch m).
      assert (sent_of (dir_send d ch m) ch = sent_of d ch ++ [m]) as Hsent.
      { unfold sent_of. cbn. rewrite push_lookup. by rewrite decide_True. }
      split_and!; [by apply dir_send_ok|apply dir_send_le| |by apply client_quiet_eq|].
      * constructor; [|destruct Hr; by constructor|destruct Ha; by constructor].
        apply (set_send_reliable_inv d); try done; [apply dir_send_le| |].
        { intros ch' Hne. unfold sent_of. cbn. rewrite push_lookup. by rewrite decide_False, app_nil_r by done. }
        constructor; [done|by subst chan'|subst chan'; cbn; rewrite Hsent, len_app, len_cons, len_nil; lia|].
        intros id um. rewrite Hsent. subst chan'. cbn. intros [[<- <-]|[Hne H]]%lookup_insert_Some; [|by apply sent_at_app, Hmsgs].
        rewrite fresh_message_message. pose proof (len_nonneg (sent_of d ch)). split; [lia|].
        rewrite lookup_app_r by (unfold len in Hnext; lia). unfold len in Hnext. by rewrite Hnext, Nat2Z.id, Nat.sub_diag.
      * intros c2 Hret ch0 chan0 id0. cbn. intros [[<- <-]|[Hne H]]%lookup_insert_Some Hlt; [|by apply Hret].
        subst chan'. cbn in *. destruct (decide (id0 = next_reliable_message_id chan)) as [->|Hne].
        { rewrite lookup_insert_eq. unfold fresh_message. destruct (SLICE_SIZE <? len m); cbn; [|done].
          intros i _ Hi. unfold vec_repeat in Hi. apply lookup_replicate in Hi as [? _]. done. }
        rewrite lookup_insert_ne by done. apply Hret; [done|lia].
  - destruct (send_unreliable_channels c !! ch) as [chan|] eqn:Hu; [|done].
    destruct (snd_unrel _ _ Hs _ _ Hu) as [Hid [Hinv Hc Hnext Hmsgs]].
    destruct (su_send_message_spec chan m Hinv Hm') as (chan' & E & Hinv' & Hq & Hsl & Hc'). rewrite E in Hsend. cbn in Hsend.
    injection Hsend as <-. unfold log_sent, log_offered. change (is_disconnected (set_send_unreliable _ _)) with (is_disconnected c).
    rewrite Hd, Hch. rewrite bool_decide_false by (by intros []). fold (dir_offer d ch m).
    split_and!; [by apply dir_offer_ok|apply dir_offer_le| |by apply client_quiet_eq|done].
    constructor; [|destruct Hr; by constructor|destruct Ha; by constructor].
    apply (set_send_unreliable_inv d); try done; [apply dir_offer_le|].
    constructor; [done|congruence|by rewrite Hsl|]. rewrite Hq. apply Forall_app. split.
    + eapply Forall_impl; [exact Hmsgs|]. intros. by apply (le_offered _ _ (dir_offer_le d ch m)).
    + destruct (_ <? _); [constructor|]. apply Forall_singleton. unfold offered_of. cbn. rewrite push_lookup, decide_True by done.
      apply elem_of_app. right. left.
Qed.

(** ** Packets built from the channels *)

Lemma num_slices_max m : len m <= MAX_MESSAGE -> num_slices_of m <= 1000000.
Proof.
  intros Hm. destruct (decide (len m = 0)) as [E|E]; [unfold num_slices_of; by rewrite E|].
  pose proof (len_nonneg m). destruct (num_slices_bounds m) as [_ Hb]; [lia|].
  unfold MAX_MESSAGE, SLICE_SIZE in *. lia.
Qed.

Lemma slice_of_wf l s m :
  slice_of l s m -> len l <= VARINT_MAX -> len m <= MAX_MESSAGE -> wf_slice s /\ 1 <= len (payload s) <= SLICE_SIZE.
Proof.
  intros (Hs & Hlen & Hn & Hi & Hp) Hl Hm. pose proof (sent_at_lt _ _ _ Hs). pose proof (num_slices_max m Hm).
  destruct (num_slices_bounds m) as [Hn1 Hb]; [unfold SLICE_SIZE in *; lia|].
  rewrite Hp. pose proof (len_slice_bytes m (slice_index s)) as Hsl.
  assert (1 <= len (slice_bytes m (slice_index s)) <= SLICE_SIZE) as Hps.
  { rewrite Hsl by lia. unfold SLICE_SIZE in *. destruct (Z.eqb_spec (slice_index s) (num_slices_of m - 1)); lia. }
  split; [|done]. unfold wf_slice, varint, VARINT_MAX, SLICE_SIZE in *. rewrite Hp, Hn. lia.
Qed.

Section building.
Context {oct : Octets} {laws : OctetsLaws oct}.

Lemma small_group_count rt now U ms : small_group rt now U ms -> len ms <= U16_MAX.
Proof using laws.
  intros [_ [Hs|[m ->]]]; [|done]. pose proof (sum_with_ge_len small_size ms 1 ltac:(lia)) as Hg. lapply Hg.
  - unfold SLICE_SIZE, U16_MAX in *. lia.
  - intros x _. unfold small_size. pose proof (varint_len_range x.1). pose proof (varint_len_range (len x.2)).
    pose proof (len_nonneg x.2). lia.
Qed.

Lemma usmall_group_count ms : usmall_group ms -> len ms <= U16_MAX.
Proof using laws.
  intros [_ [Hs|[m ->]]]; [|done]. pose proof (sum_with_ge_len usmall_size ms 1 ltac:(lia)) as Hg. lapply Hg.
  - unfold SLICE_SIZE, U16_MAX in *. lia.
  - intros x _. unfold usmall_size. pose proof (varint_len_range (len x)). pose proof (len_nonneg x). lia.
Qed.

Lemma packet_due_ok d now ch rt chan p :
  dir_ok d -> rel_ok d now ch chan -> 0 <= ch <= U8_MAX -> varint (sequence p) ->
  packet_due ch rt now (unacked_messages chan) p -> honest d p /\ wf_packet p.
Proof using laws.
  intros Hok [[Hids _ _ _] Hc Hn Hmsgs] Hch Hseq Hp. destruct (ok_sent _ Hok ch) as [Hlen Hcount].
  destruct p; cbn in Hp; try done; destruct Hp as [-> Hp].
  - assert (Forall (fun x => sent_at (sent_of d ch) x.1 x.2 /\ len x.2 <= SLICE_SIZE) messages) as Hh.
    { eapply Forall_impl; [apply Hp|]. intros [id m] (ls & Hu & _). split; [apply (Hmsgs _ _ Hu)|].
      by destruct (Hids _ _ Hu) as [_ [? _]]. }
    split; [done|]. split; [done|]. split_and!; [lia|lia|by eapply small_group_count|].
    eapply Forall_impl; [exact Hh|]. intros [id m] [Hs Hl]. cbn in *. pose proof (sent_at_lt _ _ _ Hs). pose proof (len_nonneg m).
    unfold varint, VARINT_MAX, SLICE_SIZE in *. lia.
  - destruct Hp as (m & na & nx & acked & ls & t & Hu & Hi & _ & _ & _ & Hpay).
    destruct (Hids _ _ Hu) as [_ (Hm & Hns & _)].
    assert (slice_of (sent_of d ch) slice m) as Hsl.
    { split_and!; try done; [apply (Hmsgs _ _ Hu)|lia|lia|lia]. }
    assert (len m <= MAX_MESSAGE) as Hmm by (eapply (Forall_lookup_1 _ _ _ _ Hlen); apply Hsl).
    split; [by exists m|]. destruct (slice_of_wf _ _ _ Hsl Hcount Hmm). split; [done|]. split_and!; try done; lia.
Qed.

(** The slices numbered from the end of [l] are slices of the extended list. *)
Lemma slices_from_slice_of l bs s :
  Forall is_big bs -> s ∈ slices_from (len l) bs -> exists m, slice_of (l ++ bs) s m /\ m ∈ bs.
Proof using.
  revert l. induction bs as [|m bs IH]; intros l Hb Hin; [by apply elem_of_nil in Hin|].
  apply Forall_cons in Hb as [Hm Hb]. cbn in Hin. apply elem_of_app in Hin as [Hin|Hin].
  - exists m. split; [|left]. unfold all_slices in Hin. apply list_elem_of_fmap in Hin as (i & -> & Hi%elem_of_seqZ).
    split; cbn.
    + pose proof (len_nonneg l). split; [done|]. unfold len. rewrite Nat2Z.id.
      rewrite lookup_app_r by lia. by rewrite Nat.sub_diag.
    + unfold is_big in Hm. split_and!; try done; lia.
  - destruct (IH (l ++ [m]) Hb) as (m' & Hs & Hin'); [by rewrite len_app, len_cons, len_nil|].
    exists m'. rewrite <- app_assoc in Hs. split; [done|by right].
Qed.

Lemma small_content_elem ps s c ms m : SmallUnreliable s c ms ∈ ps -> m ∈ ms -> m ∈ small_content ps.
Proof using.
  intros (l1 & l2 & ->)%list_elem_of_split Hm. rewrite small_content_app. apply elem_of_app. right.
  unfold small_content. cbn. apply elem_of_app. by left.
Qed.

Lemma slice_content_elem ps q c s : UnreliableSlice q c s ∈ ps -> s ∈ slice_content ps.
Proof using.
  intros (l1 & l2 & ->)%list_elem_of_split. rewrite slice_content_app. apply elem_of_app. right. left.
Qed.

Lemma transmitted_sub a ms m : m ∈ transmitted a ms -> m ∈ ms.
Proof using.
  revert a. induction ms as [|m' ms IH]; intros a; cbn; [done|]. destruct (_ <? _).
  - intros H. right. by eapply IH.
  - intros [->|H]%elem_of_cons; [left|right; by eapply IH].
Qed.

Lemma len_bigs_transmitted a ms : len (bigs (transmitted a ms)) <= len ms.
Proof using.
  revert a. induction ms as [|m ms IH]; intros a; cbn [transmitted]; [done|]. rewrite len_cons.
  destruct (a <? len m); [specialize (IH a); lia|]. unfold bigs in *. specialize (IH (a - len m)).
  rewrite filter_cons. destruct (decide _); rewrite ?len_cons; lia.
Qed.

Lemma len_slice_content ps : len (slice_content ps) <= len ps.
Proof using.
  induction ps as [|p ps IH]; [done|]. change (slice_content (p :: ps)) with (unreliable_slice p ++ slice_content ps).
  rewrite len_app, len_cons. destruct p; cbn; rewrite ?len_cons, ?len_nil; lia.
Qed.

Lemma len_slices_from id bs : Forall is_big bs -> len bs <= len (slices_from id bs).
Proof using.
  revert id. induction bs as [|m bs IH]; intros id Hb; [done|]. apply Forall_cons in Hb as [Hm Hb]. cbn.
  rewrite len_app, len_cons. specialize (IH (id + 1) Hb). unfold is_big in Hm.
  destruct (num_slices_bounds m) as [Hn _]; [unfold SLICE_SIZE in *; lia|].
  unfold all_slices, len. rewrite length_fmap, length_seqZ. unfold len in IH. lia.
Qed.

(** ** The size of data packets *)

(** The content of a packet of a channel is about a slice long at most. *)
Definition compact (p : Packet) : Prop :=
  match p with
  | SmallReliable _ _ messages => sum_with small_size messages <= SLICE_SIZE + 10
  | SmallUnreliable _ _ messages => sum_with usmall_size messages <= SLICE_SIZE + 10
  | ReliableSlice _ _ slice | UnreliableSlice _ _ slice => len (payload slice) <= SLICE_SIZE
  | Ack _ _ => False
  end.

Lemma packet_due_compact now ch rt chan p :
  sr_inv now chan -> wf_packet p -> packet_due ch rt now (unacked_messages chan) p -> compact p.
Proof using laws.
  intros [Hids _ _ Hn] [_ Hwf] Hp. destruct p; cbn in Hp; try done; destruct Hp as [-> Hp]; cbn; [|apply Hwf].
  eapply (small_group_size rt now (unacked_messages chan)); [|exact Hp].
  intros id um Hu. destruct (Hids id um Hu). unfold varint. split; [lia|done].
Qed.

Lemma upacket_compact ch p : upacket_ok ch p -> compact p.
Proof using laws.
  destruct p; cbn; try done; intros [-> Hp]; [|done]. pose proof (usmall_group_size _ Hp). lia.
Qed.

Lemma len_enc_reliable ms :
  Forall (fun '(id, m) => varint id /\ varint (len m)) ms -> len (ms ≫= enc_reliable) = sum_with small_size ms.
Proof using.
  induction 1 as [|[id m] ms [Hid Hm] _ IH]; [done|]. cbn [mbind list_bind sum_with]. rewrite len_app.
  change (list_bind _ _ enc_reliable ms) with (ms ≫= enc_reliable). rewrite IH.
  unfold enc_reliable, small_size. cbn. rewrite !len_app, !len_enc_varint by done. lia.
Qed.

Lemma len_enc_unreliable ms :
  Forall (fun m => varint (len m)) ms -> len (ms ≫= enc_unreliable) = sum_with usmall_size ms.
Proof using.
  induction 1 as [|m ms Hm _ IH]; [done|]. cbn [mbind list_bind sum_with]. rewrite len_app.
  change (list_bind _ _ enc_unreliable ms) with (ms ≫= enc_unreliable). rewrite IH.
  unfold enc_unreliable, usmall_size. rewrite !len_app, !len_enc_varint by done. lia.
Qed.

Lemma len_varint v : varint v -> len (enc_varint v) <= 8.
Proof using laws. intros Hv. rewrite len_enc_varint by done. apply varint_len_range. Qed.

Lemma len_enc_slice s : wf_slice s -> len (enc_slice s) <= 32 + len (payload s).
Proof using laws.
  intros (Hi & Hx & Hn & Hp). unfold enc_slice. rewrite !len_app.
  assert (varint (num_slices s)) as Hn' by (unfold varint, VARINT_MAX; lia).
  pose proof (len_varint _ Hi). pose proof (len_varint _ Hx). pose proof (len_varint _ Hn'). pose proof (len_varint _ Hp). lia.
Qed.

(** Every packet of a channel fits the serialization buffer. *)
Lemma compact_fits p : wf_packet p -> compact p -> len (encode p) <= PACKET_BUFFER.
Proof using laws.
  intros [Hq Hp] Hc. unfold compact, PACKET_BUFFER, SLICE_SIZE in *.
  destruct p as [q c ms|q c ms|q c s|q c s|]; [..|done]; pose proof (len_varint q Hq) as Hv; destruct Hp as (_ & Hp); unfold encode;
    rewrite len_cons, !len_app, len_cons, len_nil.
  - pose proof (len_nonneg ms). rewrite len_enc_u16, len_enc_reliable by (apply Hp || by split; [|apply Hp]). lia.
  - pose proof (len_nonneg ms). rewrite len_enc_u16, len_enc_unreliable by (apply Hp || by split; [|apply Hp]). lia.
  - pose proof (len_enc_slice s Hp). lia.
  - destruct Hp as [Hs _]. pose proof (len_enc_slice s Hs). lia.
Qed.

(** ** Collecting the packets of every channel *)

(** The history after a channel built packets [ps], having sliced the messages [bs]. *)
Definition dir_emit (d : dir) (ch : Z) (bs : list Bytes) (ps : list Packet) : dir :=
  mkDir (d_sent d) (d_offered d) (<[ch := sliced_of d ch ++ bs]> (d_sliced d)) (d_emitted d ++ ps).

Lemma sliced_of_emit d ch bs ps ch' :
  sliced_of (dir_emit d ch bs ps) ch' = sliced_of d ch' ++ (if decide (ch' = ch) then bs else []).
Proof using.
  unfold sliced_of, dir_emit. cbn. destruct (decide (ch' = ch)) as [->|]; [by rewrite lookup_insert_eq|].
  rewrite lookup_insert_ne by done. by rewrite app_nil_r.
Qed.

Lemma dir_emit_le d ch bs ps : dir_le d (dir_emit d ch bs ps).
Proof using.
  constructor; try done; [|by apply prefix_app_r]. intros ch'. rewrite sliced_of_emit. by apply prefix_app_r.
Qed.

Lemma numbered_app s a b : numbered s a -> numbered (s + len a) b -> numbered s (a ++ b).
Proof using.
  unfold numbered. intros Ha Hb. rewrite fmap_app, Ha, Hb, len_app.
  rewrite seqZ_app by apply len_nonneg. done.
Qed.

Lemma numbered_range s ps p : numbered s ps -> p ∈ ps -> s <= sequence p < s + len ps.
Proof using.
  intros Hn Hp. assert (sequence p ∈ sequence <$> ps) as Hin by (apply list_elem_of_fmap; by exists p).
  rewrite Hn in Hin. apply elem_of_seqZ in Hin. lia.
Qed.

Lemma dir_emit_ok d ch bs ps :
  dir_ok d -> numbered (len (d_emitted d)) ps -> len (d_emitted d) + len ps <= VARINT_MAX ->
  Forall (fun p => honest (dir_emit d ch bs ps) p /\ wf_packet p) ps ->
  Forall (fun m => is_big m /\ m ∈ offered_of d ch) bs -> len bs <= len ps ->
  dir_ok (dir_emit d ch bs ps).
Proof using.
  intros [Hs Ho Hl Hn He Hh] Hnum Hmax Hps Hbs Hlen. constructor; try done; cbn.
  - intros ch'. rewrite sliced_of_emit. destruct (Hl ch') as [Hf Hc]. rewrite !len_app. pose proof (len_nonneg ps).
    destruct (decide (ch' = ch)) as [->|]; [|rewrite app_nil_r, len_nil; split; [done|lia]].
    split; [by apply Forall_app|lia].
  - by apply numbered_app.
  - rewrite len_app. lia.
  - apply Forall_app. split; [|done]. eapply Forall_impl; [exact Hh|]. intros p [? ?]. split; [|done].
    eapply honest_le; [apply dir_emit_le|done].
Qed.

Definition order_weight (c : RenetClient) (o : ChannelOrder) : Z :=
  match o with
  | OrderReliable ch => from_option (fun chan => map_sum um_weight (unacked_messages chan) + 1) 0 (send_reliable_channels c !! ch)
  | OrderUnreliable ch => from_option (fun chan => max_packets (unreliable_messages chan) + 1) 0 (send_unreliable_channels c !! ch)
  end.

(** A bound on the number of packets the next [get_packets_to_send] can build. *)
Definition flush_bound (c : RenetClient) : Z := sum_with (order_weight c) (channel_send_order c) + 1.

(** The parts of a client that collecting packets leaves alone. *)
Definition collect_frame (c c' : RenetClient) : Prop :=
  current_time c' = current_time c /\ sent_packets c' = sent_packets c /\ pending_acks c' = pending_acks c /\
  channel_send_order c' = channel_send_order c /\ receive_unreliable_channels c' = receive_unreliable_channels c /\
  receive_reliable_channels c' = receive_reliable_channels c /\ stats c' = stats c /\
  connection_status c' = connection_status c.

(** What one channel, or all of them, contribute. *)
Record collected (d : dir) (c : RenetClient) (d' : dir) (c' : RenetClient) (new : list Packet) : Prop := {
  col_frame : collect_frame c c';
  col_ok : dir_ok d';
  col_le : dir_le d d';
  col_emitted : d_emitted d' = d_emitted d ++ new;
  col_logs : d_sent d' = d_sent d /\ d_offered d' = d_offered d;
  col_inv : sender_inv d' c';
  col_retention : forall c2, retention c c2 -> retention c' c2;
  col_no_ack : forall seq rs, Ack seq rs ∉ new;
  col_compact : Forall compact new;
}.

Lemma collected_nil d c : dir_ok d -> sender_inv d c -> collected d c d c [].
Proof using. intros. constructor; try done; [by rewrite app_nil_r|]. intros seq rs []%elem_of_nil. Qed.

Lemma dir_le_trans d1 d2 d3 : dir_le d1 d2 -> dir_le d2 d3 -> dir_le d1 d3.
Proof using.
  intros [a1 b1 c1 e1] [a2 b2 c2 e2]. constructor; [|eauto|..].
  - intros ch. by transitivity (sent_of d2 ch).
  - intros ch. by transitivity (sliced_of d2 ch).
  - by transitivity (d_emitted d2).
Qed.

Lemma collected_app d1 c1 d2 c2 d3 c3 l1 l2 :
  collected d1 c1 d2 c2 l1 -> collected d2 c2 d3 c3 l2 -> collected d1 c1 d3 c3 (l1 ++ l2).
Proof using.
  intros [F1 ? L1 E1 [S1 O1] ? R1 N1 C1] [F2 ? L2 E2 [S2 O2] ? R2 N2 C2]. constructor; try done.
  - unfold collect_frame in *. naive_solver congruence.
  - by eapply dir_le_trans.
  - by rewrite E2, E1, app_assoc.
  - split; congruence.
  - auto.
  - intros seq rs [?|?]%elem_of_app; [by eapply N1|by eapply N2].
  - by apply Forall_app.
Qed.

(** One reliable channel. *)
Lemma collect_reliable d c ch chan available :
  dir_ok d -> sender_inv d c -> send_reliable_channels c !! ch = Some chan -> 0 <= available ->
  packet_sequence c + order_weight c (OrderReliable ch) <= VARINT_MAX ->
  exists chan' sequence1 available1 new d',
    sr_get_packets_to_send chan (packet_sequence c) available (current_time c) = Ret (chan', sequence1, available1, new) /\
    0 <= available1 /\ sequence1 <= packet_sequence c + order_weight c (OrderReliable ch) /\
    collected d c d' (set_sequence (set_send_reliable c (<[ch := chan']> (send_reliable_channels c))) sequence1) new.
Proof using laws.
  intros Hok Hs Hch Hav Hw. destruct (snd_rel _ _ Hs _ _ Hch) as [Hu8 Hrel]. pose proof Hrel as [Hinv Hid Hnext Hmsgs].
  pose proof (snd_sequence _ _ Hs) as Hq. pose proof (len_nonneg (d_emitted d)).
  cbn [order_weight] in *. rewrite Hch in *. cbn [from_option] in *.
  destruct (sr_get_packets_spec (current_time c) chan (packet_sequence c) available Hinv Hav)
    as (chan' & q1 & a1 & new & E & [Sinv Sframe Score Sq Snum Sb Sbud Sav Sdue _]).
  { unfold VARINT_MAX, U64_MAX in *. lia. }
  assert (Forall (fun p => honest d p /\ wf_packet p) new) as Hnew.
  { apply Forall_forall. intros p Hp. rewrite Forall_forall in Sdue. specialize (Sdue p Hp). rewrite Hid in Sdue.
    eapply packet_due_ok; try done. pose proof (numbered_range _ _ _ Snum Hp). unfold varint. lia. }
  exists chan', q1, a1, new, (dir_emit d ch [] new). split_and!; try done; try lia.
  pose proof (dir_emit_le d ch [] new) as Hle.
  assert (dir_ok (dir_emit d ch [] new)) as Hok'.
  { apply dir_emit_ok; try done; [by rewrite <- Hq|lia| |rewrite len_nil; apply len_nonneg].
    eapply Forall_impl; [exact Hnew|]. intros p [? ?]. split; [by eapply honest_le|done]. }
  constructor; try done.
  - destruct Hs as [Hr Hu _ Hp [Ho Hnd] Ha Hb Hcs]. constructor; cbn; try done.
    + intros ch' chan0 [[<- <-]|[Hne H']]%lookup_insert_Some; [split; [done|]|destruct (Hr _ _ H'); split; [done|by apply (rel_ok_le d)]].
      constructor; [done|by rewrite Sframe|by rewrite Sframe|]. intros id um Hum. pose proof (Score id) as Hc. rewrite Hum in Hc.
      symmetry in Hc. apply fmap_Some in Hc as (um0 & Hu0 & Hc). apply um_core_message in Hc. rewrite Hc. by apply Hmsgs.
    + intros ch' chan0 H'. destruct (Hu _ _ H') as [? [? ? ? ?]]. split; [done|]. constructor; try done.
      rewrite sliced_of_emit. by destruct (decide _); rewrite app_nil_r.
    + rewrite len_app. lia.
    + intros x ps H'. eapply remembered_le; [done|reflexivity|by apply Hp].
    + split; [|done]. eapply Forall_impl; [exact Ho|]. intros. by apply order_ok_insert_rel.
    + apply Forall_app. split; [eapply Forall_impl; [exact Hcs|]; intros; by apply chan_ok_insert|].
      eapply Forall_impl; [exact Sdue|]. rewrite Hid. intros p Hp'. destruct p; cbn in *; try done;
        destruct Hp' as [-> _]; rewrite lookup_insert_is_Some'; by left.
  - intros c2 Hret ch' chan0 id. cbn. intros [[<- <-]|[Hne H']]%lookup_insert_Some Hid'; [|by eapply Hret].
    rewrite Sframe in Hid'. specialize (Hret ch chan id Hch Hid'). pose proof (Score id) as Hc.
    destruct (unacked_messages chan' !! id) as [um'|], (unacked_messages chan !! id) as [um|]; cbn in Hc; try done.
    destruct um', um; cbn in Hc; simplify_eq; done.
  - intros seq rs Hin. rewrite Forall_forall in Sdue. by specialize (Sdue _ Hin).
  - rewrite Forall_forall in Sdue, Hnew |- *. intros p Hp. eapply packet_due_compact; [exact Hinv|by apply Hnew|by apply Sdue].
Qed.

(** One unreliable channel. *)
Lemma collect_unreliable d c ch chan available :
  dir_ok d -> sender_inv d c -> send_unreliable_channels c !! ch = Some chan -> 0 <= available ->
  packet_sequence c + order_weight c (OrderUnreliable ch) <= VARINT_MAX ->
  exists chan' sequence1 available1 new d',
    su_get_packets_to_send chan (packet_sequence c) available = Ret (chan', sequence1, available1, new) /\
    0 <= available1 /\ sequence1 <= packet_sequence c + order_weight c (OrderUnreliable ch) /\
    collected d c d' (set_sequence (set_send_unreliable c (<[ch := chan']> (send_unreliable_channels c))) sequence1) new.
Proof using laws.
  intros Hok Hs Hch Hav Hw. destruct (snd_unrel _ _ Hs _ _ Hch) as [Hu8 [Hinv Hid Hnext Hmsgs]].
  pose proof (snd_sequence _ _ Hs) as Hq. pose proof (len_nonneg (d_emitted d)).
  cbn [order_weight] in *. rewrite Hch in *. cbn [from_option] in *.
  pose proof (proj2 (ok_sliced _ Hok ch)) as Hcount.
  assert (len (unreliable_messages chan) <= max_packets (unreliable_messages chan)) as Hmp.
  { pose proof (sum_with_ge_len (fun m => num_slices_of m + 1) (unreliable_messages chan) 1 ltac:(lia)) as Hg.
    unfold max_packets. lapply Hg; [lia|]. intros m _. pose proof (num_slices_nonneg m). lia. }
  destruct (su_get_packets_spec chan (packet_sequence c) available Hinv Hav)
    as (chan' & q1 & a1 & new & E & [Sself Sq Snum Sb [_ Sav] Spk Ssm Ssl]).
  { unfold VARINT_MAX, U64_MAX in *. lia. } { lia. }
  set (bs := bigs (transmitted available (unreliable_messages chan))) in *.
  assert (Forall (fun m => is_big m /\ m ∈ offered_of d ch) bs) as Hbs.
  { apply Forall_forall. intros m [Hb Hin]%list_elem_of_filter. split; [done|].
    rewrite Forall_forall in Hmsgs. apply Hmsgs. by eapply transmitted_sub. }
  pose proof (dir_emit_le d ch bs new) as Hle.
  assert (Forall (fun p => honest (dir_emit d ch bs new) p /\ wf_packet p) new) as Hnew.
  { apply Forall_forall. intros p Hp. rewrite Forall_forall in Spk. pose proof (Spk p Hp) as Hpk.
    pose proof (numbered_range _ _ _ Snum Hp) as Hseq.
    assert (varint (sequence p)) as Hv by (unfold varint; lia).
    destruct p as [| |q c0 s| |]; cbn in Hpk; try done; destruct Hpk as [-> Hpk].
    - split; [|split_and!; [done|rewrite Hid; lia|rewrite Hid; lia|by apply usmall_group_count|]].
      + apply Forall_forall. intros m Hm. rewrite Hid. apply (le_offered _ _ Hle).
        apply (small_content_elem _ _ _ _ _ Hp) in Hm. rewrite Ssm in Hm. apply list_elem_of_filter in Hm as [_ Hm].
        rewrite Forall_forall in Hmsgs. apply Hmsgs. by eapply transmitted_sub.
      + eapply Forall_impl; [apply Hpk|]. cbn. intros m Hm. pose proof (len_nonneg m). unfold varint, VARINT_MAX, SLICE_SIZE in *. lia.
    - apply slice_content_elem in Hp. rewrite Ssl, Hnext in Hp.
      destruct (slices_from_slice_of (sliced_of d ch) bs s) as (m & Hsl & Hin); [|done|].
      { eapply Forall_impl; [exact Hbs|]. by intros m []. }
      rewrite Hid. split; [exists m; by rewrite sliced_of_emit, decide_True|].
      assert (len (sliced_of d ch ++ bs) <= VARINT_MAX) as Hlb.
      { rewrite len_app. pose proof (len_bigs_transmitted available (unreliable_messages chan)) as Hlb. fold bs in Hlb. lia. }
      assert (len m <= MAX_MESSAGE) as Hmm.
      { pose proof (ok_offered _ Hok ch) as Hof. rewrite Forall_forall in Hof, Hbs. apply Hof, Hbs, Hin. }
      destruct (slice_of_wf _ _ _ Hsl Hlb Hmm). split; [done|]. split_and!; try done; lia. }
  assert (dir_ok (dir_emit d ch bs new)) as Hok'.
  { apply dir_emit_ok; try done; [by rewrite <- Hq|lia|].
    etrans; [|apply len_slice_content]. rewrite Ssl. apply len_slices_from. eapply Forall_impl; [exact Hbs|]. by intros m []. }
  exists chan', q1, a1, new, (dir_emit d ch bs new). split_and!; try done; try lia. constructor; try done.
  - destruct Hs as [Hr Hu _ Hp [Ho Hnd] Ha Hb Hcs]. constructor; cbn; try done.
    + intros ch' chan0 H'. destruct (Hr _ _ H'). split; [done|by apply (rel_ok_le d)].
    + intros ch' chan0 [[<- <-]|[Hne H']]%lookup_insert_Some; [split; [done|]|].
      * subst chan'. pose proof (su_memory_nonneg _ Hinv). pose proof Hinv as [_ Hmx _ Hi0].
        pose proof (len_bigs_transmitted available (unreliable_messages chan)) as Hlb. fold bs in Hlb.
        pose proof (len_nonneg bs). constructor; cbn; try done; [constructor; cbn; try done; lia|].
        rewrite sliced_of_emit, decide_True, len_app by done. lia.
      * destruct (Hu _ _ H'). split; [done|]. apply (unrel_ok_le d); try done.
        by rewrite sliced_of_emit, decide_False, app_nil_r by done.
    + rewrite len_app. lia.
    + intros x ps H'. eapply remembered_le; [done|reflexivity|by apply Hp].
    + split; [|done]. eapply Forall_impl; [exact Ho|]. intros. by apply order_ok_insert_unrel.
    + apply Forall_app. split; [done|]. eapply Forall_impl; [exact Spk|]. intros p Hp'. by destruct p.
  - intros seq rs Hin. rewrite Forall_forall in Spk. by specialize (Spk _ Hin).
  - eapply Forall_impl; [exact Spk|]. intros p. apply upacket_compact.
Qed.

End building.
