(* ===== verification/ConnectionSteps.v ===== *)
(** * The operations of a connection keep its invariant

    [get_packets_to_send], [process_packet], [receive_message] and [update]
    against the invariants of ConnectionSpec.v. *)

From Stdlib Require Import SpecFloat.
From S2P Require Import Prelude Octets Packet SliceConstructor ReliableSend ReliableRecv Unreliable PendingAcks Stats Connection ConnectionSpec.

(** ** [get_packets_to_send] *)

Lemma order_weight_nonneg d c o : sender_inv d c -> 0 <= order_weight c o.
Proof.
  intros Hs. destruct o as [ch|ch]; cbn.
  - destruct (send_reliable_channels c !! ch) as [chan|] eqn:E; cbn; [|done].
    destruct (snd_rel _ _ Hs _ _ E) as [_ [[Hids _ _ _] _ _ _]].
    assert (0 <= map_sum um_weight (unacked_messages chan)); [|lia].
    apply map_sum_nonneg_lookup. intros id um Hu. destruct (Hids _ _ Hu) as [_ Hw].
    destruct um as [|m n ? ? ? ?]; cbn in *; [lia|]. destruct Hw as (_ & -> & _). apply num_slices_nonneg.
  - destruct (send_unreliable_channels c !! ch) as [chan|]; cbn; [|done].
    pose proof (max_packets_nonneg (unreliable_messages chan)). lia.
Qed.

Section steps.
Context {oct : Octets} {laws : OctetsLaws oct}.

Lemma collect_packets_spec order : forall d c available packets,
  dir_ok d -> sender_inv d c -> Forall (order_ok c) order -> NoDup order -> 0 <= available ->
  packet_sequence c + sum_with (order_weight c) order <= VARINT_MAX ->
  exists c' new d', collect_packets c order available packets = Ret (c', packets ++ new) /\
    collected d c d' c' new /\ packet_sequence c' <= packet_sequence c + sum_with (order_weight c) order.
Proof using laws.
  induction order as [|o order IH]; intros d c available packets Hok Hs Ho Hnd Hav Hw.
  { exists c, [], d. cbn. rewrite app_nil_r. split_and!; [done|by apply collected_nil|lia]. }
  apply Forall_cons in Ho as [Ho1 Ho]. apply NoDup_cons in Hnd as [Hni Hnd]. cbn [sum_with] in Hw.
  assert (0 <= sum_with (order_weight c) order) as Hw0 by (apply sum_with_nonneg; intros; by eapply order_weight_nonneg).
  destruct o as [ch|ch]; destruct Ho1 as [chan Hch]; cbn [collect_packets]; rewrite Hch; cbn [unwrap out_bind].
  - destruct (collect_reliable d c ch chan available) as (chan' & q1 & a1 & new1 & d1 & -> & Ha1 & Hq1 & Hcol); try done; [lia|].
    cbn [out_bind]. set (c1 := set_sequence _ q1) in *.
    assert (forall o, o ∈ order -> order_weight c1 o = order_weight c o) as Hsame.
    { intros [ch'|ch'] Hin; cbn; [|done]. rewrite lookup_insert_ne; [done|]. intros ->. done. }
    assert (sum_with (order_weight c1) order = sum_with (order_weight c) order) as Hsum by (by apply sum_with_ext).
    destruct (IH d1 c1 a1 (packets ++ new1)) as (c2 & new2 & d2 & -> & Hcol2 & Hq2); try done.
    + apply Hcol.
    + apply Hcol.
    + eapply Forall_impl; [exact Ho|]. intros o H. by apply (order_ok_insert_rel c ch chan') in H.
    + rewrite Hsum. cbn in *. lia.
    + exists c2, (new1 ++ new2), d2. rewrite app_assoc. split_and!; [done|by eapply collected_app|].
      rewrite Hsum in Hq2. cbn in *. lia.
  - destruct (collect_unreliable d c ch chan available) as (chan' & q1 & a1 & new1 & d1 & -> & Ha1 & Hq1 & Hcol); try done; [lia|].
    cbn [out_bind]. set (c1 := set_sequence _ q1) in *.
    assert (forall o, o ∈ order -> order_weight c1 o = order_weight c o) as Hsame.
    { intros [ch'|ch'] Hin; cbn; [done|]. rewrite lookup_insert_ne; [done|]. intros ->. done. }
    assert (sum_with (order_weight c1) order = sum_with (order_weight c) order) as Hsum by (by apply sum_with_ext).
    destruct (IH d1 c1 a1 (packets ++ new1)) as (c2 & new2 & d2 & -> & Hcol2 & Hq2); try done.
    + apply Hcol.
    + apply Hcol.
    + eapply Forall_impl; [exact Ho|]. intros o H. by apply (order_ok_insert_unrel c ch chan') in H.
    + rewrite Hsum. cbn in *. lia.
    + exists c2, (new1 ++ new2), d2. rewrite app_assoc. split_and!; [done|by eapply collected_app|].
      rewrite Hsum in Hq2. cbn in *. lia.
Qed.

(** Well-formed ranges cannot be too many. *)
Lemma wf_ranges_count rs : wf_ranges rs -> len rs <= VARINT_MAX.
Proof using.
  assert (forall rs r, wf_ranges (r :: rs) -> 2 * len rs + r_start r <= VARINT_MAX) as H.
  { clear rs. induction rs as [|r' rs IH]; intros r Hwf.
    - apply wf_ranges_cons in Hwf as (Hr & _). unfold range_ok in Hr. change (len (@nil Range)) with 0. lia.
    - apply wf_ranges_cons in Hwf as (Hr & Hb & Hwf). apply Forall_cons in Hb as [Hb _].
      specialize (IH r' Hwf). unfold range_ok, range_before in *. rewrite len_cons. lia. }
  destruct rs as [|r rs]; intros Hwf; [done|]. specialize (H rs r Hwf).
  apply wf_ranges_cons in Hwf as ([Hr _] & _). rewrite len_cons.
  destruct rs as [|r1 rs]; [done|]. rewrite len_cons in *. pose proof (len_nonneg rs). lia.
Qed.

(** The acknowledgement packet closes the batch. *)
Lemma collect_acks d c :
  dir_ok d -> sender_inv d c -> packet_sequence c < VARINT_MAX ->
  let next := match pending_acks c with
    | [] => Ret (c, [])
    | _ => let! next := add64 (packet_sequence c) 1 in
           Ret (set_sequence c next, [Ack (packet_sequence c) (pending_acks c)])
    end in
  exists c' new d', next = Ret (c', new) /\ dir_ok d' /\ dir_le d d' /\ sender_inv d' c' /\
    d_emitted d' = d_emitted d ++ new /\ d_sent d' = d_sent d /\ d_offered d' = d_offered d /\
    collect_frame c c' /\ send_reliable_channels c' = send_reliable_channels c /\
    (forall seq rs, Ack seq rs ∈ new -> rs = pending_acks c) /\
    (forall p, p ∈ new -> exists seq, p = Ack seq (pending_acks c)).
Proof using.
  intros Hok Hs Hq. cbv zeta. pose proof (snd_acks _ _ Hs) as Hwf. pose proof (snd_sequence _ _ Hs) as Hlen.
  pose proof (len_nonneg (d_emitted d)). destruct (pending_acks c) as [|r rs] eqn:E.
  { exists c, [], d. rewrite app_nil_r. split_and!; try done; [intros ? ? []%elem_of_nil|intros ? []%elem_of_nil]. }
  rewrite add64_ok by (unfold VARINT_MAX, U64_MAX in *; lia). cbn. set (p := Ack _ _).
  exists (set_sequence c (packet_sequence c + 1)), [p], (dir_emit d 0 [] [p]).
  pose proof (dir_emit_le d 0 [] [p]) as Hle.
  split_and!; try done.
  - apply dir_emit_ok; try done.
    + unfold numbered. cbn. rewrite len_cons, len_nil. by rewrite Hlen.
    + rewrite len_cons, len_nil. lia.
    + apply Forall_singleton. split; [done|]. split; [unfold varint; cbn; lia|]. split_and!; [done|apply Hwf..|].
      split; [apply len_nonneg|]. by apply wf_ranges_count.
  - destruct Hs as [Hr Hu _ Hp Ho Ha Hb Hcs]. constructor; cbn; try done.
    + intros ch chan H'. destruct (Hr _ _ H'). split; [done|by apply (rel_ok_le d)].
    + intros ch chan H'. destruct (Hu _ _ H'). split; [done|]. apply (unrel_ok_le d); try done.
      rewrite sliced_of_emit. by destruct (decide _); rewrite app_nil_r.
    + rewrite len_app, len_cons, len_nil. lia.
    + intros x ps H'. eapply remembered_le; [done|reflexivity|by apply Hp].
    + apply Forall_app. split; [done|]. by apply Forall_singleton.
  - intros seq rs' [= -> ->]%list_elem_of_singleton. done.
  - intros p' ->%list_elem_of_singleton. by eexists.
Qed.

(** What is remembered of the packets just built. *)
Lemma record_sent_spec now ps : forall sent,
  Forall wf_packet ps ->
  exists sent', fold_out (record_sent now) sent ps = Ret sent' /\
    forall x pk, sent' !! x = Some pk -> sent !! x = Some pk \/
      exists p, p ∈ ps /\ x = sequence p /\ ps_sent_at pk = now /\ sent_info p = Ret (ps_info pk).
Proof using.
  induction ps as [|p ps IH]; intros sent Hwf; [exists sent; split; [done|by left]|].
  apply Forall_cons in Hwf as [[Hq Hp] Hwf].
  assert (exists info, sent_info p = Ret info) as [info Hinfo].
  { destruct p; try by eexists. cbn in *. destruct Hp as (Hne & [Hr _] & _).
    destruct (last ack_ranges) as [r|] eqn:E; [|by apply last_None in E]. cbn.
    apply last_Some in E as [l ->]. apply Forall_app in Hr as [_ [Hr _]%Forall_cons]. unfold range_ok in Hr.
    rewrite sub64_ok by lia. by eexists. }
  destruct (IH (<[sequence p := mkPacketSent now info]> sent) Hwf) as (sent' & E & Hs).
  exists sent'. cbn [fold_out]. unfold record_sent at 1. rewrite Hinfo. cbn [out_bind]. split; [done|].
  intros x pk Hx. destruct (Hs x pk Hx) as [H|(p' & ? & ? & ?)].
  - apply lookup_insert_Some in H as [[<- <-]|[Hne H]]; [right|by left]. exists p. split_and!; try done. left.
  - right. exists p'. split; [by right|done].
Qed.

(** Serialized packets are the wire format of the packets. *)
Lemma serialize_packets_spec ps : forall n acc,
  Forall wf_packet ps ->
  match serialize_packets ps n acc with
  | Ret (Ok (serialized, _)) => serialized = acc ++ (encode <$> ps)
  | _ => True
  end.
Proof using laws.
  induction ps as [|p ps IH]; intros n acc Hwf; cbn; [by rewrite app_nil_r|].
  apply Forall_cons in Hwf as [Hp Hwf]. rewrite to_bytes_encode by (done || cbn; unfold PACKET_BUFFER; lia). cbn.
  destruct (_ <? _); [done|]. cbn. destruct (add64 n (len (encode p))) as [n'|]; [|done]. cbn.
  specialize (IH n' (acc ++ [take (Z.to_nat (len (encode p))) (encode p)]) Hwf).
  destruct (serialize_packets ps n' _) as [[[? ?]|]|]; try done. rewrite IH, <- app_assoc. cbn.
  do 2 f_equal. unfold len. by rewrite Nat2Z.id, take_ge.
Qed.

(** The packets of one call: those of the channels, then the acknowledgements. *)
Definition next_packets (c : RenetClient) : out (RenetClient * list Packet) :=
  let! (c, packets) := collect_packets c (channel_send_order c) (available_bytes_per_tick c) [] in
  match pending_acks c with
  | [] => Ret (c, packets)
  | _ =>
      let! next := add64 (packet_sequence c) 1 in
      Ret (set_sequence c next, packets ++ [Ack (packet_sequence c) (pending_acks c)])
  end.

Lemma get_packets_unfold c :
  get_packets_to_send c =
    if is_disconnected c then Ret (c, [])
    else
      let! (c, packets) := next_packets c in
      let! sent := fold_out (record_sent (current_time c)) (sent_packets c) packets in
      let c := set_sent_packets c sent in
      let! r := serialize_packets packets 0 [] in
      match r with
      | Err err => Ret (disconnect_with_reason c (PacketSerialization err), [])
      | Ok (serialized, bytes_sent) =>
          let! s := stats_sent_packets (stats c) (len serialized) bytes_sent in
          Ret (set_stats c s, serialized)
      end.
Proof using.
  unfold get_packets_to_send, next_packets. destruct (is_disconnected c); [done|].
  by destruct (collect_packets _ _ _ _) as [[c1 ps]|].
Qed.

(** What they are, [c'] being the client that has built and remembered them. *)
Record built (d : dir) (c : RenetClient) (d' : dir) (c' : RenetClient) (new : list Packet) : Prop := {
  bt_ok : dir_ok d';
  bt_le : dir_le d d';
  bt_logs : d_sent d' = d_sent d /\ d_offered d' = d_offered d;
  bt_emitted : d_emitted d' = d_emitted d ++ new;
  bt_inv : sender_inv d' c';
  bt_frame : current_time c' = current_time c /\ pending_acks c' = pending_acks c /\
    receive_unreliable_channels c' = receive_unreliable_channels c /\
    receive_reliable_channels c' = receive_reliable_channels c /\ stats c' = stats c /\
    connection_status c' = connection_status c;
  bt_retention : forall c2, retention c c2 -> retention c' c2;
  bt_acks : forall seq rs, Ack seq rs ∈ new -> rs = pending_acks c;
  bt_wf : Forall wf_packet new;
  bt_compact : Forall (fun p => compact p \/ exists seq, p = Ack seq (pending_acks c)) new;
  bt_count : len new <= flush_bound c;
}.

Lemma next_packets_spec d c :
  dir_ok d -> sender_inv d c -> packet_sequence c + flush_bound c <= VARINT_MAX ->
  exists c2 new sent d', next_packets c = Ret (c2, new) /\
    fold_out (record_sent (current_time c2)) (sent_packets c2) new = Ret sent /\
    built d c d' (set_sent_packets c2 sent) new.
Proof using laws.
  intros Hok Hs Hb. unfold next_packets, flush_bound in *. destruct (snd_order _ _ Hs) as [Ho Hnd].
  destruct (collect_packets_spec (channel_send_order c) d c (available_bytes_per_tick c) [])
    as (c1 & new1 & d1 & -> & [F1 Hok1 Hle1 He1 [Hs1 Ho1] Hinv1 Hret1 Hna1 Hcm] & Hq1); try done; [apply Hs|lia|].
  cbn [out_bind app].
  destruct (collect_acks d1 c1 Hok1 Hinv1) as (c2 & new2 & d2 & E2 & Hok2 & Hle2 & Hinv2 & He2 & Hs2 & Ho2 & F2 & Hsr & Hacks & Hq2); [lia|].
  assert (match pending_acks c1 with
    | [] => Ret (c1, new1)
    | _ => let! next := add64 (packet_sequence c1) 1 in
           Ret (set_sequence c1 next, new1 ++ [Ack (packet_sequence c1) (pending_acks c1)])
    end = Ret (c2, new1 ++ new2)) as ->.
  { destruct (pending_acks c1); [simplify_eq; by rewrite app_nil_r|].
    destruct (add64 _ _); cbn in *; [|done]. by simplify_eq. }
  set (new := new1 ++ new2) in *.
  assert (d_emitted d2 = d_emitted d ++ new) as He by (unfold new; by rewrite He2, He1, app_assoc).
  assert (Forall wf_packet new) as Hwf.
  { pose proof (ok_honest _ Hok2) as Hh. rewrite He in Hh. apply Forall_app in Hh as [_ Hh].
    eapply Forall_impl; [exact Hh|]. by intros p []. }
  destruct (record_sent_spec (current_time c2) new (sent_packets c2) Hwf) as (sent & Esent & Hsent).
  exists c2, new, sent, d2. split_and!; [done|done|].
  destruct F1 as (T1 & P1 & A1 & C1 & RU1 & RR1 & S1 & ST1), F2 as (T2 & P2 & A2 & C2 & RU2 & RR2 & S2 & ST2).
  constructor; try done; try (cbn; split_and!; congruence).
  - by eapply dir_le_trans.
  - destruct Hinv2 as [R U Q P O A B Cs]. constructor; cbn; try done.
    intros x pk Hx. destruct (Hsent x pk Hx) as [H|(p & Hin & -> & Hat & Hinfo)]; [by apply P|].
    split; [lia|]. exists p. split; [|done]. apply emitted_sequence; [done|]. rewrite He. apply elem_of_app. by right.
  - intros c0 H. apply Hret1 in H. intros ch chan id. cbn. rewrite Hsr. apply H.
  - intros seq rs [Hin|Hin]%elem_of_app; [by apply Hna1 in Hin|]. apply Hacks in Hin as ->. done.
  - apply Forall_app. split; [eapply Forall_impl; [exact Hcm|]; by left|]. apply Forall_forall. intros p Hp. right.
    destruct (Hq2 p Hp) as [seq ->]. exists seq. by rewrite A1.
  - pose proof (snd_sequence _ _ Hs). pose proof (snd_sequence _ _ Hinv1) as Hq. rewrite He1, len_app in Hq. unfold new, flush_bound. rewrite len_app.
    assert (len new2 <= 1); [|lia]. destruct (pending_acks c1); [by simplify_eq|]. destruct (add64 _ _); cbn in E2; by simplify_eq.
Qed.

(** [get_packets_to_send] on an invariant peer: the packets are built from its
    channels, remembered, and serialized. *)
Lemma get_packets_inv d e c c' out :
  dir_ok d -> peer_inv d e c -> packet_sequence c + flush_bound c <= VARINT_MAX ->
  get_packets_to_send c = Ret (c', out) ->
  exists d', dir_ok d' /\ dir_le d d' /\ d_sent d' = d_sent d /\ d_offered d' = d_offered d /\
    peer_inv d' e c' /\ client_quiet c c' /\ (forall c2, retention c c2 -> retention c' c2) /\
    (forall b, b ∈ out -> exists p, p ∈ d_emitted d' /\ b = encode p).
Proof using laws.
  intros Hok Hpeer Hb. pose proof Hpeer as [Hs Hr [Hap Hae]]. rewrite get_packets_unfold.
  destruct (is_disconnected c) eqn:Hd; intros Hget.
  { simplify_eq. exists d. split_and!; try done. intros b []%elem_of_nil. }
  destruct (next_packets_spec d c Hok Hs Hb) as (c2 & new & sent & d2 & E1 & E2 & [Hok2 Hle [Hs2 Ho2] He Hinv3 F Hret3 Hacks Hwf _ _]).
  rewrite E1 in Hget. cbn [out_bind] in Hget. rewrite E2 in Hget. cbn [out_bind] in Hget. set (c3 := set_sent_packets c2 sent) in *.
  destruct F as (T1 & A1 & RU1 & RR1 & S1 & ST1).
  assert (client_quiet c c3) as Hq3 by (by apply client_quiet_eq). pose proof (client_quiet_grows _ _ Hq3) as Hg.
  assert (is_disconnected c3 = false) as Hd3 by (unfold is_disconnected in *; by rewrite ST1).
  assert (peer_inv d2 e c3) as Hp3.
  { constructor; [done| |].
    - destruct Hr as [Hr Hu]. constructor; rewrite ?RR1, ?RU1, ?T1; done.
    - constructor.
      + intros _ x Hx. rewrite A1 in Hx. eapply absorbed_at_grows; [reflexivity|done|by apply Hap].
      + intros seq rs x Hin Hx. eapply absorbed_at_grows; [reflexivity|done|]. rewrite He in Hin.
        apply elem_of_app in Hin as [Hin|Hin]; [by eapply Hae|]. apply Hacks in Hin as ->. by apply Hap. }
  pose proof (serialize_packets_spec new 0 [] Hwf) as Hser.
  destruct (serialize_packets new 0 []) as [[[serialized n]|err]|]; cbn [out_bind] in Hget; [| |done].
  - destruct (stats_sent_packets _ _ _) as [st|]; [|done]. cbn [out_bind] in Hget. simplify_eq.
    pose proof (set_stats_same_core c3 st) as Hsc. exists d2. split_and!; [exact Hok2|exact Hle|congruence|congruence|by eapply same_core_inv|exact Hq3|exact Hret3|].
    intros b (p & -> & Hin)%list_elem_of_fmap. exists p. split; [|done]. rewrite He. apply elem_of_app. by right.
  - simplify_eq. pose proof (disconnect_same_core c3 (PacketSerialization err)) as Hsc. exists d2. split_and!; [exact Hok2|exact Hle|congruence|congruence|by eapply same_core_inv|..].
    + etrans; [exact Hq3|by apply same_core_quiet].
    + intros c0 H. eapply same_core_retention; [done|auto].
    + intros b []%elem_of_nil.
Qed.

Lemma len_enc_gaps r it :
  range_ok r -> Forall range_ok it -> StronglySorted (flip range_before) (r :: it) ->
  len (enc_gaps (r_start r) it) <= 16 * len it.
Proof using laws.
  intros Hr Hit. revert r Hr. induction Hit as [|r' it Hr' _ IH]; intros r Hr Hs; [done|].
  apply StronglySorted_cons in Hs as [Hb Hs]. apply Forall_cons in Hb as [Hb _].
  specialize (IH r' Hr' Hs). cbn [enc_gaps]. rewrite !len_app, len_cons. unfold range_ok, flip, range_before in *.
  pose proof (len_varint (r_start r - r_end r' - 1) ltac:(unfold varint; lia)).
  pose proof (len_varint (r_end r' - 1 - r_start r') ltac:(unfold varint; lia)). lia.
Qed.

(** The size of an acknowledgement packet: at most 16 bytes per range. *)
Lemma len_ack seq rs : wf_packet (Ack seq rs) -> len (encode (Ack seq rs)) <= 17 + 16 * len rs.
Proof using laws.
  intros (Hseq & Hne & [Hok Hs] & Hlen). pose proof (len_varint seq Hseq). unfold encode, enc_ranges.
  apply Forall_rev in Hok. apply StronglySorted_rev in Hs.
  assert (len (rev rs) = len rs) as Hl by (unfold len; by rewrite length_rev).
  destruct (rev rs) as [|r it]; [rewrite len_cons, len_app; change (len (@nil byte)) with 0; pose proof (len_nonneg rs); lia|].
  apply Forall_cons in Hok as [Hr Hit]. pose proof (len_enc_gaps r it Hr Hit Hs). rewrite len_cons in Hl.
  pose proof (len_nonneg it). rewrite len_cons, !len_app. unfold range_ok, varint in *.
  pose proof (len_varint (r_end r - 1) ltac:(unfold varint; lia)).
  pose proof (len_varint (r_end r - 1 - r_start r) ltac:(unfold varint; lia)).
  pose proof (len_varint (len it) ltac:(unfold varint; lia)). lia.
Qed.

(** Serialization returns; it fails only on a packet that does not fit the buffer. *)
Lemma serialize_packets_total ps : forall n acc,
  Forall wf_packet ps -> 0 <= n -> n + PACKET_BUFFER * len ps <= U64_MAX ->
  exists r, serialize_packets ps n acc = Ret r /\
    match r with
    | Ok (serialized, m) => len serialized = len acc + len ps /\ 0 <= m <= n + PACKET_BUFFER * len ps
    | Err _ => ~ Forall (fun p => len (encode p) <= PACKET_BUFFER) ps
    end.
Proof using laws.
  unfold PACKET_BUFFER. induction ps as [|p ps IH]; intros n acc Hps Hn Hm.
  { exists (Ok (acc, n)). rewrite len_nil. split_and!; [done|lia..]. }
  apply Forall_cons in Hps as [Hp Hps]. rewrite len_cons in *. pose proof (len_nonneg ps). pose proof (len_nonneg (encode p)).
  cbn [serialize_packets]. rewrite to_bytes_encode by (done || cbn; unfold PACKET_BUFFER; lia). cbn.
  unfold PACKET_BUFFER. destruct (Z.ltb_spec 1400 (len (encode p))) as [Hl|Hl]; cbn.
  { eexists. split; [done|]. intros [? _]%Forall_cons. lia. }
  rewrite add64_ok by lia. cbn [out_bind].
  destruct (IH (n + len (encode p)) (acc ++ [take (Z.to_nat (len (encode p))) (encode p)]) Hps) as (r & E & Hr); [lia..|].
  exists r. split; [exact E|]. destruct r as [[ser m]|err].
  - rewrite len_app, len_cons, len_nil in Hr. lia.
  - by intros [_ ?]%Forall_cons.
Qed.

(** A flush returns, and leaves the connection up as long as the acknowledgements fit the buffer. *)
Lemma get_packets_total d c :
  dir_ok d -> sender_inv d c -> packet_sequence c + flush_bound c <= VARINT_MAX ->
  stats_room (PACKET_BUFFER * flush_bound c) (stats c) ->
  exists c' datagrams, get_packets_to_send c = Ret (c', datagrams) /\
    (len (pending_acks c) <= 86 -> connection_status c' = connection_status c).
Proof using laws.
  intros Hok Hs Hb Hroom. rewrite get_packets_unfold. destruct (is_disconnected c); [by eexists _, _|].
  destruct (next_packets_spec d c Hok Hs Hb) as (c2 & new & sent & d2 & -> & E2 & [_ _ _ _ _ F _ _ Hwf Hcm Hcount]).
  cbn [out_bind]. rewrite E2. cbn [out_bind]. destruct F as (_ & _ & _ & _ & S1 & ST1).
  assert (len (pending_acks c) <= 86 -> Forall (fun p => len (encode p) <= PACKET_BUFFER) new) as Hfit.
  { intros Hacks. rewrite Forall_forall in Hwf, Hcm |- *. intros p Hp. destruct (Hcm p Hp) as [Hc|[seq ->]]; [apply compact_fits; auto|].
    pose proof (len_ack seq _ (Hwf _ Hp)). unfold PACKET_BUFFER. lia. }
  pose proof (len_nonneg new). pose proof Hroom as [Hi [Hl1 Hr1] _ _ _]. unfold PACKET_BUFFER in *.
  assert (1400 * flush_bound c <= U64_MAX) as Hmax.
  { destruct (packets_sent (stats c)) as [|x l]; [by vm_compute in Hl1|]. apply Forall_cons in Hr1 as [? _]. lia. }
  destruct (serialize_packets_total new 0 [] Hwf) as (r & -> & Hr); [done|unfold PACKET_BUFFER; lia|].
  cbn [out_bind]. destruct r as [[ser m]|err]; [|eexists _, _; split; [done|]; by intros ?%Hfit]. destruct Hr as [Hlen Hm]. unfold PACKET_BUFFER in Hm. cbn [stats set_sent_packets] in S1 |- *. rewrite S1.
  change (len (@nil Bytes)) with 0 in Hlen.
  destruct (stats_sent_room (1400 * flush_bound c) (stats c) (len ser) m Hroom) as [st ->]; [lia|lia|].
  cbn [out_bind]. by eexists _, _.
Qed.

(** *** The statistics keep their shape *)

Lemma disconnect_stats c reason : stats (disconnect_with_reason c reason) = stats c.
Proof using. unfold disconnect_with_reason. by destruct (is_disconnected c). Qed.

Lemma status_op_stats c c' : status_op c c' -> stats c' = stats c.
Proof using. destruct 1; [..|apply disconnect_stats]; unfold set_connected, set_connecting; by destruct (is_disconnected c). Qed.

Lemma send_message_stats c ch m c' : send_message c ch m = Ret c' -> stats c' = stats c.
Proof using. unfold send_message. intros H. repeat case_match; out_inv; repeat case_match; out_inv; by rewrite ?disconnect_stats. Qed.

Lemma receive_message_stats c ch c' r : receive_message c ch = Ret (c', r) -> stats c' = stats c.
Proof using. unfold receive_message. intros H. repeat case_match; out_inv; done. Qed.

Lemma collect_packets_stats order : forall c n acc c' ps, collect_packets c order n acc = Ret (c', ps) -> stats c' = stats c.
Proof using.
  induction order as [|[] order IH]; intros c n acc c' ps H; cbn [collect_packets] in H; [by injection H as <- _|..]; out_inv; by apply IH in H.
Qed.

Lemma get_packets_shape c c' ds : get_packets_to_send c = Ret (c', ds) -> stats_shape (stats c) -> stats_shape (stats c').
Proof using.
  rewrite get_packets_unfold. unfold next_packets. intros H Hs. destruct (is_disconnected c); [by injection H as <- _|].
  destruct (collect_packets _ _ _ _) as [[c1 ps]|] eqn:E; cbn [out_bind] in H; [|discriminate H]. apply collect_packets_stats in E.
  rewrite <- E in Hs. clear E. destruct (match pending_acks c1 with [] => _ | _ => _ end) as [[c2 ps2]|] eqn:E; cbn [out_bind] in H; [|discriminate H].
  assert (stats c2 = stats c1) as E2 by (destruct (pending_acks c1); out_inv; done). rewrite <- E2 in Hs. clear E E2.
  destruct (fold_out _ _ _) as [sent|]; cbn [out_bind] in H; [|discriminate H].
  destruct (serialize_packets _ _ _) as [[[ser n]|err]|]; cbn [out_bind] in H; [| |discriminate H].
  - destruct (stats_sent_packets _ _ _) as [st|] eqn:E; cbn [out_bind] in H; [|discriminate H]. injection H as <- _. by eapply stats_sent_shape.
  - injection H as <- _. by rewrite disconnect_stats.
Qed.

Lemma process_ack_shape c x c' : process_ack c x = Ret c' -> stats_shape (stats c) -> stats_shape (stats c').
Proof using.
  unfold process_ack. intros H Hs. destruct (unwrap _) as [sp|]; cbn [out_bind] in H; [|discriminate H].
  destruct (stats_acked_packet _ _ _) as [st|] eqn:E; cbn [out_bind] in H; [|discriminate H].
  destruct (dur_sub _ _); cbn [out_bind] in H; [|discriminate H]. apply stats_acked_shape in E; [|exact Hs].
  unfold process_ack_info in H. destruct (ps_info sp); out_inv; exact E.
Qed.

Lemma dispatch_packet_shape c p c' : dispatch_packet c p = Ret c' -> stats_shape (stats c) -> stats_shape (stats c').
Proof using.
  unfold dispatch_packet. intros H Hs. destruct p; cycle 4.
  { destruct (new_acks _ _) as [acks|]; cbn [out_bind] in H; [|discriminate H]. revert c H Hs. induction acks as [|x acks IH]; intros c H Hs; cbn [fold_out] in H.
    - by injection H as <-.
    - destruct (process_ack c x) as [c1|] eqn:E; cbn [out_bind] in H; [|discriminate H]. apply (IH c1); [exact H|by eapply process_ack_shape]. }
  all: repeat case_match; out_inv; repeat case_match; out_inv; rewrite ?disconnect_stats; exact Hs.
Qed.

Lemma process_packet_shape c b c' : process_packet c b = Ret c' -> stats_shape (stats c) -> stats_shape (stats c').
Proof using.
  unfold process_packet. intros H Hs. destruct (is_disconnected c); [by injection H as <-|].
  destruct (stats_received_packet _ _) as [st|] eqn:E; cbn [out_bind] in H; [|discriminate H]. apply stats_received_shape in E; [|exact Hs].
  destruct (from_bytes b) as [[p|err]|]; cbn [out_bind] in H; [| |discriminate H].
  - destruct (add_pending_ack _ _); cbn [out_bind] in H; [|discriminate H]. eapply dispatch_packet_shape; [exact H|exact E].
  - injection H as <-. by rewrite disconnect_stats.
Qed.

Lemma client_update_shape c d c' : client_update c d = Ret c' -> stats_shape (stats c) -> stats_shape (stats c').
Proof using.
  unfold client_update. intros H Hs. destruct (dur_add _ _) as [time|]; cbn [out_bind] in H; [|discriminate H].
  destruct (stats_update_shape (stats c) time Hs) as (st & E & Hst). cbn [stats set_time] in H. rewrite E in H. cbn [out_bind] in H. out_inv. exact Hst.
Qed.

End steps.

(** ** [process_packet]: messages and slices *)

(** The sending side of [c'] is that of [c]. *)
Definition sender_same (c c' : RenetClient) : Prop :=
  packet_sequence c' = packet_sequence c /\ current_time c' = current_time c /\
  sent_packets c' = sent_packets c /\ pending_acks c' = pending_acks c /\
  channel_send_order c' = channel_send_order c /\
  send_unreliable_channels c' = send_unreliable_channels c /\
  send_reliable_channels c' = send_reliable_channels c /\
  available_bytes_per_tick c' = available_bytes_per_tick c /\
  (is_disconnected c = true -> is_disconnected c' = true).

Lemma sender_same_inv d c c' : sender_same c c' -> sender_inv d c -> sender_inv d c'.
Proof. destruct c, c'. intros (?&?&?&?&?&?&?&?&?) []. cbn in *. subst. by constructor. Qed.

Lemma sender_same_retention c c' c2 : sender_same c c' -> retention c c2 -> retention c' c2.
Proof. intros Hc Hr ch chan id. destruct Hc as (_&_&_&_&_&_&->&_). apply Hr. Qed.

Lemma same_core_sender c c' : same_core c c' -> sender_same c c'.
Proof. unfold same_core, sender_same. naive_solver. Qed.

Lemma sender_same_trans c1 c2 c3 : sender_same c1 c2 -> sender_same c2 c3 -> sender_same c1 c3.
Proof. unfold sender_same. intros (?&?&?&?&?&?&?&?&?) (?&?&?&?&?&?&?&?&?). split_and!; try congruence. auto. Qed.

Lemma receive_reliable_messages_spec sent ms : forall chan,
  sent_ok sent -> rr_inv sent chan ->
  Forall (fun x => sent_at sent x.1 x.2 /\ len x.2 <= SLICE_SIZE) ms ->
  exists chan' r, receive_reliable_messages chan ms = Ret (chan', r) /\ rr_inv sent chan' /\ rr_grows chan chan' /\
    match r with
    | Ok _ => Forall (fun x => has_received chan' x.1) ms
    | Err e => e = ReliableChannelMaxMemoryReached
    end.
Proof.
  induction ms as [|[id m] ms IH]; intros chan Hok Hinv Hms; [by exists chan, (Ok tt)|].
  apply Forall_cons in Hms as [[Hs Hl] Hms]. cbn in Hs, Hl. cbn [receive_reliable_messages].
  pose proof (rr_inv_max _ _ Hinv). rewrite rr_process_message_spec by (unfold ISIZE_MAX, SLICE_SIZE, U64_MAX in *; lia).
  assert (forall chan1, rr_inv sent chan1 -> rr_grows chan chan1 -> has_received chan1 id ->
    exists chan' r, receive_reliable_messages chan1 ms = Ret (chan', r) /\ rr_inv sent chan' /\ rr_grows chan chan' /\
    match r with
    | Ok _ => Forall (fun x => has_received chan' x.1) ((id, m) :: ms)
    | Err e => e = ReliableChannelMaxMemoryReached
    end) as Hnext.
  { intros chan1 Hinv1 Hg1 Hr1. destruct (IH chan1 Hok Hinv1 Hms) as (chan' & r & E & Hinv' & Hg & Hr).
    exists chan', r. split_and!; try done; [by etrans|]. destruct r; [|done]. constructor; [|done]. by apply Hg. }
  destruct (decide (has_received chan id)) as [Hhas|Hhas]; cbn [out_bind].
  { apply Hnext; [by apply rr_bump_inv|apply rr_bump_grows|by apply has_received_bump]. }
  destruct (Z.ltb_spec (rr_max_memory chan) (rr_memory chan + len m)); cbn [out_bind].
  { eexists _, _. split; [done|]. split_and!; [by apply rr_bump_inv|apply rr_bump_grows|done]. }
  apply Hnext; [|by apply rr_stored_grows|apply has_received_stored; by right].
  apply rr_stored_inv; try done. destruct (rr_slices chan !! id) as [sc|] eqn:E; [|done].
  destruct (rr_inv_slices _ _ Hinv _ _ E) as (_ & m' & Hs' & Hl' & _). pose proof (sent_at_inj _ _ _ _ Hs Hs'). subst. lia.
Qed.

Lemma ru_messages_spec P sent now ms : forall chan,
  ru_inv P sent now chan -> Forall (fun m => P m /\ len m <= ISIZE_MAX) ms ->
  exists chan', fold_out ru_process_message chan ms = Ret chan' /\ ru_inv P sent now chan'.
Proof.
  induction ms as [|m ms IH]; intros chan Hinv Hms; [by exists chan|].
  apply Forall_cons in Hms as [[HP Hl] Hms].
  destruct (ru_process_message_spec P sent now chan m Hinv HP Hl) as (chan1 & E & Hinv1 & _).
  destruct (IH chan1 Hinv1 Hms) as (chan2 & E2 & Hinv2). exists chan2. cbn. by rewrite E.
Qed.

(** Replacing a receive channel. *)
Lemma set_receive_reliable_inv e c ch chan chan' :
  receiver_inv e c -> receive_reliable_channels c !! ch = Some chan -> rr_inv (sent_of e ch) chan' -> rr_grows chan chan' ->
  let c' := set_receive_reliable c (<[ch := chan']> (receive_reliable_channels c)) in
  receiver_inv e c' /\ client_quiet c c' /\ sender_same c c' /\ receive_reliable_channels c' !! ch = Some chan'.
Proof.
  intros [Hr Hu] Hch Hinv Hg. cbv zeta. split_and!; try done; cbn; [constructor; cbn; [|done]| |by apply lookup_insert_eq].
  - intros ch' chan0 [[<- <-]|[_ H]]%lookup_insert_Some; [done|by apply Hr].
  - intros ch'. cbn. destruct (decide (ch' = ch)) as [->|Hne]; [rewrite lookup_insert_eq, Hch; by constructor|].
    rewrite lookup_insert_ne by done. destruct (_ !! ch'); by constructor.
Qed.

Lemma set_receive_unreliable_inv e c ch chan' :
  receiver_inv e c -> ru_inv (fun m => m ∈ offered_of e ch) (sliced_of e ch) (current_time c) chan' ->
  let c' := set_receive_unreliable c (<[ch := chan']> (receive_unreliable_channels c)) in
  receiver_inv e c' /\ client_quiet c c' /\ sender_same c c'.
Proof.
  intros [Hr Hu] Hinv. cbv zeta. split_and!; try done; cbn; [constructor; cbn; [done|]|].
  - intros ch' chan0 [[<- <-]|[_ H]]%lookup_insert_Some; [done|by apply Hu].
  - by apply client_quiet_eq.
Qed.

(** What receiving a packet leaves behind. *)
Record accepted (e : dir) (c c' : RenetClient) (p : Packet) : Prop := {
  acc_receiver : receiver_inv e c';
  acc_quiet : client_quiet c c';
  acc_sender : sender_same c c';
  acc_absorbed : is_disconnected c' = false -> absorbed c' p;
}.

Lemma accepted_disconnect e c c' p reason :
  receiver_inv e c' -> client_quiet c c' -> sender_same c c' -> accepted e c (disconnect_with_reason c' reason) p.
Proof.
  intros [Hr Hu] Hg Hs. pose proof (disconnect_same_core c' reason) as Hc. constructor.
  - unfold disconnect_with_reason. by destruct (is_disconnected c'); constructor.
  - etrans; [done|by apply same_core_quiet].
  - eapply sender_same_trans; [done|by apply same_core_sender].
  - by rewrite disconnect_is_disconnected.
Qed.

Definition is_ack (p : Packet) : bool := match p with Ack _ _ => true | _ => false end.

(** A packet of the peer's history, other than an acknowledgement, is processed
    without panic; unless it makes the connection drop, all it carries has arrived. *)
Lemma dispatch_receive e c p :
  dir_ok e -> receiver_inv e c -> honest e p -> is_ack p = false ->
  exists c', dispatch_packet c p = Ret c' /\ accepted e c c' p.
Proof.
  intros Hok Hrcv Hh Hna. pose proof Hrcv as [Hr Hu]. destruct p as [q ch ms|q ch ms|q ch s|q ch s|]; cbn in Hh |- *; [..|done].
  - destruct (receive_reliable_channels c !! ch) as [chan|] eqn:Hch; [|eexists; split; [done|by apply accepted_disconnect]].
    destruct (receive_reliable_messages_spec (sent_of e ch) ms chan) as (chan' & r & -> & Hinv' & Hg & Hres); auto using dir_ok_sent_ok.
    cbn. destruct (set_receive_reliable_inv e c ch chan chan' Hrcv Hch Hinv' Hg) as (? & ? & ? & Hl).
    destruct r; (eexists; split; [done|]); [|by apply accepted_disconnect]. constructor; try done.
    intros _. cbn. eapply Forall_impl; [exact Hres|]. intros x Hx. by exists chan'.
  - destruct (receive_unreliable_channels c !! ch) as [chan|] eqn:Hch; [|eexists; split; [done|by apply accepted_disconnect]].
    destruct (ru_messages_spec (fun m => m ∈ offered_of e ch) (sliced_of e ch) (current_time c) ms chan) as (chan' & -> & Hinv'); auto.
    { eapply Forall_impl; [exact Hh|]. intros m Hm. split; [done|]. pose proof (ok_offered _ Hok ch) as Ho.
      rewrite Forall_forall in Ho. specialize (Ho m Hm). unfold MAX_MESSAGE, SLICE_SIZE, ISIZE_MAX in *. cbn in *. lia. }
    cbn. eexists; split; [done|]. destruct (set_receive_unreliable_inv e c ch chan' Hrcv Hinv') as (? & ? & ?). by constructor.
  - destruct (receive_unreliable_channels c !! ch) as [chan|] eqn:Hch; [|eexists; split; [done|by apply accepted_disconnect]].
    destruct Hh as [m Hs]. destruct (ok_sliced _ Hok ch) as [Hf _].
    destruct (ru_process_slice_spec (fun m => m ∈ offered_of e ch) (sliced_of e ch) (current_time c) chan s m) as (chan' & -> & Hinv' & _); auto.
    { eapply Forall_impl; [exact Hf|]. by intros ? []. }
    { apply (sent_at_len (sliced_of e ch) (message_id s)); [by apply dir_ok_sliced_ok|apply Hs]. }
    cbn. eexists; split; [done|]. destruct (set_receive_unreliable_inv e c ch chan' Hrcv Hinv') as (? & ? & ?). by constructor.
  - destruct (receive_reliable_channels c !! ch) as [chan|] eqn:Hch; [|eexists; split; [done|by apply accepted_disconnect]].
    destruct Hh as [m Hs].
    destruct (rr_process_slice_spec (sent_of e ch) chan s m) as (chan' & r & -> & Hinv' & Hg & Hres); auto using dir_ok_sent_ok.
    cbn. destruct (set_receive_reliable_inv e c ch chan chan' Hrcv Hch Hinv' Hg) as (? & ? & ? & Hl).
    destruct r; (eexists; split; [done|]); [|by apply accepted_disconnect]. constructor; try done.
    intros _. by exists chan'.
Qed.

(** ** [process_packet]: acknowledgements *)

(** A message all of whose slices arrived has arrived. *)
Lemma slices_all_received sent chan id m :
  rr_inv sent chan -> sent_at sent id m -> SLICE_SIZE < len m ->
  (forall i, 0 <= i < num_slices_of m -> slice_recorded chan id i) -> has_received chan id.
Proof.
  intros Hinv Hs Hm Hall. destruct (decide (has_received chan id)) as [|Hn]; [done|]. exfalso.
  destruct (num_slices_bounds m) as [Hn1 _]; [unfold SLICE_SIZE in *; lia|].
  destruct (Hall 0 ltac:(lia)) as [?|(sc & Hsc & _)]; [done|].
  destruct (rr_inv_slices _ _ Hinv _ _ Hsc) as (_ & m' & Hs' & _ & Hsci & Hc).
  rewrite (sent_at_inj _ _ _ _ Hs' Hs) in *. pose proof (inv_len _ _ Hsci) as Hl.
  assert (count_true (received sc) = len (received sc)); [|lia]. apply count_true_full.
  intros k Hk. destruct (Hall (Z.of_nat k)) as [?|(sc' & Hsc' & Hr)]; [unfold len in Hl; lia|done|].
  rewrite Nat2Z.id in Hr. by simplify_eq.
Qed.

(** Retention, for one channel. *)
Definition chan_retained (c2 : RenetClient) (ch : Z) (chan : SendChannelReliable) : Prop :=
  forall id, 0 <= id < next_reliable_message_id chan -> retained c2 ch id (unacked_messages chan !! id).

Lemma rel_ok_small d now ch chan id um m :
  rel_ok d now ch chan -> unacked_messages chan !! id = Some um -> sent_at (sent_of d ch) id m ->
  um_message um = m /\ (len m <= SLICE_SIZE -> exists ls, um = Small m ls) /\
  (SLICE_SIZE < len m -> exists na nx acked ls, um = Sliced m (num_slices_of m) na nx acked ls).
Proof.
  intros [[Hids _ _ _] _ _ Hmsgs] Hu Hs. pose proof (sent_at_inj _ _ _ _ (Hmsgs _ _ Hu) Hs) as Hm.
  destruct (Hids _ _ Hu) as [_ Hw]. split; [done|]. destruct um as [m' ls|m' n na nx acked ls]; cbn in *; subst m'.
  - destruct Hw. split; [by exists ls|lia].
  - destruct Hw as (Hlen & -> & _). split; [lia|]. intros _. by exists na, nx, acked, ls.
Qed.

Lemma ack_messages_spec d now ch c2 ids : forall chan,
  rel_ok d now ch chan -> chan_retained c2 ch chan ->
  Forall (fun id => exists m, sent_at (sent_of d ch) id m /\ len m <= SLICE_SIZE /\ received_by c2 ch id) ids ->
  exists chan', fold_out sr_process_message_ack chan ids = Ret chan' /\ rel_ok d now ch chan' /\ chan_retained c2 ch chan'.
Proof.
  induction ids as [|id ids IH]; intros chan Hrel Hret Hids; [by exists chan|].
  apply Forall_cons in Hids as [(m & Hs & Hl & Hrec) Hids]. pose proof Hrel as [Hinv Hid Hnext Hmsgs].
  destruct (sr_process_message_ack_spec now chan id Hinv) as (chan1 & E & Hinv1 & Hun & Hn1 & Hid1).
  { intros um Hu. destruct (rel_ok_small _ _ _ _ _ _ _ Hrel Hu Hs) as (_ & Hsm & _). destruct (Hsm Hl) as [ls ->]. by eexists _, _. }
  destruct (IH chan1) as (chan2 & E2 & ? & ?); [| |done|].
  - constructor; [done|congruence|congruence|]. intros id' um'. rewrite Hun. intros [_ H]%lookup_delete_Some. by apply Hmsgs.
  - intros id' Hlt. rewrite Hn1 in Hlt. rewrite Hun. destruct (decide (id' = id)) as [->|]; [by rewrite lookup_delete_eq|].
    rewrite lookup_delete_ne by done. by apply Hret.
  - exists chan2. cbn. by rewrite E.
Qed.

Lemma ack_slice_spec d now ch c2 s m chan :
  rel_ok d now ch chan -> chan_retained c2 ch chan -> receiver_inv d c2 ->
  slice_of (sent_of d ch) s m -> recorded_by c2 ch (message_id s) (slice_index s) ->
  exists chan', sr_process_slice_message_ack chan (message_id s) (slice_index s) = Ret chan' /\
    rel_ok d now ch chan' /\ chan_retained c2 ch chan'.
Proof.
  intros Hrel Hret Hrcv (Hs & Hlen & Hn & Hi & _) Hrec. pose proof Hrel as [Hinv Hid Hnext Hmsgs].
  destruct (sr_process_slice_ack_spec now chan (message_id s) (slice_index s) Hinv) as (chan1 & E & Hinv1 & Hn1 & Hid1 & Hun).
  { intros um Hu. destruct (rel_ok_small _ _ _ _ _ _ _ Hrel Hu Hs) as (_ & _ & Hbig).
    destruct (Hbig Hlen) as (na & nx & acked & ls & ->). eexists _, _, _, _, _, _. split; [done|lia]. }
  exists chan1. split; [done|].
  destruct (unacked_messages chan !! message_id s) as [um|] eqn:Hu; [|by subst chan1].
  destruct (rel_ok_small _ _ _ _ _ _ _ Hrel Hu Hs) as (_ & _ & Hbig). destruct (Hbig Hlen) as (na & nx & acked & ls & ->).
  pose proof (Hret (message_id s)) as Hr0. rewrite Hu in Hr0. cbn in Hr0.
  pose proof (sent_at_lt _ _ _ Hs) as Hlt. rewrite <- Hnext in Hlt. specialize (Hr0 Hlt).
  set (acked' := <[Z.to_nat (slice_index s) := true]> acked) in *.
  assert (forall i, 0 <= i -> acked' !! Z.to_nat i = Some true -> recorded_by c2 ch (message_id s) i) as Hall.
  { intros i Hi0 Ha. unfold acked' in Ha. apply list_lookup_insert_Some in Ha as [(E1 & _ & _)|[_ Ha]]; [|by apply Hr0].
    assert (i = slice_index s) as -> by lia. done. }
  destruct (sr_ids _ _ Hinv _ _ Hu) as [_ (_ & _ & _ & _ & _ & Hla & _)].
  assert (count_true acked' = num_slices_of m -> received_by c2 ch (message_id s)) as Hcase.
  { intros Ec.
    destruct Hrec as (chan' & Hch' & _). exists chan'. split; [done|].
    apply (slices_all_received (sent_of d ch) _ _ m); [by apply (rcv_rel _ _ Hrcv)|done..|].
    intros i Hi'. assert (len acked' = num_slices_of m) as Hl' by (unfold acked', len in *; by rewrite length_insert).
    destruct (Hall i) as (chan2 & Hch2 & Hr2); [lia| |congruence].
    apply count_true_full; [lia|]. unfold len in Hl'. lia. }
  split.
  - constructor; [done|congruence|congruence|]. intros id um' H. rewrite Hun in H. revert H. destruct (_ =? _).
    + intros [_ H]%lookup_delete_Some. by apply Hmsgs.
    + intros [[<- <-]|[_ H]]%lookup_insert_Some; [done|by apply Hmsgs].
  - intros id Hlt'. rewrite Hn1 in Hlt'. destruct (decide (id = message_id s)) as [->|Hne].
    + rewrite Hun. destruct (Z.eqb_spec (count_true acked') (num_slices_of m)) as [Ec|].
      * rewrite lookup_delete_eq. by apply Hcase.
      * by rewrite lookup_insert_eq.
    + rewrite Hun. destruct (_ =? _); [rewrite lookup_delete_ne by done|rewrite lookup_insert_ne by done]; by apply Hret.
Qed.

(** What acknowledging a packet leaves behind, at the sender [c], whose peer is [c2]. *)
Record acked_step (d : dir) (c2 c c' : RenetClient) : Prop := {
  ack_inv : sender_inv d c';
  ack_retention : retention c' c2;
  ack_frame : receive_reliable_channels c' = receive_reliable_channels c /\
    receive_unreliable_channels c' = receive_unreliable_channels c /\
    current_time c' = current_time c /\ connection_status c' = connection_status c /\
    (forall x, acks (pending_acks c') x -> acks (pending_acks c) x);
}.

Lemma set_send_reliable_step d c2 c ch chan chan' :
  sender_inv d c -> retention c c2 -> send_reliable_channels c !! ch = Some chan ->
  rel_ok d (current_time c) ch chan' -> chan_retained c2 ch chan' ->
  acked_step d c2 c (set_send_reliable c (<[ch := chan']> (send_reliable_channels c))).
Proof.
  intros Hs Hret Hch Hrel Hcr. constructor; [|..|done].
  - apply (set_send_reliable_inv d); try done. by destruct (snd_rel _ _ Hs _ _ Hch).
  - intros ch' chan0 id. cbn. intros [[<- <-]|[_ H]]%lookup_insert_Some; [apply Hcr|by apply Hret].
Qed.

Lemma process_ack_info_spec d c c2 x p info :
  dir_ok d -> sender_inv d c -> retention c c2 -> receiver_inv d c2 ->
  emitted_at d x p -> sent_info p = Ret info -> absorbed c2 p ->
  exists c', process_ack_info c info = Ret c' /\ acked_step d c2 c c' /\ sent_packets c' = sent_packets c /\
    stats c' = stats c.
Proof.
  intros Hok Hs Hret Hrcv [_ Hp] Hinfo Habs. apply list_elem_of_lookup_2 in Hp.
  pose proof (ok_honest _ Hok) as Hh. rewrite Forall_forall in Hh. specialize (Hh p Hp) as [Hh Hwf].
  pose proof (snd_chans _ _ Hs) as Hc. rewrite Forall_forall in Hc. specialize (Hc p Hp).
  destruct p as [q ch ms|q ch ms|q ch s|q ch s|q rs]; cbn in Hinfo, Hh, Habs, Hc; simplify_eq; cbn [process_ack_info].
  - destruct Hc as [chan Hch]. rewrite Hch. cbn [unwrap out_bind]. destruct (snd_rel _ _ Hs _ _ Hch) as [_ Hrel].
    destruct (ack_messages_spec d (current_time c) ch c2 ms.*1 chan Hrel) as (chan' & -> & Hrel' & Hcr).
    { intros id. by apply Hret. }
    { apply Forall_fmap. apply Forall_forall. intros x0 Hx. rewrite Forall_forall in Hh, Habs.
      destruct (Hh x0 Hx). exists x0.2. split_and!; [done..|by apply Habs]. }
    cbn. eexists; split; [done|]. split_and!; [|done..]. by eapply set_send_reliable_step.
  - exists c. split_and!; try done.
  - exists c. split_and!; try done.
  - destruct Hc as [chan Hch]. rewrite Hch. cbn [unwrap out_bind]. destruct (snd_rel _ _ Hs _ _ Hch) as [_ Hrel].
    destruct Hh as [m Hsl].
    destruct (ack_slice_spec d (current_time c) ch c2 s m chan Hrel) as (chan' & -> & Hrel' & Hcr); try done.
    { intros id. by apply Hret. }
    cbn. eexists; split; [done|]. split_and!; [|done..]. by eapply set_send_reliable_step.
  - destruct (last rs) as [r|] eqn:El; [|done]. cbn in Hinfo.
    apply last_Some in El as [l ->]. destruct Hh as [_ [Hrs _]]. apply Forall_app in Hrs as [_ [Hr _]%Forall_cons].
    unfold range_ok in Hr. rewrite sub64_ok in Hinfo by lia. cbn in Hinfo. simplify_eq. cbn [process_ack_info].
    destruct (acked_largest_spec (pending_acks c) (r_end r - 1) (snd_acks _ _ Hs)) as (acks' & -> & Hw & _ & Hx); [lia|].
    cbn. eexists; split; [done|]. split_and!; try done. constructor; [|done|].
    + destruct Hs. by constructor.
    + split_and!; try done. cbn. intros x0 H0. by apply Hx.
Qed.

Lemma acked_step_refl d c2 c : sender_inv d c -> retention c c2 -> acked_step d c2 c c.
Proof. by constructor. Qed.

Lemma acked_step_trans d c2 c c1 c' : acked_step d c2 c c1 -> acked_step d c2 c1 c' -> acked_step d c2 c c'.
Proof.
  intros [_ _ (?&?&?&?&?)] [? ? (?&?&?&?&?)]. constructor; [done..|]. split_and!; try congruence. auto.
Qed.

(** One acknowledged packet: the only call that may panic is the statistics'. *)
Lemma process_ack_spec d c c2 x ps st :
  dir_ok d -> sender_inv d c -> retention c c2 -> receiver_inv d c2 -> absorbed_at d c2 x ->
  sent_packets c !! x = Some ps -> stats_acked_packet (stats c) (ps_sent_at ps) (current_time c) = Ret st ->
  exists c', process_ack c x = Ret c' /\ acked_step d c2 c c' /\
    sent_packets c' = delete x (sent_packets c) /\ stats c' = st.
Proof.
  intros Hok Hs Hret Hrcv (p & Hp & Habs) Hx Hst. destruct (snd_packets _ _ Hs _ _ Hx) as (Ht & p' & Hp' & Hinfo).
  assert (p' = p) as -> by (destruct Hp as [_ E1], Hp' as [_ E2]; congruence).
  unfold process_ack. rewrite Hx. cbn [unwrap out_bind]. cbn [current_time stats set_sent_packets]. rewrite Hst. cbn [out_bind].
  cbn [current_time set_stats set_sent_packets]. rewrite dur_sub_ok by done. cbn [out_bind].
  match goal with |- context [process_ack_info ?c1 _] => set (c1' := c1) end.
  assert (sender_inv d c1') as Hs1.
  { destruct Hs as [R U Q P O A B Cs]. constructor; cbn; try done. intros x' ps' [_ H]%lookup_delete_Some. by apply P. }
  destruct (process_ack_info_spec d c1' c2 x p (ps_info ps)) as (c' & -> & [? ? (?&?&?&?&?)] & Hsp & Hst'); try done.
  exists c'. split_and!; try done.
Qed.

Lemma process_acks_inv d c2 xs : forall c c',
  dir_ok d -> sender_inv d c -> retention c c2 -> receiver_inv d c2 ->
  (forall x, x ∈ xs -> absorbed_at d c2 x) -> fold_out process_ack c xs = Ret c' -> acked_step d c2 c c'.
Proof.
  induction xs as [|x xs IH]; intros c c' Hok Hs Hret Hrcv Habs Hf; [simplify_eq/=; by apply acked_step_refl|].
  cbn in Hf. destruct (process_ack c x) as [c1|] eqn:E; [|done]. cbn in Hf.
  assert (acked_step d c2 c c1) as Hstep.
  { unfold process_ack in E. destruct (sent_packets c !! x) as [ps|] eqn:Hx; [|done]. cbn in E.
    destruct (stats_acked_packet (stats c) (ps_sent_at ps) (current_time c)) as [st|] eqn:Hst; [|done].
    destruct (process_ack_spec d c c2 x ps st) as (c1' & E' & Hstep & _); try done; [apply Habs; left|].
    unfold process_ack in E'. rewrite Hx in E'. cbn in E'. rewrite Hst in E'. cbn in E, E'. congruence. }
  eapply acked_step_trans; [done|]. apply IH; try done; [apply Hstep..|]. intros; apply Habs; by right.
Qed.

Lemma process_acks_total d c2 xs : forall c,
  dir_ok d -> sender_inv d c -> retention c c2 -> receiver_inv d c2 ->
  (forall x, x ∈ xs -> absorbed_at d c2 x /\ is_Some (sent_packets c !! x)) -> NoDup xs ->
  stats_room (len xs) (stats c) -> exists c', fold_out process_ack c xs = Ret c'.
Proof.
  induction xs as [|x xs IH]; intros c Hok Hs Hret Hrcv Hxs Hnd Hroom; [by exists c|].
  apply NoDup_cons in Hnd as [Hni Hnd]. destruct (Hxs x ltac:(left)) as [Habs [ps Hx]].
  destruct (snd_packets _ _ Hs _ _ Hx) as (Ht & _). rewrite len_cons in Hroom. pose proof (len_nonneg xs).
  destruct (stats_acked_room _ _ (ps_sent_at ps) (current_time c) Hroom ltac:(lia) Ht) as (st & Hst & Hroom').
  destruct (process_ack_spec d c c2 x ps st) as (c1 & E & Hstep & Hsp & Hst1); try done.
  destruct (IH c1) as (c' & E'); try done; [apply Hstep|apply Hstep| | |].
  - intros x' Hx'. assert (x' ∈ x :: xs) as Hin by (by right). destruct (Hxs x' Hin). split; [done|]. by rewrite Hsp, lookup_delete_ne by congruence.
  - rewrite Hst1. by replace (1 + len xs - 1) with (len xs) in Hroom' by lia.
  - exists c'. cbn. by rewrite E.
Qed.

Lemma new_acks_spec sent rs :
  wf_ranges rs -> exists xs, new_acks sent rs = Ret xs /\ NoDup xs /\
    (forall x, x ∈ xs -> acks rs x /\ is_Some (sent !! x)).
Proof.
  induction rs as [|r rs IH]; intros Hwf.
  { exists []. split_and!; [done|constructor|intros x []%elem_of_nil]. }
  apply wf_ranges_cons in Hwf as (Hr & Hb & Hwf). destruct (IH Hwf) as (xs & E & Hnd & Hxs). unfold range_ok in Hr.
  cbn [new_acks]. rewrite (proj2 (Z.ltb_ge _ _)), E by lia. cbn. eexists; split; [done|]. split.
  - apply NoDup_app. split_and!; [apply range_keys_NoDup| |done].
    intros x [Hx _]%elem_of_range_keys Hin. apply Hxs in Hin as [Hin _].
    pose proof (Forall_before_acks r rs x Hb Hin). lia.
  - intros x [Hx|Hx]%elem_of_app.
    + apply elem_of_range_keys in Hx as [? ?]. split; [|done]. apply acks_cons. by left.
    + apply Hxs in Hx as [? ?]. split; [|done]. apply acks_cons. by right.
Qed.

Section processing.
Context {oct : Octets} {laws : OctetsLaws oct}.
Context (d e : dir) (c2 : RenetClient).
Context (Hd : dir_ok d) (He : dir_ok e) (Hpeer2 : peer_inv e d c2).

(** The client once the packet's sequence is queued for acknowledgement. *)
Lemma add_pending_ack_inv c p st :
  peer_inv d e c -> p ∈ d_emitted e ->
  exists rs, add_pending_ack (pending_acks c) (sequence p) = Ret rs /\
    let c1 := set_pending_acks (set_stats c st) rs in
    sender_inv d c1 /\ receiver_inv e c1 /\
    (forall x, acks rs x -> acks (pending_acks c) x \/ x = sequence p).
Proof using He.
  intros [Hs Hr Ha] Hp. pose proof (ok_honest _ He) as Hh. rewrite Forall_forall in Hh. destruct (Hh p Hp) as [_ [Hq _]].
  destruct (add_pending_ack_spec (pending_acks c) (sequence p) (snd_acks _ _ Hs) Hq) as (rs & -> & Hwf & _ & _ & Hx).
  exists rs. split; [done|]. cbv zeta. split_and!.
  - destruct Hs. by constructor.
  - destruct Hr. by constructor.
  - intros x Hin. destruct Hx as [Hx|(_ & _ & Hx)]; apply Hx in Hin; [done|]. destruct Hin as [Hin|]; [left|by right].
    destruct (pending_acks c) as [|r0 l]; [done|]. apply acks_cons. by right.
Qed.

(** What is acknowledged by a packet of the peer has been absorbed by the peer. *)
Lemma ack_absorbed seq rs x : Ack seq rs ∈ d_emitted e -> acks rs x -> absorbed_at d c2 x.
Proof using Hpeer2. intros. eapply (aok_emitted _ _ _ (peer_acks _ _ _ Hpeer2)); done. Qed.

Lemma process_packet_inv c p c' :
  peer_inv d e c -> retention c c2 -> p ∈ d_emitted e -> process_packet c (encode p) = Ret c' ->
  peer_inv d e c' /\ client_quiet c c' /\ retention c' c2.
Proof using laws Hd He Hpeer2.
  intros Hpeer Hret Hp Hproc. unfold process_packet in Hproc.
  destruct (is_disconnected c) eqn:Hdis; [by simplify_eq|].
  destruct (stats_received_packet _ _) as [st|]; [|done]. cbn [out_bind] in Hproc.
  pose proof (ok_honest _ He) as Hh. rewrite Forall_forall in Hh. destruct (Hh p Hp) as [Hhon Hwf].
  pose proof (from_bytes_encode p [] Hwf) as Hfb. rewrite app_nil_r in Hfb. rewrite Hfb in Hproc. cbn [out_bind] in Hproc.
  destruct (add_pending_ack_inv c p st Hpeer Hp) as (rs & E & Hs1 & Hr1 & Hrs). cbn [pending_acks set_stats] in Hproc.
  rewrite E in Hproc. cbn [out_bind] in Hproc. set (c1 := set_pending_acks (set_stats c st) rs) in *.
  destruct Hpeer as [Hs Hr [Hap Hae]].
  assert (client_quiet c c1) as Hq1 by (by apply client_quiet_eq). assert (retention c1 c2) as Hret1 by done.
  assert (forall c0, client_grows c1 c0 -> forall seq rs x, Ack seq rs ∈ d_emitted d -> acks rs x -> absorbed_at e c0 x) as Hae'.
  { intros c0 Hg seq rs0 x Hin Hx. eapply absorbed_at_grows; [reflexivity|exact Hg|]. by eapply Hae. }
  assert (forall c0, client_grows c1 c0 -> (forall x, acks (pending_acks c0) x -> acks rs x) -> absorbed c0 p ->
    forall x, acks (pending_acks c0) x -> absorbed_at e c0 x) as Hap'.
  { intros c0 Hg Hsub Habs x Hx. destruct (Hrs x (Hsub x Hx)) as [Hx'| ->].
    - eapply absorbed_at_grows; [reflexivity|exact Hg|]. by apply Hap.
    - exists p. split; [by apply emitted_sequence|done]. }
  destruct (is_ack p) eqn:Hack.
  - destruct p as [| | | |q ack_ranges]; try done. cbn [dispatch_packet] in Hproc.
    destruct (new_acks_spec (sent_packets c1) ack_ranges) as (xs & Ex & _ & Hxs); [apply Hhon|].
    rewrite Ex in Hproc. cbn [out_bind] in Hproc.
    destruct (process_acks_inv d c2 xs c1 c') as [Hs' Hret' (Hrr & Hru & Ht & Hst & Hpa)]; try done.
    { apply Hpeer2. } { intros x Hx. apply Hxs in Hx as [Hx _]. by eapply ack_absorbed. }
    assert (client_quiet c1 c') as Hq' by (by apply client_quiet_eq). pose proof (client_quiet_grows _ _ Hq') as Hg'.
    split_and!; [|by etrans|done]. constructor; [done| |].
    + destruct Hr1 as [R U]. constructor; [by rewrite Hrr|by rewrite Hru, Ht].
    + constructor; [|by apply Hae']. intros _. by apply Hap'.
  - destruct (dispatch_receive e c1 p) as (c0 & E0 & [Hr0 Hq0 Hsame Habs]); try done.
    rewrite E0 in Hproc. simplify_eq. pose proof (client_quiet_grows _ _ Hq0) as Hg0.
    split_and!; [|by etrans|by eapply sender_same_retention].
    constructor; [by eapply sender_same_inv|done|]. constructor; [|by apply Hae'].
    intros Hd0. apply Hap'; [done| |by apply Habs]. destruct Hsame as (_&_&_&->&_). done.
Qed.

(** An honest peer cannot make [process_packet] panic. *)
Lemma process_packet_total c p :
  peer_inv d e c -> retention c c2 -> p ∈ d_emitted e ->
  stats_room (len (encode p) + Z.of_nat (size (sent_packets c))) (stats c) ->
  exists c', process_packet c (encode p) = Ret c'.
Proof using laws Hd He Hpeer2.
  intros Hpeer Hret Hp Hroom. unfold process_packet. destruct (is_disconnected c); [by eexists|].
  destruct (stats_received_room _ _ (len (encode p)) Hroom) as (st & -> & Hroom'); [pose proof (len_nonneg (encode p)); lia|].
  cbn [out_bind]. pose proof (ok_honest _ He) as Hh. rewrite Forall_forall in Hh. destruct (Hh p Hp) as [Hhon Hwf].
  pose proof (from_bytes_encode p [] Hwf) as Hfb. rewrite app_nil_r in Hfb. rewrite Hfb. cbn [out_bind].
  destruct (add_pending_ack_inv c p st Hpeer Hp) as (rs & E & Hs1 & Hr1 & Hrs). cbn [pending_acks set_stats].
  rewrite E. cbn [out_bind]. set (c1 := set_pending_acks (set_stats c st) rs) in *.
  destruct (is_ack p) eqn:Hack.
  - destruct p as [| | | |q ack_ranges]; try done. cbn [dispatch_packet].
    destruct (new_acks_spec (sent_packets c1) ack_ranges) as (xs & -> & Hnd & Hxs); [apply Hhon|]. cbn [out_bind].
    apply (process_acks_total d c2); try done; [apply Hpeer2|..].
    + intros x Hx. apply Hxs in Hx as [Hx Hin]. split; [by eapply ack_absorbed|done].
    + eapply stats_room_le; [|exact Hroom']. unfold len at 1.
      assert (length xs <= size (sent_packets c))%nat; [|lia]. rewrite <- size_dom.
      rewrite <- (size_list_to_set (C := gset Z) xs) by done. apply subseteq_size.
      intros x Hx%elem_of_list_to_set. apply elem_of_dom. by apply Hxs in Hx as [_ ?].
  - destruct (dispatch_receive e c1 p) as (c0 & E0 & _); try done. by exists c0.
Qed.

End processing.

(** ** [receive_message] *)

(** What the application is given. *)
Definition delivery (e : dir) (c : RenetClient) (ch : Z) (c' : RenetClient) (r : option Bytes) : Prop :=
  if is_disconnected c then c' = c /\ r = None
  else
    match receive_reliable_channels c !! ch with
    | Some chan => exists chan', c' = set_receive_reliable c (<[ch := chan']> (receive_reliable_channels c)) /\
        rr_inv (sent_of e ch) chan' /\
        (forall id, has_received chan' id <-> has_received chan id) /\
        (reliable_order chan' = Ordered <-> reliable_order chan = Ordered) /\
        received_answer chan chan' r
    | None => receive_reliable_channels c' = receive_reliable_channels c /\
        forall m, r = Some m -> m ∈ offered_of e ch
    end.

Lemma receive_message_inv d e c ch :
  dir_ok e -> peer_inv d e c ->
  is_disconnected c = true \/ is_Some (receive_reliable_channels c !! ch) \/ is_Some (receive_unreliable_channels c !! ch) ->
  exists c' r, receive_message c ch = Ret (c', r) /\ peer_inv d e c' /\ client_grows c c' /\
    sender_same c c' /\ delivery e c ch c' r.
Proof.
  intros Hok Hpeer Hch. pose proof Hpeer as [Hs Hr Ha]. unfold receive_message, delivery.
  destruct (is_disconnected c) eqn:Hd; [by exists c, None|].
  assert (forall c', sender_same c c' -> receiver_inv e c' -> client_grows c c' -> peer_inv d e c') as Hmk.
  { intros c' Hsame Hr' Hg. constructor; [by eapply sender_same_inv|done|]. destruct Ha as [Hap Hae].
    destruct Hsame as (_&_&_&Hpa&_). constructor.
    - intros _ x Hx. rewrite Hpa in Hx. eapply absorbed_at_grows; [reflexivity|done|by apply Hap].
    - intros seq rs x Hin Hx. eapply absorbed_at_grows; [reflexivity|done|by eapply Hae]. }
  destruct (receive_reliable_channels c !! ch) as [chan|] eqn:E.
  - pose proof (rcv_rel _ _ Hr _ _ E) as Hinv.
    destruct (rr_receive_spec _ _ (dir_ok_sent_ok _ ch Hok) Hinv) as (chan' & r & -> & Hinv' & Hhas & Hsl & Hord & Hans).
    cbn. set (c' := set_receive_reliable c _).
    assert (client_grows c c') as Hg.
    { intros ch' chan0 H. destruct (decide (ch' = ch)) as [->|Hne].
      - simplify_eq. exists chan'. cbn. rewrite lookup_insert_eq. split_and!; [done|by intros; apply Hhas|].
        intros id i [H|H]; [left; by apply Hhas|right]. by rewrite Hsl.
      - exists chan0. cbn. by rewrite lookup_insert_ne. }
    assert (receiver_inv e c') as Hr'.
    { destruct Hr as [Hrr Hru]. constructor; cbn; [|done].
      intros ch' chan0 [[<- <-]|[_ H]]%lookup_insert_Some; [done|by apply Hrr]. }
    exists c', r. split_and!; try done; [by apply Hmk|]. by exists chan'.
  - destruct Hch as [?|[[? ?]|[chan Hu]]]; [done..|]. rewrite Hu.
    destruct (ru_receive_spec _ _ _ _ (rcv_unrel _ _ Hr _ _ Hu)) as (chan' & r & -> & Hinv' & Hres). cbn.
    destruct (set_receive_unreliable_inv e c ch chan' Hr Hinv') as (Hr' & Hq & Hsame).
    eexists _, _. split; [done|]. pose proof (client_quiet_grows _ _ Hq). split_and!; try done; [by apply Hmk|].
    intros m ->. by destruct Hres.
Qed.

(** ** [update] *)

Lemma lost_packets_total now it :
  Forall (fun x => ps_sent_at x.2 <= now) it -> exists lost, lost_packets now it = Ret lost.
Proof.
  induction it as [|[x ps] it IH]; intros Hf; [by eexists|]. apply Forall_cons in Hf as [Ht Hf]. cbn in *.
  rewrite dur_sub_ok by done. cbn. destruct (_ <=? _); [|by eexists]. destruct (IH Hf) as [lost ->]. by eexists.
Qed.

Lemma remove_packets_sub sent lost x ps : remove_packets sent lost !! x = Some ps -> sent !! x = Some ps.
Proof.
  revert sent. induction lost as [|y lost IH]; intros sent; cbn; [done|].
  intros H. apply IH in H. by apply lookup_delete_Some in H as [_ ?].
Qed.

Lemma client_update_inv d e c duration st :
  dir_ok d -> dir_ok e -> peer_inv d e c -> 0 <= duration -> current_time c + duration <= DURATION_MAX ->
  stats_update (stats c) (current_time c + duration) = Ret st ->
  exists c', client_update c duration = Ret c' /\ stats c' = st /\
    current_time c' = current_time c + duration /\
    peer_inv d e c' /\ client_quiet c c' /\ (forall c2, retention c c2 -> retention c' c2).
Proof.
  intros Hd He [Hs Hr Ha] Hdur Hmax Hst. unfold client_update. rewrite dur_add_ok by done. cbn [out_bind].
  cbn [stats set_time]. rewrite Hst. cbn [out_bind receive_unreliable_channels set_stats set_time].
  set (now := current_time c + duration) in *.
  assert (forall ch chan, receive_unreliable_channels c !! ch = Some chan ->
    exists chan', ru_discard_incomplete_old_slices chan now = Ret chan' /\
      ru_inv (fun m => m ∈ offered_of e ch) (sliced_of e ch) now chan') as Hdis.
  { intros ch chan H. pose proof (rcv_unrel _ _ Hr _ _ H) as Hinv.
    apply (ru_inv_mono _ _ [] _ now) in Hinv; [|lia]. rewrite app_nil_r in Hinv.
    destruct (ru_discard_old_spec _ _ _ _ (dir_ok_sliced_ok _ ch He) Hinv) as (chan' & ? & ? & _). by exists chan'. }
  destruct (map_values_mut_total (fun channel => ru_discard_incomplete_old_slices channel now) (receive_unreliable_channels c))
    as (chans & Ech).
  { intros ch chan H. destruct (Hdis ch chan H) as (chan' & ? & _). by exists chan'. }
  rewrite Ech. cbn [out_bind sent_packets set_receive_unreliable set_stats set_time].
  destruct (lost_packets_total now (btree_iter (sent_packets c))) as (lost & ->).
  { apply Forall_forall. intros [x ps] Hin%elem_of_btree_iter. destruct (snd_packets _ _ Hs _ _ Hin) as [? _]. cbn. lia. }
  cbn [out_bind]. eexists; split; [done|]. split_and!; [done..| |by apply client_quiet_eq|done].
  constructor; [| |destruct Ha; by constructor].
  - destruct Hs as [R U Q P O A B Cs]. constructor; cbn; try done.
    + intros ch chan H. destruct (R _ _ H) as [? [Hi ? ? ?]]. split; [done|]. constructor; try done.
      eapply sr_inv_mono; [|exact Hi]. lia.
    + intros x ps H%remove_packets_sub. eapply remembered_le; [reflexivity| |by apply P]. lia.
  - constructor; cbn; [apply Hr|]. intros ch chan H. pose proof (map_values_mut_lookup _ _ _ ch Ech) as Hl.
    destruct (receive_unreliable_channels c !! ch) as [chan0|] eqn:E0; [|congruence].
    destruct (Hdis ch chan0 E0) as (chan' & E1 & Hinv1). destruct Hl as (w & E2 & Hl). congruence.
Qed.
