(* ===== verification/ConnectionProps.v ===== *)
(** * Status and hostile peers

    The life cycle of a connection's status, and what a peer that does not
    follow the protocol can do to [RenetClient::process_packet]. *)

From S2P Require Import Prelude Octets Packet SliceConstructor ReliableSend ReliableRecv Unreliable PendingAcks Stats Connection ConnectionSpec ConnectionSteps.

(** ** Status *)

Lemma client_update_status c duration c' :
  client_update c duration = Ret c' -> connection_status c' = connection_status c.
Proof.
  unfold client_update. intros H. out_inv. done.
Qed.

Lemma disconnected_reason c reason :
  disconnect_reason c = Some reason -> connection_status c = Disconnected reason /\ is_disconnected c = true.
Proof. unfold disconnect_reason, is_disconnected. destruct (connection_status c); naive_solver. Qed.

(** A disconnection is final and keeps its first reason: on a disconnected
    client no status change has an effect, messages are neither sent nor
    received, datagrams are ignored, nothing is sent, and time passing does not
    reconnect it. *)
Theorem disconnected_is_final {oct : Octets} c reason :
  disconnect_reason c = Some reason ->
  (forall other, disconnect_with_reason c other = c) /\ set_connected c = c /\ set_connecting c = c /\
  (forall channel_id message, send_message c channel_id message = Ret c) /\
  (forall channel_id, receive_message c channel_id = Ret (c, None)) /\
  (forall datagram, process_packet c datagram = Ret c) /\ get_packets_to_send c = Ret (c, []) /\
  (forall duration c', client_update c duration = Ret c' -> disconnect_reason c' = Some reason).
Proof.
  intros [Hs Hd]%disconnected_reason.
  unfold disconnect_with_reason, set_connected, set_connecting, send_message, receive_message, process_packet, get_packets_to_send.
  rewrite Hd. split_and!; try done. intros duration c' H%client_update_status. unfold disconnect_reason. by rewrite H, Hs.
Qed.

(** ** Scenarios *)

(** The default client, connected. *)
Definition default_client : out RenetClient :=
  let! c := client_new default_config in
  Ret (set_connected c).

Lemma disconnected_is_final_witness :
  (let! c := default_client in
   let c := disconnect c in
   let! c := send_message c 0 [byte_of 1] in
   Ret (disconnect_reason (set_connected c))) = Ret (Some DisconnectedByClient).
Proof.
  destruct default_client as [c|] eqn:E; [|vm_compute in E; discriminate E].
  assert (is_disconnected c = false) as Hd.
  { assert ((let! c := default_client in Ret (is_disconnected c)) = Ret false) as H by (vm_compute; reflexivity).
    rewrite E in H. injection H as H. exact H. }
  assert (disconnect_reason (disconnect c) = Some DisconnectedByClient) as Hr.
  { unfold disconnect, disconnect_with_reason. rewrite Hd. reflexivity. }
  destruct (disconnected_is_final (oct := quic_octets) (disconnect c) DisconnectedByClient Hr) as (_ & Hc & _ & Hsend & _).
  cbn [out_bind]. rewrite Hsend. cbn [out_bind]. rewrite Hc, Hr. reflexivity.
Defined.

(** Datagrams fed to a client one after the other. *)
Definition receive_all {oct : Octets} (c : RenetClient) (datagrams : list Bytes) : out RenetClient :=
  fold_out process_packet c datagrams.

(** The wire form of a packet, as [to_bytes] writes it. *)
Definition datagram_of {oct : Octets} (p : Packet) : Bytes :=
  match to_bytes p (with_slice PACKET_BUFFER) with
  | Ret (Ok (_, b)) => om_written b
  | _ => []
  end.

#[local] Existing Instance quic_octets.

(** A slice of message 0 on channel 2, with arbitrary counters. *)
Definition forged_slice (seq i n : Z) : Bytes :=
  datagram_of (ReliableSlice seq 2 (mkSlice 0 i n (replicate 1200 (byte_of 7)))).

(** One datagram that parses, with a slice index beyond the number of
    slices, makes [process_packet] panic: the parser does not compare the two,
    nor does the slice constructor. *)
Theorem forged_slice_index_panics :
  (exists p, from_bytes (forged_slice 0 2 2) = Ret (Ok p)) /\
  (let! c := default_client in process_packet c (forged_slice 0 2 2)) = Panic.
Proof.
  split; [|vm_compute; reflexivity].
  exists (ReliableSlice 0 2 (mkSlice 0 2 2 (replicate 1200 (byte_of 7)))). vm_compute. reflexivity.
Qed.

(** Two slices that disagree on the number of slices of their message make
    [process_packet] panic: the memory given back is computed from the last
    packet's count, while the memory reserved came from the first one's. *)
Theorem forged_num_slices_panics :
  (let! c := default_client in
   let! c := process_packet c (forged_slice 0 0 2) in
   Ret (is_connected c)) = Ret true /\
  (let! c := default_client in receive_all c [forged_slice 0 0 2; forged_slice 1 1 3]) = Panic.
Proof. split; vm_compute; reflexivity. Qed.

(** The sequences of 710 empty packets, every second one, latest first. *)
Definition sparse_datagrams : list Bytes :=
  (fun i => datagram_of (SmallUnreliable (2 * (709 - i)) 0 [])) <$> seqZ 0 710.

(** A peer (or a network that reverses the order of packets, some of them
    lost) can make a client disconnect itself: well-formed packets whose
    sequences leave gaps and arrive latest first are all recorded, one range
    each, until the acknowledgement does not fit the 1400 byte buffer, and
    [get_packets_to_send] closes the connection. *)
Theorem sparse_packets_disconnect :
  (let! c := default_client in
   let! c := receive_all c sparse_datagrams in
   let! (c', datagrams) := get_packets_to_send c in
   Ret (is_connected c, len (pending_acks c), disconnect_reason c', datagrams))
  = Ret (true, 710, Some (PacketSerialization BufferTooShort), []).
Proof. vm_compute. reflexivity. Qed.
