(* ===== verification/System.v ===== *)
(** * Two connected peers over an unreliable network

    Two [RenetClient]s exchange the datagrams built by [get_packets_to_send]
    through a network that may lose, duplicate, delay and reorder them. The
    theorems are the delivery guarantees of renet's channels. *)

From Stdlib Require Import SpecFloat.
From S2P Require Import Prelude Octets Packet SliceConstructor ReliableSend ReliableRecv Unreliable PendingAcks Stats Connection ConnectionSpec ConnectionSteps.

(** ** The system *)

(** A peer: its client, what its application sent on reliable and on unreliable
    channels, what was delivered to it, and every datagram it produced. *)
Record peer := mkPeer {
  p_client : RenetClient;
  p_sent : gmap Z (list Bytes);
  p_offered : gmap Z (list Bytes);
  p_delivered : gmap Z (list Bytes);
  p_wire : list Bytes;
}.

Definition log_of (log : gmap Z (list Bytes)) (ch : Z) : list Bytes := default [] (log !! ch).

Section system.
Context {oct : Octets} {laws : OctetsLaws oct}.

(** One operation of [me], whose peer is [other]. Delivering a datagram does
    not remove it from the network: it may be delivered again, or never. *)
Inductive peer_step (me other : peer) : peer -> Prop :=
  | step_send ch m c' :
      len m <= MAX_MESSAGE -> len (log_of (p_sent me) ch) < VARINT_MAX ->
      send_message (p_client me) ch m = Ret c' ->
      peer_step me other (mkPeer c' (log_sent (p_client me) c' ch m (p_sent me))
        (log_offered (p_client me) c' ch m (p_offered me)) (p_delivered me) (p_wire me))
  | step_receive ch c' r :
      receive_message (p_client me) ch = Ret (c', r) ->
      peer_step me other (mkPeer c' (p_sent me) (p_offered me)
        (match r with Some m => push (p_delivered me) ch m | None => p_delivered me end) (p_wire me))
  | step_update duration c' :
      0 <= duration -> client_update (p_client me) duration = Ret c' ->
      peer_step me other (mkPeer c' (p_sent me) (p_offered me) (p_delivered me) (p_wire me))
  | step_flush c' datagrams :
      packet_sequence (p_client me) + flush_bound (p_client me) <= VARINT_MAX ->
      get_packets_to_send (p_client me) = Ret (c', datagrams) ->
      peer_step me other (mkPeer c' (p_sent me) (p_offered me) (p_delivered me) (p_wire me ++ datagrams))
  | step_deliver datagram c' :
      datagram ∈ p_wire other -> process_packet (p_client me) datagram = Ret c' ->
      peer_step me other (mkPeer c' (p_sent me) (p_offered me) (p_delivered me) (p_wire me))
  | step_status c' :
      status_op (p_client me) c' ->
      peer_step me other (mkPeer c' (p_sent me) (p_offered me) (p_delivered me) (p_wire me)).

Inductive sys_step : peer * peer -> peer * peer -> Prop :=
  | step_left a b a' : peer_step a b a' -> sys_step (a, b) (a', b)
  | step_right a b b' : peer_step b a b' -> sys_step (a, b) (a, b').

(** Channel ids are bytes, sizes are sizes. *)
Definition config_ok (cfg : ChannelConfig) : Prop :=
  0 <= cc_channel_id cfg <= U8_MAX /\ 0 <= cc_max_memory cfg <= ISIZE_MAX.

Definition fresh_peer (c : RenetClient) : peer := mkPeer c ∅ ∅ ∅ [].

(** Two clients as [from_channels] makes them, whatever their configurations. *)
Inductive sys_init : peer * peer -> Prop :=
  | init_peers n1 s1 r1 c1 n2 s2 r2 c2 :
      0 <= n1 -> 0 <= n2 -> Forall config_ok (s1 ++ r1 ++ s2 ++ r2) ->
      from_channels n1 s1 r1 = Ret c1 -> from_channels n2 s2 r2 = Ret c2 ->
      sys_init (fresh_peer c1, fresh_peer c2).

Definition reachable (s : peer * peer) : Prop := exists s0, sys_init s0 /\ rtc sys_step s0 s.

(** ** Invariant *)

(** What was delivered on a channel, against what was sent on it. *)
Definition chan_log (sent : list Bytes) (chan : ReceiveChannelReliable) (log : list Bytes) : Prop :=
  match reliable_order chan with
  | Ordered => log = take (Z.to_nat (oldest_pending_message_id chan)) sent
  | Unordered _ _ => exists ids, NoDup ids /\ (forall id, id ∈ ids <-> 0 <= id /\ delivered chan id) /\
      Forall2 (sent_at sent) ids log
  end.

Definition log_ok (e : dir) (c : RenetClient) (log : gmap Z (list Bytes)) : Prop :=
  forall ch,
    match receive_reliable_channels c !! ch with
    | Some chan => chan_log (sent_of e ch) chan (log_of log ch)
    | None => Forall (fun m => m ∈ offered_of e ch) (log_of log ch)
    end.

Definition wire_ok (d : dir) (wire : list Bytes) : Prop :=
  forall b, b ∈ wire -> exists p, p ∈ d_emitted d /\ b = encode p.

(** One peer's part of the invariant. *)
Record half (d e : dir) (me : peer) (other : RenetClient) : Prop := {
  hf_ok : dir_ok d;
  hf_sent : d_sent d = p_sent me;
  hf_offered : d_offered d = p_offered me;
  hf_peer : peer_inv d e (p_client me);
  hf_retention : retention (p_client me) other;
  hf_wire : wire_ok d (p_wire me);
  hf_log : log_ok e (p_client me) (p_delivered me);
}.

Definition linked (d e : dir) (a b : peer) : Prop := half d e a (p_client b) /\ half e d b (p_client a).

Lemma linked_sym d e a b : linked d e a b -> linked e d b a.
Proof using. by intros [? ?]. Qed.

Lemma chan_log_grows sent chan chan' log : rr_grows chan chan' -> chan_log sent chan log -> chan_log sent chan' log.
Proof using.
  intros [_ _ Hd Ho Hk]. unfold chan_log. destruct (reliable_order chan) as [|mr rcv], (reliable_order chan') as [|mr' rcv'].
  - by rewrite Ho.
  - destruct Hk as [_ Hk]. by specialize (Hk eq_refl).
  - destruct Hk as [Hk _]. by specialize (Hk eq_refl).
  - intros (ids & ? & Hids & ?). exists ids. split_and!; try done. intros id. by rewrite Hids, Hd.
Qed.

Lemma chan_log_app sent l chan log : rr_inv sent chan -> chan_log sent chan log -> chan_log (sent ++ l) chan log.
Proof using.
  intros Hinv. unfold chan_log. destruct (reliable_order chan).
  - intros ->. pose proof (rr_inv_oldest _ _ Hinv). unfold len in *. by rewrite take_app_le by lia.
  - intros (ids & ? & ? & Hf). exists ids. split_and!; try done. eapply Forall2_impl; [exact Hf|]. intros. by apply sent_at_app.
Qed.

Lemma log_ok_quiet e c c' log : client_quiet c c' -> log_ok e c log -> log_ok e c' log.
Proof using.
  intros Hq Hl ch. specialize (Hq ch). specialize (Hl ch). inv Hq as [chan chan' Hg E1 E2|E1 E2].
  - rewrite <- E1 in Hl. by eapply chan_log_grows.
  - by rewrite <- E1 in Hl.
Qed.

Lemma log_ok_le e e' c log : dir_le e e' -> receiver_inv e c -> log_ok e c log -> log_ok e' c log.
Proof using.
  intros Hle Hr Hl ch. specialize (Hl ch). destruct (receive_reliable_channels c !! ch) as [chan|] eqn:E.
  - destruct (le_sent _ _ Hle ch) as [l ->]. apply chan_log_app; [|done]. by apply (rcv_rel _ _ Hr).
  - eapply Forall_impl; [exact Hl|]. intros. by apply (le_offered _ _ Hle).
Qed.

(** The peer's view when [me] and its history move on. *)
Lemma half_other d d' e c c' b :
  dir_le d d' -> client_grows c c' -> half e d b c -> half e d' b c'.
Proof using.
  intros Hle Hg [Hok Hs Ho Hp Hr Hw Hl]. constructor; try done.
  - by eapply peer_inv_le.
  - intros ch chan id H Hid. eapply retained_grows; [done|]. by eapply Hr.
  - eapply log_ok_le; [done|apply Hp|done].
Qed.

(** Delivering one message to the application. *)
Lemma chan_log_receive sent chan chan' r log :
  rr_inv sent chan -> (forall id, has_received chan' id <-> has_received chan id) ->
  (reliable_order chan' = Ordered <-> reliable_order chan = Ordered) ->
  received_answer chan chan' r -> chan_log sent chan log ->
  chan_log sent chan' (log ++ match r with Some m => [m] | None => [] end).
Proof using.
  intros Hinv Hhas Hk Hans Hlog. destruct r as [m|]; [|destruct Hans as [-> _]; by rewrite app_nil_r].
  destruct Hans as (id & Hid & Hdel & Hord). destruct (rr_inv_messages _ _ Hinv _ _ Hid) as (Hs & Hr & _).
  unfold chan_log in *. destruct (reliable_order chan) as [|mr rcv], (reliable_order chan') as [|mr' rcv'].
  - destruct Hord as [-> ->]. destruct Hs as [H0 Hs]. rewrite Hlog, Z2Nat.inj_add by lia. cbn.
    rewrite Nat.add_1_r. by rewrite (take_S_r _ _ m).
  - destruct Hk as [_ Hk]. by specialize (Hk eq_refl).
  - destruct Hk as [Hk _]. by specialize (Hk eq_refl).
  - destruct Hlog as (ids & Hnd & Hids & Hf). exists (ids ++ [id]). split_and!.
    + apply NoDup_app. split_and!; [done| |apply NoDup_singleton].
      intros x Hx ->%list_elem_of_singleton. apply Hids in Hx as [_ [_ Hx]]. congruence.
    + intros id'. unfold delivered in *. rewrite elem_of_app, list_elem_of_singleton, Hids, Hhas, Hdel.
      pose proof (sent_at_lt _ _ _ Hs). destruct (decide (id' = id)) as [->|].
      * rewrite lookup_delete_eq. split; [|by right]. intros _. split_and!; try done; lia.
      * rewrite lookup_delete_ne by done. naive_solver.
    + by apply Forall2_app; [|constructor].
Qed.

Lemma log_of_push log ch m ch' : log_of (push log ch m) ch' = log_of log ch' ++ (if decide (ch' = ch) then [m] else []).
Proof using. apply push_lookup. Qed.

Lemma log_ok_deliver e c ch c' r log :
  receiver_inv e c -> delivery e c ch c' r -> log_ok e c log ->
  log_ok e c' (match r with Some m => push log ch m | None => log end).
Proof using.
  intros Hr Hdel Hlog. unfold delivery in Hdel. destruct (is_disconnected c); [by destruct Hdel as [-> ->]|].
  assert (forall ch', log_of (match r with Some m => push log ch m | None => log end) ch' =
    log_of log ch' ++ (if decide (ch' = ch) then match r with Some m => [m] | None => [] end else [])) as Hpush.
  { intros ch'. destruct r; [apply log_of_push|]. by destruct (decide _); rewrite app_nil_r. }
  intros ch'. rewrite Hpush. specialize (Hlog ch').
  destruct (receive_reliable_channels c !! ch) as [chan|] eqn:E.
  - destruct Hdel as (chan' & -> & Hinv' & Hhas & Hk & Hans). cbn. destruct (decide (ch' = ch)) as [->|].
    + rewrite lookup_insert_eq. rewrite E in Hlog. apply (chan_log_receive _ chan); try done. by apply (rcv_rel _ _ Hr).
    + rewrite lookup_insert_ne, app_nil_r by done. done.
  - destruct Hdel as [-> Hm]. destruct (decide (ch' = ch)) as [->|]; [|by rewrite app_nil_r].
    rewrite E in *. apply Forall_app. split; [done|]. destruct r; [|constructor]. apply Forall_singleton. by apply Hm.
Qed.

(** Every operation keeps the two peers linked. *)
Lemma peer_step_linked d e a b a' :
  linked d e a b -> peer_step a b a' -> exists d', linked d' e a' b.
Proof using laws.
  intros [Ha Hb] Hstep. pose proof Ha as [Hok Hs Ho Hp Hret Hw Hlog].
  destruct Hstep as [ch m c' Hm Hn Hsend|ch c' r Hrecv|duration c' Hdur Hupd|c' dgs Hbound Hget|dg c' Hin Hproc|c' Hst].
  - destruct (send_message_inv d e (p_client a) ch m c') as (Hok' & Hle & Hp' & Hq & Hret'); try done.
    { unfold sent_of. by rewrite Hs. }
    eexists. split; [|eapply half_other; [exact Hle|by apply client_quiet_grows|exact Hb]].
    constructor; cbn; try done; [by rewrite Hs|by rewrite Ho|by apply Hret'|by eapply log_ok_quiet].
  - assert (is_disconnected (p_client a) = true \/ is_Some (receive_reliable_channels (p_client a) !! ch) \/
      is_Some (receive_unreliable_channels (p_client a) !! ch)) as Hch.
    { unfold receive_message in Hrecv. destruct (is_disconnected (p_client a)); [by left|right].
      destruct (receive_reliable_channels (p_client a) !! ch); [left; by eexists|].
      destruct (receive_unreliable_channels (p_client a) !! ch); [right; by eexists|done]. }
    destruct (receive_message_inv d e (p_client a) ch) as (c1 & r1 & E & Hp' & Hg & Hsame & Hdel); try done; [apply Hb|].
    rewrite E in Hrecv. simplify_eq. exists d. split; [|by eapply half_other].
    constructor; cbn; try done; [by eapply sender_same_retention|]. eapply log_ok_deliver; [apply Hp|done..].
  - assert (Hupd' := Hupd). unfold client_update in Hupd'.
    destruct (dur_add (current_time (p_client a)) duration) as [now|] eqn:En; [|done].
    apply dur_add_inv in En as [-> Hmax]. cbn in Hupd'.
    destruct (stats_update (stats (p_client a)) (current_time (p_client a) + duration)) as [st|] eqn:Est; [|done].
    destruct (client_update_inv d e (p_client a) duration st) as (c1 & E & _ & _ & Hp' & Hq & Hret'); try done; [apply Hb|].
    rewrite E in Hupd. simplify_eq. exists d. split; [|eapply half_other; [reflexivity|by apply client_quiet_grows|done]].
    constructor; cbn; try done; [by apply Hret'|by eapply log_ok_quiet].
  - destruct (get_packets_inv d e (p_client a) c' dgs) as (d' & Hok' & Hle & Hs' & Ho' & Hp' & Hq & Hret' & Hout); try done.
    exists d'. split; [|eapply half_other; [exact Hle|by apply client_quiet_grows|exact Hb]].
    constructor; cbn; try done; try congruence; [by apply Hret'| |by eapply log_ok_quiet].
    intros x [Hx|Hx]%elem_of_app; [|by apply Hout]. destruct (Hw x Hx) as (p & Hin & ->). exists p. split; [|done].
    eapply elem_of_prefix; [exact Hin|apply Hle].
  - destruct Hb as [Hokb Hsb Hob Hpb Hretb Hwb Hlogb]. destruct (Hwb dg Hin) as (p & Hinp & ->).
    destruct (process_packet_inv d e (p_client b) Hok Hokb Hpb (p_client a) p c') as (Hp' & Hq & Hret'); try done.
    exists d. split; [|eapply half_other; [reflexivity|by apply client_quiet_grows|by constructor]].
    constructor; cbn; try done. by eapply log_ok_quiet.
  - apply status_op_same_core in Hst. exists d.
    split; [|eapply half_other; [reflexivity|by apply client_quiet_grows, same_core_quiet|done]].
    constructor; cbn; try done; [by eapply same_core_inv|by eapply same_core_retention|].
    eapply log_ok_quiet; [by apply same_core_quiet|done].
Qed.

Lemma sys_step_linked d e s s' :
  linked d e s.1 s.2 -> sys_step s s' -> exists d' e', linked d' e' s'.1 s'.2.
Proof using laws.
  intros Hl Hstep. destruct Hstep as [a b a' H|a b b' H]; cbn in *.
  - destruct (peer_step_linked d e a b a' Hl H) as [d' ?]. by exists d', e.
  - destruct (peer_step_linked e d b a b' (linked_sym _ _ _ _ Hl) H) as [e' ?]. exists d, e'. by apply linked_sym.
Qed.

(** ** Initial states *)

Definition dir0 : dir := mkDir ∅ ∅ ∅ [].

Lemma sent_of_dir0 ch : sent_of dir0 ch = [].
Proof using. unfold sent_of. cbn. by rewrite lookup_empty. Qed.

Lemma offered_of_dir0 ch : offered_of dir0 ch = [].
Proof using. unfold offered_of. cbn. by rewrite lookup_empty. Qed.

Lemma sliced_of_dir0 ch : sliced_of dir0 ch = [].
Proof using. unfold sliced_of. cbn. by rewrite lookup_empty. Qed.

Lemma dir0_ok : dir_ok dir0.
Proof using.
  constructor; cbn; try done; intros ch; rewrite ?sent_of_dir0, ?offered_of_dir0, ?sliced_of_dir0; done.
Qed.

(** The send channels being built. *)
Record new_senders (unrel : gmap Z SendChannelUnreliable) (rel : gmap Z SendChannelReliable) (order : list ChannelOrder) : Prop := {
  ns_unrel : forall ch chan, unrel !! ch = Some chan ->
    0 <= ch <= U8_MAX /\ exists max, 0 <= max <= ISIZE_MAX /\ chan = su_new ch max;
  ns_rel : forall ch chan, rel !! ch = Some chan ->
    0 <= ch <= U8_MAX /\ exists rt max, 0 <= max <= ISIZE_MAX /\ chan = sr_new ch rt max;
  ns_nodup : NoDup order;
  ns_order : forall o, o ∈ order <->
    match o with OrderReliable ch => is_Some (rel !! ch) | OrderUnreliable ch => is_Some (unrel !! ch) end;
}.

Lemma new_senders_rel unrel rel order ch rt max :
  new_senders unrel rel order -> 0 <= ch <= U8_MAX -> 0 <= max <= ISIZE_MAX -> rel !! ch = None ->
  new_senders unrel (<[ch := sr_new ch rt max]> rel) (order ++ [OrderReliable ch]).
Proof using.
  intros [Hu Hr Hnd Ho] Hch Hmax Hn. constructor; [done|..].
  - intros ch' chan [[<- <-]|[_ H]]%lookup_insert_Some; [|by apply Hr]. split; [done|]. by exists rt, max.
  - apply NoDup_app. split_and!; [done| |apply NoDup_singleton].
    intros o Hin ->%list_elem_of_singleton. apply Ho in Hin. rewrite Hn in Hin. by destruct Hin.
  - intros o. rewrite elem_of_app, list_elem_of_singleton, Ho. destruct o as [ch'|ch']; [|naive_solver].
    rewrite lookup_insert_is_Some'. naive_solver.
Qed.

Lemma new_senders_unrel unrel rel order ch max :
  new_senders unrel rel order -> 0 <= ch <= U8_MAX -> 0 <= max <= ISIZE_MAX -> unrel !! ch = None ->
  new_senders (<[ch := su_new ch max]> unrel) rel (order ++ [OrderUnreliable ch]).
Proof using.
  intros [Hu Hr Hnd Ho] Hch Hmax Hn. constructor; [|done|..].
  - intros ch' chan [[<- <-]|[_ H]]%lookup_insert_Some; [|by apply Hu]. split; [done|]. by exists max.
  - apply NoDup_app. split_and!; [done| |apply NoDup_singleton].
    intros o Hin ->%list_elem_of_singleton. apply Ho in Hin. rewrite Hn in Hin. by destruct Hin.
  - intros o. rewrite elem_of_app, list_elem_of_singleton, Ho. destruct o as [ch'|ch']; [naive_solver|].
    rewrite lookup_insert_is_Some'. naive_solver.
Qed.

Lemma add_send_channels_inv cfgs : forall unrel rel order unrel' rel' order',
  Forall config_ok cfgs -> new_senders unrel rel order ->
  add_send_channels cfgs unrel rel order = Ret (unrel', rel', order') -> new_senders unrel' rel' order'.
Proof using.
  induction cfgs as [|cfg cfgs IH]; intros unrel rel order unrel' rel' order' Hok Hns Hadd; cbn in Hadd; [by simplify_eq|].
  apply Forall_cons in Hok as [[Hid Hmax] Hok].
  destruct (cc_send_type cfg); case_bool_decide as Hin; try done; apply eq_None_not_Some in Hin;
    (eapply IH; [done| |exact Hadd]); by (apply new_senders_rel || apply new_senders_unrel).
Qed.

Lemma add_receive_channels_inv cfgs : forall unrel rel unrel' rel',
  Forall config_ok cfgs ->
  (forall ch chan, unrel !! ch = Some chan -> exists max, 0 <= max <= ISIZE_MAX /\ chan = ru_new ch max) ->
  (forall ch chan, rel !! ch = Some chan -> exists o max, 0 <= max <= ISIZE_MAX /\ chan = rr_new max o) ->
  add_receive_channels cfgs unrel rel = Ret (unrel', rel') ->
  (forall ch chan, unrel' !! ch = Some chan -> exists max, 0 <= max <= ISIZE_MAX /\ chan = ru_new ch max) /\
  (forall ch chan, rel' !! ch = Some chan -> exists o max, 0 <= max <= ISIZE_MAX /\ chan = rr_new max o).
Proof using.
  induction cfgs as [|cfg cfgs IH]; intros unrel rel unrel' rel' Hok Hu Hr Hadd; cbn in Hadd; [by simplify_eq|].
  apply Forall_cons in Hok as [[Hid Hmax] Hok].
  destruct (cc_send_type cfg); case_bool_decide as Hin; try done;
    (eapply IH; [done| | |exact Hadd]; try done;
     intros ch chan [[<- <-]|[_ H]]%lookup_insert_Some; [eauto|by eauto]).
Qed.

Lemma from_channels_inv n sends receives c :
  0 <= n -> Forall config_ok sends -> Forall config_ok receives -> from_channels n sends receives = Ret c ->
  peer_inv dir0 dir0 c /\ (forall c2, retention c c2) /\ log_ok dir0 c ∅.
Proof using.
  intros Hn Hsends Hrecvs Hc. unfold from_channels in Hc.
  destruct (add_send_channels sends ∅ ∅ []) as [[[su sr] order]|] eqn:Es; [|done]. cbn in Hc.
  destruct (add_receive_channels receives ∅ ∅) as [[ru rr]|] eqn:Er; [|done]. cbn in Hc. simplify_eq.
  apply add_send_channels_inv in Es as [Hsu Hsr Hnd Ho]; [|done|].
  2:{ constructor; try (intros ch chan; by rewrite lookup_empty); [constructor|].
      intros [ch|ch]; rewrite lookup_empty; (split; [by intros []%elem_of_nil|by intros []]). }
  apply add_receive_channels_inv in Er as [Hru Hrr]; [|done|intros ch chan; by rewrite lookup_empty..].
  split_and!.
  - constructor; [constructor; cbn|constructor; cbn|constructor; cbn].
    + intros ch chan H. destruct (Hsr _ _ H) as (? & rt & max & ? & ->). split; [done|].
      constructor; cbn; rewrite ?sent_of_dir0; try done; by apply sr_new_inv.
    + intros ch chan H. destruct (Hsu _ _ H) as (? & max & ? & ->). split; [done|].
      constructor; cbn; rewrite ?sliced_of_dir0; try done; by apply su_new_inv.
    + done.
    + intros x ps. by rewrite lookup_empty.
    + split; [|done]. apply Forall_forall. intros o Hin. by apply Ho in Hin; destruct o.
    + apply wf_ranges_nil.
    + done.
    + done.
    + intros ch chan H. destruct (Hrr _ _ H) as (o & max & ? & ->). rewrite sent_of_dir0. by apply rr_new_inv.
    + intros ch chan H. destruct (Hru _ _ H) as (max & ? & ->). by apply ru_new_inv.
    + intros _ x. by rewrite acks_nil.
    + intros seq rs x []%elem_of_nil.
  - intros c2 ch chan id H. destruct (Hsr _ _ H) as (? & rt & max & ? & ->). cbn. lia.
  - intros ch. cbn. unfold log_of. rewrite lookup_empty. cbn. destruct (rr !! ch) as [chan|] eqn:E; [|constructor].
    destruct (Hrr _ _ E) as (o & max & ? & ->). unfold chan_log, rr_new. destruct o; cbn; [by rewrite sent_of_dir0|].
    exists []. split_and!; [constructor| |constructor]. intros id. split; [by intros []%elem_of_nil|].
    intros [? [[?|?] _]]; cbn in *; [lia|set_solver].
Qed.

Lemma reachable_linked s : reachable s -> exists d e, linked d e s.1 s.2.
Proof using laws.
  intros (s0 & Hinit & Hsteps). assert (exists d e, linked d e s0.1 s0.2) as H0.
  { destruct Hinit as [n1 s1 r1 c1 n2 s2 r2 c2 H1 H2 Hok E1 E2]. rewrite !Forall_app in Hok. destruct Hok as (? & ? & ? & ?).
    destruct (from_channels_inv n1 s1 r1 c1) as (P1 & R1 & L1); try done.
    destruct (from_channels_inv n2 s2 r2 c2) as (P2 & R2 & L2); try done.
    exists dir0, dir0. split; (constructor; cbn; try done; try apply dir0_ok; intros b []%elem_of_nil). }
  clear Hinit. induction Hsteps as [s|s s1 s2 Hstep _ IH]; [done|]. apply IH.
  destruct H0 as (d & e & Hl). by eapply sys_step_linked.
Qed.

Lemma reachable_pair a b : reachable (a, b) -> exists d e, linked d e a b.
Proof using laws. intros H. by apply reachable_linked in H. Qed.

Lemma peer_step_shape me other me' : peer_step me other me' -> stats_shape (stats (p_client me)) -> stats_shape (stats (p_client me')).
Proof using.
  destruct 1 as [ch m c' _ _ H|ch c' r H|duration c' _ H|c' ds _ H|b c' _ H|c' H]; cbn [p_client]; intros Hs.
  - by rewrite (send_message_stats _ _ _ _ H).
  - by rewrite (receive_message_stats _ _ _ _ H).
  - by eapply client_update_shape.
  - by eapply get_packets_shape.
  - by eapply process_packet_shape.
  - by rewrite (status_op_stats _ _ H).
Qed.

Lemma reachable_shape a b : reachable (a, b) -> stats_shape (stats (p_client a)).
Proof using.
  intros (s0 & Hi & Hr). assert (stats_shape (stats (p_client s0.1)) /\ stats_shape (stats (p_client s0.2))) as H0.
  { destruct Hi as [n1 s1 r1 c1 n2 s2 r2 c2 _ _ _ E1 E2]. unfold from_channels in E1, E2. cbn [fst snd fresh_peer p_client].
    out_inv. split; exact stats_new_shape. }
  revert H0. remember (a, b) as s eqn:Es. change (stats_shape (stats (p_client s0.1)) /\ stats_shape (stats (p_client s0.2)) -> stats_shape (stats (p_client a))).
  replace a with s.1 by (by rewrite Es). clear a b Es Hi.
  enough (stats_shape (stats (p_client s0.1)) /\ stats_shape (stats (p_client s0.2)) -> stats_shape (stats (p_client s.1)) /\ stats_shape (stats (p_client s.2))) as H
    by (intros Hs; apply H in Hs; apply Hs).
  induction Hr as [s|s1 s2 s3 Hs _ IH]; [intros Hs; exact Hs|]. intros [H1 H2]. apply IH.
  destruct Hs as [a b a' Hs|a b b' Hs]; cbn [fst snd] in *; (split; [|try exact H2]); try exact H1; by eapply peer_step_shape.
Qed.

(** ** Executing a scenario *)

Inductive action :=
  | Send (ch : Z) (m : Bytes)
  | Receive (ch : Z)
  | Update (duration : Z)
  | Flush
  | Deliver (index : nat)
  | SetConnected
  | Disconnect (reason : DisconnectReason).

Definition with_client (me : peer) (c : RenetClient) : peer :=
  mkPeer c (p_sent me) (p_offered me) (p_delivered me) (p_wire me).

Definition peer_act (me other : peer) (a : action) : option peer :=
  match a with
  | Send ch m =>
      if bool_decide (len m <= MAX_MESSAGE) && bool_decide (len (log_of (p_sent me) ch) < VARINT_MAX) then
        match send_message (p_client me) ch m with
        | Ret c' => Some (mkPeer c' (log_sent (p_client me) c' ch m (p_sent me))
                            (log_offered (p_client me) c' ch m (p_offered me)) (p_delivered me) (p_wire me))
        | Panic => None
        end
      else None
  | Receive ch =>
      match receive_message (p_client me) ch with
      | Ret (c', r) => Some (mkPeer c' (p_sent me) (p_offered me)
          (match r with Some m => push (p_delivered me) ch m | None => p_delivered me end) (p_wire me))
      | Panic => None
      end
  | Update duration =>
      if bool_decide (0 <= duration) then with_client me <$> out_to_option (client_update (p_client me) duration) else None
  | Flush =>
      if bool_decide (packet_sequence (p_client me) + flush_bound (p_client me) <= VARINT_MAX) then
        match get_packets_to_send (p_client me) with
        | Ret (c', datagrams) => Some (mkPeer c' (p_sent me) (p_offered me) (p_delivered me) (p_wire me ++ datagrams))
        | Panic => None
        end
      else None
  | Deliver i =>
      match p_wire other !! i with
      | Some datagram => with_client me <$> out_to_option (process_packet (p_client me) datagram)
      | None => None
      end
  | SetConnected => Some (with_client me (set_connected (p_client me)))
  | Disconnect reason => Some (with_client me (disconnect_with_reason (p_client me) reason))
  end.

(** A scenario: the action, and whether the first peer does it. *)
Fixpoint run (script : list (bool * action)) (s : peer * peer) : option (peer * peer) :=
  match script with
  | [] => Some s
  | (true, a) :: script' => a' ← peer_act s.1 s.2 a; run script' (a', s.2)
  | (false, a) :: script' => b' ← peer_act s.2 s.1 a; run script' (s.1, b')
  end.

Lemma peer_act_sound me other a me' : peer_act me other a = Some me' -> peer_step me other me'.
Proof using.
  destruct a; cbn; intros H.
  - case_bool_decide; [|done]. case_bool_decide; [|done]. cbn in H. destruct (send_message _ _ _) eqn:E; [|done].
    simplify_eq. by constructor.
  - destruct (receive_message _ _) as [[c' r]|] eqn:E; [|done]. simplify_eq. by constructor.
  - case_bool_decide; [|done]. apply fmap_Some in H as (c' & E & ->). destruct (client_update _ _) eqn:E'; [|done].
    cbn in E. simplify_eq. by eapply step_update.
  - case_bool_decide; [|done]. destruct (get_packets_to_send _) as [[c' out]|] eqn:E; [|done]. simplify_eq. by constructor.
  - destruct (p_wire other !! index) as [dg|] eqn:Ei; [|done]. apply fmap_Some in H as (c' & E & ->).
    destruct (process_packet _ _) eqn:E'; [|done]. cbn in E. simplify_eq. apply list_elem_of_lookup_2 in Ei. by eapply step_deliver.
  - simplify_eq. apply step_status. constructor.
  - simplify_eq. apply step_status. constructor.
Qed.

Lemma run_sound script : forall s s', run script s = Some s' -> rtc sys_step s s'.
Proof using.
  induction script as [|[[] a] script IH]; intros s s' H; cbn in H; [simplify_eq; constructor|..].
  - apply bind_Some in H as (a' & Ha & H). destruct s as [p q]. eapply rtc_l; [|by apply IH].
    apply step_left. by eapply peer_act_sound.
  - apply bind_Some in H as (b' & Hb & H). destruct s as [p q]. eapply rtc_l; [|by apply IH].
    apply step_right. by eapply peer_act_sound.
Qed.

Lemma linked_logs d e a b :
  linked d e a b -> forall ch, sent_of d ch = log_of (p_sent a) ch /\ offered_of d ch = log_of (p_offered a) ch.
Proof using.
  intros [[_ Hs Ho _ _ _ _] _] ch. unfold sent_of, offered_of, log_of. by rewrite Hs, Ho.
Qed.

(** ** Properties *)

(** C1: Ordered reliable channels. Whatever the network does (loss, duplication,
    reordering, delay), what the application has received on an ordered channel
    is a prefix of what its peer sent on that channel: no gap, no duplicate, no
    reordering, no corruption. *)
Theorem reliable_ordered_delivery a b ch chan :
  reachable (a, b) ->
  receive_reliable_channels (p_client b) !! ch = Some chan -> reliable_order chan = Ordered ->
  log_of (p_delivered b) ch `prefix_of` log_of (p_sent a) ch.
Proof using laws.
  intros (d & e & Hl)%reachable_pair Hch Hord. destruct (linked_logs _ _ _ _ Hl ch) as [<- _].
  destruct Hl as [_ Hb]. pose proof (hf_log _ _ _ _ Hb ch) as Hlog. cbn in *. rewrite Hch in Hlog.
  unfold chan_log in Hlog. rewrite Hord in Hlog. rewrite Hlog. apply prefix_take.
Qed.

(** C2: Unordered reliable channels. What has been received on any reliable
    channel consists of messages the peer sent on it, each at most once: there
    is a duplicate-free list of positions in the sent messages of which the
    received ones are the contents. *)
Theorem reliable_exactly_once a b ch chan :
  reachable (a, b) -> receive_reliable_channels (p_client b) !! ch = Some chan ->
  exists ids, NoDup ids /\ Forall2 (fun id m => log_of (p_sent a) ch !! id = Some m) ids (log_of (p_delivered b) ch).
Proof using laws.
  intros (d & e & Hl)%reachable_pair Hch. destruct (linked_logs _ _ _ _ Hl ch) as [<- _].
  destruct Hl as [_ Hb]. pose proof (hf_log _ _ _ _ Hb ch) as Hlog. cbn in *. rewrite Hch in Hlog.
  unfold chan_log in Hlog. destruct (reliable_order chan).
  - set (n := Z.to_nat (oldest_pending_message_id chan)) in *. exists (seq 0 (length (take n (sent_of d ch)))).
    split; [apply NoDup_seq|]. rewrite Hlog. apply Forall2_same_length_lookup. split; [by rewrite length_seq|].
    intros i x m [-> _]%lookup_seq Hm. apply lookup_take_Some in Hm as [? _]. done.
  - destruct Hlog as (ids & Hnd & _ & Hf). exists (Z.to_nat <$> ids). split.
    + apply NoDup_fmap_2_strong; [|done]. intros x y Hx Hy E.
      assert (forall z, z ∈ ids -> 0 <= z) as Hpos.
      { intros z Hz. apply list_elem_of_lookup in Hz as [i Hi]. eapply Forall2_lookup_l in Hf as (m & _ & [? _]); done. }
      pose proof (Hpos x Hx). pose proof (Hpos y Hy). lia.
    + apply Forall2_fmap_l. eapply Forall2_impl; [exact Hf|]. by intros ? ? [_ ?].
Qed.

(** C3: No loss. A message accepted by a reliable channel is either still held by
    the sender, unchanged, to be sent again, or has arrived at the receiver. *)
Theorem reliable_no_loss a b ch chan id m :
  reachable (a, b) -> send_reliable_channels (p_client a) !! ch = Some chan ->
  log_of (p_sent a) ch !! id = Some m ->
  (exists um, unacked_messages chan !! Z.of_nat id = Some um /\ um_message um = m) \/
  received_by (p_client b) ch (Z.of_nat id).
Proof using laws.
  intros (d & e & Hl)%reachable_pair Hch Hm. destruct (linked_logs _ _ _ _ Hl ch) as [Hs _]. rewrite <- Hs in Hm.
  destruct Hl as [Ha _]. destruct (snd_rel _ _ (peer_sender _ _ _ (hf_peer _ _ _ _ Ha)) _ _ Hch) as [_ [_ _ Hnext Hmsgs]].
  pose proof (lookup_lt_Some _ _ _ Hm) as Hlt.
  pose proof (hf_retention _ _ _ _ Ha ch chan (Z.of_nat id) Hch ltac:(unfold len in Hnext; lia)) as Hret.
  destruct (unacked_messages chan !! Z.of_nat id) as [um|] eqn:E; [left|by right].
  exists um. split; [done|]. destruct (Hmsgs _ _ E) as [_ H]. rewrite Nat2Z.id in H. congruence.
Qed.

(** Delivering every position delivers a permutation. *)
Lemma sent_at_perm sent ids log :
  NoDup ids -> (forall id, id ∈ ids <-> 0 <= id < len sent) -> Forall2 (sent_at sent) ids log -> log ≡ₚ sent.
Proof using.
  intros Hnd Hids Hf. set (at_ id := default [] (sent !! Z.to_nat id)).
  assert (log = at_ <$> ids) as ->.
  { clear Hnd Hids. induction Hf as [|id m ids log [_ Hm] _ IH]; [done|]. cbn. rewrite <- IH. unfold at_ at 1. by rewrite Hm. }
  assert (ids ≡ₚ seqZ 0 (len sent)) as ->.
  { apply NoDup_Permutation; [done|apply NoDup_seqZ|]. intros id. rewrite Hids, elem_of_seqZ. lia. }
  assert (at_ <$> seqZ 0 (len sent) = sent) as ->; [|done].
  apply (list_eq_same_length _ _ (length sent)); [done|rewrite length_fmap, length_seqZ; unfold len; lia|].
  intros i x y _ Hx Hy. apply list_lookup_fmap_Some in Hx as (k & -> & Hk). apply lookup_seqZ in Hk as [-> _].
  unfold at_. by rewrite Z.add_0_l, Nat2Z.id, Hy.
Qed.

(** C4: Completeness. When the sender's reliable channel holds nothing more to
    send and the receiving application finds its channel empty, it has received
    everything that was sent, and in order on an ordered channel. *)
Theorem reliable_complete a b ch chan chan' c' :
  reachable (a, b) -> send_reliable_channels (p_client a) !! ch = Some chan -> unacked_messages chan = ∅ ->
  is_disconnected (p_client b) = false -> receive_reliable_channels (p_client b) !! ch = Some chan' ->
  receive_message (p_client b) ch = Ret (c', None) ->
  log_of (p_delivered b) ch ≡ₚ log_of (p_sent a) ch /\
  (reliable_order chan' = Ordered -> log_of (p_delivered b) ch = log_of (p_sent a) ch).
Proof using laws.
  intros (d & e & Hl)%reachable_pair Hch Hun Hdis Hch' Hrecv. destruct (linked_logs _ _ _ _ Hl ch) as [<- _].
  destruct Hl as [Ha Hb]. pose proof (hf_peer _ _ _ _ Hb) as Hpb. pose proof (rcv_rel _ _ (peer_receiver _ _ _ Hpb) _ _ Hch') as Hinv.
  destruct (snd_rel _ _ (peer_sender _ _ _ (hf_peer _ _ _ _ Ha)) _ _ Hch) as [_ [_ _ Hnext _]].
  assert (forall id, 0 <= id < len (sent_of d ch) -> has_received chan' id) as Hall.
  { intros id Hid. pose proof (hf_retention _ _ _ _ Ha ch chan id Hch ltac:(lia)) as Hret. rewrite Hun, lookup_empty in Hret.
    destruct Hret as (chan0 & E & ?). congruence. }
  assert (received_answer chan' chan' None) as [_ Hnone].
  { destruct (rr_receive_spec _ _ (dir_ok_sent_ok _ ch (hf_ok _ _ _ _ Ha)) Hinv) as (chan1 & r & E & _ & _ & _ & _ & Hans).
    unfold receive_message in Hrecv. rewrite Hdis, Hch', E in Hrecv. cbn in Hrecv. simplify_eq.
    destruct Hans as [-> ?]. done. }
  pose proof (hf_log _ _ _ _ Hb ch) as Hlog. rewrite Hch' in Hlog. unfold chan_log in Hlog.
  pose proof (rr_inv_oldest _ _ Hinv) as Hold. destruct (reliable_order chan') as [|mr rcv] eqn:Ho.
  - assert (log_of (p_delivered b) ch = sent_of d ch) as ->; [|done]. rewrite Hlog. apply take_ge.
    destruct (decide (oldest_pending_message_id chan' < len (sent_of d ch))) as [Hlt|]; [|unfold len in *; lia].
    destruct (Hall (oldest_pending_message_id chan')) as [?|H]; [lia..|]. rewrite Ho, Hnone in H. by destruct H.
  - split; [|done]. destruct Hlog as (ids & Hnd & Hids & Hf). apply (sent_at_perm _ ids); try done.
    intros id. rewrite Hids. split.
    + intros [Hid [Hr _]]. destruct (rr_inv_has _ _ Hinv id Hid Hr) as [m Hm]. by eapply sent_at_lt.
    + intros Hid. split; [lia|]. split; [by apply Hall|]. by rewrite Hnone.
Qed.

(** C15: Integrity of unreliable channels. Everything received on a channel that
    is not reliable was given by the peer's application to that channel. *)
Theorem unreliable_integrity a b ch m :
  reachable (a, b) -> receive_reliable_channels (p_client b) !! ch = None ->
  m ∈ log_of (p_delivered b) ch -> m ∈ log_of (p_offered a) ch.
Proof using laws.
  intros (d & e & Hl)%reachable_pair Hch Hm. destruct (linked_logs _ _ _ _ Hl ch) as [_ <-].
  destruct Hl as [_ Hb]. pose proof (hf_log _ _ _ _ Hb ch) as Hlog. rewrite Hch in Hlog.
  rewrite Forall_forall in Hlog. by apply Hlog.
Qed.

(** C16: Two peers that follow the protocol never make each other panic: in every
    reachable state, processing any datagram the peer ever produced, late,
    repeated or out of order, returns (the traffic counters having room). *)
Theorem honest_datagram_never_panics a b datagram :
  reachable (a, b) -> datagram ∈ p_wire a ->
  stats_room (len datagram + Z.of_nat (size (sent_packets (p_client b)))) (stats (p_client b)) ->
  exists c', process_packet (p_client b) datagram = Ret c'.
Proof using laws.
  intros (d & e & [Ha Hb])%reachable_pair Hdg Hroom. destruct (hf_wire _ _ _ _ Ha datagram Hdg) as (p & Hp & ->).
  eapply (process_packet_total e d (p_client a)); try done; [apply Hb|apply Ha..|apply Hb|apply Hb].
Qed.

(** C17: In every reachable state of two peers the operations a program runs on
    each tick return: [receive_message] on every configured channel; [update], for
    every duration with which the clock stays representable; and
    [get_packets_to_send], as long as the packet sequences and the counters of the
    statistics have room for what it sends, which moreover keeps the connection up
    when at most 86 ranges of acknowledgements are pending (the code means to keep
    64). *)
Theorem tick_never_panics a b :
  reachable (a, b) ->
  (forall ch, is_Some (receive_reliable_channels (p_client a) !! ch) \/ is_Some (receive_unreliable_channels (p_client a) !! ch) ->
     exists c' m, receive_message (p_client a) ch = Ret (c', m)) /\
  (forall duration, 0 <= duration -> current_time (p_client a) + duration <= DURATION_MAX ->
     exists c', client_update (p_client a) duration = Ret c') /\
  (packet_sequence (p_client a) + flush_bound (p_client a) <= VARINT_MAX ->
   stats_room (PACKET_BUFFER * flush_bound (p_client a)) (stats (p_client a)) ->
     exists c' datagrams, get_packets_to_send (p_client a) = Ret (c', datagrams) /\
       (len (pending_acks (p_client a)) <= 86 -> connection_status c' = connection_status (p_client a))).
Proof using laws.
  intros Hre. pose proof (reachable_shape _ _ Hre) as Hshape. apply reachable_pair in Hre as (d & e & [Ha Hb]).
  pose proof (hf_peer _ _ _ _ Ha) as Hpeer. split_and!.
  - intros ch Hch. destruct (receive_message_inv d e (p_client a) ch) as (c' & m & E & _); [apply Hb|exact Hpeer|by right|]. by exists c', m.
  - intros duration Hdur Hmax. destruct (stats_update_shape (stats (p_client a)) (current_time (p_client a) + duration) Hshape) as (st & E & _).
    destruct (client_update_inv d e (p_client a) duration st) as (c' & E' & _); try done; [apply Ha|apply Hb|]. by exists c'.
  - intros Hseq Hroom. eapply get_packets_total; [apply Ha|apply Hpeer|exact Hseq|exact Hroom].
Qed.

End system.

(** ** A concrete conversation *)

Definition demo_start : option (peer * peer) :=
  c ← out_to_option (client_new default_config);
  s ← out_to_option (client_new_from_server default_config);
  Some (fresh_peer c, fresh_peer s).

Definition text (l : list Z) : Bytes := byte_of <$> l.

(** A message of two slices. *)
Definition long_text : Bytes := byte_of <$> ((fun i => i mod 256) <$> seqZ 0 1500).

(** The client sends on every channel; its datagrams arrive reversed and
    duplicated; the server reads, acknowledges, and the client sees the
    acknowledgement twice. *)
Definition demo_script : list (bool * action) :=
  [(true, SetConnected); (false, SetConnected);
   (true, Send 2 (text [1; 2; 3])); (true, Send 2 long_text); (true, Send 2 (text [4]));
   (true, Send 1 (text [5; 6])); (true, Send 1 (text [7])); (true, Send 0 (text [8; 9]));
   (true, Flush); (false, Update (from_millis 10))] ++
  ((fun i => (false, Deliver i)) <$> [4; 3; 2; 1; 0; 3; 4; 0]%nat) ++
  ((fun ch => (false, Receive ch)) <$> [2; 2; 2; 2; 1; 1; 1; 0; 0]) ++
  [(false, Flush); (true, Update (from_millis 20)); (true, Deliver 0); (true, Deliver 0)].

Definition demo : option (peer * peer) := demo_start ≫= run (oct := quic_octets) demo_script.

Lemma demo_reachable s : demo = Some s -> reachable (oct := quic_octets) s.
Proof.
  intros Hd. unfold demo in Hd. apply bind_Some in Hd as (s0 & H0 & Hrun). exists s0. split; [|by eapply run_sound].
  unfold demo_start in H0. destruct (client_new default_config) as [c|] eqn:Ec; [|done].
  destruct (client_new_from_server default_config) as [srv|] eqn:Es; [|done]. cbn in H0. simplify_eq.
  eapply init_peers; [| | |exact Ec|exact Es]; [done..|].
  repeat (apply Forall_cons; split; [by split|]). constructor.
Qed.

Definition no_client : RenetClient := mkClient 0 0 ∅ [] [] ∅ ∅ ∅ ∅ stats_new 0 Connecting (f64_of 0).

(** The two peers at the end of it. *)
Definition demo_client : peer := from_option fst (fresh_peer no_client) demo.
Definition demo_server : peer := from_option snd (fresh_peer no_client) demo.

Lemma demo_end : reachable (oct := quic_octets) (demo_client, demo_server).
Proof.
  apply demo_reachable. unfold demo_client, demo_server.
  assert (is_Some demo) as [[a b] ->]; [|done].
  assert (bool_decide (is_Some demo) = true) as H by (vm_compute; reflexivity). by apply bool_decide_eq_true in H.
Qed.

Lemma demo_ordered : reliable_order <$> receive_reliable_channels (p_client demo_server) !! 2 = Some Ordered.
Proof. vm_compute. reflexivity. Qed.

Lemma demo_unordered : is_Some (receive_reliable_channels (p_client demo_server) !! 1).
Proof. apply (bool_decide_unpack _). vm_compute. exact I. Qed.

Lemma demo_sender : unacked_messages <$> send_reliable_channels (p_client demo_client) !! 2 = Some ∅.
Proof. vm_compute. reflexivity. Qed.

(** The ordered channel delivered the three messages sent on it. *)
Lemma reliable_ordered_delivery_witness :
  log_of (p_delivered demo_server) 2 = [text [1; 2; 3]; long_text; text [4]] /\
  log_of (p_delivered demo_server) 2 `prefix_of` log_of (p_sent demo_client) 2.
Proof.
  split; [vm_compute; reflexivity|]. pose proof demo_ordered as Ho. apply fmap_Some in Ho as (chan & Hch & Ho).
  exact (reliable_ordered_delivery _ _ 2 chan demo_end Hch (eq_sym Ho)).
Defined.

(** The unordered one delivered its two messages once each. *)
Lemma reliable_exactly_once_witness :
  log_of (p_delivered demo_server) 1 = [text [5; 6]; text [7]] /\
  exists ids, NoDup ids /\ Forall2 (fun id m => log_of (p_sent demo_client) 1 !! id = Some m) ids (log_of (p_delivered demo_server) 1).
Proof.
  split; [vm_compute; reflexivity|]. destruct demo_unordered as [chan Hch].
  exact (reliable_exactly_once _ _ 1 chan demo_end Hch).
Defined.

(** The second message of the ordered channel was acknowledged and forgotten. *)
Lemma reliable_no_loss_witness :
  log_of (p_sent demo_client) 2 !! 1%nat = Some long_text /\
  exists chan, send_reliable_channels (p_client demo_client) !! 2 = Some chan /\
  ((exists um, unacked_messages chan !! Z.of_nat 1 = Some um /\ um_message um = long_text) \/
   received_by (p_client demo_server) 2 (Z.of_nat 1)).
Proof.
  assert (log_of (p_sent demo_client) 2 !! 1%nat = Some long_text) as Hm by (vm_compute; reflexivity).
  split; [exact Hm|]. pose proof demo_sender as Hs. apply fmap_Some in Hs as (chan & Hch & _).
  exists chan. split; [exact Hch|]. exact (reliable_no_loss _ _ 2 chan 1%nat long_text demo_end Hch Hm).
Defined.

Lemma reliable_complete_witness :
  log_of (p_delivered demo_server) 2 ≡ₚ log_of (p_sent demo_client) 2.
Proof.
  pose proof demo_ordered as Ho. apply fmap_Some in Ho as (chan' & Hch' & _).
  pose proof demo_sender as Hs. apply fmap_Some in Hs as (chan & Hch & Hun).
  assert (exists c', receive_message (p_client demo_server) 2 = Ret (c', None)) as [c' Hr].
  { destruct (receive_message (p_client demo_server) 2) as [[c' [m|]]|] eqn:E; [exfalso|by exists c'|exfalso].
    - assert (is_Some (out_to_option (receive_message (p_client demo_server) 2) ≫= snd)) as H by (rewrite E; by eexists).
      revert H. vm_compute. by intros [? ?].
    - assert (is_ret (receive_message (p_client demo_server) 2) = false) as H by (by rewrite E).
      revert H. vm_compute. discriminate. }
  exact (proj1 (reliable_complete _ _ 2 chan chan' c' demo_end Hch (eq_sym Hun) eq_refl Hch' Hr)).
Defined.

(** The duplicated datagram of the unreliable channel is delivered twice. *)
Lemma unreliable_integrity_witness :
  log_of (p_delivered demo_server) 0 = [text [8; 9]; text [8; 9]] /\
  text [8; 9] ∈ log_of (p_offered demo_client) 0.
Proof.
  assert (log_of (p_delivered demo_server) 0 = [text [8; 9]; text [8; 9]]) as Hd by (vm_compute; reflexivity).
  split; [exact Hd|]. apply (unreliable_integrity _ _ 0 _ demo_end); [vm_compute; reflexivity|]. rewrite Hd. left.
Defined.

(** The server can process the client's first datagram once more. *)
Lemma honest_datagram_never_panics_witness :
  exists datagram c', p_wire demo_client !! 0%nat = Some datagram /\ process_packet (oct := quic_octets) (p_client demo_server) datagram = Ret c'.
Proof.
  destruct (p_wire demo_client !! 0%nat) as [datagram|] eqn:E; [|exfalso; revert E; vm_compute; discriminate].
  exists datagram. assert (len datagram = 8) as Hlen.
  { assert (len <$> p_wire demo_client !! 0%nat = Some 8) as H by (vm_compute; reflexivity). rewrite E in H. by injection H. }
  destruct (honest_datagram_never_panics demo_client demo_server datagram demo_end (list_elem_of_lookup_2 _ _ _ E)) as [c' Hc].
  - rewrite Hlen. apply (stats_room_le 1000000); [vm_compute; discriminate|].
    constructor; [vm_compute; split; [discriminate|reflexivity]|..]; (split; [vm_compute; reflexivity|]);
      apply (bool_decide_unpack _); vm_compute; exact I.
  - exists c'. split; [reflexivity|exact Hc].
Defined.

(** The client, at the end of the conversation, can go on. *)
Lemma tick_never_panics_witness :
  exists c' datagrams, get_packets_to_send (oct := quic_octets) (p_client demo_client) = Ret (c', datagrams) /\
    connection_status c' = Connected.
Proof.
  assert (connection_status (p_client demo_client) = Connected) as Hc by (vm_compute; reflexivity).
  destruct (tick_never_panics demo_client demo_server demo_end) as (_ & _ & Hf). destruct Hf as (c' & ds & E & Hs).
  - vm_compute. discriminate.
  - apply (stats_room_le 1000000); [vm_compute; discriminate|].
    constructor; [vm_compute; split; [discriminate|reflexivity]|..]; (split; [vm_compute; reflexivity|]);
      apply (bool_decide_unpack _); vm_compute; exact I.
  - exists c', ds. split; [exact E|]. rewrite Hs; [exact Hc|]. vm_compute. discriminate.
Defined.
