(* ===== verification/Server.v ===== *)
(** * The server (renet/src/server.rs)

    [RenetServer]: one [RenetClient] per client id, and a queue of connection
    events. Every operation of the file is defined; the theorems relate the
    events to the set of connections and show that clients do not interfere. *)

From Stdlib Require Import SpecFloat.
From S2P Require Import Prelude Octets Packet Stats Connection ConnectionProps.

(** ** State *)

Inductive ServerEvent :=
  | ClientConnected (client_id : Z)
  | ClientDisconnected (client_id : Z) (reason : DisconnectReason).

#[global] Instance ServerEvent_eq_dec : EqDecision ServerEvent.
Proof. solve_decision. Defined.

Record RenetServer := mkServer {
  connections : gmap Z RenetClient;
  connection_config : ConnectionConfig;
  events : list ServerEvent;
}.

Inductive ClientNotFound := ClientNotFoundError.

Definition server_new (config : ConnectionConfig) : RenetServer := mkServer ∅ config [].

Definition set_connections (self : RenetServer) (x : gmap Z RenetClient) : RenetServer :=
  mkServer x (connection_config self) (events self).

Definition push_event (self : RenetServer) (e : ServerEvent) : RenetServer :=
  mkServer (connections self) (connection_config self) (events self ++ [e]).

(** ** Connections and events *)

Definition add_connection (self : RenetServer) (client_id : Z) : out RenetServer :=
  if bool_decide (is_Some (connections self !! client_id)) then Ret self
  else
    let! connection := client_new_from_server (connection_config self) in
    let connection := set_connected connection in
    let self := set_connections self (<[client_id := connection]> (connections self)) in
    Ret (push_event self (ClientConnected client_id)).

Definition get_event (self : RenetServer) : RenetServer * option ServerEvent :=
  match events self with
  | [] => (self, None)
  | e :: events' => (mkServer (connections self) (connection_config self) events', Some e)
  end.

Definition has_connections (self : RenetServer) : bool := negb (bool_decide (connections self = ∅)).

Definition server_disconnect_reason (self : RenetServer) (client_id : Z) : option DisconnectReason :=
  match connections self !! client_id with
  | Some connection => disconnect_reason connection
  | None => None
  end.

Definition remove_connection (self : RenetServer) (client_id : Z) : RenetServer :=
  match connections self !! client_id with
  | Some connection =>
      let self := set_connections self (delete client_id (connections self)) in
      let reason := default Transport (disconnect_reason connection) in
      push_event self (ClientDisconnected client_id reason)
  | None => self
  end.

Definition server_disconnect (self : RenetServer) (client_id : Z) : RenetServer :=
  match connections self !! client_id with
  | Some connection =>
      set_connections self
        (<[client_id := disconnect_with_reason connection DisconnectedByServer]> (connections self))
  | None => self
  end.

Definition disconnect_all (self : RenetServer) : RenetServer :=
  set_connections self ((fun connection => disconnect_with_reason connection DisconnectedByServer) <$> connections self).

(** ** Statistics *)

Definition server_rtt (self : RenetServer) (client_id : Z) : f64 :=
  match connections self !! client_id with
  | Some connection => rtt connection
  | None => f64_of 0
  end.

(** The three rates: that of the connection, or 0.0 without one. *)
Definition rate_or_zero (rate : RenetClient -> out f64) (self : RenetServer) (client_id : Z) : out f64 :=
  match connections self !! client_id with
  | Some connection => rate connection
  | None => Ret (f64_of 0)
  end.

Definition server_packet_loss : RenetServer -> Z -> out f64 := rate_or_zero client_packet_loss.
Definition server_bytes_sent_per_sec : RenetServer -> Z -> out f64 := rate_or_zero bytes_sent_per_sec.
Definition server_bytes_received_per_sec : RenetServer -> Z -> out f64 := rate_or_zero bytes_received_per_sec.

Definition server_network_info (self : RenetServer) (client_id : Z) : out (result NetworkInfo ClientNotFound) :=
  match connections self !! client_id with
  | Some connection =>
      let! info := network_info connection in
      Ret (Ok info)
  | None => Ret (Err ClientNotFoundError)
  end.

(** ** Messages *)

Definition broadcast_message (self : RenetServer) (channel_id : Z) (message : Bytes) : out RenetServer :=
  let! connections' :=
    map_values_mut (fun connection => send_message connection channel_id message) (connections self) in
  Ret (set_connections self connections').

(** [HashMap::iter_mut] with a body that reads the key: the bindings are
    independent, so that the order of the iteration does not matter. *)
Definition map_iter_mut {V} (f : Z -> V -> out V) (m : gmap Z V) : out (gmap Z V) :=
  let! m' := map_values_mut (fun kv => let! v := f kv.1 kv.2 in Ret (kv.1, v)) (map_imap (fun k v => Some (k, v)) m) in
  Ret (snd <$> m').

Definition broadcast_message_except (self : RenetServer) (except_id channel_id : Z) (message : Bytes)
    : out RenetServer :=
  let! connections' :=
    map_iter_mut (fun connection_id connection =>
      if except_id =? connection_id then Ret connection
      else send_message connection channel_id message) (connections self) in
  Ret (set_connections self connections').

Definition server_channel_available_memory (self : RenetServer) (client_id channel_id : Z) : out Z :=
  match connections self !! client_id with
  | Some connection => channel_available_memory connection channel_id
  | None => Ret 0
  end.

Definition server_can_send_message (self : RenetServer) (client_id channel_id size_bytes : Z) : out bool :=
  match connections self !! client_id with
  | Some connection => can_send_message connection channel_id size_bytes
  | None => Ret false
  end.

Definition server_send_message (self : RenetServer) (client_id channel_id : Z) (message : Bytes) : out RenetServer :=
  match connections self !! client_id with
  | Some connection =>
      let! connection := send_message connection channel_id message in
      Ret (set_connections self (<[client_id := connection]> (connections self)))
  | None => Ret self
  end.

Definition server_receive_message (self : RenetServer) (client_id channel_id : Z)
    : out (RenetServer * option Bytes) :=
  match connections self !! client_id with
  | Some connection =>
      let! (connection, message) := receive_message connection channel_id in
      Ret (set_connections self (<[client_id := connection]> (connections self)), message)
  | None => Ret (self, None)
  end.

(** ** Clients *)

(** The ids in some order: that of a [HashMap] is unspecified. *)
Definition clients_id (self : RenetServer) : list Z :=
  (filter (fun kv => is_connected kv.2 = true) (map_to_list (connections self))).*1.

Definition disconnections_id (self : RenetServer) : list Z :=
  (filter (fun kv => is_disconnected kv.2 = true) (map_to_list (connections self))).*1.

Definition connected_clients (self : RenetServer) : Z :=
  len (filter (fun kv => is_connected kv.2 = true) (map_to_list (connections self))).

Definition server_is_connected (self : RenetServer) (client_id : Z) : bool :=
  match connections self !! client_id with
  | Some connection => is_connected connection
  | None => false
  end.

(** ** Ticks and packets *)

Definition server_update (self : RenetServer) (duration : Z) : out RenetServer :=
  let! connections' := map_values_mut (fun connection => client_update connection duration) (connections self) in
  Ret (set_connections self connections').

Section packets.
Context {oct : Octets}.

Definition server_get_packets_to_send (self : RenetServer) (client_id : Z)
    : out (RenetServer * result (list Bytes) ClientNotFound) :=
  match connections self !! client_id with
  | Some connection =>
      let! (connection, packets) := get_packets_to_send connection in
      Ret (set_connections self (<[client_id := connection]> (connections self)), Ok packets)
  | None => Ret (self, Err ClientNotFoundError)
  end.

Definition process_packet_from (self : RenetServer) (payload : Bytes) (client_id : Z)
    : out (RenetServer * result unit ClientNotFound) :=
  match connections self !! client_id with
  | Some connection =>
      let! connection := process_packet connection payload in
      Ret (set_connections self (<[client_id := connection]> (connections self)), Ok tt)
  | None => Ret (self, Err ClientNotFoundError)
  end.

(** ** Local clients *)

Definition new_local_client (self : RenetServer) (client_id : Z) : out (RenetServer * RenetClient) :=
  let! client := client_new_from_server (connection_config self) in
  let client := set_connected client in
  let! self := add_connection self client_id in
  Ret (self, client).

Definition disconnect_local_client (self : RenetServer) (client_id : Z) (client : RenetClient)
    : RenetServer * RenetClient :=
  if is_disconnected client then (self, client)
  else
    let client := disconnect client in
    if bool_decide (is_Some (connections self !! client_id)) then
      let self := set_connections self (delete client_id (connections self)) in
      (push_event self (ClientDisconnected client_id DisconnectedByClient), client)
    else (self, client).

(** The second loop of [process_local_client]. *)
Fixpoint process_packets_from (self : RenetServer) (packets : list Bytes) (client_id : Z)
    : out (RenetServer * result unit ClientNotFound) :=
  match packets with
  | [] => Ret (self, Ok tt)
  | packet :: packets' =>
      let! (self, r) := process_packet_from self packet client_id in
      match r with
      | Err e => Ret (self, Err e)
      | Ok _ => process_packets_from self packets' client_id
      end
  end.

Definition process_local_client (self : RenetServer) (client_id : Z) (client : RenetClient)
    : out (RenetServer * RenetClient * result unit ClientNotFound) :=
  let! (self, r) := server_get_packets_to_send self client_id in
  match r with
  | Err e => Ret (self, client, Err e)
  | Ok packets =>
      let! client := fold_out process_packet client packets in
      let! (client, packets) := get_packets_to_send client in
      let! (self, r) := process_packets_from self packets client_id in
      Ret (self, client, r)
  end.

End packets.

(** ** What a host can do with a server

    One call of an operation that changes the server; [taken] is what
    [get_event] handed out. *)
Inductive server_step {oct : Octets} (self : RenetServer) : list ServerEvent -> RenetServer -> Prop :=
  | srv_add id self' : add_connection self id = Ret self' -> server_step self [] self'
  | srv_remove id : server_step self [] (remove_connection self id)
  | srv_disconnect id : server_step self [] (server_disconnect self id)
  | srv_disconnect_all : server_step self [] (disconnect_all self)
  | srv_event self' e : get_event self = (self', e) -> server_step self (option_list e) self'
  | srv_broadcast ch m self' : broadcast_message self ch m = Ret self' -> server_step self [] self'
  | srv_broadcast_except id ch m self' :
      broadcast_message_except self id ch m = Ret self' -> server_step self [] self'
  | srv_send id ch m self' : server_send_message self id ch m = Ret self' -> server_step self [] self'
  | srv_receive id ch self' r : server_receive_message self id ch = Ret (self', r) -> server_step self [] self'
  | srv_update duration self' : server_update self duration = Ret self' -> server_step self [] self'
  | srv_flush id self' r : server_get_packets_to_send self id = Ret (self', r) -> server_step self [] self'
  | srv_process payload id self' r : process_packet_from self payload id = Ret (self', r) -> server_step self [] self'
  | srv_new_local id self' c : new_local_client self id = Ret (self', c) -> server_step self [] self'
  | srv_disconnect_local id c : server_step self [] (disconnect_local_client self id c).1
  | srv_process_local id c self' c' r :
      process_local_client self id c = Ret (self', c', r) -> server_step self [] self'.

(** A run of a server, with the events its host has taken. *)
Inductive server_run {oct : Octets} (config : ConnectionConfig) : RenetServer -> list ServerEvent -> Prop :=
  | run_new : server_run config (server_new config) []
  | run_step self log taken self' :
      server_run config self log -> server_step self taken self' -> server_run config self' (log ++ taken).

(** One operation of a connection, as seen by the connection. *)
Inductive conn_step {oct : Octets} (c : RenetClient) : RenetClient -> Prop :=
  | conn_send ch m c' : send_message c ch m = Ret c' -> conn_step c c'
  | conn_receive ch c' r : receive_message c ch = Ret (c', r) -> conn_step c c'
  | conn_update duration c' : client_update c duration = Ret c' -> conn_step c c'
  | conn_flush c' datagrams : get_packets_to_send c = Ret (c', datagrams) -> conn_step c c'
  | conn_process datagram c' : process_packet c datagram = Ret c' -> conn_step c c'
  | conn_disconnect reason : conn_step c (disconnect_with_reason c reason).

(** ** The ids of the connected clients *)

Lemma clients_id_NoDup server : NoDup (clients_id server).
Proof.
  unfold clients_id. pose proof (NoDup_fst_map_to_list (connections server)) as H.
  induction (map_to_list (connections server)) as [|[k c] l IH]; [constructor|]. cbn in H. apply NoDup_cons in H as [Hk H].
  rewrite filter_cons. case_decide; [|by apply IH]. cbn. constructor; [|by apply IH].
  intros Hin. apply Hk. apply list_elem_of_fmap in Hin as (p & -> & [_ Hp]%list_elem_of_filter). by apply list_elem_of_fmap_2.
Qed.

(** ** Effect of one operation on the connections *)

Section effects.
Context {oct : Octets}.

(** Connections neither appear nor disappear, and each takes some steps. *)
Definition keeps (self self' : RenetServer) : Prop :=
  (forall id, option_relation (rtc conn_step) (const False) (const False) (connections self !! id) (connections self' !! id)) /\
  events self' = events self /\ connection_config self' = connection_config self.

#[global] Instance keeps_refl : Reflexive keeps.
Proof. intros self. split_and!; try done. intros id. destruct (connections self !! id); by constructor. Qed.

#[global] Instance keeps_trans : Transitive keeps.
Proof.
  intros s1 s2 s3 (H1 & E1 & C1) (H2 & E2 & C2). split_and!; [|congruence..].
  intros id. specialize (H1 id). specialize (H2 id).
  destruct (connections s1 !! id), (connections s2 !! id), (connections s3 !! id); cbn in *; try done. by etrans.
Qed.

Lemma keeps_insert self id c c' :
  connections self !! id = Some c -> rtc conn_step c c' ->
  keeps self (set_connections self (<[id := c']> (connections self))).
Proof.
  intros Hc Hs. split_and!; try done. intros i. cbn. destruct (decide (i = id)) as [->|].
  - rewrite Hc, lookup_insert_eq. done.
  - rewrite lookup_insert_ne by done. destruct (connections self !! i); by constructor.
Qed.

Lemma keeps_values self f m' :
  (forall c c', f c = Ret c' -> rtc conn_step c c') -> map_values_mut f (connections self) = Ret m' ->
  keeps self (set_connections self m').
Proof.
  intros Hf Hm. split_and!; try done. intros id. cbn. apply (map_values_mut_lookup f _ _ id) in Hm.
  destruct (connections self !! id); [|by rewrite Hm]. destruct Hm as (w & Hw & ->). cbn. by apply Hf.
Qed.

Lemma map_iter_mut_lookup {V} (f : Z -> V -> out V) m m' k :
  map_iter_mut f m = Ret m' ->
  match m !! k with
  | Some v => exists w, f k v = Ret w /\ m' !! k = Some w
  | None => m' !! k = None
  end.
Proof.
  unfold map_iter_mut. destruct (map_values_mut _ _) as [m0|] eqn:E; [|done]. cbn. intros [= <-].
  apply (map_values_mut_lookup _ _ _ k) in E. rewrite map_lookup_imap in E. rewrite lookup_fmap.
  destruct (m !! k) as [v|]; cbn in E; [|by rewrite E]. destruct E as (w & Hw & ->). cbn in *.
  destruct (f k v) as [w0|]; cbn in Hw; [|done]. simplify_eq. by exists w0.
Qed.

Lemma process_packet_from_keeps self payload id self' r :
  process_packet_from self payload id = Ret (self', r) -> keeps self self'.
Proof.
  unfold process_packet_from. destruct (connections self !! id) as [c|] eqn:E; intros H; [|by simplify_eq].
  destruct (process_packet c payload) eqn:Hp; cbn in H; simplify_eq.
  eapply keeps_insert; [done|]. apply rtc_once. by eapply conn_process.
Qed.

Lemma process_packets_from_keeps packets id : forall self self' r,
  process_packets_from self packets id = Ret (self', r) -> keeps self self'.
Proof.
  induction packets as [|p packets IH]; intros self self' r H; cbn in H; [by simplify_eq|].
  destruct (process_packet_from self p id) as [[s1 [?|?]]|] eqn:E; cbn in H; [..|done];
    apply process_packet_from_keeps in E; [|by simplify_eq]. etrans; [exact E|by eapply IH].
Qed.

Lemma server_flush_keeps self id self' r : server_get_packets_to_send self id = Ret (self', r) -> keeps self self'.
Proof.
  unfold server_get_packets_to_send. destruct (connections self !! id) as [c|] eqn:E; intros H; [|by simplify_eq].
  destruct (get_packets_to_send c) as [[]|] eqn:Hp; cbn in H; simplify_eq.
  eapply keeps_insert; [done|]. apply rtc_once. by eapply conn_flush.
Qed.

Lemma process_local_client_keeps self id c self' c' r :
  process_local_client self id c = Ret (self', c', r) -> keeps self self'.
Proof.
  unfold process_local_client. destruct (server_get_packets_to_send self id) as [[s1 [ps|?]]|] eqn:E; cbn; intros H; [| |done];
    apply server_flush_keeps in E; [|by simplify_eq].
  destruct (fold_out process_packet c ps) as [c1|]; [|done]. cbn in H.
  destruct (get_packets_to_send c1) as [[c2 ps2]|]; [|done]. cbn in H.
  destruct (process_packets_from s1 ps2 id) as [[s2 r2]|] eqn:E2; [|done]. cbn in H. simplify_eq.
  etrans; [exact E|by eapply process_packets_from_keeps].
Qed.

(** The effect of adding and of removing a connection. *)
Definition adds (self : RenetServer) (id : Z) (self' : RenetServer) : Prop :=
  connections self !! id = None /\
  exists c, client_new_from_server (connection_config self) = Ret c /\
    self' = mkServer (<[id := set_connected c]> (connections self)) (connection_config self)
              (events self ++ [ClientConnected id]).

Definition removes (self : RenetServer) (id : Z) (self' : RenetServer) : Prop :=
  is_Some (connections self !! id) /\
  exists reason, self' = mkServer (delete id (connections self)) (connection_config self)
                           (events self ++ [ClientDisconnected id reason]).

Lemma add_connection_effect self id self' : add_connection self id = Ret self' -> adds self id self' \/ self' = self.
Proof.
  unfold add_connection. case_bool_decide as Hc; intros H; [right; by simplify_eq|].
  destruct (client_new_from_server _) as [c|] eqn:E; cbn in H; [|done]. simplify_eq.
  left. split; [by apply eq_None_not_Some|]. by exists c.
Qed.

(** Every operation adds one connection, removes one, hands out an event, or keeps them all. *)
Lemma server_step_effect self taken self' :
  server_step self taken self' ->
  (taken = [] /\ ((exists id, adds self id self') \/ (exists id, removes self id self') \/ keeps self self')) \/
  (exists e, taken = [e] /\ events self = e :: events self' /\ connections self' = connections self /\
     connection_config self' = connection_config self).
Proof.
  intros H. inv H as [id s1 E|id|id|  |s1 e E|ch m s1 E|id ch m s1 E|id ch m s1 E|id ch s1 r E|dur s1 E|id s1 r E|p id s1 r E|id s1 c E|id c|id c s1 c' r E].
  - left. split; [done|]. apply add_connection_effect in E as [?| ->]; [eauto|]. by do 2 right.
  - left. split; [done|]. unfold remove_connection. destruct (connections self !! id) eqn:E; [|by do 2 right].
    right; left. exists id. split; [by eexists|]. by eexists.
  - left. split; [done|]. do 2 right. unfold server_disconnect. destruct (connections self !! id) eqn:E; [|done].
    eapply keeps_insert; [done|]. apply rtc_once. constructor.
  - left. split; [done|]. do 2 right. split_and!; try done. intros id. cbn. rewrite lookup_fmap.
    destruct (connections self !! id); cbn; [|done]. apply rtc_once. constructor.
  - unfold get_event in E. destruct (events self) as [|e0 es] eqn:Ee; simplify_eq; [left; split; [done|by do 2 right]|].
    right. exists e0. done.
  - left. split; [done|]. do 2 right. unfold broadcast_message in E. destruct (map_values_mut _ _) eqn:Em; cbn in E; simplify_eq.
    eapply keeps_values; [|done]. cbn. intros c c' Hc. apply rtc_once. by eapply conn_send.
  - left. split; [done|]. do 2 right. unfold broadcast_message_except in E. destruct (map_iter_mut _ _) eqn:Em; cbn in E; simplify_eq.
    split_and!; try done. intros i. cbn. apply (map_iter_mut_lookup _ _ _ i) in Em.
    destruct (connections self !! i); [|by rewrite Em]. destruct Em as (w & Hw & ->). cbn.
    destruct (_ =? _); [by simplify_eq|]. apply rtc_once. by eapply conn_send.
  - left. split; [done|]. do 2 right. unfold server_send_message in E. destruct (connections self !! id) as [c|] eqn:Ec; [|by simplify_eq].
    destruct (send_message _ _ _) eqn:Em; cbn in E; simplify_eq. eapply keeps_insert; [done|]. apply rtc_once. by eapply conn_send.
  - left. split; [done|]. do 2 right. unfold server_receive_message in E. destruct (connections self !! id) as [c|] eqn:Ec; [|by simplify_eq].
    destruct (receive_message _ _) as [[]|] eqn:Em; cbn in E; simplify_eq. eapply keeps_insert; [done|]. apply rtc_once. by eapply conn_receive.
  - left. split; [done|]. do 2 right. unfold server_update in E. destruct (map_values_mut _ _) eqn:Em; cbn in E; simplify_eq.
    eapply keeps_values; [|done]. cbn. intros c c' Hc. apply rtc_once. by eapply conn_update.
  - left. split; [done|]. do 2 right. by eapply server_flush_keeps.
  - left. split; [done|]. do 2 right. by eapply process_packet_from_keeps.
  - left. split; [done|]. unfold new_local_client in E. destruct (client_new_from_server _); cbn in E; [|done].
    destruct (add_connection self id) as [s1|] eqn:Ea; cbn in E; [|done]. simplify_eq.
    apply add_connection_effect in Ea as [?| ->]; [eauto|]. by do 2 right.
  - left. split; [done|]. unfold disconnect_local_client. destruct (is_disconnected c); [by do 2 right|].
    case_bool_decide as Hc; [|by do 2 right]. right; left. exists id. split; [done|]. by eexists.
  - left. split; [done|]. do 2 right. by eapply process_local_client_keeps.
Qed.

End effects.

(** ** One connection's share of a call *)

Section shares.
Context {oct : Octets}.

Inductive server_request :=
  | SAdd (id : Z)
  | SRemove (id : Z)
  | SDisconnect (id : Z)
  | SDisconnectAll
  | SGetEvent
  | SBroadcast (ch : Z) (m : Bytes)
  | SBroadcastExcept (id ch : Z) (m : Bytes)
  | SSend (id ch : Z) (m : Bytes)
  | SReceive (id ch : Z)
  | SUpdate (duration : Z)
  | SFlush (id : Z)
  | SProcess (payload : Bytes) (id : Z)
  | SNewLocal (id : Z)
  | SDisconnectLocal (id : Z) (client : RenetClient)
  | SProcessLocal (id : Z) (client : RenetClient).

Inductive server_answer :=
  | ADone
  | AEvent (e : option ServerEvent)
  | AMessage (m : option Bytes)
  | APackets (r : result (list Bytes) ClientNotFound)
  | AProcessed (r : result unit ClientNotFound)
  | AClient (client : RenetClient)
  | ALocal (client : RenetClient) (r : result unit ClientNotFound).

(** The calls that change a server, with what they return. *)
Definition run_call (self : RenetServer) (call : server_request) : out (RenetServer * server_answer) :=
  match call with
  | SAdd id => let! self := add_connection self id in Ret (self, ADone)
  | SRemove id => Ret (remove_connection self id, ADone)
  | SDisconnect id => Ret (server_disconnect self id, ADone)
  | SDisconnectAll => Ret (disconnect_all self, ADone)
  | SGetEvent => let (self, e) := get_event self in Ret (self, AEvent e)
  | SBroadcast ch m => let! self := broadcast_message self ch m in Ret (self, ADone)
  | SBroadcastExcept id ch m => let! self := broadcast_message_except self id ch m in Ret (self, ADone)
  | SSend id ch m => let! self := server_send_message self id ch m in Ret (self, ADone)
  | SReceive id ch => let! (self, m) := server_receive_message self id ch in Ret (self, AMessage m)
  | SUpdate duration => let! self := server_update self duration in Ret (self, ADone)
  | SFlush id => let! (self, r) := server_get_packets_to_send self id in Ret (self, APackets r)
  | SProcess payload id => let! (self, r) := process_packet_from self payload id in Ret (self, AProcessed r)
  | SNewLocal id => let! (self, client) := new_local_client self id in Ret (self, AClient client)
  | SDisconnectLocal id client => let (self, client) := disconnect_local_client self id client in Ret (self, AClient client)
  | SProcessLocal id client => let! (self, client, r) := process_local_client self id client in Ret (self, ALocal client r)
  end.

(** An operation of the connection, if there is one. *)
Definition on_client (op : RenetClient -> out (RenetClient * server_answer)) (missing : server_answer) (c : option RenetClient)
    : out (option RenetClient * server_answer) :=
  match c with
  | Some c => let! (c, a) := op c in Ret (Some c, a)
  | None => Ret (None, missing)
  end.

(** What the call does to the connection that it names, and its answer. *)
Definition addressed (config : ConnectionConfig) (call : server_request) (c : option RenetClient) : out (option RenetClient * server_answer) :=
  match call with
  | SAdd _ =>
      match c with
      | Some _ => Ret (c, ADone)
      | None => let! client := client_new_from_server config in Ret (Some (set_connected client), ADone)
      end
  | SRemove _ => Ret (None, ADone)
  | SDisconnect _ => Ret ((fun c => disconnect_with_reason c DisconnectedByServer) <$> c, ADone)
  | SSend _ ch m => on_client (fun c => let! c := send_message c ch m in Ret (c, ADone)) ADone c
  | SReceive _ ch => on_client (fun c => let! (c, m) := receive_message c ch in Ret (c, AMessage m)) (AMessage None) c
  | SFlush _ => on_client (fun c => let! (c, packets) := get_packets_to_send c in Ret (c, APackets (Ok packets))) (APackets (Err ClientNotFoundError)) c
  | SProcess payload _ => on_client (fun c => let! c := process_packet c payload in Ret (c, AProcessed (Ok tt))) (AProcessed (Err ClientNotFoundError)) c
  | SNewLocal _ =>
      let! client := client_new_from_server config in
      Ret (Some (default (set_connected client) c), AClient (set_connected client))
  | SDisconnectLocal _ client => if is_disconnected client then Ret (c, AClient client) else Ret (None, AClient (disconnect client))
  | SProcessLocal _ client =>
      on_client (fun c =>
        let! (c, packets) := get_packets_to_send c in
        let! client := fold_out process_packet client packets in
        let! (client, packets) := get_packets_to_send client in
        let! c := fold_out process_packet c packets in
        Ret (c, ALocal client (Ok tt))) (ALocal client (Err ClientNotFoundError)) c
  | SDisconnectAll | SGetEvent | SBroadcast _ _ | SBroadcastExcept _ _ _ | SUpdate _ => Ret (c, ADone)
  end.

(** The connection that a call names; the others name none. *)
Definition addressee (call : server_request) : option Z :=
  match call with
  | SAdd id | SRemove id | SDisconnect id | SSend id _ _ | SReceive id _ | SFlush id | SProcess _ id | SNewLocal id
  | SDisconnectLocal id _ | SProcessLocal id _ => Some id
  | SDisconnectAll | SGetEvent | SBroadcast _ _ | SBroadcastExcept _ _ _ | SUpdate _ => None
  end.

(** What such a call does to each connection. *)
Definition shared (call : server_request) (id : Z) (c : RenetClient) : out RenetClient :=
  match call with
  | SDisconnectAll => Ret (disconnect_with_reason c DisconnectedByServer)
  | SBroadcast ch m => send_message c ch m
  | SBroadcastExcept except ch m => if except =? id then Ret c else send_message c ch m
  | SUpdate duration => client_update c duration
  | _ => Ret c
  end.

Lemma process_packets_share packets : forall self id c self' r,
  connections self !! id = Some c -> process_packets_from self packets id = Ret (self', r) ->
  exists c', fold_out process_packet c packets = Ret c' /\ connections self' = <[id := c']> (connections self) /\ r = Ok tt.
Proof using.
  induction packets as [|packet packets IH]; intros self id c self' r Hc H; cbn [process_packets_from fold_out] in *.
  - injection H as <- <-. exists c. by rewrite insert_id.
  - unfold process_packet_from in H at 1. rewrite Hc in H. destruct (process_packet c packet) as [c1|]; cbn [out_bind] in *; [|done].
    apply (IH _ _ c1) in H as (c' & E & Hcs & Hr); [|cbn; apply lookup_insert_eq]. exists c'. split; [done|]. split; [|done].
    rewrite Hcs. cbn. by rewrite insert_insert_eq.
Qed.

(** One binding has changed, or gone. *)
Ltac share_done :=
  cbn; split; [by rewrite ?lookup_insert_eq, ?lookup_delete_eq|intros k Hk; by rewrite ?lookup_insert_ne, ?lookup_delete_ne by done].

(** A call that names a connection has exactly its own effect there, and leaves
    the others as they are. *)
Lemma addressed_share self call id self' answer :
  addressee call = Some id -> run_call self call = Ret (self', answer) ->
  addressed (connection_config self) call (connections self !! id) = Ret (connections self' !! id, answer) /\
  forall k, k <> id -> connections self' !! k = connections self !! k.
Proof using.
  intros Ha H. destruct call; try discriminate Ha; injection Ha as ->; cbn [run_call addressed on_client] in *.
  - unfold add_connection in H. destruct (connections self !! id) as [c|] eqn:Ec.
    + rewrite bool_decide_eq_true_2 in H by (by eexists). injection H as <- <-. by rewrite Ec.
    + rewrite bool_decide_eq_false_2 in H by (by intros []). destruct (client_new_from_server _); cbn [out_bind] in *; [|done].
      injection H as <- <-. share_done.
  - injection H as <- <-. unfold remove_connection. destruct (connections self !! id) as [c|] eqn:Ec; [|by rewrite Ec].
    share_done.
  - injection H as <- <-. unfold server_disconnect. destruct (connections self !! id) as [c|] eqn:Ec; [|by rewrite Ec].
    share_done.
  - unfold server_send_message in H. destruct (connections self !! id) as [c|] eqn:Ec; cbn [on_client out_bind] in *; [|injection H as <- <-; by rewrite Ec].
    destruct (send_message _ _ _); cbn [out_bind] in *; [|done]. injection H as <- <-. share_done.
  - unfold server_receive_message in H. destruct (connections self !! id) as [c|] eqn:Ec; cbn [on_client out_bind] in *; [|injection H as <- <-; by rewrite Ec].
    destruct (receive_message _ _) as [[c1 m]|]; cbn [out_bind] in *; [|done]. injection H as <- <-. share_done.
  - unfold server_get_packets_to_send in H. destruct (connections self !! id) as [c|] eqn:Ec; cbn [on_client out_bind] in *; [|injection H as <- <-; by rewrite Ec].
    destruct (get_packets_to_send _) as [[c1 m]|]; cbn [out_bind] in *; [|done]. injection H as <- <-. share_done.
  - unfold process_packet_from in H. destruct (connections self !! id) as [c|] eqn:Ec; cbn [on_client out_bind] in *; [|injection H as <- <-; by rewrite Ec].
    destruct (process_packet _ _) as [c1|]; cbn [out_bind] in *; [|done]. injection H as <- <-. share_done.
  - unfold new_local_client in H. destruct (client_new_from_server _) as [x|] eqn:Ex; cbn [out_bind] in *; [|done].
    unfold add_connection in H. rewrite Ex in H. destruct (connections self !! id) as [c|] eqn:Ec.
    + rewrite bool_decide_eq_true_2 in H by (by eexists). injection H as <- <-. by rewrite Ec.
    + rewrite bool_decide_eq_false_2 in H by (by intros []). injection H as <- <-. share_done.
  - unfold disconnect_local_client in H. destruct (is_disconnected client); [by injection H as <- <-|].
    destruct (connections self !! id) as [c|] eqn:Ec.
    + rewrite bool_decide_eq_true_2 in H by (by eexists). injection H as <- <-. share_done.
    + rewrite bool_decide_eq_false_2 in H by (by intros []). injection H as <- <-. by rewrite Ec.
  - unfold process_local_client, server_get_packets_to_send in H. destruct (connections self !! id) as [c|] eqn:Ec; cbn [on_client out_bind] in *.
    + destruct (get_packets_to_send c) as [[c1 ps]|]; cbn [out_bind] in *; [|done]. destruct (fold_out process_packet client ps) as [client1|]; cbn [out_bind] in *; [|done].
      destruct (get_packets_to_send client1) as [[client2 qs]|]; cbn [out_bind] in *; [|done].
      destruct (process_packets_from _ _ _) as [[self2 r]|] eqn:Ep; cbn [out_bind] in *; [|done]. injection H as <- <-.
      apply (process_packets_share _ _ _ c1) in Ep as (c' & -> & Hcs & ->); [|cbn; apply lookup_insert_eq]. cbn [out_bind].
      rewrite Hcs. cbn. rewrite insert_insert_eq, lookup_insert_eq. split; [done|]. intros k Hk. by rewrite lookup_insert_ne.
    + injection H as <- <-. by rewrite Ec.
Qed.

(** A call that names none has the same effect on all. *)
Lemma shared_share self call self' answer :
  addressee call = None -> run_call self call = Ret (self', answer) ->
  forall id, match connections self !! id with
             | Some c => exists c', shared call id c = Ret c' /\ connections self' !! id = Some c'
             | None => connections self' !! id = None
             end.
Proof using.
  intros Ha H id. destruct call; try discriminate Ha; cbn [run_call shared] in *.
  - injection H as <- <-. cbn. rewrite lookup_fmap. destruct (connections self !! id); cbn; eauto.
  - unfold get_event in H. destruct (events self); injection H as <- <-; cbn; destruct (connections self !! id) eqn:E; eauto.
  - unfold broadcast_message in H. destruct (map_values_mut _ _) as [m'|] eqn:E; cbn [out_bind] in H; [|done]. injection H as <- <-.
    exact (map_values_mut_lookup _ _ _ id E).
  - unfold broadcast_message_except in H. destruct (map_iter_mut _ _) as [m'|] eqn:E; cbn [out_bind] in H; [|done]. injection H as <- <-.
    exact (map_iter_mut_lookup _ _ _ id E).
  - unfold server_update in H. destruct (map_values_mut _ _) as [m'|] eqn:E; cbn [out_bind] in H; [|done]. injection H as <- <-.
    exact (map_values_mut_lookup _ _ _ id E).
Qed.

End shares.

(** ** Events and connections *)

(** Replay of the events about one client: [Some b] when they alternate,
    connection first, [b] telling whether the client is connected at the end. *)
Definition replay_event (id : Z) (state : option bool) (e : ServerEvent) : option bool :=
  match e, state with
  | ClientConnected i, Some b => if i =? id then (if b then None else Some true) else Some b
  | ClientDisconnected i _, Some b => if i =? id then (if b then Some false else None) else Some b
  | _, None => None
  end.

Definition replay (id : Z) (es : list ServerEvent) : option bool := foldl (replay_event id) (Some false) es.

Lemma replay_app id es e : replay id (es ++ [e]) = replay_event id (replay id es) e.
Proof. unfold replay. by rewrite foldl_app. Qed.

Definition has_client (self : RenetServer) (id : Z) : bool := bool_decide (is_Some (connections self !! id)).

Lemma keeps_has_client {oct : Octets} self self' id : keeps self self' -> has_client self' id = has_client self id.
Proof.
  intros [H _]. specialize (H id). unfold has_client.
  destruct (connections self !! id), (connections self' !! id); by cbn in H.
Qed.

Lemma replay_connected es id i b :
  replay id es = Some b -> (i = id -> b = false) ->
  replay id (es ++ [ClientConnected i]) = Some (bool_decide (i = id) || b).
Proof.
  intros H Hb. rewrite replay_app, H. cbn. destruct (Z.eqb_spec i id) as [->|]; [by rewrite Hb, bool_decide_eq_true_2|].
  by rewrite bool_decide_eq_false_2.
Qed.

Lemma replay_disconnected es id i reason b :
  replay id es = Some b -> (i = id -> b = true) ->
  replay id (es ++ [ClientDisconnected i reason]) = Some (negb (bool_decide (i = id)) && b).
Proof.
  intros H Hb. rewrite replay_app, H. cbn. destruct (Z.eqb_spec i id) as [->|]; [by rewrite Hb, bool_decide_eq_true_2|].
  by rewrite bool_decide_eq_false_2.
Qed.

(** C38: Whatever calls a host makes, the events it has taken followed by those
    still queued tell, for every client id, an alternation of connections and
    disconnections, at the end of which the client is connected exactly when the
    server holds a connection for it. *)
Theorem server_events_consistent {oct : Octets} config self log :
  server_run config self log ->
  forall id, replay id (log ++ events self) = Some (has_client self id).
Proof.
  induction 1 as [|self log taken self' _ IH Hstep]; intros id; [done|]. specialize (IH id).
  apply server_step_effect in Hstep as [[-> [[i [Hn (c & _ & ->)]]|[[i [Hs [reason ->]]]|Hk]]]|(e & -> & He & Hc & _)].
  - rewrite app_nil_r. cbn. rewrite app_assoc, (replay_connected _ _ _ _ IH).
    + unfold has_client. cbn. f_equal. destruct (decide (i = id)) as [->|Hne]; rewrite ?lookup_insert_eq, ?lookup_insert_ne by done.
      * by rewrite bool_decide_eq_true_2.
      * by rewrite bool_decide_eq_false_2.
    + intros ->. unfold has_client. by rewrite Hn.
  - rewrite app_nil_r. cbn. rewrite app_assoc, (replay_disconnected _ _ _ _ _ IH).
    + unfold has_client. cbn. f_equal. destruct (decide (i = id)) as [->|Hne]; rewrite ?lookup_delete_eq, ?lookup_delete_ne by done.
      * by rewrite bool_decide_eq_true_2.
      * by rewrite bool_decide_eq_false_2.
    + intros ->. unfold has_client. by rewrite bool_decide_eq_true_2.
  - rewrite app_nil_r, (keeps_has_client self self') by done. destruct Hk as (_ & -> & _). done.
  - rewrite He in IH. rewrite <- app_assoc. cbn. unfold has_client in *. by rewrite Hc.
Qed.

Definition event_demo : out (RenetServer * option ServerEvent) :=
  let! self := add_connection (server_new default_config) 7 in
  let self := remove_connection self 7 in
  let! self := add_connection self 7 in
  Ret (get_event self).

Lemma server_events_consistent_witness :
  exists self e, event_demo = Ret (self, Some e) /\
    replay 7 ([e] ++ events self) = Some true.
Proof.
  destruct event_demo as [[self e]|] eqn:E; [|vm_compute in E; discriminate E].
  assert (e = Some (ClientConnected 7)) as He.
  { assert ((let! r := event_demo in Ret r.2) = Ret (Some (ClientConnected 7))) as H by (vm_compute; reflexivity).
    rewrite E in H. injection H as H. exact H. }
  assert (has_client self 7 = true) as Hc.
  { assert ((let! r := event_demo in Ret (has_client r.1 7)) = Ret true) as H by (vm_compute; reflexivity).
    rewrite E in H. injection H as H. exact H. }
  subst e. exists self, (ClientConnected 7). split; [reflexivity|]. rewrite <- Hc.
  apply (server_events_consistent (oct := quic_octets) default_config self [ClientConnected 7]). unfold event_demo in E.
  destruct (add_connection (server_new default_config) 7) as [s1|] eqn:E1; [|discriminate E]. cbn [out_bind] in E.
  destruct (add_connection (remove_connection s1 7) 7) as [s2|] eqn:E2; [|discriminate E]. cbn [out_bind] in E.
  injection E as E.
  apply (run_step _ s2 [] [ClientConnected 7]); [|exact (srv_event s2 self (Some (ClientConnected 7)) E)].
  apply (run_step _ (remove_connection s1 7) [] []); [|exact (srv_add _ 7 s2 E2)].
  apply (run_step _ s1 [] []); [|apply srv_remove].
  apply (run_step _ (server_new default_config) [] []); [apply run_new|exact (srv_add _ 7 s1 E1)].
Defined.

(** C39: A server is a family of independent connections.  A call that names a
    client does to this client's connection exactly what the operation of
    [RenetClient] does, creates or removes it, answers what that operation
    answers, and changes no other connection; a call that names none
    ([broadcast_message] and its variant with an exception, [update],
    [disconnect_all], [get_event]) does the same operation to each connection, and
    neither creates nor removes one. *)
Theorem server_connections_are_clients {oct : Octets} self call self' answer :
  run_call self call = Ret (self', answer) ->
  match addressee call with
  | Some id =>
      addressed (connection_config self) call (connections self !! id) = Ret (connections self' !! id, answer) /\
      forall k, k <> id -> connections self' !! k = connections self !! k
  | None =>
      forall id, match connections self !! id with
                 | Some c => exists c', shared call id c = Ret c' /\ connections self' !! id = Some c'
                 | None => connections self' !! id = None
                 end
  end.
Proof.
  intros H. destruct (addressee call) as [id|] eqn:E; [by apply addressed_share|by eapply shared_share].
Qed.

Definition two_clients : out RenetServer :=
  let! self := add_connection (server_new default_config) 7 in
  add_connection self 8.

(** A message for client 7 leaves client 8 alone. *)
Lemma server_connections_are_clients_witness :
  exists self self' c, two_clients = Ret self /\ run_call (oct := quic_octets) self (SSend 7 2 [byte_of 1]) = Ret (self', ADone) /\
    connections self !! 7 = Some c /\
    (let! c' := send_message c 2 [byte_of 1] in Ret (Some c', ADone)) = Ret (connections self' !! 7, ADone) /\
    connections self' !! 8 = connections self !! 8.
Proof.
  assert ((let! self := two_clients in let! (_, a) := run_call (oct := quic_octets) self (SSend 7 2 [byte_of 1]) in Ret (a, has_client self 7)) = Ret (ADone, true)) as H
    by (vm_compute; reflexivity).
  destruct two_clients as [self|]; cbn [out_bind] in H; [|discriminate H].
  destruct (run_call self (SSend 7 2 [byte_of 1])) as [[self' a]|] eqn:E; cbn [out_bind] in H; [|discriminate H]. injection H as -> H.
  unfold has_client in H. apply bool_decide_eq_true in H as [c Hc].
  destruct (server_connections_are_clients (oct := quic_octets) self _ self' ADone E) as [H1 H2].
  exists self, self', c. split; [reflexivity|]. split; [exact E|]. split; [exact Hc|]. split; [|apply H2; discriminate].
  rewrite Hc in H1. cbn [addressed on_client] in H1. rewrite <- H1. destruct (send_message _ _ _); reflexivity.
Defined.

(** [broadcast_message_except] gives the message to every connection but the
    excepted one, which is left as it was. *)
Theorem broadcast_except_exact self except_id channel_id message self' :
  broadcast_message_except self except_id channel_id message = Ret self' ->
  connections self' !! except_id = connections self !! except_id /\
  events self' = events self /\
  forall id, id <> except_id ->
    match connections self !! id with
    | Some c => exists c', send_message c channel_id message = Ret c' /\ connections self' !! id = Some c'
    | None => connections self' !! id = None
    end.
Proof.
  unfold broadcast_message_except. destruct (map_iter_mut _ _) as [m'|] eqn:E; [|done]. intros [= <-]. cbn.
  split_and!; [|done|].
  - pose proof (map_iter_mut_lookup _ _ _ except_id E) as H. destruct (connections self !! except_id); [|done].
    destruct H as (w & Hw & ->). rewrite Z.eqb_refl in Hw. by simplify_eq.
  - intros id Hid. pose proof (map_iter_mut_lookup _ _ _ id E) as H. destruct (connections self !! id); [|done].
    destruct H as (w & Hw & ->). destruct (Z.eqb_spec except_id id); [congruence|]. by exists w.
Qed.

(** Two clients, and a message for the second one only. *)
Definition broadcast_demo : out RenetServer :=
  let! self := add_connection (server_new default_config) 1 in
  add_connection self 2.

Lemma broadcast_except_exact_witness :
  exists self self', broadcast_demo = Ret self /\ broadcast_message_except self 1 2 [byte_of 5] = Ret self' /\
    connections self' !! 1 = connections self !! 1.
Proof.
  destruct broadcast_demo as [self|] eqn:E; [|vm_compute in E; discriminate E].
  destruct (broadcast_message_except self 1 2 [byte_of 5]) as [self'|] eqn:E'.
  - exists self, self'. destruct (broadcast_except_exact self 1 2 [byte_of 5] self' E') as [H _].
    split; [reflexivity|]. split; [exact E'|exact H].
  - exfalso. assert ((let! s := broadcast_demo in let! s := broadcast_message_except s 1 2 [byte_of 5] in Ret (has_connections s)) = Ret true) as H
      by (vm_compute; reflexivity).
    rewrite E in H. cbn [out_bind] in H. rewrite E' in H. discriminate H.
Defined.

(** A configuration in which the server sends on channel 0 and clients on channel 1. *)
Definition asymmetric_config : ConnectionConfig :=
  mkConnectionConfig 60000 [mkChannelConfig 0 1000 STUnreliable] [mkChannelConfig 1 1000 STUnreliable].

(** [new_local_client] builds the client with the channels of the server's
    side: with a configuration whose two lists differ, a local client panics on
    the channel a remote client ([RenetClient::new]) sends on. *)
Theorem local_client_has_server_channels :
  (let! c := client_new asymmetric_config in
   let! c := send_message (set_connected c) 1 [byte_of 5] in
   Ret (is_connected c)) = Ret true /\
  (let! (self, c) := new_local_client (server_new asymmetric_config) 7 in
   send_message c 1 [byte_of 5]) = Panic.
Proof. split; vm_compute; reflexivity. Qed.
