(* ===== verification/Netcode.v ===== *)
(** * Netcode: constants, errors, byte streams and encryption
    (renetcode/src/lib.rs, error.rs, serialize.rs, crypto.rs)

    What the files of the netcode protocol share: the sizes of lib.rs, the
    errors, reading and writing of byte streams, and the four functions of
    crypto.rs over an interface for the ciphers of the chacha20poly1305 crate. *)

From Stdlib Require Import Strings.Byte.
From S2P Require Import Prelude.

#[global] Arguments le_bytes : simpl never.
#[global] Arguments le_val : simpl never.

(** ** Constants (lib.rs) *)

(** "NETCODE 1.02" and a null byte. *)
Definition NETCODE_VERSION_INFO : Bytes :=
  byte_of <$> [78; 69; 84; 67; 79; 68; 69; 32; 49; 46; 48; 50; 0].
Definition NETCODE_MAX_CLIENTS : Z := 1024.
Definition NETCODE_MAX_PENDING_CLIENTS : Z := NETCODE_MAX_CLIENTS * 4.
Definition NETCODE_ADDRESS_NONE : Z := 0.
Definition NETCODE_ADDRESS_IPV4 : Z := 1.
Definition NETCODE_ADDRESS_IPV6 : Z := 2.
Definition NETCODE_CONNECT_TOKEN_PRIVATE_BYTES : Z := 1024.
Definition NETCODE_MAX_PACKET_BYTES : Z := 1400.
Definition NETCODE_MAX_PAYLOAD_BYTES : Z := 1300.
Definition NETCODE_KEY_BYTES : Z := 32.
Definition NETCODE_MAC_BYTES : Z := 16.
Definition NETCODE_USER_DATA_BYTES : Z := 256.
Definition NETCODE_CHALLENGE_TOKEN_BYTES : Z := 300.
Definition NETCODE_CONNECT_TOKEN_XNONCE_BYTES : Z := 24.
Definition NETCODE_SEND_RATE : Z := from_millis 250.

(** ** Errors (error.rs, client.rs, token.rs) *)

(** The kinds of [io::Error] that the streams produce and that the transports tell apart. *)
Inductive IoErrorKind :=
  | UnexpectedEof | WriteZero | InvalidData
  | WouldBlock | Interrupted | ConnectionReset | OtherIoError.

(** [renetcode::DisconnectReason]. *)
Inductive NetDisconnectReason :=
  | ConnectTokenExpired
  | ConnectionTimedOut
  | ConnectionResponseTimedOut
  | ConnectionRequestTimedOut
  | ConnectionDeniedByServer
  | NetDisconnectedByClient
  | NetDisconnectedByServer.

Inductive TokenGenerationError :=
  | MaxHostCount
  | TokenCryptoError
  | TokenIoError (kind : IoErrorKind)
  | NoServerAddressAvailable.

Inductive NetcodeError :=
  | UnavailablePrivateKey
  | InvalidPacketType
  | InvalidProtocolID
  | InvalidVersion
  | PacketTooSmall
  | PayloadAboveLimit
  | DuplicatedSequence
  | NoMoreServers
  | Expired
  | NetDisconnected (reason : NetDisconnectReason)
  | CryptoError
  | NotInHostList
  | NetClientNotFound
  | ClientNotConnected
  | IoError (kind : IoErrorKind)
  | TokenError (inner : TokenGenerationError).

(** The conversions of the [?] operator. *)
Definition map_err {A E F} (f : E -> F) (r : result A E) : result A F :=
  match r with Ok a => Ok a | Err e => Err (f e) end.

Notation "'try!' x ':=' m 'in' k" :=
  (match m with Ok x => k | Err e => Err e end)
  (at level 10, x pattern, m at level 200, k at level 200,
   format "'[v' 'try!'  x  ':='  m  'in' '/' k ']'") : rust_scope.

(** ** Addresses ([std::net::SocketAddr]) *)

Inductive SocketAddr :=
  | V4 (ip : Bytes) (port : Z)
  | V6 (ip : Bytes) (port flowinfo scope_id : Z).

#[global] Instance SocketAddr_eq_dec : EqDecision SocketAddr.
Proof. solve_decision. Defined.

#[global] Program Instance byte_countable : Countable byte :=
  inj_countable Byte.to_N Byte.of_N _.
Next Obligation. intros b. by destruct b. Qed.

Definition addr_encode (a : SocketAddr) : (Bytes * Z) + (Bytes * Z * Z * Z) :=
  match a with
  | V4 ip port => inl (ip, port)
  | V6 ip port flowinfo scope_id => inr (ip, port, flowinfo, scope_id)
  end.

Definition addr_decode (x : (Bytes * Z) + (Bytes * Z * Z * Z)) : SocketAddr :=
  match x with
  | inl (ip, port) => V4 ip port
  | inr (ip, port, flowinfo, scope_id) => V6 ip port flowinfo scope_id
  end.

#[global] Program Instance SocketAddr_countable : Countable SocketAddr :=
  inj_countable' addr_encode addr_decode _.
Next Obligation. by intros []. Qed.

(** ** Reading (serialize.rs)

    A source is the list of the bytes that are left. *)

(** [Read::read_exact] into a buffer of [n] bytes. *)
Definition read_bytes (n : Z) (src : Bytes) : result (Bytes * Bytes) IoErrorKind :=
  if len src <? n then Err UnexpectedEof
  else Ok (take (Z.to_nat n) src, drop (Z.to_nat n) src).

Definition read_u64 (src : Bytes) : result (Z * Bytes) IoErrorKind :=
  try! (b, src) := read_bytes 8 src in Ok (le_val b, src).

Definition read_u32 (src : Bytes) : result (Z * Bytes) IoErrorKind :=
  try! (b, src) := read_bytes 4 src in Ok (le_val b, src).

Definition read_u16 (src : Bytes) : result (Z * Bytes) IoErrorKind :=
  try! (b, src) := read_bytes 2 src in Ok (le_val b, src).

Definition read_u8 (src : Bytes) : result (Z * Bytes) IoErrorKind :=
  try! (b, src) := read_bytes 1 src in Ok (le_val b, src).

(** Two's complement on 32 bits. *)
Definition i32_of_u32 (v : Z) : Z := if v <? 2147483648 then v else v - 4294967296.
Definition u32_of_i32 (v : Z) : Z := v mod 4294967296.

Definition read_i32 (src : Bytes) : result (Z * Bytes) IoErrorKind :=
  try! (b, src) := read_bytes 4 src in Ok (i32_of_u32 (le_val b), src).

(** ** Writing ([io::Cursor<&mut [u8]>]) *)

Record cursor := mkCursor {
  cur_buf : Bytes;
  cur_pos : Z;
}.

(** [Write::write]: as many bytes as fit. *)
Definition cur_write (c : cursor) (bs : Bytes) : cursor :=
  let n := Z.min (len bs) (len (cur_buf c) - cur_pos c) in
  mkCursor (take (Z.to_nat (cur_pos c)) (cur_buf c) ++ take (Z.to_nat n) bs ++
            drop (Z.to_nat (cur_pos c + n)) (cur_buf c))
           (cur_pos c + n).

(** [Write::write_all]: an error when they do not all fit. *)
Definition cur_write_all (c : cursor) (bs : Bytes) : cursor * result unit IoErrorKind :=
  (cur_write c bs, if len (cur_buf c) - cur_pos c <? len bs then Err WriteZero else Ok tt).

(** A sequence of [write_all(..)?]. *)
Fixpoint write_chunks (c : cursor) (chunks : list Bytes) : cursor * result unit IoErrorKind :=
  match chunks with
  | [] => (c, Ok tt)
  | bs :: chunks' =>
      let (c, r) := cur_write_all c bs in
      match r with
      | Err e => (c, Err e)
      | Ok _ => write_chunks c chunks'
      end
  end.

(** ** Encryption (crypto.rs)

    The two ciphers of the chacha20poly1305 crate: detached authenticated
    encryption with associated data. [None] is the crate's [Error], which
    becomes [NetcodeError::CryptoError] or [TokenGenerationError::CryptoError]. *)

Inductive cipher := ChaCha20Poly1305 | XChaCha20Poly1305.

Inductive AeadError := aead_error.

Class Aead := {
  aead_encrypt : cipher -> Bytes -> Bytes -> Bytes -> Bytes -> option (Bytes * Bytes);
  aead_decrypt : cipher -> Bytes -> Bytes -> Bytes -> Bytes -> Bytes -> option Bytes;
}.

Arguments aead_encrypt {_} c key nonce aad plain.
Arguments aead_decrypt {_} c key nonce aad ciphertext tag.

(** What RFC 8439 says of them. Messages of a packet's size can be encrypted;
    the ciphertext is as long as the message, the tag has 16 bytes; decryption
    inverts encryption, and accepts nothing but the encryption of what it returns
    (the cipher is an exclusive or with a key stream, the tag a function of the
    ciphertext). *)
Class AeadLaws (aead : Aead) := {
  encrypt_total c key nonce aad plain :
    len plain <= NETCODE_MAX_PACKET_BYTES ->
    exists ct tag, aead_encrypt c key nonce aad plain = Some (ct, tag);
  encrypt_len c key nonce aad plain ct tag :
    aead_encrypt c key nonce aad plain = Some (ct, tag) ->
    len ct = len plain /\ len tag = NETCODE_MAC_BYTES;
  decrypt_encrypt c key nonce aad plain ct tag :
    aead_encrypt c key nonce aad plain = Some (ct, tag) ->
    aead_decrypt c key nonce aad ct tag = Some plain;
  encrypt_decrypt c key nonce aad plain ct tag :
    aead_decrypt c key nonce aad ct tag = Some plain ->
    aead_encrypt c key nonce aad plain = Some (ct, tag);
}.

(** The nonce of a packet: four zero bytes and the sequence. *)
Definition nonce_of (sequence : Z) : Bytes := replicate 4 (byte_of 0) ++ le_bytes 8 sequence.

Section crypto.
Context {aead : Aead}.

(** [cipher.decrypt_in_place_detached] on a buffer that ends with the tag; the
    result is the buffer after decryption (the tag is left in place). *)
Definition decrypt_buffer (c : cipher) (key nonce aad buffer : Bytes) : out (result Bytes AeadError) :=
  let! mid := sub64 (len buffer) NETCODE_MAC_BYTES in
  let body := take (Z.to_nat mid) buffer in
  let tag := drop (Z.to_nat mid) buffer in
  match aead_decrypt c key nonce aad body tag with
  | Some plain => Ret (Ok (plain ++ tag))
  | None => Ret (Err aead_error)
  end.

(** Encryption of a buffer whose last 16 bytes are free for the tag. *)
Definition encrypt_buffer (c : cipher) (key nonce aad buffer : Bytes) : out (result Bytes AeadError) :=
  let! mid := sub64 (len buffer) NETCODE_MAC_BYTES in
  let body := take (Z.to_nat mid) buffer in
  match aead_encrypt c key nonce aad body with
  | Some (ct, tag) => Ret (Ok (ct ++ tag))
  | None => Ret (Err aead_error)
  end.

Definition dencrypted_in_place (buffer : Bytes) (sequence : Z) (private_key aad : Bytes)
    : out (result Bytes AeadError) :=
  decrypt_buffer ChaCha20Poly1305 private_key (nonce_of sequence) aad buffer.

Definition dencrypted_in_place_xnonce (buffer xnonce private_key aad : Bytes) : out (result Bytes AeadError) :=
  decrypt_buffer XChaCha20Poly1305 private_key xnonce aad buffer.

Definition encrypt_in_place (buffer : Bytes) (sequence : Z) (key aad : Bytes) : out (result Bytes AeadError) :=
  encrypt_buffer ChaCha20Poly1305 key (nonce_of sequence) aad buffer.

Definition encrypt_in_place_xnonce (buffer xnonce key aad : Bytes) : out (result Bytes AeadError) :=
  encrypt_buffer XChaCha20Poly1305 key xnonce aad buffer.

End crypto.

(** [generate_random_bytes]; [fill_bytes] is [OsRng.fill_bytes]. *)
Definition generate_random_bytes (fill_bytes : Bytes -> Bytes) (n : Z) : Bytes := fill_bytes (vec_repeat (byte_of 0) n).

(** ** Lemmas on streams *)

Lemma read_bytes_app n bs rest : len bs = n -> read_bytes n (bs ++ rest) = Ok (bs, rest).
Proof.
  intros <-. unfold read_bytes. rewrite len_app. pose proof (len_nonneg rest).
  rewrite (proj2 (Z.ltb_ge _ _)) by lia. unfold len. rewrite Nat2Z.id. by rewrite take_app_length, drop_app_length.
Qed.

Lemma len_le_bytes n v : len (le_bytes n v) = Z.of_nat n.
Proof. unfold len. by rewrite length_le_bytes. Qed.

Lemma read_u64_app v rest : u64 v -> read_u64 (le_bytes 8 v ++ rest) = Ok (v, rest).
Proof.
  intros Hv. unfold read_u64. rewrite read_bytes_app by apply len_le_bytes.
  rewrite le_val_bytes; [done|]. unfold u64, U64_MAX in Hv. cbn. lia.
Qed.

Lemma read_u32_app v rest : 0 <= v <= U32_MAX -> read_u32 (le_bytes 4 v ++ rest) = Ok (v, rest).
Proof.
  intros Hv. unfold read_u32. rewrite read_bytes_app by apply len_le_bytes.
  rewrite le_val_bytes; [done|]. unfold U32_MAX in Hv. cbn. lia.
Qed.

Lemma read_u16_app v rest : 0 <= v <= U16_MAX -> read_u16 (le_bytes 2 v ++ rest) = Ok (v, rest).
Proof.
  intros Hv. unfold read_u16. rewrite read_bytes_app by apply len_le_bytes.
  rewrite le_val_bytes; [done|]. unfold U16_MAX in Hv. cbn. lia.
Qed.

Lemma read_u8_app v rest : 0 <= v <= U8_MAX -> read_u8 (le_bytes 1 v ++ rest) = Ok (v, rest).
Proof.
  intros Hv. unfold read_u8. rewrite read_bytes_app by apply len_le_bytes.
  rewrite le_val_bytes; [done|]. unfold U8_MAX in Hv. cbn. lia.
Qed.

Definition i32 (v : Z) : Prop := -2147483648 <= v < 2147483648.

Lemma i32_u32 v : i32 v -> i32_of_u32 (u32_of_i32 v) = v.
Proof.
  unfold i32, i32_of_u32, u32_of_i32. intros Hv.
  destruct (Z.ltb_spec (v mod 4294967296) 2147483648); Z.div_mod_to_equations; lia.
Qed.

Lemma read_i32_app v rest : i32 v -> read_i32 (le_bytes 4 (u32_of_i32 v) ++ rest) = Ok (v, rest).
Proof.
  intros Hv. unfold read_i32. rewrite read_bytes_app by apply len_le_bytes.
  rewrite le_val_bytes; [by rewrite i32_u32|]. unfold u32_of_i32. apply (Z.mod_pos_bound v 4294967296). lia.
Qed.

Lemma len_single {A} (x : A) : len [x] = 1.
Proof. done. Qed.

Lemma take_len_app {A} (l k : list A) : take (Z.to_nat (len l)) (l ++ k) = l.
Proof. unfold len. by rewrite Nat2Z.id, take_app_length. Qed.

Lemma drop_len_app {A} (l k : list A) : drop (Z.to_nat (len l)) (l ++ k) = k.
Proof. unfold len. by rewrite Nat2Z.id, drop_app_length. Qed.

Lemma len_drop {A} n (l : list A) : 0 <= n <= len l -> len (drop (Z.to_nat n) l) = len l - n.
Proof. unfold len. rewrite length_drop. lia. Qed.

Lemma len_take {A} n (l : list A) : 0 <= n <= len l -> len (take (Z.to_nat n) l) = n.
Proof. unfold len. rewrite length_take. lia. Qed.

(** The cursor over [buffer] after [pre] has been written from its start. *)
Definition written (buffer pre : Bytes) : cursor :=
  mkCursor (pre ++ drop (length pre) buffer) (len pre).

Lemma written_nil buffer : written buffer [] = mkCursor buffer 0.
Proof. done. Qed.

Lemma len_written buffer pre : len pre <= len buffer -> len (cur_buf (written buffer pre)) = len buffer.
Proof. intros. cbn. rewrite len_app. unfold len in *. rewrite length_drop. lia. Qed.

(** Writing within the bounds of the buffer. *)
Lemma cur_write_written buffer pre bs :
  len pre + len bs <= len buffer -> cur_write (written buffer pre) bs = written buffer (pre ++ bs).
Proof.
  intros Hfit. pose proof (len_nonneg bs). unfold cur_write. rewrite len_written by lia. cbn [cur_buf cur_pos written].
  rewrite Z.min_l by lia. unfold written. f_equal; [|by rewrite len_app].
  rewrite take_app_length' by (unfold len; lia). rewrite (firstn_all2 bs) by (unfold len; lia). rewrite <- app_assoc. do 2 f_equal.
  rewrite length_app. replace (Z.to_nat (len pre + len bs)) with (length pre + length bs)%nat by (unfold len; lia).
  rewrite drop_app_add, drop_drop. done.
Qed.

Lemma cur_write_all_written buffer pre bs :
  len pre + len bs <= len buffer -> cur_write_all (written buffer pre) bs = (written buffer (pre ++ bs), Ok tt).
Proof.
  intros Hfit. pose proof (len_nonneg bs). unfold cur_write_all. rewrite cur_write_written, len_written by lia.
  cbn [cur_pos written]. by rewrite (proj2 (Z.ltb_ge _ _)) by lia.
Qed.

Lemma write_chunks_written buffer chunks : forall pre,
  len pre + len (concat chunks) <= len buffer ->
  write_chunks (written buffer pre) chunks = (written buffer (pre ++ concat chunks), Ok tt).
Proof.
  induction chunks as [|bs chunks IH]; intros pre Hfit; cbn [concat write_chunks] in *; [by rewrite app_nil_r|].
  rewrite len_app in Hfit. pose proof (len_nonneg (concat chunks)). rewrite cur_write_all_written by lia.
  rewrite IH by (rewrite len_app; lia). by rewrite app_assoc.
Qed.

(** The size of the buffer does not change, and a failed write is reported. *)
Lemma cur_write_len c bs : 0 <= cur_pos c <= len (cur_buf c) ->
  len (cur_buf (cur_write c bs)) = len (cur_buf c) /\ cur_pos c <= cur_pos (cur_write c bs) <= len (cur_buf c).
Proof.
  intros Hc. unfold cur_write. cbn. rewrite !len_app. unfold len in *. rewrite !length_take, length_drop. lia.
Qed.

Lemma write_chunks_len chunks : forall c c' r, 0 <= cur_pos c <= len (cur_buf c) ->
  write_chunks c chunks = (c', r) -> len (cur_buf c') = len (cur_buf c) /\ cur_pos c <= cur_pos c' <= len (cur_buf c).
Proof.
  induction chunks as [|bs chunks IH]; intros c c' r Hc H; cbn in H; [simplify_eq; lia|].
  destruct (cur_write_len c bs Hc) as [Hl Hp]. destruct (_ <? _); [by simplify_eq|].
  apply IH in H; [|lia]. lia.
Qed.

Lemma write_chunks_short chunks : forall c, 0 <= cur_pos c <= len (cur_buf c) ->
  len (cur_buf c) < cur_pos c + len (concat chunks) -> (write_chunks c chunks).2 = Err WriteZero.
Proof.
  induction chunks as [|bs chunks IH]; intros c Hc Hs; cbn [concat write_chunks] in *.
  { change (len (@nil byte)) with 0 in Hs. lia. }
  rewrite len_app in Hs. unfold cur_write_all. destruct (Z.ltb_spec (len (cur_buf c) - cur_pos c) (len bs)); [done|].
  destruct (cur_write_len c bs Hc) as [Hl Hp]. apply IH; rewrite Hl; [lia|].
  unfold cur_write. cbn. pose proof (len_nonneg bs). lia.
Qed.

(** ** Lemmas on encryption *)

Section crypto_lemmas.
Context {aead : Aead} {laws : AeadLaws aead}.

Lemma encrypt_buffer_ok c key nonce aad body pad :
  len pad = NETCODE_MAC_BYTES -> len body <= NETCODE_MAX_PACKET_BYTES ->
  exists ct tag, aead_encrypt c key nonce aad body = Some (ct, tag) /\
    len ct = len body /\ len tag = NETCODE_MAC_BYTES /\
    encrypt_buffer c key nonce aad (body ++ pad) = Ret (Ok (ct ++ tag)).
Proof using laws.
  intros Hpad Hb. destruct (encrypt_total c key nonce aad body Hb) as (ct & tag & E).
  destruct (encrypt_len _ _ _ _ _ _ _ E) as [Hct Htag]. exists ct, tag. split_and!; try done.
  unfold encrypt_buffer. rewrite len_app, Hpad. pose proof (len_nonneg body).
  rewrite sub64_ok by lia. cbn [out_bind]. replace (len body + NETCODE_MAC_BYTES - NETCODE_MAC_BYTES) with (len body) by lia.
  unfold len. rewrite Nat2Z.id, take_app_length, E. done.
Qed.

Lemma decrypt_buffer_app c key nonce aad ct tag :
  len tag = NETCODE_MAC_BYTES ->
  decrypt_buffer c key nonce aad (ct ++ tag) =
    match aead_decrypt c key nonce aad ct tag with
    | Some plain => Ret (Ok (plain ++ tag))
    | None => Ret (Err aead_error)
    end.
Proof using.
  intros Htag. unfold decrypt_buffer. rewrite len_app, Htag. pose proof (len_nonneg ct).
  rewrite sub64_ok by lia. cbn [out_bind]. replace (len ct + NETCODE_MAC_BYTES - NETCODE_MAC_BYTES) with (len ct) by lia.
  unfold len. by rewrite Nat2Z.id, take_app_length, drop_app_length.
Qed.

(** A buffer that is accepted is the encryption of what it decrypts to. *)
(** A message at the start of a buffer that leaves room for the tag comes back
    at the start of the decrypted buffer. *)
Lemma encrypt_padded c key nonce aad plain buffer :
  len plain + NETCODE_MAC_BYTES <= len buffer <= NETCODE_MAX_PACKET_BYTES ->
  exists data rest, encrypt_buffer c key nonce aad (plain ++ drop (length plain) buffer) = Ret (Ok data) /\
    len data = len buffer /\ decrypt_buffer c key nonce aad data = Ret (Ok (plain ++ rest)).
Proof using laws.
  intros Hb. pose proof (len_nonneg plain). set (buf := plain ++ drop _ buffer). unfold NETCODE_MAC_BYTES, NETCODE_MAX_PACKET_BYTES in *.
  assert (len buf = len buffer) as Hbuf by (unfold buf; rewrite len_app; unfold len in *; rewrite length_drop; lia).
  set (m := Z.to_nat (len buffer - 16)).
  destruct (encrypt_buffer_ok c key nonce aad (take m buf) (drop m buf)) as (ct & tag & E & Hct & Htag & Henc).
  { unfold len in *. rewrite length_drop. unfold NETCODE_MAC_BYTES. lia. }
  { unfold len in *. rewrite length_take. unfold NETCODE_MAX_PACKET_BYTES. lia. }
  rewrite take_drop in Henc. exists (ct ++ tag), (take (m - length plain) (drop (length plain) buffer) ++ tag). split_and!; [done| |].
  { rewrite len_app, Hct, Htag. unfold len in *. rewrite length_take. unfold NETCODE_MAC_BYTES. lia. }
  rewrite decrypt_buffer_app by done. rewrite (decrypt_encrypt _ _ _ _ _ _ _ E). do 2 f_equal.
  unfold buf. rewrite take_app, firstn_all2 by (unfold len in *; lia). by rewrite <- app_assoc.
Qed.

Lemma decrypt_buffer_inv c key nonce aad buffer r :
  decrypt_buffer c key nonce aad buffer = Ret (Ok r) ->
  exists plain ct tag, r = plain ++ tag /\ buffer = ct ++ tag /\ len tag = NETCODE_MAC_BYTES /\
    len ct = len plain /\ aead_encrypt c key nonce aad plain = Some (ct, tag).
Proof using laws.
  unfold decrypt_buffer. destruct (sub64 _ _) as [mid|] eqn:E; [|done]. apply sub64_inv in E as [-> Hl]. cbn [out_bind].
  destruct (aead_decrypt _ _ _ _ _ _) as [plain|] eqn:D; intros H; [|done]. simplify_eq.
  apply encrypt_decrypt in D. exists plain. eexists _, _. split; [done|]. rewrite take_drop.
  destruct (encrypt_len _ _ _ _ _ _ _ D). split_and!; done.
Qed.

End crypto_lemmas.

(** ** An instance

    A message in clear with a checksum of the key, nonce, associated data and
    message: it satisfies the laws (and nothing more), for concrete runs. *)

Definition checksum_step (acc : Z) (b : byte) : Z := Z.land (acc * 5 + byte_val b + 1) 65535.
Definition checksum (acc : Z) (bs : Bytes) : Z := foldl checksum_step (checksum_step acc (byte_of 0)) bs.

Definition plain_tag (c : cipher) (key nonce aad plain : Bytes) : Bytes :=
  let c0 := match c with ChaCha20Poly1305 => 1 | XChaCha20Poly1305 => 2 end in
  le_bytes 16 (checksum (checksum (checksum (checksum c0 key) nonce) aad) plain).

#[export] Instance plain_aead : Aead := {
  aead_encrypt c key nonce aad plain := Some (plain, plain_tag c key nonce aad plain);
  aead_decrypt c key nonce aad ct tag :=
    if bool_decide (tag = plain_tag c key nonce aad ct) then Some ct else None;
}.

#[export] Instance plain_aead_laws : AeadLaws plain_aead.
Proof.
  constructor; unfold aead_encrypt, aead_decrypt, plain_aead; intros.
  - by eexists _, _.
  - simplify_eq. split; [done|]. unfold plain_tag. by rewrite len_le_bytes.
  - simplify_eq. by rewrite bool_decide_eq_true_2.
  - case_bool_decide; simplify_eq. done.
Qed.

