(* ===== verification/ReplayProtection.v ===== *)
(** * Replay protection (renetcode/src/replay_protection.rs)

    A window of 256 sequences: the definitions of the file, and the proof that
    they implement a set of accepted sequences. *)

From S2P Require Import Prelude.

Definition NETCODE_REPLAY_BUFFER_SIZE : Z := 256.
Definition EMPTY : Z := U64_MAX.

Record ReplayProtection := mkReplay {
  most_recent_sequence : Z;
  received_packet : list Z;
}.

Definition replay_new : ReplayProtection :=
  mkReplay 0 (vec_repeat EMPTY NETCODE_REPLAY_BUFFER_SIZE).

Definition already_received (self : ReplayProtection) (sequence : Z) : out bool :=
  let! limit := add64 sequence NETCODE_REPLAY_BUFFER_SIZE in
  if limit <=? most_recent_sequence self then Ret true
  else
    let! slot := vec_get (received_packet self) (sequence mod NETCODE_REPLAY_BUFFER_SIZE) in
    if slot =? EMPTY then Ret false
    else if sequence <=? slot then Ret true
    else Ret false.

Definition advance_sequence (self : ReplayProtection) (sequence : Z) : out ReplayProtection :=
  let most_recent :=
    if most_recent_sequence self <? sequence then sequence else most_recent_sequence self in
  let! received := vec_set (received_packet self) (sequence mod NETCODE_REPLAY_BUFFER_SIZE) sequence in
  Ret (mkReplay most_recent received).

(** ** Specification: the sequences accepted so far *)

(** Sequences for which [sequence + 256] is a [u64]. *)
Definition seq_ok (s : Z) : Prop := 0 <= s <= U64_MAX - NETCODE_REPLAY_BUFFER_SIZE.

(** A sequence is a replay when it was accepted or is older than the window. *)
Definition replayed (accepted : list Z) (latest s : Z) : Prop :=
  s ∈ accepted \/ s + NETCODE_REPLAY_BUFFER_SIZE <= latest.

(** Slot [i] holds the latest accepted sequence that falls in it. *)
Definition slot_ok (accepted : list Z) (i v : Z) : Prop :=
  (v = EMPTY /\ forall s, s ∈ accepted -> s mod NETCODE_REPLAY_BUFFER_SIZE <> i) \/
  (v ∈ accepted /\ v mod NETCODE_REPLAY_BUFFER_SIZE = i /\
   forall s, s ∈ accepted -> s mod NETCODE_REPLAY_BUFFER_SIZE = i -> s <= v).

Record replay_inv (accepted : list Z) (self : ReplayProtection) : Prop := {
  rp_accepted : Forall seq_ok accepted;
  rp_latest : (forall s, s ∈ accepted -> s <= most_recent_sequence self) /\
    (most_recent_sequence self = 0 \/ most_recent_sequence self ∈ accepted);
  rp_len : len (received_packet self) = NETCODE_REPLAY_BUFFER_SIZE;
  rp_slots : forall i v, 0 <= i -> received_packet self !! Z.to_nat i = Some v -> slot_ok accepted i v;
}.

Lemma seq_mod_range s : 0 <= s mod NETCODE_REPLAY_BUFFER_SIZE < NETCODE_REPLAY_BUFFER_SIZE.
Proof. by apply Z.mod_pos_bound. Qed.

Lemma replay_new_inv : replay_inv [] replay_new.
Proof.
  constructor; [constructor|split; [by intros s []%elem_of_nil|by left]|done|].
  intros i v Hi Hv. apply lookup_replicate in Hv as [-> _]. left. split; [done|]. by intros s []%elem_of_nil.
Qed.

(** Two sequences of the same slot less than a window apart are equal. *)
Lemma same_slot s v :
  s mod NETCODE_REPLAY_BUFFER_SIZE = v mod NETCODE_REPLAY_BUFFER_SIZE ->
  s <= v < s + NETCODE_REPLAY_BUFFER_SIZE -> s = v.
Proof. unfold NETCODE_REPLAY_BUFFER_SIZE. intros. Z.div_mod_to_equations. lia. Qed.

Lemma already_received_spec accepted self s :
  replay_inv accepted self -> seq_ok s ->
  exists b, already_received self s = Ret b /\
    (b = true <-> replayed accepted (most_recent_sequence self) s).
Proof.
  intros [Hacc [Hlt Hmax] Hl Hs] [Hs0 Hs1]. unfold already_received.
  rewrite add64_ok by (unfold NETCODE_REPLAY_BUFFER_SIZE in *; lia). cbn [out_bind].
  destruct (Z.leb_spec (s + NETCODE_REPLAY_BUFFER_SIZE) (most_recent_sequence self)) as [Hle|Hgt].
  { exists true. split; [done|]. split; [by right|done]. }
  pose proof (seq_mod_range s) as Hm.
  destruct (vec_get_total (received_packet self) (s mod NETCODE_REPLAY_BUFFER_SIZE)) as (v & -> & Hv); [lia|].
  cbn [out_bind]. assert (replayed accepted (most_recent_sequence self) s <-> s ∈ accepted) as Hrep
    by (unfold replayed; intuition lia). setoid_rewrite Hrep.
  destruct (Hs _ _ (proj1 Hm) Hv) as [[-> Hno]|(Hin & Hmod & Hle)].
  { rewrite Z.eqb_refl. exists false. split; [done|]. split; [done|]. intros Hin. by destruct (Hno s Hin). }
  rewrite Forall_forall in Hacc. pose proof (Hacc v Hin) as Hok. unfold seq_ok, NETCODE_REPLAY_BUFFER_SIZE, EMPTY in *.
  destruct (Z.eqb_spec v U64_MAX); [lia|]. pose proof (Hlt v Hin).
  destruct (Z.leb_spec s v).
  - exists true. split; [done|]. split; [|done]. intros _.
    by rewrite (same_slot s v) by (unfold NETCODE_REPLAY_BUFFER_SIZE; lia).
  - exists false. split; [done|]. split; [done|]. intros Hin'. specialize (Hle s Hin' eq_refl). lia.
Qed.

Lemma advance_sequence_spec accepted self s :
  replay_inv accepted self -> seq_ok s -> ~ replayed accepted (most_recent_sequence self) s ->
  exists self', advance_sequence self s = Ret self' /\ replay_inv (s :: accepted) self'.
Proof.
  intros [Hacc [Hlt Hmax] Hl Hs] Hok Hnew. unfold advance_sequence. pose proof (seq_mod_range s) as Hm.
  rewrite vec_set_ok by lia. cbn [out_bind]. eexists. split; [done|]. unfold seq_ok in Hok.
  constructor; cbn.
  - by constructor.
  - split.
    + intros x Hx. apply elem_of_cons in Hx as [Hx|Hx]; [|apply Hlt in Hx]; destruct (Z.ltb_spec (most_recent_sequence self) s); lia.
    + destruct (Z.ltb_spec (most_recent_sequence self) s); [right; left|]. destruct Hmax; [by left|right; by right].
  - unfold len. rewrite length_insert. done.
  - intros i v Hi Hv. destruct (decide (i = s mod NETCODE_REPLAY_BUFFER_SIZE)) as [->|Hne].
    + rewrite list_lookup_insert_eq in Hv by (unfold len in *; lia). injection Hv as <-. right. split_and!; [left|done|].
      intros x [->|Hx]%elem_of_cons Hmod; [done|]. pose proof (Hlt x Hx). destruct (Z.le_gt_cases x s) as [|Hgt]; [done|].
      exfalso. apply Hnew. destruct (Z.le_gt_cases (s + NETCODE_REPLAY_BUFFER_SIZE) (most_recent_sequence self)); [by right|].
      left. rewrite (same_slot s x); [done|done|]. lia.
    + rewrite list_lookup_insert_ne in Hv by lia. destruct (Hs i v Hi Hv) as [[-> Hno]|(Hin & Hmod & Hle)].
      * left. split; [done|]. intros x [->|Hx]%elem_of_cons; [congruence|auto].
      * right. split_and!; [by right|done|]. intros x [->|Hx]%elem_of_cons Hx'; [congruence|auto].
Qed.

(** A sequence that passes the check and is recorded is new. *)
Lemma replay_accept accepted self s self' :
  replay_inv accepted self -> 0 <= s -> already_received self s = Ret false -> advance_sequence self s = Ret self' ->
  (s ∉ accepted) /\ replay_inv (s :: accepted) self'.
Proof.
  intros Hinv Hs Hno Hadv. assert (seq_ok s) as Hok.
  { unfold already_received in Hno. destruct (add64 _ _) eqn:E; [|done]. apply add64_inv in E as [_ E].
    unfold seq_ok. lia. }
  destruct (already_received_spec accepted self s Hinv Hok) as (b & Hb & Hiff). rewrite Hno in Hb. injection Hb as <-.
  assert (~ replayed accepted (most_recent_sequence self) s) as Hnew by (intros H; apply Hiff in H; done).
  destruct (advance_sequence_spec accepted self s Hinv Hok Hnew) as (self2 & E & Hinv'). rewrite Hadv in E. injection E as <-.
  split; [|done]. intros Hin. apply Hnew. by left.
Qed.

(** ** Use of the window

    As [Packet::decode] uses it: a sequence is checked first, and recorded only
    when the packet turns out to be authentic. *)
Definition replay_step (state : ReplayProtection * list Z) (packet : Z * bool) : out (ReplayProtection * list Z) :=
  let (self, accepted) := state in
  let (sequence, authentic) := packet in
  let! replay := already_received self sequence in
  if replay then Ret state
  else if authentic then
    let! self := advance_sequence self sequence in
    Ret (self, sequence :: accepted)
  else Ret state.

Lemma replay_steps_spec packets : forall self accepted,
  replay_inv accepted self -> NoDup accepted -> Forall (fun p => seq_ok p.1) packets ->
  exists self' accepted', fold_out replay_step (self, accepted) packets = Ret (self', accepted') /\
    replay_inv accepted' self' /\ NoDup accepted' /\
    (forall s, s ∈ accepted' -> s ∈ accepted \/ (s, true) ∈ packets).
Proof.
  induction packets as [|[s authentic] packets IH]; intros self accepted Hinv Hnd Hok.
  { exists self, accepted. split_and!; auto. }
  apply Forall_cons in Hok as [Hs Hok]. cbn [fold_out replay_step].
  destruct (already_received_spec accepted self s Hinv Hs) as (b & -> & Hb). cbn [out_bind].
  assert (forall self' accepted', replay_inv accepted' self' -> NoDup accepted' ->
    (forall x, x ∈ accepted' -> x ∈ accepted \/ x = s /\ authentic = true) ->
    exists self2 accepted2, fold_out replay_step (self', accepted') packets = Ret (self2, accepted2) /\
      replay_inv accepted2 self2 /\ NoDup accepted2 /\
      (forall x, x ∈ accepted2 -> x ∈ accepted \/ (x, true) ∈ (s, authentic) :: packets)) as Hnext.
  { intros self' accepted' Hi Hn Hsub. destruct (IH self' accepted' Hi Hn Hok) as (s2 & a2 & E & ? & ? & Hsub2).
    exists s2, a2. split_and!; try done. intros x [Hx|Hx]%Hsub2; [|right; by right].
    destruct (Hsub x Hx) as [?|[-> ->]]; [by left|]. right. left. }
  destruct b; cbn [out_bind]; [apply Hnext; auto|].
  destruct authentic; cbn [out_bind]; [|apply Hnext; auto].
  assert (~ replayed accepted (most_recent_sequence self) s) as Hnew by (intros H; apply Hb in H; done).
  destruct (advance_sequence_spec accepted self s Hinv Hs Hnew) as (self' & -> & Hinv'). cbn [out_bind].
  apply Hnext; [done| |].
  - constructor; [|done]. intros Hin. apply Hnew. by left.
  - intros x [->|Hx]%elem_of_cons; auto.
Qed.

(** The latest sequence is an accepted one, unless there is none. *)
Lemma replayed_behind accepted self s :
  replay_inv accepted self -> seq_ok s ->
  replayed accepted (most_recent_sequence self) s <-> s ∈ accepted \/ exists x, x ∈ accepted /\ s + NETCODE_REPLAY_BUFFER_SIZE <= x.
Proof.
  intros [_ [Hmax Hin] _ _] [Hs _]. unfold replayed. split; intros [H|H]; auto; right.
  - destruct Hin as [E|Hin]; [|by eexists]. rewrite E in H. unfold NETCODE_REPLAY_BUFFER_SIZE in H. lia.
  - destruct H as (x & Hx & Hle). specialize (Hmax x Hx). lia.
Qed.

(** ** Properties *)

(** C12: The 256 slots implement the set of all sequences ever accepted: after
    any history of packets (whose sequences leave room for the addition of 256),
    no sequence was accepted twice, only authentic ones were, and
    [already_received] answers true exactly for the accepted sequences and those
    that are 256 or more behind an accepted one. *)
Theorem replay_protection_exact packets s :
  Forall (fun p => seq_ok p.1) packets -> seq_ok s ->
  exists self accepted, fold_out replay_step (replay_new, []) packets = Ret (self, accepted) /\
    NoDup accepted /\ (forall x, x ∈ accepted -> (x, true) ∈ packets) /\
    exists b, already_received self s = Ret b /\
      (b = true <-> s ∈ accepted \/ exists x, x ∈ accepted /\ s + NETCODE_REPLAY_BUFFER_SIZE <= x).
Proof.
  intros Hp Hs. destruct (replay_steps_spec packets replay_new [] replay_new_inv (NoDup_nil_2) Hp)
    as (self & accepted & E & Hinv & Hnd & Hsub).
  exists self, accepted. split_and!; [done|done| |].
  - intros x [[]%elem_of_nil|Hx]%Hsub; done.
  - destruct (already_received_spec accepted self s Hinv Hs) as (b & Hb & Hiff). exists b. split; [done|].
    rewrite Hiff. by apply replayed_behind.
Qed.

(** Packets 5, 300, 5 again, 44 (256 behind 300) and a forged 301. *)
Lemma replay_protection_exact_witness :
  exists self, fold_out replay_step (replay_new, []) [(5, true); (300, true); (5, true); (44, true); (301, false)]
    = Ret (self, [300; 5]) /\ already_received self 301 = Ret false.
Proof.
  destruct (replay_protection_exact [(5, true); (300, true); (5, true); (44, true); (301, false)] 301)
    as (self & accepted & E & _ & _ & b & Hb & Hiff).
  - repeat (apply Forall_cons; split; [unfold seq_ok, NETCODE_REPLAY_BUFFER_SIZE, U64_MAX; cbn; lia|]). apply Forall_nil_2.
  - unfold seq_ok, NETCODE_REPLAY_BUFFER_SIZE, U64_MAX. lia.
  - assert ((let! r := fold_out replay_step (replay_new, []) [(5, true); (300, true); (5, true); (44, true); (301, false)] in
      let! b := already_received r.1 301 in Ret (r.2, b)) = Ret ([300; 5], false)) as H by (vm_compute; reflexivity).
    rewrite E in H. cbn [out_bind fst snd] in H. rewrite Hb in H. cbn [out_bind] in H. injection H as -> ->.
    exists self. split; [exact E|exact Hb].
Defined.

(** Near the end of the sequence space the check itself overflows: a packet
    whose sequence is above [u64::MAX - 256] panics before it is authenticated. *)
Theorem replay_check_overflows self s :
  U64_MAX - NETCODE_REPLAY_BUFFER_SIZE < s -> already_received self s = Panic.
Proof.
  intros Hs. unfold already_received, add64. by rewrite (proj2 (Z.leb_gt _ _)) by lia.
Qed.

Lemma replay_check_overflows_witness : already_received replay_new U64_MAX = Panic.
Proof. apply (replay_check_overflows replay_new U64_MAX). vm_compute. reflexivity. Defined.
