(* ===== verification/Token.v ===== *)
(** * Connect tokens (renetcode/src/token.rs)

    Generation, serialization and encryption of the public and the private part
    of a connect token. The bytes drawn from the operating system's random
    generator are arguments. *)

From S2P Require Import Prelude Netcode.

(** ** Data *)

Record ConnectToken := mkConnectToken {
  ct_client_id : Z;
  ct_version_info : Bytes;
  ct_protocol_id : Z;
  ct_create_timestamp : Z;
  ct_expire_timestamp : Z;
  ct_xnonce : Bytes;
  ct_server_addresses : list (option SocketAddr);
  ct_client_to_server_key : Bytes;
  ct_server_to_client_key : Bytes;
  ct_private_data : Bytes;
  ct_timeout_seconds : Z;
}.

Record PrivateConnectToken := mkPrivateToken {
  pt_client_id : Z;
  pt_timeout_seconds : Z;
  pt_server_addresses : list (option SocketAddr);
  pt_client_to_server_key : Bytes;
  pt_server_to_client_key : Bytes;
  pt_user_data : Bytes;
}.

(** What [generate_random_bytes] gives during one generation. *)
Record TokenRandom := mkTokenRandom {
  rnd_client_to_server_key : Bytes;
  rnd_server_to_client_key : Bytes;
  rnd_user_data : Bytes;
  rnd_xnonce : Bytes;
}.

(** ** Server addresses *)

(** The [write_all] calls for one address. *)
Definition host_chunks (host : SocketAddr) : list Bytes :=
  match host with
  | V4 ip port => [le_bytes 1 NETCODE_ADDRESS_IPV4] ++ ((fun i => [i]) <$> ip) ++ [le_bytes 2 port]
  | V6 ip port _ _ => [le_bytes 1 NETCODE_ADDRESS_IPV6] ++ ((fun i => [i]) <$> ip) ++ [le_bytes 2 port]
  end.

(** The addresses that are present ([iter().flatten()]). *)
Definition hosts (server_addresses : list (option SocketAddr)) : list SocketAddr :=
  omap (fun a => a) server_addresses.

Definition write_server_addresses (server_addresses : list (option SocketAddr)) : list Bytes :=
  le_bytes 4 (len (hosts server_addresses)) :: (hosts server_addresses ≫= host_chunks).

(** One turn of the loop of [read_server_addresses]. *)
Definition read_host (src : Bytes) : result (option SocketAddr * Bytes) IoErrorKind :=
  try! (host_type, src) := read_u8 src in
  if host_type =? NETCODE_ADDRESS_IPV4 then
    try! (ip, src) := read_bytes 4 src in
    try! (port, src) := read_u16 src in
    Ok (Some (V4 ip port), src)
  else if host_type =? NETCODE_ADDRESS_IPV6 then
    try! (ip, src) := read_bytes 16 src in
    try! (port, src) := read_u16 src in
    Ok (Some (V6 ip port 0 0), src)
  else if host_type =? NETCODE_ADDRESS_NONE then Ok (None, src)
  else Err InvalidData.

(** The slots of the array, [n] of which are read. *)
Fixpoint read_hosts (slots : nat) (n : Z) (src : Bytes) : result (list (option SocketAddr) * Bytes) IoErrorKind :=
  match slots with
  | O => Ok ([], src)
  | S slots' =>
      if n <=? 0 then Ok (replicate slots None, src)
      else
        try! (host, src) := read_host src in
        try! (rest, src) := read_hosts slots' (n - 1) src in
        Ok (host :: rest, src)
  end.

Definition read_server_addresses (src : Bytes) : result (list (option SocketAddr) * Bytes) IoErrorKind :=
  try! (num_server_addresses, src) := read_u32 src in
  try! (server_addresses, src) := read_hosts 32 num_server_addresses src in
  if bool_decide (server_addresses = []) then Err InvalidData
  else Ok (server_addresses, src).

(** The associated data of the private part. *)
Definition token_additional_data (protocol_id expire_timestamp : Z) : Bytes :=
  NETCODE_VERSION_INFO ++ le_bytes 8 protocol_id ++ le_bytes 8 expire_timestamp.

(** ** The private part *)

(** The loop that fills the array of addresses. *)
Fixpoint place_addresses (arr : list (option SocketAddr)) (i : Z) (addrs : list SocketAddr)
    : out (list (option SocketAddr)) :=
  match addrs with
  | [] => Ret arr
  | addr :: addrs' =>
      let! arr := vec_set arr i (Some addr) in
      place_addresses arr (i + 1) addrs'
  end.

Definition private_generate (rnd : TokenRandom) (client_id timeout_seconds : Z) (server_addresses : list SocketAddr)
    (user_data : option Bytes) : out (result PrivateConnectToken TokenGenerationError) :=
  if 32 <? len server_addresses then Ret (Err MaxHostCount)
  else if bool_decide (server_addresses = []) then Ret (Err NoServerAddressAvailable)
  else
    let! arr := place_addresses (replicate 32 None) 0 server_addresses in
    let user_data := match user_data with Some data => data | None => rnd_user_data rnd end in
    Ret (Ok (mkPrivateToken client_id timeout_seconds arr
               (rnd_client_to_server_key rnd) (rnd_server_to_client_key rnd) user_data)).

Definition private_write (self : PrivateConnectToken) : list Bytes :=
  [le_bytes 8 (pt_client_id self); le_bytes 4 (u32_of_i32 (pt_timeout_seconds self))] ++
  write_server_addresses (pt_server_addresses self) ++
  [pt_client_to_server_key self; pt_server_to_client_key self; pt_user_data self].

Definition private_read (src : Bytes) : result PrivateConnectToken IoErrorKind :=
  try! (client_id, src) := read_u64 src in
  try! (timeout_seconds, src) := read_i32 src in
  try! (server_addresses, src) := read_server_addresses src in
  try! (client_to_server_key, src) := read_bytes 32 src in
  try! (server_to_client_key, src) := read_bytes 32 src in
  try! (user_data, src) := read_bytes 256 src in
  Ok (mkPrivateToken client_id timeout_seconds server_addresses client_to_server_key server_to_client_key user_data).

Section token.
Context {aead : Aead}.

(** [PrivateConnectToken::encode]; the result is the buffer. *)
Definition private_encode (self : PrivateConnectToken) (buffer : Bytes) (protocol_id expire_timestamp : Z)
    (xnonce private_key : Bytes) : out (result Bytes TokenGenerationError) :=
  let aad := token_additional_data protocol_id expire_timestamp in
  let (c, r) := write_chunks (mkCursor buffer 0) (private_write self) in
  match r with
  | Err e => Ret (Err (TokenIoError e))
  | Ok _ =>
      let! r := encrypt_in_place_xnonce (cur_buf c) xnonce private_key aad in
      Ret (map_err (fun _ => TokenCryptoError) r)
  end.

Definition private_decode (buffer : Bytes) (protocol_id expire_timestamp : Z) (xnonce private_key : Bytes)
    : out (result PrivateConnectToken TokenGenerationError) :=
  let aad := token_additional_data protocol_id expire_timestamp in
  let! r := dencrypted_in_place_xnonce buffer xnonce private_key aad in
  match r with
  | Err _ => Ret (Err TokenCryptoError)
  | Ok temp_buffer => Ret (map_err TokenIoError (private_read temp_buffer))
  end.

(** ** The public part *)

(** [ConnectToken::generate]. *)
Definition token_generate (rnd : TokenRandom) (current_time protocol_id expire_seconds client_id timeout_seconds : Z)
    (server_addresses : list SocketAddr) (user_data : option Bytes) (private_key : Bytes)
    : out (result ConnectToken TokenGenerationError) :=
  let! expire_timestamp := add64 (as_secs current_time) expire_seconds in
  let? private := private_generate rnd client_id timeout_seconds server_addresses user_data in
  let? private_data :=
    private_encode private (vec_repeat (byte_of 0) NETCODE_CONNECT_TOKEN_PRIVATE_BYTES)
      protocol_id expire_timestamp (rnd_xnonce rnd) private_key in
  Ret (Ok (mkConnectToken client_id NETCODE_VERSION_INFO protocol_id (as_secs current_time) expire_timestamp
             (rnd_xnonce rnd) (pt_server_addresses private) (pt_client_to_server_key private)
             (pt_server_to_client_key private) private_data timeout_seconds)).

End token.

Definition token_write (self : ConnectToken) : list Bytes :=
  [le_bytes 8 (ct_client_id self); ct_version_info self; le_bytes 8 (ct_protocol_id self);
   le_bytes 8 (ct_create_timestamp self); le_bytes 8 (ct_expire_timestamp self); ct_xnonce self;
   ct_private_data self; le_bytes 4 (u32_of_i32 (ct_timeout_seconds self))] ++
  write_server_addresses (ct_server_addresses self) ++
  [ct_client_to_server_key self; ct_server_to_client_key self].

(** An [io::Error] becomes [NetcodeError::IoError]. *)
Notation "'io!' x ':=' m 'in' k" :=
  (match m with Ok x => k | Err e => Err (IoError e) end)
  (at level 10, x pattern, m at level 200, k at level 200) : rust_scope.

Definition token_read (src : Bytes) : result (ConnectToken * Bytes) NetcodeError :=
  io! (client_id, src) := read_u64 src in
  io! (version_info, src) := read_bytes 13 src in
  if negb (bool_decide (version_info = NETCODE_VERSION_INFO)) then Err InvalidVersion
  else
    io! (protocol_id, src) := read_u64 src in
    io! (create_timestamp, src) := read_u64 src in
    io! (expire_timestamp, src) := read_u64 src in
    io! (xnonce, src) := read_bytes NETCODE_CONNECT_TOKEN_XNONCE_BYTES src in
    io! (private_data, src) := read_bytes NETCODE_CONNECT_TOKEN_PRIVATE_BYTES src in
    io! (timeout_seconds, src) := read_i32 src in
    io! (server_addresses, src) := read_server_addresses src in
    io! (client_to_server_key, src) := read_bytes NETCODE_KEY_BYTES src in
    io! (server_to_client_key, src) := read_bytes NETCODE_KEY_BYTES src in
    Ok (mkConnectToken client_id version_info protocol_id create_timestamp expire_timestamp xnonce
          server_addresses client_to_server_key server_to_client_key private_data timeout_seconds, src).

(** ** Well-formed tokens *)

(** An address as the wire format can carry it: no flow label, no scope. *)
Definition addr_plain (a : SocketAddr) : Prop :=
  match a with
  | V4 ip port => len ip = 4 /\ 0 <= port <= U16_MAX
  | V6 ip port flowinfo scope_id => len ip = 16 /\ 0 <= port <= U16_MAX /\ flowinfo = 0 /\ scope_id = 0
  end.

(** The array of a token: addresses first, then empty slots. *)
Definition addr_array (hs : list SocketAddr) : list (option SocketAddr) :=
  (Some <$> hs) ++ replicate (32 - length hs) None.

Record private_wf (t : PrivateConnectToken) : Prop := {
  pw_id : u64 (pt_client_id t);
  pw_timeout : i32 (pt_timeout_seconds t);
  pw_hosts : exists hs, pt_server_addresses t = addr_array hs /\ len hs <= 32 /\ Forall addr_plain hs;
  pw_keys : len (pt_client_to_server_key t) = 32 /\ len (pt_server_to_client_key t) = 32;
  pw_user_data : len (pt_user_data t) = 256;
}.

Record random_wf (r : TokenRandom) : Prop := {
  rw_keys : len (rnd_client_to_server_key r) = 32 /\ len (rnd_server_to_client_key r) = 32;
  rw_user_data : len (rnd_user_data r) = 256;
  rw_xnonce : len (rnd_xnonce r) = 24;
}.

(** ** Addresses *)

Lemma concat_singletons {A} (l : list A) : concat ((fun i => [i]) <$> l) = l.
Proof. induction l as [|x l IH]; [done|]. cbn. by rewrite IH. Qed.

Lemma concat_host h :
  concat (host_chunks h) =
    match h with
    | V4 ip port => le_bytes 1 NETCODE_ADDRESS_IPV4 ++ ip ++ le_bytes 2 port
    | V6 ip port _ _ => le_bytes 1 NETCODE_ADDRESS_IPV6 ++ ip ++ le_bytes 2 port
    end.
Proof.
  destruct h; unfold host_chunks; rewrite !concat_app, concat_singletons; cbn [concat]; by rewrite !app_nil_r.
Qed.

Lemma len_host h : addr_plain h -> len (concat (host_chunks h)) <= 19.
Proof.
  intros Hh. rewrite concat_host. destruct h; destruct Hh as [Hip _]; rewrite !len_app, !len_le_bytes, Hip; lia.
Qed.

Lemma read_host_app h rest : addr_plain h -> read_host (concat (host_chunks h) ++ rest) = Ok (Some h, rest).
Proof.
  intros Hh. rewrite concat_host. unfold read_host. destruct h as [ip port|ip port f s]; cbn in Hh; rewrite <- !app_assoc.
  - destruct Hh as [Hip Hport]. rewrite read_u8_app by done. cbn [Z.eqb NETCODE_ADDRESS_IPV4].
    rewrite (read_bytes_app 4) by done. by rewrite read_u16_app.
  - destruct Hh as (Hip & Hport & -> & ->). rewrite read_u8_app by done. cbn [Z.eqb NETCODE_ADDRESS_IPV4 NETCODE_ADDRESS_IPV6].
    rewrite (read_bytes_app 16) by done. by rewrite read_u16_app.
Qed.

Lemma concat_hosts_cons h hs rest :
  concat ((h :: hs) ≫= host_chunks) ++ rest = concat (host_chunks h) ++ concat (hs ≫= host_chunks) ++ rest.
Proof. change ((h :: hs) ≫= host_chunks) with (host_chunks h ++ (hs ≫= host_chunks)). by rewrite concat_app, <- app_assoc. Qed.

Lemma len_hosts hs : Forall addr_plain hs -> len (concat (hs ≫= host_chunks)) <= 19 * len hs.
Proof.
  induction 1 as [|h hs Hh _ IH]; [done|]. pose proof (concat_hosts_cons h hs []) as E. rewrite !app_nil_r in E.
  rewrite E, len_app, len_cons. pose proof (len_host h Hh). lia.
Qed.

Lemma read_hosts_app hs : forall slots rest,
  (length hs <= slots)%nat -> Forall addr_plain hs ->
  read_hosts slots (len hs) (concat (hs ≫= host_chunks) ++ rest) =
    Ok ((Some <$> hs) ++ replicate (slots - length hs) None, rest).
Proof.
  induction hs as [|h hs IH]; intros slots rest Hs Hhs.
  { cbn. destruct slots; cbn; [done|]. done. }
  apply Forall_cons in Hhs as [Hh Hhs]. cbn [length] in Hs. destruct slots as [|slots]; [lia|]. cbn [read_hosts].
  pose proof (len_nonneg hs). rewrite len_cons. destruct (Z.leb_spec (1 + len hs) 0); [lia|].
  rewrite concat_hosts_cons, read_host_app by done. replace (1 + len hs - 1) with (len hs) by lia.
  by rewrite IH by (done || lia).
Qed.

Lemma hosts_array hs : hosts (addr_array hs) = hs.
Proof.
  unfold hosts, addr_array. rewrite omap_app.
  assert (forall n, omap (fun a : option SocketAddr => a) (replicate n None) = []) as -> by (induction n; done).
  rewrite app_nil_r. induction hs as [|h hs IH]; [done|]. cbn. f_equal. exact IH.
Qed.

Lemma addr_array_ne hs : addr_array hs <> [].
Proof.
  unfold addr_array. destruct hs as [|h hs]; [done|]. cbn. done.
Qed.

Lemma read_server_addresses_app hs rest :
  len hs <= 32 -> Forall addr_plain hs ->
  read_server_addresses (concat (write_server_addresses (addr_array hs)) ++ rest) = Ok (addr_array hs, rest).
Proof.
  intros Hl Hhs. unfold read_server_addresses, write_server_addresses. rewrite hosts_array, concat_cons, <- app_assoc.
  rewrite read_u32_app by (pose proof (len_nonneg hs); unfold U32_MAX; lia).
  rewrite read_hosts_app by (done || (unfold len in Hl; lia)). change ((Some <$> hs) ++ _) with (addr_array hs).
  rewrite bool_decide_eq_false_2 by apply addr_array_ne. done.
Qed.

Lemma len_server_addresses hs :
  Forall addr_plain hs -> len (concat (write_server_addresses (addr_array hs))) <= 4 + 19 * len hs.
Proof.
  intros Hhs. unfold write_server_addresses. rewrite hosts_array, concat_cons, len_app, len_le_bytes.
  pose proof (len_hosts hs Hhs). lia.
Qed.

(** What is written of an address: not the flow label and the scope of IPv6. *)
Definition addr_written (a : SocketAddr) : SocketAddr :=
  match a with V4 ip port => V4 ip port | V6 ip port _ _ => V6 ip port 0 0 end.

(** An address, with any flow label and scope. *)
Definition addr_wf (a : SocketAddr) : Prop :=
  match a with V4 ip port => len ip = 4 /\ 0 <= port <= U16_MAX | V6 ip port _ _ => len ip = 16 /\ 0 <= port <= U16_MAX end.

Lemma addr_written_plain hs : Forall addr_wf hs -> Forall addr_plain (addr_written <$> hs).
Proof. intros H. apply Forall_fmap. eapply Forall_impl; [exact H|]. intros [ip port|ip port f s]; [done|]. cbn. by intros [? ?]. Qed.

Lemma write_addresses_written hs : write_server_addresses (addr_array hs) = write_server_addresses (addr_array (addr_written <$> hs)).
Proof.
  unfold write_server_addresses. rewrite !hosts_array. f_equal; [unfold len; by rewrite length_fmap|].
  induction hs as [|h hs IH]; [done|]. change ((h :: hs) ≫= host_chunks) with (host_chunks h ++ (hs ≫= host_chunks)). rewrite IH. by destruct h.
Qed.

Lemma place_addresses_spec addrs : forall pre n,
  (length addrs <= n)%nat ->
  place_addresses (pre ++ replicate n None) (len pre) addrs =
    Ret (pre ++ (Some <$> addrs) ++ replicate (n - length addrs) None).
Proof.
  induction addrs as [|a addrs IH]; intros pre n Hn; cbn [place_addresses].
  { by rewrite Nat.sub_0_r. }
  cbn [length] in Hn. destruct n as [|n]; [lia|]. pose proof (len_nonneg pre).
  rewrite vec_set_ok by (rewrite len_app; unfold len; cbn; lia). cbn [out_bind replicate].
  unfold len at 1. rewrite Nat2Z.id, insert_app_r_alt, Nat.sub_diag by lia. cbn [insert list_insert].
  specialize (IH (pre ++ [Some a]) n ltac:(lia)). rewrite len_app, len_cons, len_nil, <- !app_assoc in IH. cbn in IH.
  exact IH.
Qed.

(** ** The private part *)

Lemma private_read_app t rest :
  private_wf t -> private_read (concat (private_write t) ++ rest) = Ok t.
Proof.
  intros [Hid Hto (hs & Hh & Hl & Hhs) [Hk1 Hk2] Hu]. destruct t as [id to addrs k1 k2 ud].
  cbn [pt_client_id pt_timeout_seconds pt_server_addresses pt_client_to_server_key pt_server_to_client_key pt_user_data] in *. subst addrs.
  unfold private_read, private_write. cbn [pt_client_id pt_timeout_seconds pt_server_addresses pt_client_to_server_key pt_server_to_client_key pt_user_data].
  rewrite !concat_app. cbn [concat]. rewrite !app_nil_r, <- !app_assoc.
  rewrite read_u64_app by done. rewrite read_i32_app by done. rewrite read_server_addresses_app by done.
  rewrite (read_bytes_app 32) by done. rewrite (read_bytes_app 32) by done. by rewrite (read_bytes_app 256).
Qed.

(** 944 bytes at most: the 1024 bytes of the buffer leave room for the tag. *)
Lemma len_private_write t : private_wf t -> len (concat (private_write t)) <= 944.
Proof.
  intros [Hid Hto (hs & Hh & Hl & Hhs) [Hk1 Hk2] Hu]. unfold private_write. rewrite Hh.
  rewrite !concat_app. cbn [concat]. rewrite !app_nil_r, !len_app, !len_le_bytes, Hk1, Hk2, Hu.
  pose proof (len_server_addresses hs Hhs). lia.
Qed.

Section private.
Context {aead : Aead} {laws : AeadLaws aead}.

Lemma private_encode_spec t buffer protocol_id expire xnonce key :
  private_wf t -> len buffer = NETCODE_CONNECT_TOKEN_PRIVATE_BYTES ->
  exists data, private_encode t buffer protocol_id expire xnonce key = Ret (Ok data) /\
    len data = NETCODE_CONNECT_TOKEN_PRIVATE_BYTES /\
    private_decode data protocol_id expire xnonce key = Ret (Ok t).
Proof using laws.
  intros Hwf Hb. pose proof (len_private_write t Hwf) as Hw. pose proof (len_nonneg (concat (private_write t))).
  unfold private_encode. rewrite <- written_nil, write_chunks_written by (change (len (@nil byte)) with 0; unfold NETCODE_CONNECT_TOKEN_PRIVATE_BYTES in *; lia).
  cbn [written cur_buf app]. unfold encrypt_in_place_xnonce.
  destruct (encrypt_padded XChaCha20Poly1305 key xnonce (token_additional_data protocol_id expire) (concat (private_write t)) buffer)
    as (data & rest & -> & Hl & Hd).
  { rewrite Hb. unfold NETCODE_MAC_BYTES, NETCODE_CONNECT_TOKEN_PRIVATE_BYTES, NETCODE_MAX_PACKET_BYTES in *. lia. }
  exists data. split_and!; [done|lia|]. unfold private_decode, dencrypted_in_place_xnonce. rewrite Hd. cbn [out_bind].
  by rewrite private_read_app.
Qed.

(** What a successful decryption of the private part means. *)
Lemma private_decode_inv data protocol_id expire xnonce key t :
  private_decode data protocol_id expire xnonce key = Ret (Ok t) ->
  exists plain ct tag, data = ct ++ tag /\
    aead_encrypt XChaCha20Poly1305 key xnonce (token_additional_data protocol_id expire) plain = Some (ct, tag) /\
    private_read (plain ++ tag) = Ok t.
Proof using laws.
  unfold private_decode, dencrypted_in_place_xnonce. intros H.
  destruct (decrypt_buffer _ _ _ _ _) as [[r|]|] eqn:E; cbn [out_bind] in H; try done.
  apply decrypt_buffer_inv in E as (plain & ct & tag & -> & -> & _ & _ & He). exists plain, ct, tag. split_and!; [done|done|].
  destruct (private_read _); by cbn in H; simplify_eq.
Qed.

Lemma private_generate_spec rnd client_id timeout addrs user_data :
  0 < len addrs <= 32 ->
  private_generate rnd client_id timeout addrs user_data =
    Ret (Ok (mkPrivateToken client_id timeout (addr_array addrs) (rnd_client_to_server_key rnd)
               (rnd_server_to_client_key rnd) (default (rnd_user_data rnd) user_data))).
Proof using.
  intros Hl. unfold private_generate. destruct (Z.ltb_spec 32 (len addrs)); [lia|].
  rewrite bool_decide_eq_false_2 by (intros ->; change (len (@nil SocketAddr)) with 0 in Hl; lia).
  pose proof (place_addresses_spec addrs [] 32) as Hp. unfold len in Hl. lapply Hp; [|lia]. clear Hp. intros Hp.
  change (place_addresses (replicate 32 None) 0 addrs = Ret (addr_array addrs)) in Hp. rewrite Hp. cbn [out_bind].
  by destruct user_data.
Qed.

End private.

(** ** Properties *)

Record token_wf (t : ConnectToken) : Prop := {
  tw_ints : u64 (ct_client_id t) /\ u64 (ct_protocol_id t) /\ u64 (ct_create_timestamp t) /\ u64 (ct_expire_timestamp t);
  tw_timeout : i32 (ct_timeout_seconds t);
  tw_version : ct_version_info t = NETCODE_VERSION_INFO;
  tw_xnonce : len (ct_xnonce t) = NETCODE_CONNECT_TOKEN_XNONCE_BYTES;
  tw_private : len (ct_private_data t) = NETCODE_CONNECT_TOKEN_PRIVATE_BYTES;
  tw_hosts : exists hs, ct_server_addresses t = addr_array hs /\ len hs <= 32 /\ Forall addr_plain hs;
  tw_keys : len (ct_client_to_server_key t) = NETCODE_KEY_BYTES /\ len (ct_server_to_client_key t) = NETCODE_KEY_BYTES;
}.

(** A connect token written to a stream is read back as it was. *)
Theorem token_round_trip t rest :
  token_wf t -> token_read (concat (token_write t) ++ rest) = Ok (t, rest).
Proof.
  intros [(H1 & H2 & H3 & H4) Hto Hv Hx Hp (hs & Hh & Hl & Hhs) [Hk1 Hk2]].
  destruct t as [id ver proto create expire xn addrs k1 k2 pd to].
  cbn [ct_client_id ct_version_info ct_protocol_id ct_create_timestamp ct_expire_timestamp ct_xnonce ct_server_addresses
       ct_client_to_server_key ct_server_to_client_key ct_private_data ct_timeout_seconds] in *. subst addrs ver.
  unfold token_read, token_write.
  cbn [ct_client_id ct_version_info ct_protocol_id ct_create_timestamp ct_expire_timestamp ct_xnonce ct_server_addresses
       ct_client_to_server_key ct_server_to_client_key ct_private_data ct_timeout_seconds].
  rewrite !concat_app. cbn [concat]. rewrite !app_nil_r, <- !app_assoc.
  rewrite read_u64_app by done. rewrite (read_bytes_app 13) by done. rewrite bool_decide_eq_true_2 by done. cbn [negb].
  rewrite !read_u64_app by done. do 2 rewrite read_bytes_app by done. rewrite read_i32_app by done.
  rewrite read_server_addresses_app by done. do 2 rewrite read_bytes_app by done. done.
Qed.

Definition sample_addr : SocketAddr := V4 (byte_of <$> [127; 0; 0; 1]) 5000.
Definition sample_random : TokenRandom :=
  mkTokenRandom (replicate 32 (byte_of 1)) (replicate 32 (byte_of 2)) (replicate 256 (byte_of 3)) (replicate 24 (byte_of 4)).

Definition sample_token (timeout : Z) : ConnectToken :=
  mkConnectToken 7 NETCODE_VERSION_INFO 9 10 310 (replicate 24 (byte_of 4)) (addr_array [sample_addr])
    (replicate 32 (byte_of 1)) (replicate 32 (byte_of 2)) (replicate 1024 (byte_of 5)) timeout.

Lemma sample_addr_plain : Forall addr_plain [sample_addr].
Proof. apply Forall_singleton. split; [reflexivity|]. unfold U16_MAX. lia. Qed.

Lemma sample_token_wf timeout : i32 timeout -> token_wf (sample_token timeout).
Proof.
  intros Ht. constructor; try reflexivity; [|done| |split; reflexivity].
  - cbn. unfold u64, U64_MAX. lia.
  - exists [sample_addr]. split; [reflexivity|]. split; [vm_compute; discriminate|apply sample_addr_plain].
Qed.

Lemma token_round_trip_witness : token_read (concat (token_write (sample_token (-1)))) = Ok (sample_token (-1), []).
Proof.
  rewrite <- (app_nil_r (concat (token_write (sample_token (-1))))). apply (token_round_trip (sample_token (-1)) []).
  apply sample_token_wf. unfold i32. lia.
Defined.

Section generate.
Context {aead : Aead} {laws : AeadLaws aead}.

(** C36: [ConnectToken::generate], on every branch: it panics when the expiry
    overflows, refuses more than 32 addresses and none, and otherwise gives a
    token with the given data whose private part the holder of the key, and of the
    protocol id and expiry in the token, decrypts to the client id, timeout, keys
    and user data it was made with, and to the addresses without the flow labels
    and scopes of IPv6, which are not written.  The token is well formed if no
    address has any. *)
Theorem token_generate_complete rnd now protocol_id expire_seconds client_id timeout addrs user_data key :
  random_wf rnd -> 0 <= now -> u64 protocol_id -> u64 client_id -> 0 <= expire_seconds -> i32 timeout ->
  Forall addr_wf addrs -> (forall d, user_data = Some d -> len d = 256) ->
  let r := token_generate rnd now protocol_id expire_seconds client_id timeout addrs user_data key in
  if U64_MAX <? as_secs now + expire_seconds then r = Panic
  else if 32 <? len addrs then r = Ret (Err MaxHostCount)
  else if len addrs =? 0 then r = Ret (Err NoServerAddressAvailable)
  else exists t, r = Ret (Ok t) /\ (addr_written <$> addrs = addrs -> token_wf t) /\
    ct_client_id t = client_id /\ ct_protocol_id t = protocol_id /\ ct_create_timestamp t = as_secs now /\
    ct_expire_timestamp t = as_secs now + expire_seconds /\ ct_timeout_seconds t = timeout /\
    ct_server_addresses t = addr_array addrs /\
    private_decode (ct_private_data t) protocol_id (ct_expire_timestamp t) (ct_xnonce t) key =
      Ret (Ok (mkPrivateToken client_id timeout (addr_array (addr_written <$> addrs)) (ct_client_to_server_key t)
                 (ct_server_to_client_key t) (default (rnd_user_data rnd) user_data))).
Proof using laws.
  intros [[Hk1 Hk2] Hu Hx] Hnow Hp Hid Hexp Hto Haddrs Hud. cbv zeta.
  assert (0 <= as_secs now) as Hsecs by (unfold as_secs, NANOS_PER_SEC; apply Z.div_pos; lia).
  unfold token_generate. destruct (Z.ltb_spec U64_MAX (as_secs now + expire_seconds)) as [Hov|Hfit].
  { unfold add64. by rewrite (proj2 (Z.leb_gt _ _)). }
  rewrite add64_ok by done. cbn [out_bind].
  destruct (Z.ltb_spec 32 (len addrs)) as [Hmax|Hmax].
  { unfold private_generate. by rewrite (proj2 (Z.ltb_lt _ _)). }
  pose proof (len_nonneg addrs). destruct (Z.eqb_spec (len addrs) 0) as [Hz|Hz].
  { destruct addrs; [done|]. rewrite len_cons in Hz. pose proof (len_nonneg addrs). lia. }
  rewrite private_generate_spec by lia. cbn [try_bind].
  set (p := mkPrivateToken client_id timeout (addr_array (addr_written <$> addrs)) (rnd_client_to_server_key rnd) (rnd_server_to_client_key rnd)
              (default (rnd_user_data rnd) user_data)).
  match goal with |- context [private_encode ?q] => assert (forall b i e x k, private_encode q b i e x k = private_encode p b i e x k) as -> end.
  { intros. unfold private_encode, private_write. cbn [p pt_client_id pt_timeout_seconds pt_server_addresses pt_client_to_server_key pt_server_to_client_key pt_user_data]. by rewrite (write_addresses_written addrs). }
  apply addr_written_plain in Haddrs. assert (private_wf p) as Hwf.
  { constructor; cbn; try done; [exists (addr_written <$> addrs); unfold len; by rewrite length_fmap|]. destruct user_data as [d|]; [by apply Hud|done]. }
  destruct (private_encode_spec p (vec_repeat (byte_of 0) NETCODE_CONNECT_TOKEN_PRIVATE_BYTES) protocol_id
    (as_secs now + expire_seconds) (rnd_xnonce rnd) key Hwf) as (data & -> & Hdata & Hdec); [done|].
  cbn [try_bind]. eexists. split; [done|]. split_and!; cbn; try done.
  intros Ha. rewrite Ha in Haddrs. constructor; cbn; try done; [unfold u64 in *; lia|]. by exists addrs.
Qed.

End generate.

(** A link-local IPv6 address, whose interface is part of the address. *)
Definition link_local : SocketAddr := V6 (byte_of <$> [254; 128; 0; 0; 0; 0; 0; 0; 0; 0; 0; 0; 0; 0; 0; 1]) 5000 0 3.

(** A token for two servers, one of them link-local: its address loses the scope. *)
Lemma token_generate_complete_witness :
  exists t, token_generate sample_random 0 9 300 7 15 [sample_addr; link_local] None (replicate 32 (byte_of 0)) = Ret (Ok t) /\
    private_decode (ct_private_data t) 9 300 (ct_xnonce t) (replicate 32 (byte_of 0)) =
      Ret (Ok (mkPrivateToken 7 15 (addr_array [sample_addr; addr_written link_local]) (ct_client_to_server_key t)
                 (ct_server_to_client_key t) (replicate 256 (byte_of 3)))).
Proof.
  destruct (token_generate_complete sample_random 0 9 300 7 15 [sample_addr; link_local] None (replicate 32 (byte_of 0)))
    as (t & E & _ & _ & _ & _ & He & _ & _ & Hd).
  - constructor; [split; reflexivity|reflexivity|reflexivity].
  - lia.
  - unfold u64, U64_MAX. lia.
  - unfold u64, U64_MAX. lia.
  - lia.
  - unfold i32. lia.
  - repeat (apply Forall_cons; split; [split; [reflexivity|unfold U16_MAX; lia]|]). apply Forall_nil_2.
  - discriminate.
  - exists t. split; [exact E|]. rewrite He in Hd. exact Hd.
Defined.

(** Neither the scope nor the flow label of an IPv6 address is written: such an
    address comes back as a different one. *)
Example token_drops_ipv6_scope :
  read_server_addresses (concat (write_server_addresses (addr_array [link_local]))) =
    Ok (addr_array [V6 (byte_of <$> [254; 128; 0; 0; 0; 0; 0; 0; 0; 0; 0; 0; 0; 0; 0; 1]) 5000 0 0], []) /\
  addr_array [link_local] <> addr_array [V6 (byte_of <$> [254; 128; 0; 0; 0; 0; 0; 0; 0; 0; 0; 0; 0; 0; 0; 1]) 5000 0 0].
Proof. split; [vm_compute; reflexivity|discriminate]. Qed.
