(* ===== verification/NetPacket.v ===== *)
(** * Netcode packets (renetcode/src/packet.rs)

    The packets of the netcode protocol, their encrypted wire format and the
    challenge tokens. *)

From S2P Require Import Prelude Netcode ReplayProtection Token.

(** ** Data *)

Inductive PacketType :=
  | TConnectionRequest | TConnectionDenied | TChallenge | TResponse | TKeepAlive | TPayload | TDisconnect.

Inductive NetPacket :=
  | ConnectionRequest (version_info : Bytes) (protocol_id expire_timestamp : Z) (xnonce data : Bytes)
  | ConnectionDenied
  | Challenge (token_sequence : Z) (token_data : Bytes)
  | Response (token_sequence : Z) (token_data : Bytes)
  | KeepAlive (client_index max_clients : Z)
  | Payload (payload : Bytes)
  | Disconnect.

Record ChallengeToken := mkChallengeToken {
  ch_client_id : Z;
  ch_user_data : Bytes;
}.

(** [PacketType::from_u8]. *)
Definition type_from_u8 (value : Z) : result PacketType NetcodeError :=
  match value with
  | 0 => Ok TConnectionRequest
  | 1 => Ok TConnectionDenied
  | 2 => Ok TChallenge
  | 3 => Ok TResponse
  | 4 => Ok TKeepAlive
  | 5 => Ok TPayload
  | 6 => Ok TDisconnect
  | _ => Err InvalidPacketType
  end.

Definition apply_replay_protection (t : PacketType) : bool :=
  match t with TKeepAlive | TPayload | TDisconnect => true | _ => false end.

Definition packet_type (p : NetPacket) : PacketType :=
  match p with
  | ConnectionRequest _ _ _ _ _ => TConnectionRequest
  | ConnectionDenied => TConnectionDenied
  | Challenge _ _ => TChallenge
  | Response _ _ => TResponse
  | KeepAlive _ _ => TKeepAlive
  | Payload _ => TPayload
  | Disconnect => TDisconnect
  end.

(** [self.packet_type() as u8]. *)
Definition packet_id (p : NetPacket) : Z :=
  match packet_type p with
  | TConnectionRequest => 0
  | TConnectionDenied => 1
  | TChallenge => 2
  | TResponse => 3
  | TKeepAlive => 4
  | TPayload => 5
  | TDisconnect => 6
  end.

Definition connection_request_from_token (connect_token : ConnectToken) : NetPacket :=
  ConnectionRequest NETCODE_VERSION_INFO (ct_protocol_id connect_token) (ct_expire_timestamp connect_token)
    (ct_xnonce connect_token) (ct_private_data connect_token).

(** ** Prefix byte and sequence *)

(** The loop of [sequence_bytes_required], [left] being [8 - i]. *)
Fixpoint sequence_bytes_loop (left : nat) (mask sequence : Z) : Z :=
  match left with
  | O => 0
  | S left' =>
      if Z.land sequence mask =? 0 then sequence_bytes_loop left' (Z.shiftr mask 8) sequence
      else Z.of_nat left
  end.

Definition sequence_bytes_required (sequence : Z) : Z :=
  sequence_bytes_loop 8 18374686479671623680 sequence.

Definition encode_prefix (value sequence : Z) : Z :=
  Z.lor value (Z.shiftl (sequence_bytes_required sequence) 4 mod 256).

Definition decode_prefix (value : Z) : Z * Z := (Z.land value 15, Z.shiftr value 4).

(** [write_sequence] calls [write], not [write_all]. *)
Definition write_sequence (c : cursor) (seq : Z) : cursor :=
  cur_write c (take (Z.to_nat (sequence_bytes_required seq)) (le_bytes 8 seq)).

(** [seq_scratch[0..n]] panics when [n] is above 8. *)
Definition read_sequence (src : Bytes) (n : Z) : out (result (Z * Bytes) IoErrorKind) :=
  if 8 <? n then Panic
  else
    Ret (try! (b, src) := read_bytes n src in
         Ok (le_val (b ++ replicate (Z.to_nat (8 - n)) (byte_of 0)), src)).

(** The associated data of a packet. *)
Definition packet_additional_data (prefix protocol_id : Z) : Bytes :=
  NETCODE_VERSION_INFO ++ le_bytes 8 protocol_id ++ [byte_of prefix].

(** ** Bodies *)

(** The [write_all] calls of [Packet::write]. *)
Definition packet_write (p : NetPacket) : list Bytes :=
  match p with
  | ConnectionRequest version_info protocol_id expire_timestamp xnonce data =>
      [version_info; le_bytes 8 protocol_id; le_bytes 8 expire_timestamp; xnonce; data]
  | Challenge token_sequence token_data | Response token_sequence token_data =>
      [le_bytes 8 token_sequence; token_data]
  | KeepAlive client_index max_clients => [le_bytes 4 client_index; le_bytes 4 max_clients]
  | Payload payload => [payload]
  | ConnectionDenied | Disconnect => []
  end.

Definition packet_read (t : PacketType) (src : Bytes) : result NetPacket IoErrorKind :=
  match t with
  | TPayload => Ok (Payload src)
  | TConnectionRequest =>
      try! (version_info, src) := read_bytes 13 src in
      try! (protocol_id, src) := read_u64 src in
      try! (expire_timestamp, src) := read_u64 src in
      try! (xnonce, src) := read_bytes NETCODE_CONNECT_TOKEN_XNONCE_BYTES src in
      try! (token_data, src) := read_bytes NETCODE_CONNECT_TOKEN_PRIVATE_BYTES src in
      Ok (ConnectionRequest version_info protocol_id expire_timestamp xnonce token_data)
  | TChallenge =>
      try! (token_sequence, src) := read_u64 src in
      try! (token_data, src) := read_bytes NETCODE_CHALLENGE_TOKEN_BYTES src in
      Ok (Challenge token_sequence token_data)
  | TResponse =>
      try! (token_sequence, src) := read_u64 src in
      try! (token_data, src) := read_bytes NETCODE_CHALLENGE_TOKEN_BYTES src in
      Ok (Response token_sequence token_data)
  | TKeepAlive =>
      try! (client_index, src) := read_u32 src in
      try! (max_clients, src) := read_u32 src in
      Ok (KeepAlive client_index max_clients)
  | TConnectionDenied => Ok ConnectionDenied
  | TDisconnect => Ok Disconnect
  end.

Definition is_connection_request (t : PacketType) : bool :=
  match t with TConnectionRequest => true | _ => false end.

Section codec.
Context {aead : Aead}.

(** ** [Packet::encode]

    The buffer after the call, and the number of bytes of it that are the packet. *)

(** The branch of encrypted packets. *)
Definition net_encode_sealed (p : NetPacket) (buffer : Bytes) (protocol_id sequence : Z) (private_key : Bytes)
    : out (Bytes * result Z NetcodeError) :=
  let prefix_byte := encode_prefix (packet_id p) sequence in
  let (w, r) := cur_write_all (mkCursor buffer 0) [byte_of prefix_byte] in
  match r with
  | Err e => Ret (cur_buf w, Err (IoError e))
  | Ok _ =>
      let w := write_sequence w sequence in
      let start := cur_pos w in
      let (w, r) := write_chunks w (packet_write p) in
      match r with
      | Err e => Ret (cur_buf w, Err (IoError e))
      | Ok _ =>
          let aad := packet_additional_data prefix_byte protocol_id in
          let end_ := cur_pos w in
          let buffer := cur_buf w in
          if len buffer <? end_ + NETCODE_MAC_BYTES then Ret (buffer, Err (IoError WriteZero))
          else
            let! body := sub_slice buffer start (end_ + NETCODE_MAC_BYTES) in
            let! r := encrypt_in_place body sequence private_key aad in
            match r with
            | Err _ => Ret (buffer, Err CryptoError)
            | Ok body =>
                let! buffer := copy_range buffer start (end_ + NETCODE_MAC_BYTES) body in
                Ret (buffer, Ok (end_ + NETCODE_MAC_BYTES))
            end
      end
  end.

Definition is_request (p : NetPacket) : bool := match p with ConnectionRequest _ _ _ _ _ => true | _ => false end.

Definition net_encode (p : NetPacket) (buffer : Bytes) (protocol_id : Z) (crypto_info : option (Z * Bytes))
    : out (Bytes * result Z NetcodeError) :=
  if is_request p then
    let prefix_byte := encode_prefix (packet_id p) 0 in
    let (w, r) := write_chunks (mkCursor buffer 0) ([byte_of prefix_byte] :: packet_write p) in
    match r with
    | Err e => Ret (cur_buf w, Err (IoError e))
    | Ok _ => Ret (cur_buf w, Ok (cur_pos w))
    end
  else
    match crypto_info with
    | Some (sequence, private_key) => net_encode_sealed p buffer protocol_id sequence private_key
    | None => Ret (buffer, Err UnavailablePrivateKey)
    end.

(** ** [Packet::decode]

    The replay protection after the call is part of the result. *)
Definition net_decode (buffer : Bytes) (protocol_id : Z) (private_key : option Bytes)
    (replay_protection : option ReplayProtection)
    : out (option ReplayProtection * result (Z * NetPacket) NetcodeError) :=
  if len buffer <? 2 + NETCODE_MAC_BYTES then Ret (replay_protection, Err PacketTooSmall)
  else
    let! prefix := vec_get buffer 0 in
    let prefix_byte := byte_val prefix in
    let (t, sequence_len) := decode_prefix prefix_byte in
    match type_from_u8 t with
    | Err e => Ret (replay_protection, Err e)
    | Ok t =>
        if is_connection_request t then
          Ret (replay_protection,
               match packet_read TConnectionRequest (drop 1 buffer) with
               | Ok p => Ok (0, p)
               | Err e => Err (IoError e)
               end)
        else
        match private_key with
        | None => Ret (replay_protection, Err UnavailablePrivateKey)
        | Some private_key =>
            let! r := read_sequence (drop 1 buffer) sequence_len in
            match r with
            | Err e => Ret (replay_protection, Err (IoError e))
            | Ok (sequence, body) =>
                let aad := packet_additional_data prefix_byte protocol_id in
                let! replay :=
                  match replay_protection with
                  | Some rp => if apply_replay_protection t then already_received rp sequence else Ret false
                  | None => Ret false
                  end in
                if replay then Ret (replay_protection, Err DuplicatedSequence)
                else
                  let! r := dencrypted_in_place body sequence private_key aad in
                  match r with
                  | Err _ => Ret (replay_protection, Err CryptoError)
                  | Ok body =>
                      let! replay_protection :=
                        match replay_protection with
                        | Some rp =>
                            if apply_replay_protection t then
                              let! rp := advance_sequence rp sequence in
                              Ret (Some rp)
                            else Ret (Some rp)
                        | None => Ret None
                        end in
                      let! end_ := sub64 (len body) NETCODE_MAC_BYTES in
                      Ret (replay_protection,
                           match packet_read t (take (Z.to_nat end_) body) with
                           | Ok p => Ok (sequence, p)
                           | Err e => Err (IoError e)
                           end)
                  end
            end
        end
    end.

(** ** Challenge tokens *)

Definition challenge_read (src : Bytes) : result ChallengeToken IoErrorKind :=
  try! (client_id, src) := read_u64 src in
  try! (user_data, src) := read_bytes NETCODE_USER_DATA_BYTES src in
  Ok (mkChallengeToken client_id user_data).

Definition challenge_write (self : ChallengeToken) : list Bytes :=
  [le_bytes 8 (ch_client_id self); ch_user_data self].

(** [ChallengeToken::decode]. *)
Definition challenge_decode (token_data : Bytes) (token_sequence : Z) (challenge_key : Bytes)
    : out (result ChallengeToken NetcodeError) :=
  let! r := dencrypted_in_place token_data token_sequence challenge_key [] in
  match r with
  | Err _ => Ret (Err CryptoError)
  | Ok decoded => Ret (map_err IoError (challenge_read decoded))
  end.

(** [Packet::generate_challenge]. *)
Definition generate_challenge (client_id : Z) (user_data : Bytes) (challenge_sequence : Z) (challenge_key : Bytes)
    : out (result NetPacket NetcodeError) :=
  let token := mkChallengeToken client_id user_data in
  let buffer := vec_repeat (byte_of 0) NETCODE_CHALLENGE_TOKEN_BYTES in
  let (w, r) := write_chunks (mkCursor buffer 0) (challenge_write token) in
  match r with
  | Err e => Ret (Err (IoError e))
  | Ok _ =>
      let! r := encrypt_in_place (cur_buf w) challenge_sequence challenge_key [] in
      match r with
      | Err _ => Ret (Err CryptoError)
      | Ok buffer => Ret (Ok (Challenge challenge_sequence buffer))
      end
  end.

End codec.

(** ** Sequences and prefixes *)

Lemma land_byte s k : 0 <= k -> Z.land s (255 * 2 ^ (8 * k)) = (s / 2 ^ (8 * k)) mod 256 * 2 ^ (8 * k).
Proof.
  intros Hk. rewrite <- (Z.shiftl_mul_pow2 255) by lia. rewrite <- (Z.shiftl_mul_pow2 _ (8 * k)) by lia.
  change 256 with (2 ^ 8). rewrite <- Z.land_ones, <- Z.shiftr_div_pow2 by lia. change (Z.ones 8) with 255.
  apply Z.bits_inj'. intros i Hi. rewrite Z.land_spec. rewrite !Z.shiftl_spec by lia. rewrite Z.land_spec.
  destruct (Z.le_gt_cases (8 * k) i).
  - rewrite Z.shiftr_spec by lia. by replace (i - 8 * k + 8 * k) with i by lia.
  - rewrite (Z.testbit_neg_r 255) by lia. by rewrite !andb_false_r.
Qed.

Lemma sequence_bytes_loop_spec left : forall mask s,
  mask = 255 * 2 ^ (8 * (Z.of_nat left - 1)) \/ left = 0%nat -> 0 <= s < 256 ^ Z.of_nat left ->
  let n := sequence_bytes_loop left mask s in
  0 <= n <= Z.of_nat left /\ s < 256 ^ n /\ (n = 0 \/ 256 ^ (n - 1) <= s).
Proof.
  induction left as [|left IH]; intros mask s Hmask Hs; cbv zeta; cbn [sequence_bytes_loop].
  { lia. }
  destruct Hmask as [->|]; [|done]. replace (Z.of_nat (S left) - 1) with (Z.of_nat left) in * by lia.
  assert (256 ^ Z.of_nat left = 2 ^ (8 * Z.of_nat left)) as Hpow by (change 256 with (2 ^ 8); rewrite <- Z.pow_mul_r by lia; done).
  pose proof (Z.pow_pos_nonneg 2 (8 * Z.of_nat left) ltac:(lia) ltac:(lia)).
  rewrite Nat2Z.inj_succ, Z.pow_succ_r, Hpow in Hs by lia. rewrite land_byte by lia.
  rewrite Z.mod_small by (split; [apply Z.div_pos; lia|apply Z.div_lt_upper_bound; lia]).
  destruct (Z.eqb_spec (s / 2 ^ (8 * Z.of_nat left) * 2 ^ (8 * Z.of_nat left)) 0) as [Hz|Hnz].
  - assert (s < 256 ^ Z.of_nat left) as Hlt.
    { rewrite Hpow. apply Z.mul_eq_0_l in Hz; [|lia]. pose proof (Z.div_mod s (2 ^ (8 * Z.of_nat left)) ltac:(lia)).
      pose proof (Z.mod_pos_bound s (2 ^ (8 * Z.of_nat left)) ltac:(lia)). lia. }
    destruct (IH (Z.shiftr (255 * 2 ^ (8 * Z.of_nat left)) 8) s) as (Hn & Hb & Hm); [|lia|split_and!; [lia|lia|done..]].
    destruct left as [|left]; [by right|left]. rewrite Z.shiftr_div_pow2 by lia.
    replace (8 * Z.of_nat (S left)) with (8 * (Z.of_nat (S left) - 1) + 8) by lia. rewrite Z.pow_add_r by lia.
    by rewrite Z.mul_assoc, Z.div_mul.
  - split_and!; [lia|lia|rewrite Nat2Z.inj_succ, Z.pow_succ_r, Hpow by lia; lia|right].
    replace (Z.of_nat (S left) - 1) with (Z.of_nat left) by lia. rewrite Hpow.
    destruct (Z.le_gt_cases (2 ^ (8 * Z.of_nat left)) s); [done|]. rewrite Z.div_small in Hnz by lia. lia.
Qed.

(** [sequence_bytes_required] is the least number of bytes that holds the sequence. *)
Lemma sequence_bytes_spec s :
  u64 s -> let n := sequence_bytes_required s in
  0 <= n <= 8 /\ s < 256 ^ n /\ (n = 0 \/ 256 ^ (n - 1) <= s).
Proof.
  intros Hs. apply (sequence_bytes_loop_spec 8); [by left|]. unfold u64, U64_MAX in Hs. cbn. lia.
Qed.

Lemma prefix_round_trip v s : 0 <= v <= 6 -> u64 s ->
  0 <= encode_prefix v s <= 255 /\ decode_prefix (encode_prefix v s) = (v, sequence_bytes_required s).
Proof.
  intros Hv Hs. unfold encode_prefix. destruct (sequence_bytes_spec s Hs) as [Hn _].
  set (n := sequence_bytes_required s) in *. clearbody n.
  assert (v = 0 \/ v = 1 \/ v = 2 \/ v = 3 \/ v = 4 \/ v = 5 \/ v = 6) as Hvs by lia.
  assert (n = 0 \/ n = 1 \/ n = 2 \/ n = 3 \/ n = 4 \/ n = 5 \/ n = 6 \/ n = 7 \/ n = 8) as Hns by lia.
  repeat destruct Hvs as [->|Hvs]; subst; repeat destruct Hns as [->|Hns]; subst;
    (split; [vm_compute; split; discriminate|vm_compute; reflexivity]).
Qed.

Lemma take_le_bytes n m s : (n <= m)%nat -> take n (le_bytes m s) = le_bytes n s.
Proof.
  revert m s. induction n as [|n IH]; intros m s Hm; [done|]. destruct m as [|m]; [lia|].
  change (le_bytes (S m) s) with (byte_of (s mod 256) :: le_bytes m (s / 256)). cbn [take]. rewrite IH by lia. done.
Qed.

Lemma le_val_zeros bs n : le_val (bs ++ replicate n (byte_of 0)) = le_val bs.
Proof.
  induction bs as [|b bs IH].
  - induction n as [|n IH]; [done|]. cbn [app replicate] in *.
    change (le_val (byte_of 0 :: replicate n (byte_of 0))) with (byte_val (byte_of 0) + 256 * le_val (replicate n (byte_of 0))).
    rewrite IH. done.
  - change (le_val ((b :: bs) ++ replicate n (byte_of 0))) with (byte_val b + 256 * le_val (bs ++ replicate n (byte_of 0))).
    rewrite IH. done.
Qed.

(** The bytes of a sequence on the wire. *)
Definition sequence_bytes (s : Z) : Bytes := le_bytes (Z.to_nat (sequence_bytes_required s)) s.

Lemma len_sequence_bytes s : u64 s -> len (sequence_bytes s) = sequence_bytes_required s.
Proof. intros Hs. unfold sequence_bytes. rewrite len_le_bytes. destruct (sequence_bytes_spec s Hs). lia. Qed.

Lemma read_sequence_app s rest :
  u64 s -> read_sequence (sequence_bytes s ++ rest) (sequence_bytes_required s) = Ret (Ok (s, rest)).
Proof.
  intros Hs. destruct (sequence_bytes_spec s Hs) as ([Hn0 Hn8] & Hlt & _). unfold read_sequence.
  destruct (Z.ltb_spec 8 (sequence_bytes_required s)); [lia|]. rewrite read_bytes_app by (by apply len_sequence_bytes).
  rewrite le_val_zeros. unfold sequence_bytes. rewrite le_val_bytes; [done|]. unfold u64 in Hs. rewrite Z2Nat.id by lia. lia.
Qed.

Lemma packet_id_range p : 0 <= packet_id p <= 6.
Proof. destruct p; cbn; lia. Qed.

Lemma type_from_id p : type_from_u8 (packet_id p) = Ok (packet_type p).
Proof. by destruct p. Qed.

(** ** Bodies *)

Definition packet_wf (p : NetPacket) : Prop :=
  match p with
  | ConnectionRequest version_info protocol_id expire_timestamp xnonce data =>
      len version_info = 13 /\ u64 protocol_id /\ u64 expire_timestamp /\
      len xnonce = NETCODE_CONNECT_TOKEN_XNONCE_BYTES /\ len data = NETCODE_CONNECT_TOKEN_PRIVATE_BYTES
  | Challenge token_sequence token_data | Response token_sequence token_data =>
      u64 token_sequence /\ len token_data = NETCODE_CHALLENGE_TOKEN_BYTES
  | KeepAlive client_index max_clients => 0 <= client_index <= U32_MAX /\ 0 <= max_clients <= U32_MAX
  | Payload payload => len payload <= NETCODE_MAX_PAYLOAD_BYTES
  | ConnectionDenied | Disconnect => True
  end.

Lemma packet_read_write p : packet_wf p -> packet_read (packet_type p) (concat (packet_write p)) = Ok p.
Proof.
  destruct p as [v pid ex xn data| |ts td|ts td|ci mc|pl|]; intros Hwf; cbn [packet_type packet_write concat packet_read]; try done.
  - destruct Hwf as (Hv & Hp & He & Hx & Hd). rewrite (read_bytes_app 13) by done. rewrite !read_u64_app by done.
    rewrite read_bytes_app by done. by rewrite read_bytes_app.
  - destruct Hwf as [Hs Hd]. rewrite read_u64_app by done. by rewrite read_bytes_app.
  - destruct Hwf as [Hs Hd]. rewrite read_u64_app by done. by rewrite read_bytes_app.
  - destruct Hwf as [Hc Hm]. rewrite read_u32_app by done. by rewrite read_u32_app.
  - by rewrite app_nil_r.
Qed.

Lemma len_packet_write p : packet_wf p -> len (concat (packet_write p)) <= NETCODE_MAX_PAYLOAD_BYTES.
Proof.
  unfold packet_wf, NETCODE_CONNECT_TOKEN_XNONCE_BYTES, NETCODE_CONNECT_TOKEN_PRIVATE_BYTES, NETCODE_CHALLENGE_TOKEN_BYTES,
    NETCODE_MAX_PAYLOAD_BYTES.
  destruct p as [v pid ex xn data| |ts td|ts td|ci mc|pl|]; intros Hwf; cbn [packet_write concat];
    rewrite ?app_nil_r, ?len_app, ?len_le_bytes; change (len (@nil byte)) with 0; lia.
Qed.

(** ** The wire format of encrypted packets *)

Section wire.
Context {aead : Aead} {laws : AeadLaws aead}.

(** The ciphertext and tag of a body under the key, the sequence and the prefix. *)
Definition sealed (body : Bytes) (prefix protocol_id sequence : Z) (key : Bytes) : option (Bytes * Bytes) :=
  aead_encrypt ChaCha20Poly1305 key (nonce_of sequence) (packet_additional_data prefix protocol_id) body.

Definition wire (p : NetPacket) (protocol_id sequence : Z) (key : Bytes) : option Bytes :=
  let prefix := encode_prefix (packet_id p) sequence in
  '(ct, tag) ← sealed (concat (packet_write p)) prefix protocol_id sequence key;
  Some (byte_of prefix :: sequence_bytes sequence ++ ct ++ tag).

Lemma net_encode_spec p buffer protocol_id sequence key :
  is_request p = false -> packet_wf p -> u64 sequence -> NETCODE_MAX_PACKET_BYTES <= len buffer ->
  exists buffer' w, net_encode p buffer protocol_id (Some (sequence, key)) = Ret (buffer', Ok (len w)) /\
    wire p protocol_id sequence key = Some w /\ take (Z.to_nat (len w)) buffer' = w /\ len buffer' = len buffer /\
    len w = 1 + sequence_bytes_required sequence + len (concat (packet_write p)) + 16.
Proof using laws.
  intros Hreq Hwf Hs Hbuf. set (prefix := encode_prefix (packet_id p) sequence).
  unfold net_encode, net_encode_sealed. rewrite Hreq. cbv zeta. fold prefix.
  destruct (sequence_bytes_spec sequence Hs) as [Hn _]. pose proof (len_sequence_bytes sequence Hs) as Hsl.
  pose proof (len_packet_write p Hwf) as Hpl. unfold NETCODE_MAX_PACKET_BYTES, NETCODE_MAX_PAYLOAD_BYTES in *.
  rewrite <- written_nil, cur_write_all_written by (rewrite len_single; change (len (@nil byte)) with 0; lia). cbn [app].
  unfold write_sequence. rewrite take_le_bytes by lia. change (le_bytes _ sequence) with (sequence_bytes sequence).
  rewrite cur_write_written by (rewrite len_single; lia). cbv zeta.
  set (head := [byte_of prefix] ++ sequence_bytes sequence). set (body := concat (packet_write p)) in *.
  assert (len head = 1 + sequence_bytes_required sequence) as Hh by (unfold head; rewrite len_app, Hsl; done).
  rewrite write_chunks_written by (fold body; lia). fold body. rewrite len_written by (rewrite len_app; lia).
  cbn [cur_pos written cur_buf]. rewrite len_app. pose proof (len_nonneg body).
  destruct (Z.ltb_spec (len buffer) (len head + len body + NETCODE_MAC_BYTES)) as [?|Hfit]; [unfold NETCODE_MAC_BYTES in *; lia|].
  unfold NETCODE_MAC_BYTES in Hfit.
  set (tail := drop (length (head ++ body)) buffer).
  assert (len tail = len buffer - len head - len body) as Htail.
  { unfold tail, len. rewrite length_drop, length_app. unfold len in *. lia. }
  assert ((head ++ body) ++ tail = head ++ (body ++ take 16 tail) ++ drop 16 tail) as Hsplit.
  { by rewrite <- !app_assoc, (take_drop 16 tail). }
  rewrite Hsplit.
  assert (len (take 16 tail) = 16) as Ht16 by (unfold len in *; rewrite length_take; lia).
  pose proof (len_nonneg head) as Hh0. pose proof (len_nonneg (drop 16 tail)) as Hd0.
  rewrite sub_slice_ok by (unfold NETCODE_MAC_BYTES; rewrite ?len_app; lia).
  cbn [out_bind]. rewrite drop_app_length' by (unfold len; lia).
  rewrite take_app_length' by (rewrite length_app; unfold NETCODE_MAC_BYTES, len in *; lia).
  destruct (encrypt_buffer_ok ChaCha20Poly1305 key (nonce_of sequence) (packet_additional_data prefix protocol_id) body (take 16 tail))
    as (ct & tag & Hseal & Hct & Htag & Henc).
  { done. } { unfold NETCODE_MAX_PACKET_BYTES. lia. }
  unfold encrypt_in_place. rewrite Henc. cbn [out_bind]. unfold NETCODE_MAC_BYTES in *.
  rewrite copy_range_ok by (rewrite ?len_app; lia).
  cbn [out_bind]. eexists _, (head ++ ct ++ tag). split; [|split; [|split; [|split]]].
  - repeat f_equal. rewrite !len_app. lia.
  - unfold wire, sealed. fold prefix body. by rewrite Hseal.
  - rewrite (take_len_app head), (app_assoc head (ct ++ tag)). apply take_len_app.
  - rewrite (take_len_app head), !len_app, len_drop, !len_app, Hct, Htag by (rewrite !len_app; lia). change (drop 16 tail) with (drop (Z.to_nat 16) tail). rewrite len_drop by lia. lia.
  - rewrite !len_app, Hct, Htag, Hh. lia.
Qed.

(** Whatever happens, the buffer keeps its size. *)
Lemma net_encode_len p buffer protocol_id crypto buffer' r :
  net_encode p buffer protocol_id crypto = Ret (buffer', r) -> len buffer' = len buffer.
Proof using.
  assert (forall c c' chunks r0, 0 <= cur_pos c <= len (cur_buf c) -> write_chunks c chunks = (c', r0) ->
    len (cur_buf c) = len buffer -> len (cur_buf c') = len buffer /\ 0 <= cur_pos c' <= len (cur_buf c')) as Hw.
  { intros c c' chunks r0 Hc E Hl. destruct (write_chunks_len chunks c c' r0 Hc E). lia. }
  assert (0 <= cur_pos (mkCursor buffer 0) <= len (cur_buf (mkCursor buffer 0))) as H0 by (cbn; pose proof (len_nonneg buffer); lia).
  unfold net_encode. destruct (is_request p).
  { destruct (write_chunks _ _) as [w [?|]] eqn:E; intros; simplify_eq; by eapply Hw. }
  destruct crypto as [[sequence key]|]; [|by intros; simplify_eq]. unfold net_encode_sealed. set (prefix := encode_prefix _ _). cbv zeta. intros H'.
  unfold cur_write_all in H'. destruct (cur_write_len _ [byte_of prefix] H0) as [Hl1 Hp1].
  set (w1 := cur_write _ _) in *. destruct (_ <? _); [by simplify_eq|]. unfold write_sequence in H'.
  assert (0 <= cur_pos w1 <= len (cur_buf w1)) as H1 by (cbn [cur_pos cur_buf] in Hl1, Hp1; lia). cbn [cur_buf] in Hl1.
  destruct (cur_write_len w1 (take (Z.to_nat (sequence_bytes_required sequence)) (le_bytes 8 sequence)) H1) as [Hl2 Hp2].
  set (w2 := cur_write w1 _) in *. clearbody w2.
  destruct (write_chunks w2 (packet_write p)) as [w3 r3] eqn:E. apply Hw in E; [|lia..].
  destruct E as [Hl3 Hp3]. destruct r3; [|by simplify_eq].
  destruct (_ <? _); [by simplify_eq|]. destruct (sub_slice _ _ _) as [body|]; [|done]. cbn [out_bind] in H'.
  destruct (encrypt_in_place _ _ _ _) as [[body'|]|]; cbn [out_bind] in H'; [|by simplify_eq|done].
  unfold copy_range in H'. destruct (Z.leb_spec 0 (cur_pos w2)); [|done]. destruct (Z.leb_spec (cur_pos w2) (cur_pos w3 + NETCODE_MAC_BYTES)); [|done].
  destruct (Z.leb_spec (cur_pos w3 + NETCODE_MAC_BYTES) (len (cur_buf w3))); [|done].
  destruct (Z.eqb_spec (len body') (cur_pos w3 + NETCODE_MAC_BYTES - cur_pos w2)) as [Hb|]; [|done]. cbn [andb out_bind] in H'.
  injection H' as <- _. unfold NETCODE_MAC_BYTES in *. rewrite !len_app, Hb, len_drop, len_take by lia. lia.
Qed.

Lemma net_encode_request p buffer protocol_id crypto :
  is_request p = true -> packet_wf p -> NETCODE_MAX_PACKET_BYTES <= len buffer ->
  exists buffer', net_encode p buffer protocol_id crypto = Ret (buffer', Ok 1078) /\
    take 1078 buffer' = byte_of 0 :: concat (packet_write p) /\ len buffer' = len buffer.
Proof using.
  intros Hreq Hwf Hbuf. destruct p as [v pid ex xn data| | | | | |]; try done.
  assert (len (concat (packet_write (ConnectionRequest v pid ex xn data))) = 1077) as Hl.
  { destruct Hwf as (Hv & _ & _ & Hx & Hd). cbn [packet_write concat]. rewrite app_nil_r, !len_app, !len_le_bytes, Hv, Hx, Hd. done. }
  unfold net_encode. cbn [is_request]. cbv zeta. change (encode_prefix _ 0) with 0. unfold NETCODE_MAX_PACKET_BYTES in Hbuf.
  set (chunks := [byte_of 0] :: packet_write (ConnectionRequest v pid ex xn data)).
  assert (len (concat chunks) = 1078) as Hc by (unfold chunks; cbn [concat]; rewrite len_app, Hl; done).
  rewrite <- written_nil, write_chunks_written by (change (len (@nil byte)) with 0; lia).
  cbn [app written cur_buf cur_pos]. rewrite Hc. eexists. split; [done|]. split.
  - rewrite take_app_length' by (unfold len in Hc; lia). done.
  - rewrite len_app. replace (length (concat chunks)) with (Z.to_nat 1078) by (unfold len in Hc; lia).
    rewrite len_drop by lia. lia.
Qed.

(** The replay check of [net_decode]. *)
Definition replay_check (rp : option ReplayProtection) (t : PacketType) (sequence : Z) : out bool :=
  match rp with
  | Some rp => if apply_replay_protection t then already_received rp sequence else Ret false
  | None => Ret false
  end.

Definition replay_advance (rp : option ReplayProtection) (t : PacketType) (sequence : Z) : out (option ReplayProtection) :=
  match rp with
  | Some rp =>
      if apply_replay_protection t then
        let! rp := advance_sequence rp sequence in
        Ret (Some rp)
      else Ret (Some rp)
  | None => Ret None
  end.

Lemma vec_get_head {A} (x : A) l : vec_get (x :: l) 0 = Ret x.
Proof using. apply vec_get_ok; [lia|done]. Qed.

Lemma drop_one {A} (x : A) l : drop 1 (x :: l) = l.
Proof using. done. Qed.

(** Decoding of what encoding produced. *)
Lemma net_decode_wire p protocol_id sequence key rp w :
  is_request p = false -> packet_wf p -> u64 sequence -> wire p protocol_id sequence key = Some w -> 18 <= len w ->
  net_decode w protocol_id (Some key) rp =
    let! dup := replay_check rp (packet_type p) sequence in
    if dup then Ret (rp, Err DuplicatedSequence)
    else
      let! rp := replay_advance rp (packet_type p) sequence in
      Ret (rp, Ok (sequence, p)).
Proof using laws.
  intros Hreq Hwf Hs Hw Hlen. unfold wire, sealed in Hw. destruct (aead_encrypt _ _ _ _ _) as [[ct tag]|] eqn:E; [|done].
  cbn [mbind option_bind] in Hw. injection Hw as <-. destruct (encrypt_len _ _ _ _ _ _ _ E) as [Hct Htag].
  set (prefix := encode_prefix (packet_id p) sequence) in *. unfold net_decode.
  destruct (Z.ltb_spec (len (byte_of prefix :: sequence_bytes sequence ++ ct ++ tag)) (2 + NETCODE_MAC_BYTES)) as [Hx|_];
    [unfold NETCODE_MAC_BYTES in Hx; lia|].
  rewrite vec_get_head. cbn [out_bind].
  destruct (prefix_round_trip (packet_id p) sequence (packet_id_range p) Hs) as [Hrange Hpre]. fold prefix in Hrange, Hpre.
  rewrite byte_val_of by done. rewrite Hpre, type_from_id.
  assert (is_connection_request (packet_type p) = false) as -> by (by destruct p). rewrite drop_one. rewrite read_sequence_app by done. cbn [out_bind]. fold (replay_check rp (packet_type p) sequence).
  destruct (replay_check rp (packet_type p) sequence) as [[]|]; cbn [out_bind]; [done| |done].
  unfold dencrypted_in_place. rewrite decrypt_buffer_app, (decrypt_encrypt _ _ _ _ _ _ _ E) by done. cbn [out_bind].
  fold (replay_advance rp (packet_type p) sequence).
  destruct (replay_advance rp (packet_type p) sequence) as [rp'|]; cbn [out_bind]; [|done].
  rewrite len_app, Htag. pose proof (len_nonneg (concat (packet_write p))). rewrite sub64_ok by (unfold NETCODE_MAC_BYTES; lia).
  cbn [out_bind]. rewrite Z.add_simpl_r, take_len_app. by rewrite packet_read_write.
Qed.

Lemma net_decode_request p protocol_id key rp :
  is_request p = true -> packet_wf p ->
  net_decode (byte_of 0 :: concat (packet_write p)) protocol_id key rp = Ret (rp, Ok (0, p)).
Proof using.
  intros Hreq Hwf. destruct p as [v pid ex xn data| | | | | |]; try done. unfold net_decode.
  assert (len (concat (packet_write (ConnectionRequest v pid ex xn data))) = 1077) as Hl.
  { destruct Hwf as (Hv & _ & _ & Hx & Hd). cbn [packet_write concat]. rewrite app_nil_r, !len_app, !len_le_bytes, Hv, Hx, Hd. done. }
  rewrite len_cons, Hl. cbn [Z.ltb Z.compare Z.add]. rewrite vec_get_head. cbn [out_bind].
  change (decode_prefix _) with (0, 0). cbn [type_from_u8 is_connection_request]. rewrite drop_one.
  pose proof (packet_read_write _ Hwf) as Hr. cbn [packet_type] in Hr. by rewrite Hr.
Qed.

Lemma type_from_u8_read t src p : packet_read t src = Ok p -> packet_type p = t.
Proof using.
  destruct t; cbn [packet_read]; intros H;
    repeat match type of H with context [match ?m with Ok _ => _ | Err _ => _ end] => destruct m as [[? ?]|]; [|discriminate H] end;
    by injection H as <-.
Qed.

(** The buffer is a prefix, a sequence and the encryption of the packet's body
    under the key, the sequence, the protocol and the prefix. *)
Definition is_sealed (buffer : Bytes) (protocol_id : Z) (key : Bytes) (sequence : Z) (p : NetPacket) : Prop :=
  exists prefix seq_bytes ct tag plain,
    buffer = prefix :: seq_bytes ++ ct ++ tag /\ len seq_bytes <= 8 /\ sequence = le_val seq_bytes /\
    sealed plain (byte_val prefix) protocol_id sequence key = Some (ct, tag) /\
    packet_read (packet_type p) plain = Ok p.

(** An accepted encrypted packet: moreover the sequence was not a replay, and is recorded. *)
Record authentic (buffer : Bytes) (protocol_id : Z) (key : Bytes) (rp rp' : option ReplayProtection)
    (sequence : Z) (p : NetPacket) : Prop := {
  au_seal : is_sealed buffer protocol_id key sequence p;
  au_fresh : replay_check rp (packet_type p) sequence = Ret false;
  au_advance : replay_advance rp (packet_type p) sequence = Ret rp';
}.

Lemma net_decode_inv buffer protocol_id key rp rp' sequence p :
  net_decode buffer protocol_id key rp = Ret (rp', Ok (sequence, p)) ->
  (is_request p = true /\ sequence = 0 /\ rp' = rp /\ packet_read TConnectionRequest (drop 1 buffer) = Ok p) \/
  (is_request p = false /\ exists k, key = Some k /\ authentic buffer protocol_id k rp rp' sequence p).
Proof using laws.
  unfold net_decode. destruct (_ <? _); [done|]. destruct buffer as [|x buffer]; [done|].
  rewrite vec_get_head, drop_one. cbn [out_bind]. destruct (decode_prefix (byte_val x)) as [ty n] eqn:Hpre.
  destruct (type_from_u8 ty) as [t|]; [|done]. destruct (is_connection_request t) eqn:Ht.
  { destruct (packet_read TConnectionRequest buffer) as [q|] eqn:E; intros H; simplify_eq. left. split_and!; try done.
    apply type_from_u8_read in E. by destruct p. }
  destruct key as [k|]; [|done]. unfold read_sequence. destruct (Z.ltb_spec 8 n); [done|]. cbn [out_bind].
  unfold read_bytes. destruct (Z.ltb_spec (len buffer) n); [done|].
  set (s := le_val _). fold (replay_check rp t s). destruct (replay_check rp t s) as [[]|] eqn:Hcheck; cbn [out_bind]; try done.
  unfold dencrypted_in_place. destruct (decrypt_buffer _ _ _ _ _) as [[r|]|] eqn:E; cbn [out_bind]; try done.
  apply decrypt_buffer_inv in E as (plain & ct & tag & -> & Hbuf & Htag & Hct & Henc).
  fold (replay_advance rp t s). destruct (replay_advance rp t s) as [rp1|] eqn:Hadv; cbn [out_bind]; [|done].
  rewrite len_app, Htag. pose proof (len_nonneg plain). rewrite sub64_ok by (unfold NETCODE_MAC_BYTES; lia).
  cbn [out_bind]. rewrite Z.add_simpl_r, take_len_app. destruct (packet_read t plain) as [q|] eqn:Hr; [|done].
  intros [= <- <- <-]. right. pose proof (type_from_u8_read _ _ _ Hr) as Hq. split; [by destruct q; subst|]. exists k. split; [done|].
  rewrite <- Hq in *. constructor; [|exact Hcheck|exact Hadv].
  exists x, (take (Z.to_nat n) buffer), ct, tag, plain. rewrite <- Hbuf, take_drop. split_and!; [done| | |exact Henc|exact Hr].
  - unfold len. rewrite length_take. lia.
  - subst s. by rewrite le_val_zeros.
Qed.

(** What decoding does to the replay protection, whatever its result. *)
Definition replay_good (rp : ReplayProtection) : Prop := exists accepted, replay_inv accepted rp.

Lemma net_decode_accepts acc buffer protocol_id key rp o r :
  net_decode buffer protocol_id key (Some rp) = Ret (o, r) -> replay_inv acc rp ->
  exists rp', o = Some rp' /\ (rp' = rp \/ exists s, (s ∉ acc) /\ replay_inv (s :: acc) rp').
Proof using.
  intros H Hinv. assert (exists rp', Some rp = Some rp' /\ (rp' = rp \/ exists s, (s ∉ acc) /\ replay_inv (s :: acc) rp')) as Hsame
    by (exists rp; split; [done|by left]).
  unfold net_decode in H. destruct (_ <? _); [by simplify_eq|]. destruct (vec_get buffer 0) as [x|]; [|done]. cbn [out_bind] in H.
  destruct (decode_prefix _) as [ty n]. destruct (type_from_u8 ty) as [t|]; [|by simplify_eq].
  destruct (is_connection_request t); [by simplify_eq|]. destruct key as [k|]; [|by simplify_eq].
  unfold read_sequence in H. destruct (8 <? n); [done|]. cbn [out_bind] in H.
  destruct (read_bytes n (drop 1 buffer)) as [[b rest]|]; [|by simplify_eq].
  set (s := le_val _) in H. destruct (if apply_replay_protection t then _ else _) as [[]|] eqn:Hc; cbn [out_bind] in H; [by simplify_eq| |done].
  destruct (dencrypted_in_place _ _ _ _) as [[body|]|]; cbn [out_bind] in H; [|by simplify_eq|done].
  destruct (apply_replay_protection t).
  - destruct (advance_sequence rp s) as [rp'|] eqn:Hadv; cbn [out_bind] in H; [|done].
    destruct (sub64 _ _); cbn [out_bind] in H; [|done]. injection H as <- _. exists rp'. split; [done|].
    right. exists s. eapply replay_accept; [done| |done|done]. apply le_val_range.
  - destruct (sub64 _ _); cbn [out_bind] in H; [|done]. by injection H as <- _.
Qed.

Lemma net_decode_replay buffer protocol_id key rp o r :
  net_decode buffer protocol_id key (Some rp) = Ret (o, r) -> replay_good rp ->
  exists rp', o = Some rp' /\ replay_good rp'.
Proof using.
  intros H [acc Hinv]. destruct (net_decode_accepts acc _ _ _ _ _ _ H Hinv) as (rp' & -> & [->|(s & _ & Hs)]);
    eexists; (split; [done|]); by eexists.
Qed.

Definition replay_valid (rp : option ReplayProtection) : Prop :=
  match rp with Some r => len (received_packet r) = NETCODE_REPLAY_BUFFER_SIZE | None => True end.

Lemma replay_advance_total rp t s : replay_valid rp -> exists rp', replay_advance rp t s = Ret rp'.
Proof using.
  destruct rp as [r|]; cbn; [|by eexists]. intros Hr. destruct (apply_replay_protection t); [|by eexists].
  unfold advance_sequence. rewrite vec_set_ok by (rewrite Hr; apply seq_mod_range). by eexists.
Qed.

(** The sequence that [net_decode] reads, before anything is authenticated. *)
Definition claimed_sequence (buffer : Bytes) : Z :=
  match buffer with
  | [] => 0
  | x :: rest => le_val (take (Z.to_nat (Z.shiftr (byte_val x) 4)) rest)
  end.

Lemma decode_prefix_range x : 0 <= Z.shiftr (byte_val x) 4 <= 15.
Proof using. pose proof (byte_val_range x). rewrite Z.shiftr_div_pow2 by lia. Z.div_mod_to_equations. lia. Qed.

(** ** Challenge tokens *)

Lemma generate_challenge_spec client_id user_data sequence key :
  u64 client_id -> len user_data = NETCODE_USER_DATA_BYTES ->
  exists data, generate_challenge client_id user_data sequence key = Ret (Ok (Challenge sequence data)) /\
    len data = NETCODE_CHALLENGE_TOKEN_BYTES /\
    challenge_decode data sequence key = Ret (Ok (mkChallengeToken client_id user_data)).
Proof using laws.
  intros Hid Hud. unfold generate_challenge. set (chunks := challenge_write _). set (buffer := vec_repeat _ _).
  assert (len (concat chunks) = 264) as Hc.
  { unfold chunks, challenge_write. cbn [concat ch_client_id ch_user_data]. rewrite app_nil_r, len_app, len_le_bytes, Hud. done. }
  assert (len buffer = 300) as Hb by (unfold buffer, len, vec_repeat; rewrite length_replicate; done).
  rewrite <- written_nil, write_chunks_written by (change (len (@nil byte)) with 0; lia).
  cbn [written cur_buf app]. unfold encrypt_in_place.
  destruct (encrypt_padded ChaCha20Poly1305 key (nonce_of sequence) [] (concat chunks) buffer) as (data & rest & -> & Hl & Hd).
  { rewrite Hb, Hc. unfold NETCODE_MAC_BYTES, NETCODE_MAX_PACKET_BYTES. lia. }
  exists data. split_and!; [done|done|]. unfold challenge_decode, dencrypted_in_place. rewrite Hd. cbn [out_bind].
  unfold chunks, challenge_write. cbn [concat ch_client_id ch_user_data]. rewrite app_nil_r, <- app_assoc.
  unfold challenge_read. rewrite read_u64_app by done. by rewrite read_bytes_app.
Qed.

End wire.

(** ** Properties *)

(** C18: Encrypted packets survive the trip: whatever the 1400 byte buffer held,
    encoding a well-formed packet under a sequence and a key fills the start of
    it with a datagram that, if it has the 18 bytes a packet must have, decodes
    under the same key and protocol to the same sequence and packet, unless the
    receiver's replay protection refuses the sequence. *)
Theorem net_packet_round_trip {aead : Aead} {laws : AeadLaws aead} p buffer protocol_id sequence key rp :
  is_request p = false -> packet_wf p -> u64 sequence -> len buffer = NETCODE_MAX_PACKET_BYTES ->
  exists buffer' n, net_encode p buffer protocol_id (Some (sequence, key)) = Ret (buffer', Ok n) /\
    n = 1 + sequence_bytes_required sequence + len (concat (packet_write p)) + NETCODE_MAC_BYTES /\
    (18 <= n ->
     net_decode (take (Z.to_nat n) buffer') protocol_id (Some key) rp =
       let! dup := replay_check rp (packet_type p) sequence in
       if dup then Ret (rp, Err DuplicatedSequence)
       else
         let! rp := replay_advance rp (packet_type p) sequence in
         Ret (rp, Ok (sequence, p))).
Proof.
  intros Hreq Hwf Hs Hb. destruct (net_encode_spec p buffer protocol_id sequence key) as (b & w & E & Hw & Ht & _ & Hlen); try done; [lia|].
  exists b, (len w). split_and!; [done|done|]. intros H18. rewrite Ht. by apply net_decode_wire.
Qed.

Definition sample_key : Bytes := replicate 32 (byte_of 9).

Lemma net_packet_round_trip_witness :
  exists buffer' , net_encode (Payload [byte_of 1; byte_of 2]) (replicate 1400 (byte_of 0)) 7 (Some (1000, sample_key))
      = Ret (buffer', Ok 21) /\
    (let! r := net_decode (take 21 buffer') 7 (Some sample_key) (Some replay_new) in Ret r.2)
      = Ret (Ok (1000, Payload [byte_of 1; byte_of 2])).
Proof.
  destruct (net_packet_round_trip (Payload [byte_of 1; byte_of 2]) (replicate 1400 (byte_of 0)) 7 1000 sample_key (Some replay_new))
    as (buffer' & n & E & Hn & H).
  - reflexivity.
  - vm_compute. discriminate.
  - unfold u64, U64_MAX. lia.
  - reflexivity.
  - assert (n = 21) as -> by (rewrite Hn; vm_compute; reflexivity). exists buffer'. split; [exact E|].
    change 21%nat with (Z.to_nat 21). rewrite H by lia. vm_compute. reflexivity.
Defined.

(** A packet that decodes with a key is either a connection request (which
    is not encrypted) or authentic: its sequence passed the replay check and was
    recorded, and the buffer is exactly a prefix, a sequence, and the encryption,
    under that key and bound to the protocol id, the prefix and the sequence, of
    a body that parses to the packet. *)
Theorem net_decode_authentic {aead : Aead} {laws : AeadLaws aead} buffer protocol_id key rp rp' sequence p :
  net_decode buffer protocol_id (Some key) rp = Ret (rp', Ok (sequence, p)) ->
  if is_request p then rp' = rp /\ packet_read TConnectionRequest (drop 1 buffer) = Ok p
  else authentic buffer protocol_id key rp rp' sequence p.
Proof.
  intros [(-> & _ & -> & H)|(-> & k & [= <-] & H)]%net_decode_inv; done.
Qed.

(** A disconnect packet under sequence 300. *)
Definition sample_disconnect : Bytes :=
  match net_encode Disconnect (replicate 1400 (byte_of 0)) 7 (Some (300, sample_key)) with
  | Ret (b, Ok n) => take (Z.to_nat n) b
  | _ => []
  end.

Lemma net_decode_authentic_witness :
  exists rp', authentic sample_disconnect 7 sample_key (Some replay_new) rp' 300 Disconnect.
Proof.
  destruct (net_decode sample_disconnect 7 (Some sample_key) (Some replay_new)) as [[rp' r]|] eqn:E.
  - assert (r = Ok (300, Disconnect)) as ->.
    { assert ((let! r := net_decode sample_disconnect 7 (Some sample_key) (Some replay_new) in Ret r.2) = Ret (Ok (300, Disconnect))) as H
        by (vm_compute; reflexivity). rewrite E in H. injection H as H. exact H. }
    exists rp'. exact (net_decode_authentic sample_disconnect 7 sample_key (Some replay_new) rp' 300 Disconnect E).
  - exfalso. assert (is_ret (net_decode sample_disconnect 7 (Some sample_key) (Some replay_new)) = true) as H by (vm_compute; reflexivity).
    rewrite E in H. discriminate H.
Defined.

(** Exactly which buffers make [Packet::decode] panic, before any
    authentication: those that announce more than 8 bytes of sequence, those
    whose sequence overflows the replay check, and those too short to hold the
    announced sequence and a 16 byte tag (but at least 18 bytes long). *)
Theorem net_decode_panic_iff {aead : Aead} buffer protocol_id key rp x rest t :
  buffer = x :: rest -> replay_valid rp -> 18 <= len buffer ->
  type_from_u8 (Z.land (byte_val x) 15) = Ok t -> t <> TConnectionRequest ->
  let n := Z.shiftr (byte_val x) 4 in
  net_decode buffer protocol_id (Some key) rp = Panic <->
    8 < n \/ replay_check rp t (claimed_sequence buffer) = Panic \/
    (replay_check rp t (claimed_sequence buffer) = Ret false /\ len buffer < 1 + n + NETCODE_MAC_BYTES).
Proof.
  intros -> Hrp Hlen Ht Hreq n. unfold claimed_sequence. fold n. unfold net_decode. rewrite vec_get_head, drop_one.
  destruct (Z.ltb_spec (len (x :: rest)) (2 + NETCODE_MAC_BYTES)) as [Hs|_]; [unfold NETCODE_MAC_BYTES in Hs; lia|].
  cbn [out_bind]. unfold decode_prefix. fold n. rewrite Ht. assert (is_connection_request t = false) as -> by (by destruct t).
  pose proof (decode_prefix_range x) as Hn. fold n in Hn. rewrite len_cons in *. unfold NETCODE_MAC_BYTES in *.
  unfold read_sequence. destruct (Z.ltb_spec 8 n) as [H8|H8]; cbn [out_bind]; [split; [by left|done]|].
  unfold read_bytes. destruct (Z.ltb_spec (len rest) n) as [?|_]; [lia|]. rewrite le_val_zeros.
  set (s := le_val _). fold (replay_check rp t s). destruct (replay_check rp t s) as [[]|] eqn:Hcheck; cbn [out_bind].
  - split; [done|]. intros [?|[?|[? ?]]]; [lia|done..].
  - unfold dencrypted_in_place, decrypt_buffer. rewrite len_drop by lia. unfold sub64 at 1. unfold NETCODE_MAC_BYTES.
    destruct (Z.leb_spec 16 (len rest - n)) as [Hfit|Hshort]; cbn [out_bind]; [|split; [right; right; split; [done|lia]|done]].
    destruct (aead_decrypt _ _ _ _ _ _) as [plain|]; cbn [out_bind].
    + fold (replay_advance rp t s). destruct (replay_advance_total rp t s Hrp) as [rp' ->]. cbn [out_bind].
      rewrite len_app, len_drop, len_drop by (rewrite ?len_drop; lia). pose proof (len_nonneg plain). rewrite sub64_ok by lia.
      split; [done|]. intros [?|[?|[? ?]]]; [lia|done|lia].
    + split; [done|]. intros [?|[?|[? ?]]]; [lia|done|lia].
  - split; [by right; left|done].
Qed.

(** A payload packet that announces 15 bytes of sequence, and one that announces 8 in 18 bytes. *)
Lemma net_decode_panic_iff_witness :
  net_decode (replicate 18 (byte_of 245)) 0 (Some sample_key) None = Panic /\
  net_decode (replicate 18 (byte_of 133)) 0 (Some sample_key) None = Panic.
Proof.
  split.
  - apply (net_decode_panic_iff (replicate 18 (byte_of 245)) 0 sample_key None (byte_of 245) (replicate 17 (byte_of 245)) TPayload).
    + reflexivity.
    + exact I.
    + vm_compute. discriminate.
    + reflexivity.
    + discriminate.
    + left. vm_compute. reflexivity.
  - apply (net_decode_panic_iff (replicate 18 (byte_of 133)) 0 sample_key None (byte_of 133) (replicate 17 (byte_of 133)) TPayload).
    + reflexivity.
    + exact I.
    + vm_compute. discriminate.
    + reflexivity.
    + discriminate.
    + right. right. split; [reflexivity|vm_compute; reflexivity].
Defined.

(** A packet without a body under sequence 0 is encoded in 17 bytes (no byte is
    written for a zero sequence), which [Packet::decode] refuses as too small. *)
Example empty_packet_at_sequence_zero :
  match net_encode ConnectionDenied (replicate 1400 (byte_of 0)) 7 (Some (0, sample_key)) with
  | Ret (b, Ok n) => n = 17 /\ net_decode (take (Z.to_nat n) b) 7 (Some sample_key) None = Ret (None, Err PacketTooSmall)
  | _ => False
  end.
Proof. vm_compute. split; reflexivity. Qed.
