(* ===== verification/NetClient.v ===== *)
(** * The netcode client (renetcode/src/client.rs)

    [NetcodeClient]: the connection state machine of the client, with every
    operation of the file. *)

From S2P Require Import Prelude Netcode ReplayProtection Token NetPacket.

(** ** State *)

Inductive ClientState :=
  | CDisconnected (reason : NetDisconnectReason)
  | SendingConnectionRequest
  | SendingConnectionResponse
  | CConnected.

Inductive ClientAuthentication :=
  | ClientSecure (connect_token : ConnectToken)
  | ClientUnsecure (protocol_id client_id : Z) (server_addr : SocketAddr) (user_data : option Bytes).

Record NetcodeClient := mkNetClient {
  nc_state : ClientState;
  nc_client_id : Z;
  nc_connect_start_time : Z;
  nc_last_packet_send_time : option Z;
  nc_last_packet_received_time : Z;
  nc_current_time : Z;
  nc_sequence : Z;
  nc_server_addr : SocketAddr;
  nc_server_addr_index : Z;
  nc_connect_token : ConnectToken;
  nc_challenge_token_sequence : Z;
  nc_challenge_token_data : Bytes;
  nc_max_clients : Z;
  nc_client_index : Z;
  nc_send_rate : Z;
  nc_replay_protection : ReplayProtection;
  nc_out : Bytes;
}.

Definition nc_set_state (c : NetcodeClient) (x : ClientState) : NetcodeClient :=
  mkNetClient x (nc_client_id c) (nc_connect_start_time c) (nc_last_packet_send_time c) (nc_last_packet_received_time c)
    (nc_current_time c) (nc_sequence c) (nc_server_addr c) (nc_server_addr_index c) (nc_connect_token c)
    (nc_challenge_token_sequence c) (nc_challenge_token_data c) (nc_max_clients c) (nc_client_index c) (nc_send_rate c)
    (nc_replay_protection c) (nc_out c).
Definition nc_set_connect_start (c : NetcodeClient) (x : Z) : NetcodeClient :=
  mkNetClient (nc_state c) (nc_client_id c) x (nc_last_packet_send_time c) (nc_last_packet_received_time c)
    (nc_current_time c) (nc_sequence c) (nc_server_addr c) (nc_server_addr_index c) (nc_connect_token c)
    (nc_challenge_token_sequence c) (nc_challenge_token_data c) (nc_max_clients c) (nc_client_index c) (nc_send_rate c)
    (nc_replay_protection c) (nc_out c).
Definition nc_set_last_send (c : NetcodeClient) (x : option Z) : NetcodeClient :=
  mkNetClient (nc_state c) (nc_client_id c) (nc_connect_start_time c) x (nc_last_packet_received_time c)
    (nc_current_time c) (nc_sequence c) (nc_server_addr c) (nc_server_addr_index c) (nc_connect_token c)
    (nc_challenge_token_sequence c) (nc_challenge_token_data c) (nc_max_clients c) (nc_client_index c) (nc_send_rate c)
    (nc_replay_protection c) (nc_out c).
Definition nc_set_last_received (c : NetcodeClient) (x : Z) : NetcodeClient :=
  mkNetClient (nc_state c) (nc_client_id c) (nc_connect_start_time c) (nc_last_packet_send_time c) x
    (nc_current_time c) (nc_sequence c) (nc_server_addr c) (nc_server_addr_index c) (nc_connect_token c)
    (nc_challenge_token_sequence c) (nc_challenge_token_data c) (nc_max_clients c) (nc_client_index c) (nc_send_rate c)
    (nc_replay_protection c) (nc_out c).
Definition nc_set_time (c : NetcodeClient) (x : Z) : NetcodeClient :=
  mkNetClient (nc_state c) (nc_client_id c) (nc_connect_start_time c) (nc_last_packet_send_time c) (nc_last_packet_received_time c)
    x (nc_sequence c) (nc_server_addr c) (nc_server_addr_index c) (nc_connect_token c)
    (nc_challenge_token_sequence c) (nc_challenge_token_data c) (nc_max_clients c) (nc_client_index c) (nc_send_rate c)
    (nc_replay_protection c) (nc_out c).
Definition nc_set_sequence (c : NetcodeClient) (x : Z) : NetcodeClient :=
  mkNetClient (nc_state c) (nc_client_id c) (nc_connect_start_time c) (nc_last_packet_send_time c) (nc_last_packet_received_time c)
    (nc_current_time c) x (nc_server_addr c) (nc_server_addr_index c) (nc_connect_token c)
    (nc_challenge_token_sequence c) (nc_challenge_token_data c) (nc_max_clients c) (nc_client_index c) (nc_send_rate c)
    (nc_replay_protection c) (nc_out c).
Definition nc_set_server (c : NetcodeClient) (addr : SocketAddr) (index : Z) : NetcodeClient :=
  mkNetClient (nc_state c) (nc_client_id c) (nc_connect_start_time c) (nc_last_packet_send_time c) (nc_last_packet_received_time c)
    (nc_current_time c) (nc_sequence c) addr index (nc_connect_token c)
    (nc_challenge_token_sequence c) (nc_challenge_token_data c) (nc_max_clients c) (nc_client_index c) (nc_send_rate c)
    (nc_replay_protection c) (nc_out c).
Definition nc_set_challenge (c : NetcodeClient) (sequence : Z) (data : Bytes) : NetcodeClient :=
  mkNetClient (nc_state c) (nc_client_id c) (nc_connect_start_time c) (nc_last_packet_send_time c) (nc_last_packet_received_time c)
    (nc_current_time c) (nc_sequence c) (nc_server_addr c) (nc_server_addr_index c) (nc_connect_token c)
    sequence data (nc_max_clients c) (nc_client_index c) (nc_send_rate c)
    (nc_replay_protection c) (nc_out c).
Definition nc_set_slot (c : NetcodeClient) (max_clients client_index : Z) : NetcodeClient :=
  mkNetClient (nc_state c) (nc_client_id c) (nc_connect_start_time c) (nc_last_packet_send_time c) (nc_last_packet_received_time c)
    (nc_current_time c) (nc_sequence c) (nc_server_addr c) (nc_server_addr_index c) (nc_connect_token c)
    (nc_challenge_token_sequence c) (nc_challenge_token_data c) max_clients client_index (nc_send_rate c)
    (nc_replay_protection c) (nc_out c).
Definition nc_set_replay (c : NetcodeClient) (x : ReplayProtection) : NetcodeClient :=
  mkNetClient (nc_state c) (nc_client_id c) (nc_connect_start_time c) (nc_last_packet_send_time c) (nc_last_packet_received_time c)
    (nc_current_time c) (nc_sequence c) (nc_server_addr c) (nc_server_addr_index c) (nc_connect_token c)
    (nc_challenge_token_sequence c) (nc_challenge_token_data c) (nc_max_clients c) (nc_client_index c) (nc_send_rate c)
    x (nc_out c).
Definition nc_set_out (c : NetcodeClient) (x : Bytes) : NetcodeClient :=
  mkNetClient (nc_state c) (nc_client_id c) (nc_connect_start_time c) (nc_last_packet_send_time c) (nc_last_packet_received_time c)
    (nc_current_time c) (nc_sequence c) (nc_server_addr c) (nc_server_addr_index c) (nc_connect_token c)
    (nc_challenge_token_sequence c) (nc_challenge_token_data c) (nc_max_clients c) (nc_client_index c) (nc_send_rate c)
    (nc_replay_protection c) x.

(** ** Observers *)

Definition nc_is_connecting (c : NetcodeClient) : bool :=
  match nc_state c with SendingConnectionRequest | SendingConnectionResponse => true | _ => false end.

Definition nc_is_connected (c : NetcodeClient) : bool :=
  match nc_state c with CConnected => true | _ => false end.

Definition nc_is_disconnected (c : NetcodeClient) : bool :=
  match nc_state c with CDisconnected _ => true | _ => false end.

Definition nc_disconnect_reason (c : NetcodeClient) : option NetDisconnectReason :=
  match nc_state c with CDisconnected reason => Some reason | _ => None end.

Definition nc_time_since_last_received_packet (c : NetcodeClient) : out Z :=
  dur_sub (nc_current_time c) (nc_last_packet_received_time c).

Section operations.
Context {aead : Aead}.

(** ** [NetcodeClient::new]; [rnd] are the random bytes of the generated token. *)
Definition net_client_new (rnd : TokenRandom) (current_time : Z) (authentication : ClientAuthentication)
    : out (result NetcodeClient NetcodeError) :=
  let! token :=
    match authentication with
    | ClientUnsecure protocol_id client_id server_addr user_data =>
        let! r := token_generate rnd current_time protocol_id 300 client_id 15 [server_addr] user_data
                    (vec_repeat (byte_of 0) NETCODE_KEY_BYTES) in
        Ret (map_err TokenError r)
    | ClientSecure connect_token => Ret (Ok connect_token)
    end in
  match token with
  | Err e => Ret (Err e)
  | Ok connect_token =>
      let! slot := vec_get (ct_server_addresses connect_token) 0 in
      let! server_addr := unwrap slot in
      Ret (Ok (mkNetClient SendingConnectionRequest (ct_client_id connect_token) current_time None current_time
                 current_time 0 server_addr 0 connect_token 0
                 (vec_repeat (byte_of 0) NETCODE_CHALLENGE_TOKEN_BYTES) 0 0 NETCODE_SEND_RATE replay_new
                 (vec_repeat (byte_of 0) NETCODE_MAX_PACKET_BYTES)))
  end.

(** [packet.encode(&mut self.out, ..)] with the client's sequence and key. *)
Definition nc_encode (c : NetcodeClient) (p : NetPacket) : out (NetcodeClient * result Z NetcodeError) :=
  let! (buffer, r) := net_encode p (nc_out c) (ct_protocol_id (nc_connect_token c))
                        (Some (nc_sequence c, ct_client_to_server_key (nc_connect_token c))) in
  Ret (nc_set_out c buffer, r).

(** [&mut self.out[..len]]. *)
Definition nc_packet (c : NetcodeClient) (n : Z) : Bytes := take (Z.to_nat n) (nc_out c).

Definition net_client_disconnect (c : NetcodeClient) : out (NetcodeClient * result (SocketAddr * Bytes) NetcodeError) :=
  let c := nc_set_state c (CDisconnected NetDisconnectedByClient) in
  let! (c, r) := nc_encode c Disconnect in
  match r with
  | Err e => Ret (c, Err e)
  | Ok n => Ret (c, Ok (nc_server_addr c, nc_packet c n))
  end.

(** The [match (packet, &self.state)] of [process_packet]. *)
Definition net_client_handle (c : NetcodeClient) (packet : NetPacket) : NetcodeClient * option Bytes :=
  match packet, nc_state c with
  | ConnectionDenied, (SendingConnectionRequest | SendingConnectionResponse) =>
      (nc_set_last_received (nc_set_state c (CDisconnected ConnectionDeniedByServer)) (nc_current_time c), None)
  | Challenge token_sequence token_data, SendingConnectionRequest =>
      let c := nc_set_challenge c token_sequence token_data in
      let c := nc_set_last_received c (nc_current_time c) in
      let c := nc_set_last_send c None in
      (nc_set_state c SendingConnectionResponse, None)
  | KeepAlive _ _, CConnected => (nc_set_last_received c (nc_current_time c), None)
  | KeepAlive client_index max_clients, SendingConnectionResponse =>
      let c := nc_set_last_received c (nc_current_time c) in
      let c := nc_set_slot c max_clients client_index in
      (nc_set_state c CConnected, None)
  | Payload p, CConnected => (nc_set_last_received c (nc_current_time c), Some p)
  | Disconnect, CConnected =>
      (nc_set_last_received (nc_set_state c (CDisconnected NetDisconnectedByServer)) (nc_current_time c), None)
  | _, _ => (c, None)
  end.

Definition net_client_process_packet (c : NetcodeClient) (buffer : Bytes) : out (NetcodeClient * option Bytes) :=
  let! (rp, r) := net_decode buffer (ct_protocol_id (nc_connect_token c))
                    (Some (ct_server_to_client_key (nc_connect_token c))) (Some (nc_replay_protection c)) in
  let c := match rp with Some rp => nc_set_replay c rp | None => c end in
  match r with
  | Err _ => Ret (c, None)
  | Ok (_, packet) => Ret (net_client_handle c packet)
  end.

Definition net_client_generate_payload_packet (c : NetcodeClient) (payload : Bytes)
    : out (NetcodeClient * result (SocketAddr * Bytes) NetcodeError) :=
  if NETCODE_MAX_PAYLOAD_BYTES <? len payload then Ret (c, Err PayloadAboveLimit)
  else if negb (nc_is_connected c) then Ret (c, Err ClientNotConnected)
  else
    let! (c, r) := nc_encode c (Payload payload) in
    match r with
    | Err e => Ret (c, Err e)
    | Ok n =>
        let! sequence := add64 (nc_sequence c) 1 in
        let c := nc_set_sequence c sequence in
        let c := nc_set_last_send c (Some (nc_current_time c)) in
        Ret (c, Ok (nc_server_addr c, nc_packet c n))
    end.

(** ** Update *)

(** Giving up on a server and trying the next address of the token. *)
Definition net_client_next_server (c : NetcodeClient) : out (NetcodeClient * result unit NetcodeError) :=
  let reason := match nc_state c with
    | SendingConnectionResponse => ConnectionResponseTimedOut
    | _ => ConnectionRequestTimedOut
    end in
  let c := nc_set_state c (CDisconnected reason) in
  let! index := add64 (nc_server_addr_index c) 1 in
  let c := nc_set_server c (nc_server_addr c) index in
  if 32 <=? index then Ret (c, Err NoMoreServers)
  else
    let! slot := vec_get (ct_server_addresses (nc_connect_token c)) index in
    match slot with
    | None => Ret (c, Err NoMoreServers)
    | Some server_address =>
        let c := nc_set_state c SendingConnectionRequest in
        let c := nc_set_server c server_address index in
        let c := nc_set_connect_start c (nc_current_time c) in
        let c := nc_set_last_send c None in
        let c := nc_set_last_received c (nc_current_time c) in
        Ret (nc_set_challenge c 0 (nc_challenge_token_data c), Ok tt)
    end.

(** [timeout_seconds > 0 && last_packet_received_time + timeout < current_time]. *)
Definition timed_out (timeout_seconds last_received current_time : Z) : out bool :=
  if 0 <? timeout_seconds then
    let! deadline := dur_add last_received (from_secs timeout_seconds) in
    Ret (deadline <? current_time)
  else Ret false.

Definition net_client_update_internal_state (c : NetcodeClient) (duration : Z)
    : out (NetcodeClient * result unit NetcodeError) :=
  let! time := dur_add (nc_current_time c) duration in
  let c := nc_set_time c time in
  let! connection_timed_out :=
    timed_out (ct_timeout_seconds (nc_connect_token c)) (nc_last_packet_received_time c) (nc_current_time c) in
  match nc_state c with
  | SendingConnectionRequest | SendingConnectionResponse =>
      let! expire_seconds :=
        sub64 (ct_expire_timestamp (nc_connect_token c)) (ct_create_timestamp (nc_connect_token c)) in
      let! elapsed := dur_sub (nc_current_time c) (nc_connect_start_time c) in
      if expire_seconds <=? as_secs elapsed then Ret (nc_set_state c (CDisconnected ConnectTokenExpired), Err Expired)
      else if connection_timed_out then net_client_next_server c
      else Ret (c, Ok tt)
  | CConnected =>
      if connection_timed_out then
        Ret (nc_set_state c (CDisconnected ConnectionTimedOut), Err (NetDisconnected ConnectionTimedOut))
      else Ret (c, Ok tt)
  | CDisconnected reason => Ret (c, Err (NetDisconnected reason))
  end.

Definition net_client_generate_packet (c : NetcodeClient) : out (NetcodeClient * option (Bytes * SocketAddr)) :=
  let! too_soon :=
    match nc_last_packet_send_time c with
    | Some last_packet_send_time =>
        let! elapsed := dur_sub (nc_current_time c) last_packet_send_time in
        Ret (elapsed <? nc_send_rate c)
    | None => Ret false
    end in
  if too_soon then Ret (c, None)
  else
    let c :=
      match nc_state c with
      | CConnected | SendingConnectionRequest | SendingConnectionResponse =>
          nc_set_last_send c (Some (nc_current_time c))
      | CDisconnected _ => c
      end in
    let packet :=
      match nc_state c with
      | SendingConnectionRequest => Some (connection_request_from_token (nc_connect_token c))
      | SendingConnectionResponse => Some (Response (nc_challenge_token_sequence c) (nc_challenge_token_data c))
      | CConnected => Some (KeepAlive 0 0)
      | CDisconnected _ => None
      end in
    match packet with
    | None => Ret (c, None)
    | Some packet =>
        let! (c, r) := nc_encode c packet in
        match r with
        | Err _ => Ret (c, None)
        | Ok encoded =>
            let! sequence := add64 (nc_sequence c) 1 in
            let c := nc_set_sequence c sequence in
            Ret (c, Some (nc_packet c encoded, nc_server_addr c))
        end
    end.

Definition net_client_update (c : NetcodeClient) (duration : Z) : out (NetcodeClient * option (Bytes * SocketAddr)) :=
  let! (c, r) := net_client_update_internal_state c duration in
  match r with
  | Err _ => Ret (c, None)
  | Ok _ => net_client_generate_packet c
  end.

End operations.
