(* ===== verification/NetServer.v ===== *)
(** * The netcode server (renetcode/src/server.rs)

    [NetcodeServer]: client slots, pending connections, connect token entries,
    and every operation of the file. *)

From S2P Require Import Prelude Netcode ReplayProtection Token NetPacket NetClient.

(** ** State *)

Inductive ConnectionState := SDisconnected | SPendingResponse | SConnected.

#[global] Instance ConnectionState_eq_dec : EqDecision ConnectionState.
Proof. solve_decision. Defined.

(** The fields that change during a connection come last. *)
Record Connection := mkConnection {
  cn_client_id : Z;
  cn_send_key : Bytes;
  cn_receive_key : Bytes;
  cn_addr : SocketAddr;
  cn_timeout_seconds : Z;
  cn_expire_timestamp : Z;
  cn_confirmed : bool;
  cn_state : ConnectionState;
  cn_user_data : Bytes;
  cn_last_packet_received_time : Z;
  cn_last_packet_send_time : Z;
  cn_sequence : Z;
  cn_replay_protection : ReplayProtection;
}.

Definition cn_set_confirmed (c : Connection) (x : bool) : Connection :=
  mkConnection (cn_client_id c) (cn_send_key c) (cn_receive_key c) (cn_addr c) (cn_timeout_seconds c) (cn_expire_timestamp c)
    x (cn_state c) (cn_user_data c) (cn_last_packet_received_time c) (cn_last_packet_send_time c) (cn_sequence c) (cn_replay_protection c).
Definition cn_set_state (c : Connection) (x : ConnectionState) : Connection :=
  mkConnection (cn_client_id c) (cn_send_key c) (cn_receive_key c) (cn_addr c) (cn_timeout_seconds c) (cn_expire_timestamp c)
    (cn_confirmed c) x (cn_user_data c) (cn_last_packet_received_time c) (cn_last_packet_send_time c) (cn_sequence c) (cn_replay_protection c).
Definition cn_set_user_data (c : Connection) (x : Bytes) : Connection :=
  mkConnection (cn_client_id c) (cn_send_key c) (cn_receive_key c) (cn_addr c) (cn_timeout_seconds c) (cn_expire_timestamp c)
    (cn_confirmed c) (cn_state c) x (cn_last_packet_received_time c) (cn_last_packet_send_time c) (cn_sequence c) (cn_replay_protection c).
Definition cn_set_last_received (c : Connection) (x : Z) : Connection :=
  mkConnection (cn_client_id c) (cn_send_key c) (cn_receive_key c) (cn_addr c) (cn_timeout_seconds c) (cn_expire_timestamp c)
    (cn_confirmed c) (cn_state c) (cn_user_data c) x (cn_last_packet_send_time c) (cn_sequence c) (cn_replay_protection c).
Definition cn_set_last_send (c : Connection) (x : Z) : Connection :=
  mkConnection (cn_client_id c) (cn_send_key c) (cn_receive_key c) (cn_addr c) (cn_timeout_seconds c) (cn_expire_timestamp c)
    (cn_confirmed c) (cn_state c) (cn_user_data c) (cn_last_packet_received_time c) x (cn_sequence c) (cn_replay_protection c).
Definition cn_set_sequence (c : Connection) (x : Z) : Connection :=
  mkConnection (cn_client_id c) (cn_send_key c) (cn_receive_key c) (cn_addr c) (cn_timeout_seconds c) (cn_expire_timestamp c)
    (cn_confirmed c) (cn_state c) (cn_user_data c) (cn_last_packet_received_time c) (cn_last_packet_send_time c) x (cn_replay_protection c).
Definition cn_set_replay (c : Connection) (x : ReplayProtection) : Connection :=
  mkConnection (cn_client_id c) (cn_send_key c) (cn_receive_key c) (cn_addr c) (cn_timeout_seconds c) (cn_expire_timestamp c)
    (cn_confirmed c) (cn_state c) (cn_user_data c) (cn_last_packet_received_time c) (cn_last_packet_send_time c) (cn_sequence c) x.

Record ConnectTokenEntry := mkTokenEntry {
  te_time : Z;
  te_address : SocketAddr;
  te_mac : Bytes;
}.

Record NetcodeServer := mkNetServer {
  ns_clients : list (option Connection);
  ns_pending_clients : gmap SocketAddr Connection;
  ns_connect_token_entries : list (option ConnectTokenEntry);
  ns_protocol_id : Z;
  ns_connect_key : Bytes;
  ns_max_clients : Z;
  ns_challenge_sequence : Z;
  ns_challenge_key : Bytes;
  ns_public_addresses : list SocketAddr;
  ns_current_time : Z;
  ns_global_sequence : Z;
  ns_secure : bool;
  ns_out : Bytes;
}.

Definition ns_set_clients (s : NetcodeServer) (x : list (option Connection)) : NetcodeServer :=
  mkNetServer x (ns_pending_clients s) (ns_connect_token_entries s) (ns_protocol_id s) (ns_connect_key s) (ns_max_clients s)
    (ns_challenge_sequence s) (ns_challenge_key s) (ns_public_addresses s) (ns_current_time s) (ns_global_sequence s) (ns_secure s) (ns_out s).
Definition ns_set_pending (s : NetcodeServer) (x : gmap SocketAddr Connection) : NetcodeServer :=
  mkNetServer (ns_clients s) x (ns_connect_token_entries s) (ns_protocol_id s) (ns_connect_key s) (ns_max_clients s)
    (ns_challenge_sequence s) (ns_challenge_key s) (ns_public_addresses s) (ns_current_time s) (ns_global_sequence s) (ns_secure s) (ns_out s).
Definition ns_set_entries (s : NetcodeServer) (x : list (option ConnectTokenEntry)) : NetcodeServer :=
  mkNetServer (ns_clients s) (ns_pending_clients s) x (ns_protocol_id s) (ns_connect_key s) (ns_max_clients s)
    (ns_challenge_sequence s) (ns_challenge_key s) (ns_public_addresses s) (ns_current_time s) (ns_global_sequence s) (ns_secure s) (ns_out s).
Definition ns_set_max_clients (s : NetcodeServer) (x : Z) : NetcodeServer :=
  mkNetServer (ns_clients s) (ns_pending_clients s) (ns_connect_token_entries s) (ns_protocol_id s) (ns_connect_key s) x
    (ns_challenge_sequence s) (ns_challenge_key s) (ns_public_addresses s) (ns_current_time s) (ns_global_sequence s) (ns_secure s) (ns_out s).
Definition ns_set_challenge_sequence (s : NetcodeServer) (x : Z) : NetcodeServer :=
  mkNetServer (ns_clients s) (ns_pending_clients s) (ns_connect_token_entries s) (ns_protocol_id s) (ns_connect_key s) (ns_max_clients s)
    x (ns_challenge_key s) (ns_public_addresses s) (ns_current_time s) (ns_global_sequence s) (ns_secure s) (ns_out s).
Definition ns_set_time (s : NetcodeServer) (x : Z) : NetcodeServer :=
  mkNetServer (ns_clients s) (ns_pending_clients s) (ns_connect_token_entries s) (ns_protocol_id s) (ns_connect_key s) (ns_max_clients s)
    (ns_challenge_sequence s) (ns_challenge_key s) (ns_public_addresses s) x (ns_global_sequence s) (ns_secure s) (ns_out s).
Definition ns_set_global_sequence (s : NetcodeServer) (x : Z) : NetcodeServer :=
  mkNetServer (ns_clients s) (ns_pending_clients s) (ns_connect_token_entries s) (ns_protocol_id s) (ns_connect_key s) (ns_max_clients s)
    (ns_challenge_sequence s) (ns_challenge_key s) (ns_public_addresses s) (ns_current_time s) x (ns_secure s) (ns_out s).
Definition ns_set_out (s : NetcodeServer) (x : Bytes) : NetcodeServer :=
  mkNetServer (ns_clients s) (ns_pending_clients s) (ns_connect_token_entries s) (ns_protocol_id s) (ns_connect_key s) (ns_max_clients s)
    (ns_challenge_sequence s) (ns_challenge_key s) (ns_public_addresses s) (ns_current_time s) (ns_global_sequence s) (ns_secure s) x.

Inductive ServerResult :=
  | SrNone
  | SrPacketToSend (addr : SocketAddr) (payload : Bytes)
  | SrPayload (client_id : Z) (payload : Bytes)
  | SrClientConnected (client_id : Z) (addr : SocketAddr) (user_data payload : Bytes)
  | SrClientDisconnected (client_id : Z) (addr : SocketAddr) (payload : option Bytes).

Inductive ServerAuthentication :=
  | ServerSecure (private_key : Bytes)
  | ServerUnsecure.

Record ServerConfig := mkServerConfig {
  sc_current_time : Z;
  sc_max_clients : Z;
  sc_protocol_id : Z;
  sc_public_addresses : list SocketAddr;
  sc_authentication : ServerAuthentication;
}.

(** [NetcodeServer::new]; [challenge_key] are the random bytes. *)
Definition net_server_new (challenge_key : Bytes) (config : ServerConfig) : out NetcodeServer :=
  if NETCODE_MAX_CLIENTS <? sc_max_clients config then Panic
  else
    let connect_key := match sc_authentication config with
      | ServerUnsecure => vec_repeat (byte_of 0) NETCODE_KEY_BYTES
      | ServerSecure private_key => private_key
      end in
    let secure := match sc_authentication config with ServerUnsecure => false | ServerSecure _ => true end in
    Ret (mkNetServer (vec_repeat None (sc_max_clients config)) ∅ (vec_repeat None (NETCODE_MAX_CLIENTS * 2))
           (sc_protocol_id config) connect_key (sc_max_clients config) 0 challenge_key (sc_public_addresses config)
           (sc_current_time config) 0 secure (vec_repeat (byte_of 0) NETCODE_MAX_PACKET_BYTES)).

(** ** Finding clients *)

(** The first slot whose connection satisfies [f], from slot [i]. *)
Fixpoint find_slot (f : Connection -> bool) (i : Z) (clients : list (option Connection)) : option (Z * Connection) :=
  match clients with
  | [] => None
  | Some c :: clients' => if f c then Some (i, c) else find_slot f (i + 1) clients'
  | None :: clients' => find_slot f (i + 1) clients'
  end.

(** [find_client_slot_by_id], with the connection in the slot. *)
Definition find_client_slot_by_id (clients : list (option Connection)) (client_id : Z) : option (Z * Connection) :=
  find_slot (fun c => cn_client_id c =? client_id) 0 clients.

Definition find_client_by_id (clients : list (option Connection)) (client_id : Z) : option Connection :=
  snd <$> find_client_slot_by_id clients client_id.

Definition find_client_mut_by_addr (clients : list (option Connection)) (addr : SocketAddr) : option (Z * Connection) :=
  find_slot (fun c => bool_decide (cn_addr c = addr)) 0 clients.

(** [clients.iter().position(|c| c.is_none())]. *)
Fixpoint free_slot (i : Z) (clients : list (option Connection)) : option Z :=
  match clients with
  | [] => None
  | None :: _ => Some i
  | Some _ :: clients' => free_slot (i + 1) clients'
  end.

(** [clients.iter().flatten().count()]. *)
Definition count_clients (clients : list (option Connection)) : Z :=
  len (omap (fun c => c) clients).

(** ** Observers *)

Definition ns_user_data (s : NetcodeServer) (client_id : Z) : option Bytes :=
  cn_user_data <$> find_client_by_id (ns_clients s) client_id.

Definition ns_time_since_last_received_packet (s : NetcodeServer) (client_id : Z) : out (option Z) :=
  match find_client_by_id (ns_clients s) client_id with
  | Some client =>
      let! time := dur_sub (ns_current_time s) (cn_last_packet_received_time client) in
      Ret (Some time)
  | None => Ret None
  end.

Definition ns_client_addr (s : NetcodeServer) (client_id : Z) : option SocketAddr :=
  cn_addr <$> find_client_by_id (ns_clients s) client_id.

Definition ns_clients_id (s : NetcodeServer) : list Z := cn_client_id <$> omap (fun c => c) (ns_clients s).

(** The indices of the slots in use. *)
Fixpoint used_slots (i : Z) (clients : list (option Connection)) : list Z :=
  match clients with
  | [] => []
  | Some _ :: clients' => i :: used_slots (i + 1) clients'
  | None :: clients' => used_slots (i + 1) clients'
  end.

Definition ns_clients_slot (s : NetcodeServer) : list Z := used_slots 0 (ns_clients s).

Definition ns_connected_clients (s : NetcodeServer) : Z := count_clients (ns_clients s).

Definition ns_is_client_connected (s : NetcodeServer) (client_id : Z) : bool :=
  bool_decide (is_Some (find_client_slot_by_id (ns_clients s) client_id)).

Definition net_server_set_max_clients (s : NetcodeServer) (max_clients : Z) : NetcodeServer :=
  ns_set_max_clients s (Z.min max_clients NETCODE_MAX_CLIENTS).

(** ** Connect token entries *)

Record entry_search := mkSearch {
  es_min : Z;
  es_oldest : Z;
  es_empty : bool;
  es_match : option ConnectTokenEntry;
}.

(** One turn of the loop of [find_or_add_connect_token_entry]. *)
Definition search_entry (new_entry : ConnectTokenEntry) (i : Z) (entry : option ConnectTokenEntry) (st : entry_search)
    : entry_search :=
  match entry with
  | Some e =>
      let m := if bool_decide (te_mac e = te_mac new_entry) then Some e else es_match st in
      if negb (es_empty st) && (te_time e <? es_min st) then mkSearch (te_time e) i (es_empty st) m
      else mkSearch (es_min st) (es_oldest st) (es_empty st) m
  | None =>
      if es_empty st then st else mkSearch (es_min st) i true (es_match st)
  end.

Fixpoint search_entries (new_entry : ConnectTokenEntry) (i : Z) (entries : list (option ConnectTokenEntry))
    (st : entry_search) : entry_search :=
  match entries with
  | [] => st
  | entry :: entries' => search_entries new_entry (i + 1) entries' (search_entry new_entry i entry st)
  end.

Definition find_or_add_connect_token_entry (s : NetcodeServer) (new_entry : ConnectTokenEntry)
    : out (NetcodeServer * bool) :=
  let st := search_entries new_entry 0 (ns_connect_token_entries s) (mkSearch DURATION_MAX 0 false None) in
  match es_match st with
  | Some entry => Ret (s, bool_decide (te_address entry = te_address new_entry))
  | None =>
      let! entries := vec_set (ns_connect_token_entries s) (es_oldest st) (Some new_entry) in
      Ret (ns_set_entries s entries, true)
  end.

Section operations.
Context {aead : Aead}.

(** [packet.encode(&mut self.out, ..)]. *)
Definition ns_encode (s : NetcodeServer) (p : NetPacket) (sequence : Z) (key : Bytes)
    : out (NetcodeServer * result Z NetcodeError) :=
  let! (buffer, r) := net_encode p (ns_out s) (ns_protocol_id s) (Some (sequence, key)) in
  Ret (ns_set_out s buffer, r).

(** [&mut self.out[..len]]. *)
Definition ns_packet (s : NetcodeServer) (n : Z) : Bytes := take (Z.to_nat n) (ns_out s).

(** ** [handle_connection_request] *)

(** The token's host list contains one of the server's addresses. *)
Definition in_host_list (s : NetcodeServer) (token : PrivateConnectToken) : bool :=
  existsb (fun addr => bool_decide (addr ∈ ns_public_addresses s)) (hosts (pt_server_addresses token)).

(** Answering [ConnectionDenied] with the server's own sequence. *)
Definition deny (s : NetcodeServer) (addr : SocketAddr) (key : Bytes)
    : out (NetcodeServer * result ServerResult NetcodeError) :=
  let! (s, r) := ns_encode s ConnectionDenied (ns_global_sequence s) key in
  match r with
  | Err e => Ret (s, Err e)
  | Ok n =>
      let! sequence := add64 (ns_global_sequence s) 1 in
      let s := ns_set_global_sequence s sequence in
      Ret (s, Ok (SrPacketToSend addr (ns_packet s n)))
  end.

(** Answering a [Challenge] and remembering the pending client. *)
Definition challenge (s : NetcodeServer) (addr : SocketAddr) (expire_timestamp : Z) (connect_token : PrivateConnectToken)
    : out (NetcodeServer * result ServerResult NetcodeError) :=
  let! challenge_sequence := add64 (ns_challenge_sequence s) 1 in
  let s := ns_set_challenge_sequence s challenge_sequence in
  let! r := generate_challenge (pt_client_id connect_token) (pt_user_data connect_token) (ns_challenge_sequence s)
              (ns_challenge_key s) in
  match r with
  | Err e => Ret (s, Err e)
  | Ok packet =>
      let! (s, r) := ns_encode s packet (ns_global_sequence s) (pt_server_to_client_key connect_token) in
      match r with
      | Err e => Ret (s, Err e)
      | Ok n =>
          let! sequence := add64 (ns_global_sequence s) 1 in
          let s := ns_set_global_sequence s sequence in
          let pending :=
            match ns_pending_clients s !! addr with
            | Some pending => pending
            | None =>
                mkConnection (pt_client_id connect_token) (pt_server_to_client_key connect_token)
                  (pt_client_to_server_key connect_token) addr (pt_timeout_seconds connect_token) expire_timestamp
                  false SPendingResponse (pt_user_data connect_token) (ns_current_time s) (ns_current_time s) 0 replay_new
            end in
          let pending := cn_set_last_received pending (ns_current_time s) in
          let pending := cn_set_last_send pending (ns_current_time s) in
          let s := ns_set_pending s (<[addr := pending]> (ns_pending_clients s)) in
          Ret (s, Ok (SrPacketToSend addr (ns_packet s n)))
      end
  end.

Definition handle_connection_request (s : NetcodeServer) (addr : SocketAddr) (version_info : Bytes)
    (protocol_id expire_timestamp : Z) (xnonce data : Bytes) : out (NetcodeServer * result ServerResult NetcodeError) :=
  if negb (bool_decide (version_info = NETCODE_VERSION_INFO)) then Ret (s, Err InvalidVersion)
  else if negb (protocol_id =? ns_protocol_id s) then Ret (s, Err InvalidProtocolID)
  else if expire_timestamp <=? as_secs (ns_current_time s) then Ret (s, Err Expired)
  else
    let! r := private_decode data (ns_protocol_id s) expire_timestamp xnonce (ns_connect_key s) in
    match r with
    | Err e => Ret (s, Err (TokenError e))
    | Ok connect_token =>
        if ns_secure s && negb (in_host_list s connect_token) then Ret (s, Err NotInHostList)
        else
          let addr_already_connected := bool_decide (is_Some (find_client_mut_by_addr (ns_clients s) addr)) in
          let id_already_connected :=
            bool_decide (is_Some (find_client_slot_by_id (ns_clients s) (pt_client_id connect_token))) in
          if id_already_connected || addr_already_connected then Ret (s, Ok SrNone)
          else if bool_decide (ns_pending_clients s !! addr = None) &&
                  (NETCODE_MAX_PENDING_CLIENTS <=? Z.of_nat (size (ns_pending_clients s))) then Ret (s, Ok SrNone)
          else
            let mac := drop (Z.to_nat (NETCODE_CONNECT_TOKEN_PRIVATE_BYTES - NETCODE_MAC_BYTES)) data in
            let! (s, added) := find_or_add_connect_token_entry s (mkTokenEntry (ns_current_time s) addr mac) in
            if negb added then Ret (s, Ok SrNone)
            else if ns_max_clients s <=? count_clients (ns_clients s) then
              deny (ns_set_pending s (delete addr (ns_pending_clients s))) addr (pt_server_to_client_key connect_token)
            else challenge s addr expire_timestamp connect_token
    end.

(** ** [generate_payload_packet] *)

Definition net_server_generate_payload_packet (s : NetcodeServer) (client_id : Z) (payload : Bytes)
    : out (NetcodeServer * result (SocketAddr * Bytes) NetcodeError) :=
  if NETCODE_MAX_PAYLOAD_BYTES <? len payload then Ret (s, Err PayloadAboveLimit)
  else
    match find_client_slot_by_id (ns_clients s) client_id with
    | None => Ret (s, Err NetClientNotFound)
    | Some (slot, client) =>
        let! (s, r) := ns_encode s (Payload payload) (cn_sequence client) (cn_send_key client) in
        match r with
        | Err e => Ret (s, Err e)
        | Ok n =>
            let! sequence := add64 (cn_sequence client) 1 in
            let client := cn_set_last_send (cn_set_sequence client sequence) (ns_current_time s) in
            let! clients := vec_set (ns_clients s) slot (Some client) in
            let s := ns_set_clients s clients in
            Ret (s, Ok (cn_addr client, ns_packet s n))
        end
    end.

(** ** [process_packet] *)

(** A packet from the address of a connected client. *)
Definition process_connected (s : NetcodeServer) (addr : SocketAddr) (slot : Z) (client : Connection) (buffer : Bytes)
    : out (NetcodeServer * result ServerResult NetcodeError) :=
  let! (rp, r) := net_decode buffer (ns_protocol_id s) (Some (cn_receive_key client)) (Some (cn_replay_protection client)) in
  let client := match rp with Some rp => cn_set_replay client rp | None => client end in
  match r with
  | Err e =>
      let! clients := vec_set (ns_clients s) slot (Some client) in
      Ret (ns_set_clients s clients, Err e)
  | Ok (_, packet) =>
      let client := cn_set_last_received client (ns_current_time s) in
      match cn_state client, packet with
      | SConnected, Disconnect =>
          let! clients := vec_set (ns_clients s) slot None in
          Ret (ns_set_clients s clients, Ok (SrClientDisconnected (cn_client_id client) addr None))
      | SConnected, Payload payload =>
          let! clients := vec_set (ns_clients s) slot (Some (cn_set_confirmed client true)) in
          Ret (ns_set_clients s clients, Ok (SrPayload (cn_client_id client) payload))
      | SConnected, KeepAlive _ _ =>
          let! clients := vec_set (ns_clients s) slot (Some (cn_set_confirmed client true)) in
          Ret (ns_set_clients s clients, Ok SrNone)
      | _, _ =>
          let! clients := vec_set (ns_clients s) slot (Some client) in
          Ret (ns_set_clients s clients, Ok SrNone)
      end
  end.

(** A pending client's response: it takes a free slot, if any. *)
Definition process_response (s : NetcodeServer) (addr : SocketAddr) (token_sequence : Z) (token_data : Bytes)
    : out (NetcodeServer * result ServerResult NetcodeError) :=
  let! r := challenge_decode token_data token_sequence (ns_challenge_key s) in
  match r with
  | Err e => Ret (s, Err e)
  | Ok challenge_token =>
      let! pending := unwrap (ns_pending_clients s !! addr) in
      let s := ns_set_pending s (delete addr (ns_pending_clients s)) in
      match find_client_slot_by_id (ns_clients s) (ch_client_id challenge_token) with
      | Some _ => Ret (s, Ok SrNone)
      | None =>
          match free_slot 0 (ns_clients s) with
          | None => deny s addr (cn_send_key pending)
          | Some client_index =>
              let pending := cn_set_state pending SConnected in
              let pending := cn_set_user_data pending (ch_user_data challenge_token) in
              let pending := cn_set_last_send pending (ns_current_time s) in
              let packet := KeepAlive (client_index mod 4294967296) (ns_max_clients s mod 4294967296) in
              let! (s, r) := ns_encode s packet (cn_sequence pending) (cn_send_key pending) in
              match r with
              | Err e => Ret (s, Err e)
              | Ok n =>
                  let! sequence := add64 (cn_sequence pending) 1 in
                  let pending := cn_set_sequence pending sequence in
                  let! clients := vec_set (ns_clients s) client_index (Some pending) in
                  let s := ns_set_clients s clients in
                  Ret (s, Ok (SrClientConnected (cn_client_id pending) addr (cn_user_data pending) (ns_packet s n)))
              end
          end
      end
  end.

(** A packet from the address of a pending client. *)
Definition process_pending (s : NetcodeServer) (addr : SocketAddr) (pending : Connection) (buffer : Bytes)
    : out (NetcodeServer * result ServerResult NetcodeError) :=
  let! (rp, r) := net_decode buffer (ns_protocol_id s) (Some (cn_receive_key pending)) (Some (cn_replay_protection pending)) in
  let pending := match rp with Some rp => cn_set_replay pending rp | None => pending end in
  match r with
  | Err e => Ret (ns_set_pending s (<[addr := pending]> (ns_pending_clients s)), Err e)
  | Ok (_, packet) =>
      let pending := cn_set_last_received pending (ns_current_time s) in
      let s := ns_set_pending s (<[addr := pending]> (ns_pending_clients s)) in
      match packet with
      | ConnectionRequest version_info protocol_id expire_timestamp xnonce data =>
          handle_connection_request s addr version_info protocol_id expire_timestamp xnonce data
      | Response token_sequence token_data => process_response s addr token_sequence token_data
      | _ => Ret (s, Ok SrNone)
      end
  end.

Definition process_packet_internal (s : NetcodeServer) (addr : SocketAddr) (buffer : Bytes)
    : out (NetcodeServer * result ServerResult NetcodeError) :=
  if len buffer <? 2 + NETCODE_MAC_BYTES then Ret (s, Err PacketTooSmall)
  else
    match find_client_mut_by_addr (ns_clients s) addr with
    | Some (slot, client) => process_connected s addr slot client buffer
    | None =>
        match ns_pending_clients s !! addr with
        | Some pending => process_pending s addr pending buffer
        | None =>
            let! (_, r) := net_decode buffer (ns_protocol_id s) None None in
            match r with
            | Err e => Ret (s, Err e)
            | Ok (_, ConnectionRequest version_info protocol_id expire_timestamp xnonce data) =>
                handle_connection_request s addr version_info protocol_id expire_timestamp xnonce data
            | Ok _ => Panic
            end
        end
    end.

Definition net_server_process_packet (s : NetcodeServer) (addr : SocketAddr) (buffer : Bytes)
    : out (NetcodeServer * ServerResult) :=
  let! (s, r) := process_packet_internal s addr buffer in
  match r with
  | Err _ => Ret (s, SrNone)
  | Ok r => Ret (s, r)
  end.

(** ** [update], [update_client], [disconnect] *)

Definition net_server_update (s : NetcodeServer) (duration : Z) : out NetcodeServer :=
  let! time := dur_add (ns_current_time s) duration in
  let s := ns_set_time s time in
  let pending :=
    (fun client =>
       if cn_expire_timestamp client <? as_secs (ns_current_time s) then cn_set_state client SDisconnected else client)
    <$> ns_pending_clients s in
  Ret (ns_set_pending s (filter (fun kv => cn_state kv.2 <> SDisconnected) pending)).

(** The disconnect packet that goes with a removed client. *)
Definition farewell (s : NetcodeServer) (client_id : Z) (client : Connection) : out (NetcodeServer * ServerResult) :=
  let! (s, r) := ns_encode s Disconnect (cn_sequence client) (cn_send_key client) in
  match r with
  | Err _ => Ret (s, SrClientDisconnected client_id (cn_addr client) None)
  | Ok n => Ret (s, SrClientDisconnected client_id (cn_addr client) (Some (ns_packet s n)))
  end.

Definition net_server_update_client (s : NetcodeServer) (client_id : Z) : out (NetcodeServer * ServerResult) :=
  match find_client_slot_by_id (ns_clients s) client_id with
  | None => Ret (s, SrNone)
  | Some (slot, client) =>
      let! connection_timed_out :=
        timed_out (cn_timeout_seconds client) (cn_last_packet_received_time client) (ns_current_time s) in
      let client := if connection_timed_out then cn_set_state client SDisconnected else client in
      if bool_decide (cn_state client = SDisconnected) then
        let! clients := vec_set (ns_clients s) slot None in
        farewell (ns_set_clients s clients) client_id client
      else
        let! due := dur_add (cn_last_packet_send_time client) NETCODE_SEND_RATE in
        if due <=? ns_current_time s then
          let packet := KeepAlive (slot mod 4294967296) (ns_max_clients s mod 4294967296) in
          let! (s, r) := ns_encode s packet (cn_sequence client) (cn_send_key client) in
          match r with
          | Err _ => Ret (s, SrNone)
          | Ok n =>
              let! sequence := add64 (cn_sequence client) 1 in
              let client := cn_set_last_send (cn_set_sequence client sequence) (ns_current_time s) in
              let! clients := vec_set (ns_clients s) slot (Some client) in
              let s := ns_set_clients s clients in
              Ret (s, SrPacketToSend (cn_addr client) (ns_packet s n))
          end
        else Ret (s, SrNone)
  end.

Definition net_server_disconnect (s : NetcodeServer) (client_id : Z) : out (NetcodeServer * ServerResult) :=
  match find_client_slot_by_id (ns_clients s) client_id with
  | None => Ret (s, SrNone)
  | Some (slot, client) =>
      let! clients := vec_set (ns_clients s) slot None in
      farewell (ns_set_clients s clients) client_id client
  end.

End operations.
