(* ===== verification/NetServerInv.v ===== *)
(** * Invariant of the netcode server

    The slots and pending connections of [NetcodeServer] stay consistent under
    every operation of NetServer.v. *)

From S2P Require Import Prelude Netcode ReplayProtection Token NetPacket NetClient NetServer.

(** ** Searching slots *)

Lemma find_slot_Some f l : forall i j c, find_slot f i l = Some (j, c) ->
  i <= j /\ l !! Z.to_nat (j - i) = Some (Some c) /\ f c = true.
Proof.
  induction l as [|o l IH]; intros i j c H; [done|]. cbn in H.
  assert (find_slot f (i + 1) l = Some (j, c) -> i <= j /\ (o :: l) !! Z.to_nat (j - i) = Some (Some c) /\ f c = true) as Hrec.
  { intros (Hle & Hl & Hf)%IH. split_and!; [lia| |done]. by replace (Z.to_nat (j - i)) with (S (Z.to_nat (j - (i + 1)))) by lia. }
  destruct o as [x|]; [|auto]. destruct (f x) eqn:Hx; [|auto]. simplify_eq. rewrite Z.sub_diag. split_and!; [lia|done..].
Qed.

Lemma find_slot_None f l : forall i, find_slot f i l = None -> forall k c, l !! k = Some (Some c) -> f c = false.
Proof.
  induction l as [|o l IH]; intros i H k c Hk; [done|]. cbn in H.
  destruct k as [|k]; cbn in Hk; [simplify_eq|].
  - by destruct (f c).
  - destruct o as [x|]; [destruct (f x); [done|]|]; by eapply IH.
Qed.

Lemma find_by_addr_Some l addr j c : find_client_mut_by_addr l addr = Some (j, c) ->
  0 <= j < len l /\ l !! Z.to_nat j = Some (Some c) /\ cn_addr c = addr.
Proof.
  intros (Hj & Hl & Hf)%find_slot_Some. rewrite Z.sub_0_r in Hl. apply bool_decide_eq_true in Hf.
  pose proof (lookup_lt_Some _ _ _ Hl). split_and!; [lia|unfold len; lia|done|done].
Qed.

Lemma find_by_addr_None l addr : find_client_mut_by_addr l addr = None -> forall k c, l !! k = Some (Some c) -> cn_addr c <> addr.
Proof. intros H k c Hk. eapply find_slot_None in H; [|done]. by apply bool_decide_eq_false in H. Qed.

Lemma find_by_id_Some l id j c : find_client_slot_by_id l id = Some (j, c) ->
  0 <= j < len l /\ l !! Z.to_nat j = Some (Some c) /\ cn_client_id c = id.
Proof.
  intros (Hj & Hl & Hf)%find_slot_Some. rewrite Z.sub_0_r in Hl. apply Z.eqb_eq in Hf.
  pose proof (lookup_lt_Some _ _ _ Hl). split_and!; [unfold len; lia|unfold len; lia|done|done].
Qed.

Lemma find_by_id_None l id : find_client_slot_by_id l id = None -> forall k c, l !! k = Some (Some c) -> cn_client_id c <> id.
Proof. intros H k c Hk. eapply find_slot_None in H; [|done]. by apply Z.eqb_neq in H. Qed.

Lemma free_slot_Some l : forall i j, free_slot i l = Some j -> i <= j < i + len l /\ l !! Z.to_nat (j - i) = Some None.
Proof.
  induction l as [|o l IH]; intros i j H; [done|]. rewrite len_cons. pose proof (len_nonneg l). cbn in H. destruct o.
  - apply IH in H as [Hj Hl]. split; [lia|]. by replace (Z.to_nat (j - i)) with (S (Z.to_nat (j - (i + 1)))) by lia.
  - simplify_eq. rewrite Z.sub_diag. split; [lia|done].
Qed.

(** ** The invariant *)

Section inv.
Context {aead : Aead} (config : ServerConfig).
Implicit Types s : NetcodeServer.

(** The key of connect tokens. *)
Definition config_key : Bytes :=
  match sc_authentication config with
  | ServerUnsecure => vec_repeat (byte_of 0) NETCODE_KEY_BYTES
  | ServerSecure private_key => private_key
  end.

Definition config_secure : bool :=
  match sc_authentication config with ServerUnsecure => false | ServerSecure _ => true end.

(** A connect token that opens under the server's key and, on a secure server,
    names one of its addresses. *)
Definition token_ok (expire : Z) (token : PrivateConnectToken) : Prop :=
  (exists xnonce data, private_decode data (sc_protocol_id config) expire xnonce config_key = Ret (Ok token)) /\
  (config_secure = true -> exists a, a ∈ hosts (pt_server_addresses token) /\ a ∈ sc_public_addresses config).

(** The identity, keys and limits of the connection are those of such a token. *)
Definition authorized (c : Connection) : Prop :=
  exists token, token_ok (cn_expire_timestamp c) token /\
    cn_client_id c = pt_client_id token /\ cn_send_key c = pt_server_to_client_key token /\
    cn_receive_key c = pt_client_to_server_key token /\ cn_timeout_seconds c = pt_timeout_seconds token.

(** A connection in the given state whose replay protection is consistent. *)
Definition conn_ok (st : ConnectionState) (c : Connection) : Prop :=
  cn_state c = st /\ replay_good (cn_replay_protection c) /\ authorized c.

Record server_inv (s : NetcodeServer) : Prop := {
  sv_slots : len (ns_clients s) = sc_max_clients config;
  sv_client : forall i c, ns_clients s !! i = Some (Some c) -> conn_ok SConnected c;
  sv_addr : forall i j c c', ns_clients s !! i = Some (Some c) -> ns_clients s !! j = Some (Some c') ->
    cn_addr c = cn_addr c' -> i = j;
  sv_pending : forall a c, ns_pending_clients s !! a = Some c -> cn_addr c = a /\ conn_ok SPendingResponse c;
  sv_disjoint : forall a c i c', ns_pending_clients s !! a = Some c -> ns_clients s !! i = Some (Some c') -> cn_addr c' <> a;
  sv_pending_size : Z.of_nat (size (ns_pending_clients s)) <= NETCODE_MAX_PENDING_CLIENTS;
  sv_entries : len (ns_connect_token_entries s) = NETCODE_MAX_CLIENTS * 2;
  sv_out : len (ns_out s) = NETCODE_MAX_PACKET_BYTES;
  sv_fixed : (ns_protocol_id s, ns_connect_key s, ns_secure s, ns_public_addresses s) =
    (sc_protocol_id config, config_key, config_secure, sc_public_addresses config);
}.

(** The parts of the state the invariant does not speak about. *)
Lemma inv_frame s s' :
  server_inv s -> ns_clients s' = ns_clients s -> ns_pending_clients s' = ns_pending_clients s ->
  len (ns_connect_token_entries s') = len (ns_connect_token_entries s) -> len (ns_out s') = len (ns_out s) ->
  (ns_protocol_id s', ns_connect_key s', ns_secure s', ns_public_addresses s') =
    (ns_protocol_id s, ns_connect_key s, ns_secure s, ns_public_addresses s) ->
  server_inv s'.
Proof using. intros [] Hc Hp He Ho Hf. constructor; rewrite ?Hc, ?Hp, ?He, ?Ho, ?Hf; done. Qed.

Lemma inv_set_slot s i c c' :
  server_inv s -> 0 <= i < len (ns_clients s) -> ns_clients s !! Z.to_nat i = Some (Some c) ->
  cn_addr c' = cn_addr c -> conn_ok SConnected c' ->
  exists clients, vec_set (ns_clients s) i (Some c') = Ret clients /\ server_inv (ns_set_clients s clients).
Proof using.
  intros [Hl Hcl Hadr Hp Hd Hsz He Ho Hf] Hi Hc Ha Hok. rewrite vec_set_ok by done. eexists. split; [done|].
  assert (forall j x, <[Z.to_nat i:=Some c']> (ns_clients s) !! j = Some (Some x) ->
    (j = Z.to_nat i /\ x = c') \/ (j <> Z.to_nat i /\ ns_clients s !! j = Some (Some x))) as Hlk.
  { intros j x. rewrite list_lookup_insert_Some. intros [(<- & [= <-] & _)|[Hne H]]; [by left|right; split; [done|done]]. }
  constructor; cbn; try done.
  - unfold len in *. by rewrite length_insert.
  - intros j x [[_ ->]|[_ H]]%Hlk; [done|by eapply Hcl].
  - intros j k x y [[-> ->]|[Hj H]]%Hlk [[-> ->]|[Hk H']]%Hlk Heq; [done| | |by eapply Hadr].
    + symmetry in Heq. rewrite Ha in Heq. by rewrite (Hadr _ _ _ _ H' Hc Heq) in Hk.
    + rewrite Ha in Heq. by rewrite (Hadr _ _ _ _ H Hc Heq) in Hj.
  - intros a x j y Hx [[_ ->]|[_ H]]%Hlk; [rewrite Ha|]; by eapply Hd.
Qed.

Lemma inv_clear_slot s i :
  server_inv s -> 0 <= i < len (ns_clients s) ->
  exists clients, vec_set (ns_clients s) i None = Ret clients /\ server_inv (ns_set_clients s clients).
Proof using.
  intros [Hl Hcl Hadr Hp Hd Hsz He Ho Hf] Hi. rewrite vec_set_ok by done. eexists. split; [done|].
  assert (forall j x, <[Z.to_nat i:=None]> (ns_clients s) !! j = Some (Some x) -> ns_clients s !! j = Some (Some x)) as Hlk.
  { intros j x. rewrite list_lookup_insert_Some. intros [(_ & ? & _)|[_ H]]; done. }
  constructor; cbn; try done; [unfold len in *; by rewrite length_insert|eauto..].
Qed.

(** A pending connection takes a free slot. *)
Lemma inv_take_slot s addr i c :
  server_inv s -> 0 <= i < len (ns_clients s) -> ns_clients s !! Z.to_nat i = Some None ->
  (forall k x, ns_clients s !! k = Some (Some x) -> cn_addr x <> addr) -> ns_pending_clients s !! addr = None ->
  cn_addr c = addr -> conn_ok SConnected c ->
  exists clients, vec_set (ns_clients s) i (Some c) = Ret clients /\ server_inv (ns_set_clients s clients).
Proof using.
  intros [Hl Hcl Hadr Hp Hd Hsz He Ho Hf] Hi Hc Hno Hnp Ha Hok. rewrite vec_set_ok by done. eexists. split; [done|].
  assert (forall j x, <[Z.to_nat i:=Some c]> (ns_clients s) !! j = Some (Some x) ->
    (j = Z.to_nat i /\ x = c) \/ ns_clients s !! j = Some (Some x)) as Hlk.
  { intros j x. rewrite list_lookup_insert_Some. intros [(<- & [= <-] & _)|[_ H]]; [by left|by right]. }
  constructor; cbn; try done.
  - unfold len in *. by rewrite length_insert.
  - intros j x [[_ ->]|H]%Hlk; [done|by eapply Hcl].
  - intros j k x y [[-> ->]|H]%Hlk [[-> ->]|H']%Hlk Heq; [done| | |by eapply Hadr].
    + apply Hno in H'. congruence.
    + apply Hno in H. congruence.
  - intros a x j y Hx [[_ ->]|H]%Hlk; [|by eapply Hd]. rewrite Ha. congruence.
Qed.

(** ** Pending connections *)

Lemma inv_pending_insert s addr c :
  server_inv s -> cn_addr c = addr -> conn_ok SPendingResponse c ->
  (forall k x, ns_clients s !! k = Some (Some x) -> cn_addr x <> addr) ->
  (ns_pending_clients s !! addr = None -> Z.of_nat (size (ns_pending_clients s)) < NETCODE_MAX_PENDING_CLIENTS) ->
  server_inv (ns_set_pending s (<[addr := c]> (ns_pending_clients s))).
Proof using.
  intros [Hl Hcl Hadr Hp Hd Hsz He Ho Hf] Ha Hok Hno Hroom. constructor; cbn; try done.
  - intros a x [[<- <-]|[_ H]]%lookup_insert_Some; [done|by apply Hp].
  - intros a x i y [[<- <-]|[_ H]]%lookup_insert_Some Hy; [by eapply Hno|by eapply Hd].
  - destruct (ns_pending_clients s !! addr) eqn:E; [rewrite map_size_insert_Some by done; done|].
    rewrite map_size_insert_None by done. specialize (Hroom eq_refl). lia.
Qed.

Lemma inv_pending_update s addr c c' :
  server_inv s -> ns_pending_clients s !! addr = Some c -> cn_addr c' = cn_addr c -> conn_ok SPendingResponse c' ->
  server_inv (ns_set_pending s (<[addr := c']> (ns_pending_clients s))).
Proof using.
  intros Hinv Hc Ha Hok. destruct (sv_pending _ Hinv _ _ Hc) as [Hca _]. apply inv_pending_insert; try done; [congruence| |congruence].
  intros k x Hx. by eapply (sv_disjoint _ Hinv).
Qed.

Lemma inv_pending_delete s addr :
  server_inv s -> server_inv (ns_set_pending s (delete addr (ns_pending_clients s))).
Proof using.
  intros [Hl Hcl Hadr Hp Hd Hsz He Ho Hf]. constructor; cbn; try done.
  - intros a x [_ H]%lookup_delete_Some. by apply Hp.
  - intros a x i y [_ H]%lookup_delete_Some. intros Hy. by eapply Hd.
  - etrans; [|exact Hsz]. apply Nat2Z.inj_le. apply map_subseteq_size, delete_subseteq.
Qed.

(** ** Packets *)

Lemma ns_encode_inv s p q k s' r :
  ns_encode s p q k = Ret (s', r) ->
  exists out, s' = ns_set_out s out /\ len out = len (ns_out s).
Proof using.
  unfold ns_encode. destruct (net_encode _ _ _ _) as [[b r']|] eqn:E; [|done]. cbn. intros [= <- <-].
  exists b. split; [done|]. by eapply net_encode_len.
Qed.

Lemma deny_inv s addr key s' r : server_inv s -> deny s addr key = Ret (s', r) -> server_inv s'.
Proof using.
  intros Hinv H. unfold deny in H. destruct (ns_encode _ _ _ _) as [[s1 [n|]]|] eqn:E; cbn [out_bind] in H; [| |done];
    apply ns_encode_inv in E as (o & -> & Ho); [|by simplify_eq; eapply inv_frame].
  destruct (add64 _ _); cbn [out_bind] in H; [|done]. simplify_eq. by eapply inv_frame.
Qed.

Lemma challenge_inv s addr expire token s' r :
  server_inv s -> token_ok expire token -> (forall k x, ns_clients s !! k = Some (Some x) -> cn_addr x <> addr) ->
  (ns_pending_clients s !! addr = None -> Z.of_nat (size (ns_pending_clients s)) < NETCODE_MAX_PENDING_CLIENTS) ->
  challenge s addr expire token = Ret (s', r) -> server_inv s'.
Proof using.
  intros Hinv Htok Hno Hroom H. unfold challenge in H. destruct (add64 _ _) as [q|]; cbn [out_bind] in H; [|done].
  destruct (generate_challenge _ _ _ _) as [[p|]|]; cbn [out_bind] in H; [|simplify_eq; by eapply inv_frame|done].
  destruct (ns_encode _ _ _ _) as [[s1 r1]|] eqn:E; cbn [out_bind] in H; [|done]. apply ns_encode_inv in E as (o & -> & Ho).
  destruct r1 as [n|]; [|simplify_eq; by eapply inv_frame].
  destruct (add64 _ _) as [q'|]; cbn [out_bind] in H; [|done]. injection H as <- _.
  match goal with |- server_inv (ns_set_pending ?s0 _) => assert (server_inv s0) as Hinv0 by (by eapply inv_frame);
    apply (inv_pending_insert s0 addr); try done end; cbn.
  - destruct (ns_pending_clients s !! addr) as [c|] eqn:Ec; cbn; [|done]. by apply (sv_pending _ Hinv).
  - destruct (ns_pending_clients s !! addr) as [c|] eqn:Ec; cbn; [by apply (sv_pending _ Hinv) in Ec as [_ ?]|].
    split; [done|]. split; [exists []; apply replay_new_inv|by exists token].
Qed.

Lemma search_entries_oldest new l : forall i st,
  0 <= i -> 0 <= es_oldest st < i + Z.max 1 (len l) -> 0 <= es_oldest (search_entries new i l st) < i + Z.max 1 (len l).
Proof using.
  induction l as [|e l IH]; intros i st Hi Hst; [done|]. rewrite len_cons in *. pose proof (len_nonneg l). cbn [search_entries].
  assert (0 <= es_oldest (search_entry new i e st) < i + 1 + Z.max 1 (len l)) as H1.
  { unfold search_entry. destruct e as [e|]; [destruct (negb _ && _)|destruct (es_empty st)]; cbn; lia. }
  destruct l as [|e' l].
  - cbn [search_entries]. change (len (@nil (option ConnectTokenEntry))) with 0 in *.
    unfold search_entry in *. destruct e as [e|]; [destruct (negb _ && _)|destruct (es_empty st)]; cbn in *; lia.
  - specialize (IH (i + 1) (search_entry new i e st) ltac:(lia) H1). rewrite len_cons in *. pose proof (len_nonneg l). lia.
Qed.

Lemma find_or_add_inv s e : server_inv s ->
  exists s' b, find_or_add_connect_token_entry s e = Ret (s', b) /\ server_inv s' /\
    ns_clients s' = ns_clients s /\ ns_pending_clients s' = ns_pending_clients s.
Proof using.
  intros Hinv. unfold find_or_add_connect_token_entry. set (st := search_entries _ _ _ _).
  destruct (es_match st) as [m|]; [by exists s; eexists|].
  assert (0 <= es_oldest st < len (ns_connect_token_entries s)) as Ho.
  { pose proof (search_entries_oldest e (ns_connect_token_entries s) 0 (mkSearch DURATION_MAX 0 false None) ltac:(lia)) as H.
    fold st in H. rewrite (sv_entries _ Hinv) in *. cbn in H. unfold NETCODE_MAX_CLIENTS in *. lia. }
  rewrite vec_set_ok by done. cbn [out_bind]. eexists _, true. split; [done|]. split_and!; try done.
  eapply inv_frame; try done. cbn. unfold len. by rewrite length_insert.
Qed.

(** The checks of [handle_connection_request] on the token. *)
Lemma handle_request_token s ex xn data token :
  server_inv s -> private_decode data (ns_protocol_id s) ex xn (ns_connect_key s) = Ret (Ok token) ->
  ns_secure s && negb (in_host_list s token) = false -> token_ok ex token.
Proof using.
  intros Hinv Hd Hs. pose proof (sv_fixed _ Hinv) as [= Hp Hk Hsec Hpub]. rewrite Hp, Hk in Hd. split; [by exists xn, data|].
  rewrite Hsec in Hs. intros Hsc. rewrite Hsc in Hs. cbn in Hs. apply negb_false_iff in Hs. unfold in_host_list in Hs. rewrite Hpub in Hs.
  apply existsb_exists in Hs as (a & Ha & Hb). apply bool_decide_eq_true in Hb. exists a. by rewrite list_elem_of_In.
Qed.

Lemma handle_request_inv s addr v pid ex xn data s' r :
  server_inv s -> handle_connection_request s addr v pid ex xn data = Ret (s', r) -> server_inv s'.
Proof using.
  intros Hinv H. unfold handle_connection_request in H.
  destruct (negb (bool_decide (v = _))); [by simplify_eq|]. destruct (negb (pid =? _)); [by simplify_eq|].
  destruct (ex <=? _); [by simplify_eq|]. destruct (private_decode _ _ _ _ _) as [[token|]|] eqn:Ed; cbn [out_bind] in H; [|by simplify_eq|done].
  destruct (ns_secure s && _) eqn:Es; [by simplify_eq|]. pose proof (handle_request_token _ _ _ _ _ Hinv Ed Es) as Htok.
  destruct (bool_decide (is_Some (find_client_slot_by_id _ _))); cbn [orb] in H; [by simplify_eq|].
  case_bool_decide as Ha; [by simplify_eq|]. apply eq_None_not_Some in Ha.
  pose proof (find_by_addr_None _ _ Ha) as Hno.
  destruct (bool_decide (ns_pending_clients s !! addr = None) && _) eqn:Hroom; [by simplify_eq|].
  destruct (find_or_add_inv s (mkTokenEntry (ns_current_time s) addr (drop (Z.to_nat (NETCODE_CONNECT_TOKEN_PRIVATE_BYTES - NETCODE_MAC_BYTES)) data)) Hinv)
    as (s1 & b & E & Hinv1 & Hc1 & Hp1).
  rewrite E in H. cbn [out_bind] in H. destruct (negb b); [by simplify_eq|].
  destruct (ns_max_clients s1 <=? _).
  - eapply deny_inv; [|exact H]. by apply inv_pending_delete.
  - eapply challenge_inv; [exact Hinv1|exact Htok| | |exact H]; [by rewrite Hc1|]. rewrite Hp1. intros Hn.
    rewrite bool_decide_eq_true_2 in Hroom by done. cbn in Hroom. apply Z.leb_gt in Hroom. done.
Qed.

(** The replay protection of a connection after decoding. *)
Lemma decoded_conn buffer pid key st c o r :
  net_decode buffer pid key (Some (cn_replay_protection c)) = Ret (o, r) -> conn_ok st c ->
  let c' := match o with Some rp => cn_set_replay c rp | None => c end in
  cn_addr c' = cn_addr c /\ conn_ok st c'.
Proof using.
  intros H (Hst & Hgood & Hau). destruct (net_decode_replay _ _ _ _ _ _ H Hgood) as (rp' & -> & Hg). done.
Qed.

Lemma process_connected_inv s addr i c buffer s' r :
  server_inv s -> find_client_mut_by_addr (ns_clients s) addr = Some (i, c) ->
  process_connected s addr i c buffer = Ret (s', r) -> server_inv s'.
Proof using.
  intros Hinv (Hi & Hc & _)%find_by_addr_Some H. unfold process_connected in H.
  destruct (net_decode _ _ _ _) as [[o d]|] eqn:E; cbn [out_bind] in H; [|done].
  destruct (decoded_conn _ _ _ _ _ _ _ E (sv_client _ Hinv _ _ Hc)) as [Ha Hok].
  set (c' := match o with Some _ => _ | None => _ end) in *. clearbody c'.
  assert (forall c2 x, cn_addr c2 = cn_addr c -> conn_ok SConnected c2 ->
    (let! clients := vec_set (ns_clients s) i (Some c2) in Ret (ns_set_clients s clients, x)) = Ret (s', r) -> server_inv s') as Hset.
  { intros c2 x Ha2 Hok2 H2. destruct (inv_set_slot s i c c2 Hinv Hi Hc Ha2 Hok2) as (cl & E2 & ?).
    rewrite E2 in H2. cbn [out_bind] in H2. by simplify_eq. }
  destruct d as [[q p]|]; [|by eapply Hset; [..|exact H]].
  destruct (cn_state (cn_set_last_received c' (ns_current_time s))); [by eapply Hset; [..|exact H]..|].
  destruct p; try by eapply Hset; [..|exact H].
  destruct (inv_clear_slot s i Hinv Hi) as (cl & E2 & ?). rewrite E2 in H. cbn [out_bind] in H. by simplify_eq.
Qed.

Lemma process_response_inv s addr q data s' r :
  server_inv s -> find_client_mut_by_addr (ns_clients s) addr = None ->
  process_response s addr q data = Ret (s', r) -> server_inv s'.
Proof using.
  intros Hinv Hno H. unfold process_response in H. destruct (challenge_decode _ _ _) as [[t|]|]; cbn [out_bind] in H; [|by simplify_eq|done].
  destruct (ns_pending_clients s !! addr) as [c|] eqn:Hc; cbn [unwrap out_bind] in H; [|done].
  destruct (sv_pending _ Hinv _ _ Hc) as [Ha [_ Hg]].
  set (s1 := ns_set_pending s (delete addr (ns_pending_clients s))) in *.
  assert (server_inv s1) as Hinv1 by (by apply inv_pending_delete).
  destruct (find_client_slot_by_id _ _); [by simplify_eq|].
  destruct (free_slot 0 (ns_clients s1)) as [i|] eqn:Hf; [|by eapply deny_inv].
  apply free_slot_Some in Hf as [Hi Hnone]. rewrite Z.sub_0_r in Hnone. rewrite Z.add_0_l in Hi.
  destruct (ns_encode _ _ _ _) as [[s2 r2]|] eqn:E; cbn [out_bind] in H; [|done]. apply ns_encode_inv in E as (o & -> & Ho).
  assert (server_inv (ns_set_out s1 o)) as Hinv2 by (by eapply inv_frame).
  destruct r2 as [n|]; [|by simplify_eq]. destruct (add64 _ _) as [q'|]; cbn [out_bind] in H; [|done].
  match type of H with context [vec_set _ _ (Some ?c2)] =>
    destruct (inv_take_slot (ns_set_out s1 o) addr i c2 Hinv2 Hi Hnone) as (cl & E2 & Hfin) end.
  - by apply find_by_addr_None.
  - cbn. apply lookup_delete_eq.
  - done.
  - done.
  - rewrite E2 in H. cbn [out_bind] in H. by simplify_eq.
Qed.

Lemma process_pending_inv s addr c buffer s' r :
  server_inv s -> find_client_mut_by_addr (ns_clients s) addr = None -> ns_pending_clients s !! addr = Some c ->
  process_pending s addr c buffer = Ret (s', r) -> server_inv s'.
Proof using.
  intros Hinv Hno Hc H. unfold process_pending in H. destruct (net_decode _ _ _ _) as [[o d]|] eqn:E; cbn [out_bind] in H; [|done].
  destruct (sv_pending _ Hinv _ _ Hc) as [_ Hcok]. destruct (decoded_conn _ _ _ _ _ _ _ E Hcok) as [Ha Hok].
  set (c' := match o with Some _ => _ | None => _ end) in *. clearbody c'.
  destruct d as [[q p]|]; [|simplify_eq; by eapply inv_pending_update].
  set (s1 := ns_set_pending s _) in *. assert (server_inv s1) as Hinv1 by (by eapply inv_pending_update).
  destruct p; try by simplify_eq.
  - by eapply handle_request_inv.
  - by eapply process_response_inv.
Qed.

Lemma process_packet_internal_inv s addr buffer s' r :
  server_inv s -> process_packet_internal s addr buffer = Ret (s', r) -> server_inv s'.
Proof using.
  intros Hinv H. unfold process_packet_internal in H. destruct (_ <? _); [by simplify_eq|].
  destruct (find_client_mut_by_addr (ns_clients s) addr) as [[i c]|] eqn:Ha; [by eapply process_connected_inv|].
  destruct (ns_pending_clients s !! addr) as [c|] eqn:Hp; [by eapply process_pending_inv|].
  destruct (net_decode _ _ _ _) as [[o [[q p]|]]|]; cbn [out_bind] in H; [|by simplify_eq|done].
  destruct p; try done. by eapply handle_request_inv.
Qed.

(** ** The other operations *)

Lemma update_inv s duration s' : server_inv s -> net_server_update s duration = Ret s' -> server_inv s'.
Proof using.
  intros [Hl Hcl Hadr Hp Hd Hsz He Ho Hf] H. unfold net_server_update in H. destruct (dur_add _ _) as [time|]; cbn [out_bind] in H; [|done].
  injection H as <-.
  cbn [ns_set_time ns_pending_clients ns_current_time].
  match goal with |- context [?g <$> ns_pending_clients s] => set (f := g) end.
  assert (forall a c, filter (fun kv => cn_state kv.2 <> SDisconnected) (f <$> ns_pending_clients s) !! a = Some c ->
    ns_pending_clients s !! a = Some c) as Hlk.
  { intros a c [Hc Hst]%map_lookup_filter_Some. rewrite lookup_fmap in Hc. apply fmap_Some in Hc as (c0 & Hc0 & ->).
    unfold f in *. destruct (_ <? _); done. }
  constructor; cbn; try done.
  - intros a c H%Hlk. by apply Hp.
  - intros a c i c' H%Hlk Hi. by eapply Hd.
  - etrans; [|exact Hsz]. apply Nat2Z.inj_le, map_subseteq_size. apply map_subseteq_spec. intros a c H. by apply Hlk.
Qed.

Lemma farewell_inv s id c s' r : server_inv s -> farewell s id c = Ret (s', r) -> server_inv s'.
Proof using.
  intros Hinv H. unfold farewell in H. destruct (ns_encode _ _ _ _) as [[s1 r1]|] eqn:E; cbn [out_bind] in H; [|done].
  apply ns_encode_inv in E as (o & -> & Ho). destruct r1; simplify_eq; by eapply inv_frame.
Qed.

Lemma update_client_inv s id s' r : server_inv s -> net_server_update_client s id = Ret (s', r) -> server_inv s'.
Proof using.
  intros Hinv H. unfold net_server_update_client in H. destruct (find_client_slot_by_id _ _) as [[i c]|] eqn:Hf; [|by simplify_eq].
  apply find_by_id_Some in Hf as (Hi & Hc & _). destruct (sv_client _ Hinv _ _ Hc) as [Hst Hg].
  destruct (timed_out _ _ _) as [to|]; cbn [out_bind] in H; [|done].
  case_bool_decide as Hdis.
  { destruct (inv_clear_slot s i Hinv Hi) as (cl & E2 & ?). rewrite E2 in H. cbn [out_bind] in H. by eapply farewell_inv. }
  destruct to; [done|]. destruct (dur_add _ _) as [due|]; cbn [out_bind] in H; [|done].
  destruct (_ <=? _); [|by simplify_eq].
  destruct (ns_encode _ _ _ _) as [[s1 r1]|] eqn:E; cbn [out_bind] in H; [|done]. apply ns_encode_inv in E as (o & -> & Ho).
  assert (server_inv (ns_set_out s o)) as Hinv1 by (by eapply inv_frame).
  destruct r1; [|by simplify_eq]. destruct (add64 _ _) as [q|]; cbn [out_bind] in H; [|done].
  match type of H with context [vec_set _ _ (Some ?c2)] =>
    destruct (inv_set_slot (ns_set_out s o) i c c2 Hinv1 Hi Hc) as (cl & E2 & Hfin); [done|done|] end.
  rewrite E2 in H. cbn [out_bind] in H. by simplify_eq.
Qed.

Lemma disconnect_inv s id s' r : server_inv s -> net_server_disconnect s id = Ret (s', r) -> server_inv s'.
Proof using.
  intros Hinv H. unfold net_server_disconnect in H. destruct (find_client_slot_by_id _ _) as [[i c]|] eqn:Hf; [|by simplify_eq].
  apply find_by_id_Some in Hf as (Hi & Hc & _).
  destruct (inv_clear_slot s i Hinv Hi) as (cl & E2 & ?). rewrite E2 in H. cbn [out_bind] in H. by eapply farewell_inv.
Qed.

Lemma payload_inv s id payload s' r :
  server_inv s -> net_server_generate_payload_packet s id payload = Ret (s', r) -> server_inv s'.
Proof using.
  intros Hinv H. unfold net_server_generate_payload_packet in H. destruct (_ <? _); [by simplify_eq|].
  destruct (find_client_slot_by_id _ _) as [[i c]|] eqn:Hf; [|by simplify_eq].
  apply find_by_id_Some in Hf as (Hi & Hc & _). destruct (sv_client _ Hinv _ _ Hc) as [Hst Hg].
  destruct (ns_encode _ _ _ _) as [[s1 r1]|] eqn:E; cbn [out_bind] in H; [|done]. apply ns_encode_inv in E as (o & -> & Ho).
  assert (server_inv (ns_set_out s o)) as Hinv1 by (by eapply inv_frame).
  destruct r1; [|by simplify_eq]. destruct (add64 _ _) as [q|]; cbn [out_bind] in H; [|done].
  match type of H with context [vec_set _ _ (Some ?c2)] =>
    destruct (inv_set_slot (ns_set_out s o) i c c2 Hinv1 Hi Hc) as (cl & E2 & Hfin); [done|done|] end.
  rewrite E2 in H. cbn [out_bind] in H. by simplify_eq.
Qed.

Lemma set_max_clients_inv s n : server_inv s -> server_inv (net_server_set_max_clients s n).
Proof using. intros Hinv. by eapply inv_frame. Qed.

Lemma new_inv challenge_key s :
  0 <= sc_max_clients config -> net_server_new challenge_key config = Ret s -> server_inv s.
Proof using.
  intros Hmax H. unfold net_server_new in H. destruct (_ <? _); [done|]. injection H as <-.
  assert (forall n i c, @vec_repeat (option Connection) None n !! i <> Some (Some c)) as Hnone.
  { intros n i c Hc. unfold vec_repeat in Hc. apply lookup_replicate in Hc as [? _]. done. }
  constructor; cbn; try done.
  - unfold len, vec_repeat. rewrite length_replicate. lia.
  - intros i c H. by apply Hnone in H.
  - intros i j c c' H. by apply Hnone in H.
Qed.

(** ** Reachability *)

(** One call of the server's interface that returns. *)
Inductive net_server_step : NetcodeServer -> NetcodeServer -> Prop :=
  | step_process s addr buffer s' r : net_server_process_packet s addr buffer = Ret (s', r) -> net_server_step s s'
  | step_update s duration s' : net_server_update s duration = Ret s' -> net_server_step s s'
  | step_update_client s id s' r : net_server_update_client s id = Ret (s', r) -> net_server_step s s'
  | step_payload s id payload s' r : net_server_generate_payload_packet s id payload = Ret (s', r) -> net_server_step s s'
  | step_disconnect s id s' r : net_server_disconnect s id = Ret (s', r) -> net_server_step s s'
  | step_set_max_clients s n : net_server_step s (net_server_set_max_clients s n).

Lemma net_process_packet_inv s addr buffer s' r :
  server_inv s -> net_server_process_packet s addr buffer = Ret (s', r) -> server_inv s'.
Proof using.
  intros Hinv H. unfold net_server_process_packet in H. destruct (process_packet_internal s addr buffer) as [[s1 r1]|] eqn:E; [|done].
  cbn [out_bind] in H. apply process_packet_internal_inv in E; [|done]. by destruct r1; simplify_eq.
Qed.

Lemma net_server_step_inv s s' : server_inv s -> net_server_step s s' -> server_inv s'.
Proof using.
  intros Hinv H. destruct H.
  - by eapply net_process_packet_inv.
  - by eapply update_inv.
  - by eapply update_client_inv.
  - by eapply payload_inv.
  - by eapply disconnect_inv.
  - by apply set_max_clients_inv.
Qed.

Lemma net_server_reach_inv s s' : server_inv s -> rtc net_server_step s s' -> server_inv s'.
Proof using. intros Hinv H. induction H; eauto using net_server_step_inv. Qed.

(** The occupied slots are at most all slots. *)
Lemma count_clients_le l : count_clients l <= len l.
Proof using.
  unfold count_clients. induction l as [|o l IH]; [done|]. rewrite len_cons. destruct o; cbn [omap list_omap]; [rewrite len_cons|]; lia.
Qed.

End inv.

(** ** Property *)

(** C11: In every state that a server reaches through any sequence of datagrams,
    updates, payloads and disconnections, the slots hold connected clients with
    pairwise distinct addresses, no pending address is also connected, the
    tables keep their sizes, every replay protection is consistent, and each
    connected or pending connection has the id, keys and limits of a connect
    token sealed with the server's key.  So the server never holds more clients
    than it was created for. *)
Theorem netcode_server_invariant {aead : Aead} challenge_key config s0 s :
  0 <= sc_max_clients config -> net_server_new challenge_key config = Ret s0 -> rtc net_server_step s0 s ->
  server_inv config s /\ ns_connected_clients s <= sc_max_clients config.
Proof.
  intros Hmax Hnew Hreach. assert (server_inv config s) as Hinv by (eauto using net_server_reach_inv, new_inv).
  split; [done|]. rewrite <- (sv_slots _ _ Hinv). apply count_clients_le.
Qed.

(** A server with two slots, and the request of a client to it. *)
Definition sample_config : ServerConfig := mkServerConfig 0 2 9 [sample_addr] (ServerSecure (replicate 32 (byte_of 9))).

Definition sample_request (client_id nonce : Z) : Bytes :=
  let rnd := mkTokenRandom (replicate 32 (byte_of 1)) (replicate 32 (byte_of 2)) [] (replicate 24 (byte_of nonce)) in
  match token_generate rnd 0 9 300 client_id 15 [sample_addr] (Some (replicate 256 (byte_of client_id))) (replicate 32 (byte_of 9)) with
  | Ret (Ok t) =>
      match net_encode (connection_request_from_token t) (replicate 1400 (byte_of 0)) 9 None with
      | Ret (b, Ok n) => take (Z.to_nat n) b
      | _ => []
      end
  | _ => []
  end.

Definition peer (n : Z) : SocketAddr := V4 (byte_of <$> [10; 0; 0; n]) 6000.

Definition out_default {A} (d : A) (m : out A) : A := match m with Ret a => a | Panic => d end.

Definition sample_server : NetcodeServer :=
  out_default (mkNetServer [] ∅ [] 0 [] 0 0 [] [] 0 0 false []) (net_server_new (replicate 32 (byte_of 8)) sample_config).

Definition sample_process (s : NetcodeServer) (addr : SocketAddr) (buffer : Bytes) : NetcodeServer * ServerResult :=
  out_default (s, SrNone) (net_server_process_packet s addr buffer).

Lemma out_default_ret {A} (d : A) m : is_ret m = true -> m = Ret (out_default d m).
Proof. by destruct m. Qed.

Lemma netcode_server_invariant_witness :
  let s := (sample_process sample_server (peer 1) (sample_request 7 0)).1 in
  server_inv sample_config s /\ size (ns_pending_clients s) = 1%nat.
Proof.
  intros s. split; [|vm_compute; reflexivity].
  apply (netcode_server_invariant (replicate 32 (byte_of 8)) sample_config sample_server s).
  - cbn. lia.
  - apply (out_default_ret _ (net_server_new _ _)). vm_compute. reflexivity.
  - apply rtc_once. apply (step_process _ (peer 1) (sample_request 7 0) _
      (sample_process sample_server (peer 1) (sample_request 7 0)).2).
    unfold s. rewrite <- surjective_pairing. apply out_default_ret. vm_compute. reflexivity.
Defined.
