(* ===== verification/NetServerProps.v ===== *)
(** * What the netcode server accepts

    Every result of [process_packet] is explained by an authentic packet from
    the right connection; which datagrams can make the server panic; and the
    one identity check that is missing in the answer to a response. *)

From S2P Require Import Prelude Netcode ReplayProtection Token NetPacket NetClient NetServer NetServerInv.

Section props.
Context {aead : Aead} {laws : AeadLaws aead}.
Implicit Types s : NetcodeServer.

(** The datagram is an authentic packet [p] of the connection, and no replay. *)
Definition authentic_from (s : NetcodeServer) (buffer : Bytes) (c : Connection) (p : NetPacket) : Prop :=
  exists rp' sequence,
    authentic buffer (ns_protocol_id s) (cn_receive_key c) (Some (cn_replay_protection c)) rp' sequence p.

(** The connected client at an address. *)
Definition connected_at (s : NetcodeServer) (addr : SocketAddr) (c : Connection) : Prop :=
  exists slot, find_client_mut_by_addr (ns_clients s) addr = Some (slot, c).

(** Why [process_packet] gives a result:
    - a payload is what the connected client at this address sent;
    - a client disconnects by its own packet;
    - a client connects because the pending client at this address answered
      with a challenge token sealed by the server, whose client id is not
      connected yet, and there is a free slot; its user data is the token's. *)
Definition explained (s : NetcodeServer) (addr : SocketAddr) (buffer : Bytes) (r : ServerResult) : Prop :=
  match r with
  | SrNone => True
  | SrPacketToSend addr' _ => addr' = addr
  | SrPayload client_id payload =>
      exists c, connected_at s addr c /\ client_id = cn_client_id c /\ authentic_from s buffer c (Payload payload)
  | SrClientDisconnected client_id addr' payload =>
      addr' = addr /\ payload = None /\
      exists c, connected_at s addr c /\ client_id = cn_client_id c /\ authentic_from s buffer c Disconnect
  | SrClientConnected client_id addr' user_data _ =>
      addr' = addr /\ find_client_mut_by_addr (ns_clients s) addr = None /\ is_Some (free_slot 0 (ns_clients s)) /\
      exists c sequence data token,
        ns_pending_clients s !! addr = Some c /\ client_id = cn_client_id c /\
        authentic_from s buffer c (Response sequence data) /\
        challenge_decode data sequence (ns_challenge_key s) = Ret (Ok token) /\ user_data = ch_user_data token /\
        find_client_slot_by_id (ns_clients s) (ch_client_id token) = None
  end.

Lemma deny_explained s addr key s' r s0 buffer :
  deny s addr key = Ret (s', Ok r) -> explained s0 addr buffer r.
Proof using.
  unfold deny. destruct (ns_encode _ _ _ _) as [[s1 [n|]]|]; cbn [out_bind]; [|done..].
  destruct (add64 _ _); cbn [out_bind]; [|done]. by intros [= _ <-].
Qed.

Lemma challenge_explained s addr expire token s' r s0 buffer :
  challenge s addr expire token = Ret (s', Ok r) -> explained s0 addr buffer r.
Proof using.
  unfold challenge. destruct (add64 _ _); cbn [out_bind]; [|done].
  destruct (generate_challenge _ _ _ _) as [[p|]|]; cbn [out_bind]; [|done..].
  destruct (ns_encode _ _ _ _) as [[s1 [n|]]|]; cbn [out_bind]; [|done..].
  destruct (add64 _ _); cbn [out_bind]; [|done]. by intros [= _ <-].
Qed.

Lemma handle_request_explained s addr v pid ex xn data s' r s0 buffer :
  handle_connection_request s addr v pid ex xn data = Ret (s', Ok r) -> explained s0 addr buffer r.
Proof using.
  unfold handle_connection_request.
  destruct (negb (bool_decide (v = _))); [done|]. destruct (negb (pid =? _)); [done|]. destruct (ex <=? _); [done|].
  destruct (private_decode _ _ _ _ _) as [[token|]|]; cbn [out_bind]; [|done..]. destruct (ns_secure s && _); [done|].
  destruct (_ || _); [by intros [= _ <-]|]. destruct (bool_decide (ns_pending_clients s !! addr = None) && _); [by intros [= _ <-]|].
  destruct (find_or_add_connect_token_entry _ _) as [[s1 b]|]; cbn [out_bind]; [|done].
  destruct (negb b); [by intros [= _ <-]|]. destruct (_ <=? _); [apply deny_explained|apply challenge_explained].
Qed.

Lemma process_connected_explained s addr slot c buffer s' r :
  find_client_mut_by_addr (ns_clients s) addr = Some (slot, c) ->
  process_connected s addr slot c buffer = Ret (s', Ok r) -> explained s addr buffer r.
Proof using laws.
  intros Hc H. unfold process_connected in H. destruct (net_decode _ _ _ _) as [[o [[q p]|]]|] eqn:E; cbn [out_bind] in H; [| |done].
  2: { destruct (vec_set _ _ _); by cbn [out_bind] in H. }
  set (c' := match o with Some _ => _ | None => _ end) in H.
  assert (cn_client_id c' = cn_client_id c) as Hid by (unfold c'; by destruct o).
  assert (connected_at s addr c) as Hat by (by exists slot).
  assert (forall q0, p = q0 -> is_request q0 = false -> authentic_from s buffer c q0) as Hau.
  { intros q0 <- Hr. apply net_decode_inv in E as [[? _]|(_ & k & [= <-] & Ha)]; [congruence|by exists o, q]. }
  clearbody c'. cbn zeta in H.
  destruct (cn_state _), p; destruct (vec_set _ _ _); cbn [out_bind] in H; try done; injection H as _ <-; try done; cbn.
  - exists c. split_and!; [done|done|by apply Hau].
  - split_and!; try done. exists c. split_and!; [done|done|by apply Hau].
Qed.

Lemma process_pending_explained s addr c buffer s' r :
  find_client_mut_by_addr (ns_clients s) addr = None -> ns_pending_clients s !! addr = Some c ->
  process_pending s addr c buffer = Ret (s', Ok r) -> explained s addr buffer r.
Proof using laws.
  intros Hno Hc H. unfold process_pending in H. destruct (net_decode _ _ _ _) as [[o [[q p]|]]|] eqn:E; cbn [out_bind] in H; [|done..].
  destruct p as [| | |ts td| | |]; try by injection H as _ <-.
  { by eapply handle_request_explained. }
  apply net_decode_inv in E as [[? _]|(_ & k & [= <-] & Ha)]; [done|].
  unfold process_response in H. set (c' := match o with Some _ => _ | None => _ end) in H.
  assert (cn_client_id c' = cn_client_id c) as Hid by (unfold c'; by destruct o). clearbody c'.
  set (s1 := ns_set_pending s _) in H. change (ns_challenge_key s1) with (ns_challenge_key s) in H.
  destruct (challenge_decode _ _ _) as [[token|]|] eqn:Ed; cbn [out_bind] in H; [|done..].
  assert (ns_pending_clients s1 !! addr = Some (cn_set_last_received c' (ns_current_time s))) as Hp by (cbn; by rewrite lookup_insert_eq).
  rewrite Hp in H. cbn [unwrap out_bind] in H. change (ns_clients (ns_set_pending s1 _)) with (ns_clients s) in H.
  destruct (find_client_slot_by_id _ _) eqn:Hid2; [by injection H as _ <-|].
  destruct (free_slot 0 _) as [i|] eqn:Hf; [|by eapply deny_explained].
  destruct (ns_encode _ _ _ _) as [[s2 [n|]]|]; cbn [out_bind] in H; [|done..].
  destruct (add64 _ _); cbn [out_bind] in H; [|done]. destruct (vec_set _ _ _); cbn [out_bind] in H; [|done].
  injection H as _ <-. cbn. split_and!; try done. exists c, ts, td, token. split_and!; try done. by eexists _, _.
Qed.

Lemma process_packet_internal_explained s addr buffer s' r :
  process_packet_internal s addr buffer = Ret (s', Ok r) -> explained s addr buffer r.
Proof using laws.
  intros H. unfold process_packet_internal in H. destruct (_ <? _); [done|].
  destruct (find_client_mut_by_addr (ns_clients s) addr) as [[i c]|] eqn:Ha; [by eapply process_connected_explained|].
  destruct (ns_pending_clients s !! addr) as [c|] eqn:Hp; [by eapply process_pending_explained|].
  destruct (net_decode _ _ _ _) as [[o [[q p]|]]|]; cbn [out_bind] in H; [|done..].
  destruct p; try done. by eapply handle_request_explained.
Qed.

(** ** Which datagrams panic *)

Lemma read_bytes_len n src b rest : 0 <= n -> read_bytes n src = Ok (b, rest) -> len b = n.
Proof using. unfold read_bytes. destruct (Z.ltb_spec (len src) n); [done|]. intros ? [= <- _]. rewrite len_take; lia. Qed.

Lemma read_u64_range src v rest : read_u64 src = Ok (v, rest) -> u64 v.
Proof using.
  unfold read_u64. destruct (read_bytes 8 src) as [[b r]|] eqn:E; [|done]. intros [= <- _].
  apply read_bytes_len in E; [|lia]. pose proof (le_val_range b) as H. rewrite E in H.
  unfold u64, U64_MAX. cbn in H. lia.
Qed.

Lemma packet_read_data t src p : packet_read t src = Ok p ->
  match p with
  | ConnectionRequest _ _ _ _ data => len data = NETCODE_CONNECT_TOKEN_PRIVATE_BYTES
  | Response _ data => len data = NETCODE_CHALLENGE_TOKEN_BYTES
  | _ => True
  end.
Proof using.
  destruct t; cbn [packet_read]; intros H;
    repeat (match type of H with context [read_bytes ?n ?b] => destruct (read_bytes n b) as [[? ?]|] eqn:? end || 
            match type of H with context [read_u64 ?b] => destruct (read_u64 b) as [[? ?]|] end ||
            match type of H with context [read_u32 ?b] => destruct (read_u32 b) as [[? ?]|] end; try done);
    injection H as <-; try done; by eapply read_bytes_len.
Qed.

Lemma private_read_fields src t : private_read src = Ok t -> u64 (pt_client_id t) /\ len (pt_user_data t) = NETCODE_USER_DATA_BYTES.
Proof using.
  unfold private_read. destruct (read_u64 src) as [[id s1]|] eqn:E1; [|done]. destruct (read_i32 s1) as [[to s2]|]; [|done].
  destruct (read_server_addresses s2) as [[adr s3]|]; [|done]. destruct (read_bytes 32 s3) as [[k1 s4]|]; [|done].
  destruct (read_bytes 32 s4) as [[k2 s5]|]; [|done]. destruct (read_bytes 256 s5) as [[ud s6]|] eqn:E2; [|done].
  intros [= <-]. split; [by eapply read_u64_range|by eapply read_bytes_len].
Qed.

Lemma decrypt_buffer_total c key nonce aad buffer :
  NETCODE_MAC_BYTES <= len buffer -> exists r, decrypt_buffer c key nonce aad buffer = Ret r.
Proof using. intros H. unfold decrypt_buffer. rewrite sub64_ok by done. cbn [out_bind]. destruct (aead_decrypt _ _ _ _ _ _); by eexists. Qed.

(** The sequences have not reached the end of their type. *)
Record sequences_left (s : NetcodeServer) : Prop := {
  sl_global : 0 <= ns_global_sequence s < U64_MAX;
  sl_challenge : 0 <= ns_challenge_sequence s < U64_MAX;
  sl_pending : forall a c, ns_pending_clients s !! a = Some c -> 0 <= cn_sequence c < U64_MAX;
}.

Section total.
Context (config : ServerConfig).

Lemma ns_encode_total s p q key :
  len (ns_out s) = NETCODE_MAX_PACKET_BYTES -> is_request p = false -> packet_wf p -> u64 q ->
  exists out n, ns_encode s p q key = Ret (ns_set_out s out, Ok n).
Proof using laws.
  intros Ho Hr Hwf Hq. unfold ns_encode.
  destruct (net_encode_spec p (ns_out s) (ns_protocol_id s) q key) as (b & w & E & _); try done; [lia|]. rewrite E. cbn. by eexists _, _.
Qed.

Lemma deny_total s addr key :
  len (ns_out s) = NETCODE_MAX_PACKET_BYTES -> 0 <= ns_global_sequence s < U64_MAX -> exists s' r, deny s addr key = Ret (s', Ok r).
Proof using laws.
  intros Ho Hg. unfold deny. destruct (ns_encode_total s ConnectionDenied (ns_global_sequence s) key) as (o & n & ->); try done; [unfold u64; lia|].
  cbn [out_bind ns_set_out ns_global_sequence]. rewrite add64_ok by lia. by eexists _, _.
Qed.

Lemma challenge_total s addr expire token :
  len (ns_out s) = NETCODE_MAX_PACKET_BYTES -> sequences_left s -> u64 (pt_client_id token) ->
  len (pt_user_data token) = NETCODE_USER_DATA_BYTES -> exists s' r, challenge s addr expire token = Ret (s', Ok r).
Proof using laws.
  intros Ho [Hg Hc _] Hid Hud. unfold challenge. rewrite add64_ok by lia. cbn [out_bind ns_set_challenge_sequence ns_challenge_sequence ns_challenge_key].
  destruct (generate_challenge_spec (pt_client_id token) (pt_user_data token) (ns_challenge_sequence s + 1) (ns_challenge_key s))
    as (data & -> & Hd & _); [done..|]. cbn [out_bind]. set (s1 := ns_set_challenge_sequence s _).
  destruct (ns_encode_total s1 (Challenge (ns_challenge_sequence s + 1) data) (ns_global_sequence s1) (pt_server_to_client_key token))
    as (o & n & ->); try done; [split; [unfold u64; lia|done]|unfold u64; cbn; lia|].
  cbn [out_bind ns_set_out ns_global_sequence]. rewrite add64_ok by (cbn; lia). by eexists _, _.
Qed.

Lemma handle_request_total s addr v pid ex xn data :
  server_inv config s -> sequences_left s -> len data = NETCODE_CONNECT_TOKEN_PRIVATE_BYTES ->
  exists s' r, handle_connection_request s addr v pid ex xn data = Ret (s', r).
Proof using laws.
  intros Hinv Hseq Hl. unfold handle_connection_request.
  destruct (negb (bool_decide (v = _))); [by eexists _, _|]. destruct (negb (pid =? _)); [by eexists _, _|].
  destruct (ex <=? _); [by eexists _, _|]. 
  destruct (decrypt_buffer_total XChaCha20Poly1305 (ns_connect_key s) xn (token_additional_data (ns_protocol_id s) ex) data) as [rd Ed].
  { rewrite Hl. unfold NETCODE_MAC_BYTES, NETCODE_CONNECT_TOKEN_PRIVATE_BYTES. lia. }
  unfold private_decode, dencrypted_in_place_xnonce. rewrite Ed. cbn [out_bind]. destruct rd as [plain|]; cbn [out_bind]; [|by eexists _, _].
  destruct (private_read plain) as [token|] eqn:Er; cbn [map_err out_bind]; [|by eexists _, _]. apply private_read_fields in Er as [Hid Hud].
  destruct (ns_secure s && _); [by eexists _, _|]. destruct (_ || _); [by eexists _, _|]. destruct (_ && _); [by eexists _, _|].
  match goal with |- context [find_or_add_connect_token_entry s ?e] => destruct (find_or_add_inv config s e Hinv) as (s1 & b & E & Hinv1 & _) end.
  assert (ns_global_sequence s1 = ns_global_sequence s /\ ns_challenge_sequence s1 = ns_challenge_sequence s /\
    ns_pending_clients s1 = ns_pending_clients s) as (Hg & Hc & Hp).
  { unfold find_or_add_connect_token_entry in E. destruct (es_match _); [by injection E as <- _|].
    destruct (vec_set _ _ _); [|done]. by injection E as <- _. }
  rewrite E. cbn [out_bind]. destruct (negb b); [by eexists _, _|]. destruct Hseq as [H1 H2 H3].
  destruct (ns_max_clients s1 <=? _).
  - destruct (deny_total (ns_set_pending s1 (delete addr (ns_pending_clients s1))) addr (pt_server_to_client_key token)) as (s' & r & ->);
      [apply (sv_out _ _ Hinv1)|cbn; lia|by eexists _, _].
  - destruct (challenge_total s1 addr ex token) as (s' & r & ->); [apply (sv_out _ _ Hinv1)| |done|done|by eexists _, _].
    constructor; rewrite ?Hg, ?Hc, ?Hp; done.
Qed.

Lemma process_connected_panic s addr slot c buffer :
  server_inv config s -> find_client_mut_by_addr (ns_clients s) addr = Some (slot, c) ->
  process_connected s addr slot c buffer = Panic <->
  net_decode buffer (ns_protocol_id s) (Some (cn_receive_key c)) (Some (cn_replay_protection c)) = Panic.
Proof using.
  intros Hinv (Hi & _)%find_by_addr_Some. unfold process_connected.
  destruct (net_decode _ _ _ _) as [[o [[q p]|]]|]; cbn [out_bind]; [|by rewrite vec_set_ok by done|done].
  split; [|done]. set (c' := match o with Some _ => _ | None => _ end). clearbody c'.
  destruct (cn_state _), p; rewrite vec_set_ok by done; done.
Qed.

Lemma process_response_total s addr c q data :
  server_inv config s -> sequences_left s -> ns_pending_clients s !! addr = Some c -> len data = NETCODE_CHALLENGE_TOKEN_BYTES ->
  exists s' r, process_response s addr q data = Ret (s', r).
Proof using laws.
  intros Hinv [Hg _ Hp] Hc Hl. unfold process_response, challenge_decode, dencrypted_in_place.
  destruct (decrypt_buffer_total ChaCha20Poly1305 (ns_challenge_key s) (nonce_of q) [] data) as [rd ->].
  { rewrite Hl. unfold NETCODE_MAC_BYTES, NETCODE_CHALLENGE_TOKEN_BYTES. lia. }
  cbn [out_bind]. destruct rd as [plain|]; cbn [out_bind]; [|by eexists _, _].
  destruct (challenge_read plain) as [token|]; cbn [map_err out_bind]; [|by eexists _, _].
  rewrite Hc. cbn [unwrap out_bind]. set (s1 := ns_set_pending s _). destruct (find_client_slot_by_id _ _); [by eexists _, _|].
  destruct (free_slot 0 (ns_clients s1)) as [i|] eqn:Hf.
  2: { destruct (deny_total s1 addr (cn_send_key c)) as (s' & r & ->); [apply (sv_out _ _ Hinv)|done|by eexists _, _]. }
  apply free_slot_Some in Hf as [Hi _]. cbn [cn_set_last_send cn_set_user_data cn_set_state cn_sequence cn_send_key].
  apply Hp in Hc. 
  destruct (ns_encode_total s1 (KeepAlive (i mod 4294967296) (ns_max_clients s1 mod 4294967296)) (cn_sequence c) (cn_send_key c))
    as (o & n & ->); [apply (sv_out _ _ Hinv)|done| |unfold u64; lia|].
  { cbn. unfold U32_MAX. pose proof (Z.mod_pos_bound i 4294967296). pose proof (Z.mod_pos_bound (ns_max_clients s) 4294967296). lia. }
  cbn [out_bind]. rewrite add64_ok by lia. cbn [out_bind]. rewrite vec_set_ok by (cbn; cbn in Hi; lia). by eexists _, _.
Qed.

Lemma process_pending_panic s addr c buffer :
  server_inv config s -> sequences_left s -> find_client_mut_by_addr (ns_clients s) addr = None -> ns_pending_clients s !! addr = Some c ->
  process_pending s addr c buffer = Panic <->
  net_decode buffer (ns_protocol_id s) (Some (cn_receive_key c)) (Some (cn_replay_protection c)) = Panic.
Proof using laws.
  intros Hinv Hseq Hno Hc. unfold process_pending. destruct (net_decode _ _ _ _) as [[o [[q p]|]]|] eqn:E; cbn [out_bind]; [|done..].
  destruct (sv_pending _ _ Hinv _ _ Hc) as [_ Hcok]. destruct (decoded_conn _ _ _ _ _ _ _ _ E Hcok) as [Ha Hok].
  set (c' := match o with Some _ => _ | None => _ end) in *.
  assert (cn_sequence c' = cn_sequence c) as Hs by (unfold c'; by destruct o). clearbody c'.
  set (s1 := ns_set_pending s _) in *. assert (server_inv config s1) as Hinv1 by (by eapply inv_pending_update).
  assert (sequences_left s1) as Hseq1.
  { destruct Hseq as [H1 H2 H3]. constructor; [done|done|]. cbn. intros a x [[<- <-]|[_ H]]%lookup_insert_Some; [|by eapply H3].
    cbn. rewrite Hs. by eapply H3. }
  assert (match p with ConnectionRequest _ _ _ _ data => len data = NETCODE_CONNECT_TOKEN_PRIVATE_BYTES
    | Response _ data => len data = NETCODE_CHALLENGE_TOKEN_BYTES | _ => True end) as Hdata.
  { apply net_decode_inv in E as [(_ & _ & _ & E)|(_ & k & _ & Ha2)]; [by eapply packet_read_data|].
    destruct (au_seal _ _ _ _ _ _ _ Ha2) as (? & ? & ? & ? & ? & _ & _ & _ & _ & E). by eapply packet_read_data. }
  split; [|done]. destruct p as [v pid ex xn data| | |ts td| | |]; try done.
  - destruct (handle_request_total s1 addr v pid ex xn data) as (? & ? & ->); done.
  - destruct (process_response_total s1 addr (cn_set_last_received c' (ns_current_time s)) ts td) as (? & ? & ->); try done.
    cbn. apply lookup_insert_eq.
Qed.

(** A connection, connected or pending, at an address. *)
Definition connection_at (s : NetcodeServer) (addr : SocketAddr) (c : Connection) : Prop :=
  connected_at s addr c \/ (find_client_mut_by_addr (ns_clients s) addr = None /\ ns_pending_clients s !! addr = Some c).

Lemma new_request_total s addr buffer :
  server_inv config s -> sequences_left s ->
  (let! (_, r) := net_decode buffer (ns_protocol_id s) None None in
   match r with
   | Err e => Ret (s, Err e)
   | Ok (_, ConnectionRequest version_info protocol_id expire_timestamp xnonce data) =>
       handle_connection_request s addr version_info protocol_id expire_timestamp xnonce data
   | Ok _ => Panic
   end) <> Panic.
Proof using laws.
  intros Hinv Hseq. destruct (net_decode _ _ _ _) as [[o [[q p]|]]|] eqn:E; cbn [out_bind]; [|done|].
  - apply net_decode_inv in E as [(Hr & _ & _ & E)|(_ & k & ? & _)]; [|done]. apply packet_read_data in E.
    destruct p as [v pid ex xn data| | | | | |]; try done. by destruct (handle_request_total s addr v pid ex xn data) as (? & ? & ->).
  - exfalso. unfold net_decode in E. destruct (Z.ltb_spec (len buffer) (2 + NETCODE_MAC_BYTES)) as [|Hl]; [done|].
    destruct buffer as [|x rest]; [by vm_compute in Hl|]. rewrite vec_get_head in E. cbn [out_bind] in E.
    destruct (decode_prefix _) as [ty n]. destruct (type_from_u8 ty) as [t|]; [|done]. by destruct (is_connection_request t).
Qed.

End total.

End props.

(** ** Properties *)

(** C10: Whatever [process_packet] reports about a datagram is explained by it
    (see [explained]): payloads and disconnections are authentic packets of the
    client connected at the sender's address, and a client connects only by
    answering, under the keys of its own connect token, a challenge that the
    server sealed. *)
Theorem server_results_authentic {aead : Aead} {laws : AeadLaws aead} s addr buffer s' r :
  net_server_process_packet s addr buffer = Ret (s', r) -> explained s addr buffer r.
Proof.
  unfold net_server_process_packet. destruct (process_packet_internal s addr buffer) as [[s1 [r1|e]]|] eqn:E; cbn [out_bind]; [| |done].
  - intros [= <- <-]. by eapply process_packet_internal_explained.
  - by intros [= <- <-].
Qed.

(** The client at [peer n] asks to connect, and gets a challenge packet. *)
Definition sample_ask (s : NetcodeServer) (n client_id nonce : Z) : NetcodeServer * Bytes :=
  match sample_process s (peer n) (sample_request client_id nonce) with
  | (s', SrPacketToSend _ packet) => (s', packet)
  | (s', _) => (s', [])
  end.

(** The answer to a challenge packet. *)
Definition sample_answer (challenge : Bytes) : Bytes :=
  match net_decode challenge 9 (Some (replicate 32 (byte_of 2))) None with
  | Ret (_, Ok (_, Challenge sequence data)) =>
      match net_encode (Response sequence data) (replicate 1400 (byte_of 0)) 9 (Some (1, replicate 32 (byte_of 1))) with
      | Ret (b, Ok n) => take (Z.to_nat n) b
      | _ => []
      end
  | _ => []
  end.

Definition sample_pending : NetcodeServer := (sample_ask sample_server 1 7 0).1.
Definition sample_response : Bytes := sample_answer (sample_ask sample_server 1 7 0).2.

Lemma server_results_authentic_witness :
  exists packet, explained sample_pending (peer 1) sample_response (SrClientConnected 7 (peer 1) (replicate 256 (byte_of 7)) packet).
Proof.
  destruct (net_server_process_packet sample_pending (peer 1) sample_response) as [[s' r]|] eqn:E.
  - exists (match r with SrClientConnected _ _ _ packet => packet | _ => [] end).
    assert (r = SrClientConnected 7 (peer 1) (replicate 256 (byte_of 7)) (match r with SrClientConnected _ _ _ packet => packet | _ => [] end)) as Hr.
    { assert ((let! x := net_server_process_packet sample_pending (peer 1) sample_response in
               Ret (match x.2 with SrClientConnected id a ud _ => Some (id, a, ud) | _ => None end)) =
              Ret (Some (7, peer 1, replicate 256 (byte_of 7)))) as H by (vm_compute; reflexivity).
      rewrite E in H. destruct r; try discriminate H. cbn [out_bind snd] in H. by injection H as -> -> ->. }
    rewrite <- Hr. exact (server_results_authentic sample_pending (peer 1) sample_response s' r E).
  - exfalso. assert (is_ret (net_server_process_packet sample_pending (peer 1) sample_response) = true) as H by (vm_compute; reflexivity).
    rewrite E in H. discriminate H.
Defined.

(** C37: While the sequence counters last, a datagram makes the server panic
    exactly when decoding it with the key of the connection at its address
    panics: every other path through the handshake, from any address, returns. *)
Theorem server_panic_iff {aead : Aead} {laws : AeadLaws aead} config s addr buffer :
  server_inv config s -> sequences_left s ->
  net_server_process_packet s addr buffer = Panic <->
  exists c, connection_at s addr c /\
    net_decode buffer (ns_protocol_id s) (Some (cn_receive_key c)) (Some (cn_replay_protection c)) = Panic.
Proof.
  intros Hinv Hseq. trans (process_packet_internal s addr buffer = Panic).
  { unfold net_server_process_packet. by destruct (process_packet_internal s addr buffer) as [[s1 [r1|e]]|]. }
  unfold process_packet_internal, connection_at, connected_at. destruct (Z.ltb_spec (len buffer) (2 + NETCODE_MAC_BYTES)) as [Hl|Hl].
  { split; [done|]. intros (c & _ & H). unfold net_decode in H. by rewrite (proj2 (Z.ltb_lt _ _)) in H. }
  destruct (find_client_mut_by_addr (ns_clients s) addr) as [[i c]|] eqn:Ha.
  { rewrite (process_connected_panic config) by done. split; [intros H; exists c; split; [left; by exists i|done]|].
    intros (c' & [[i' Hc']|[Hc' _]] & Hd); by simplify_eq. }
  destruct (ns_pending_clients s !! addr) as [c|] eqn:Hp.
  - rewrite (process_pending_panic config) by done. split; [intros H; exists c; split; [by right|done]|].
    intros (c' & [[i' Hc']|[_ Hc']] & Hd); by simplify_eq.
  - split; [intros H; exfalso; by eapply new_request_total|]. intros (c' & [[i' Hc']|[_ Hc']] & Hd); by simplify_eq.
Qed.

Lemma server_panic_iff_witness :
  net_server_process_packet sample_pending (peer 1) (replicate 18 (byte_of 245)) = Panic.
Proof.
  assert (bool_decide (is_Some (ns_pending_clients sample_pending !! peer 1)) = true) as [c Hc]%bool_decide_eq_true
    by (vm_compute; reflexivity).
  apply (server_panic_iff sample_config sample_pending (peer 1) (replicate 18 (byte_of 245))).
  - assert (server_inv sample_config sample_server) as H0.
    { apply (new_inv sample_config (replicate 32 (byte_of 8))); [cbn; lia|].
      apply (out_default_ret _ (net_server_new _ _)). vm_compute. reflexivity. }
    assert (sample_pending = (sample_process sample_server (peer 1) (sample_request 7 0)).1) as ->.
    { unfold sample_pending, sample_ask. by destruct (sample_process _ _ _) as [s []]. }
    apply (net_process_packet_inv sample_config sample_server (peer 1) (sample_request 7 0) _
      (sample_process sample_server (peer 1) (sample_request 7 0)).2 H0).
    rewrite <- surjective_pairing. apply out_default_ret. vm_compute. reflexivity.
  - constructor; [vm_compute; split; congruence..|].
    intros a x Hx. assert (map_Forall (fun _ c => cn_sequence c = 0) (ns_pending_clients sample_pending)) as HF
      by (apply (bool_decide_unpack _); vm_compute; exact I).
    apply HF in Hx. unfold U64_MAX. lia.
  - exists c. split; [right; split; [vm_compute; reflexivity|exact Hc]|]. reflexivity.
Defined.

(** Two clients with the same id. The response is checked against the id inside
    the challenge token only, not against the id of the pending client: client
    7, pending at a second address, answers with the challenge of client 8, and
    occupies a second slot, with the user data of client 8. *)
Definition sample_duplicate : NetcodeServer :=
  let (s, _) := sample_ask sample_server 1 7 0 in
  let (s, challenge8) := sample_ask s 2 8 0 in
  let (s, challenge7) := sample_ask s 3 7 1 in
  let (s, _) := sample_process s (peer 3) (sample_answer challenge7) in
  let (s, _) := sample_process s (peer 1) (sample_answer challenge8) in
  s.

Example response_id_not_checked :
  ns_clients_id sample_duplicate = [7; 7] /\
  (cn_user_data <$> omap id (ns_clients sample_duplicate)) = [replicate 256 (byte_of 7); replicate 256 (byte_of 8)].
Proof. vm_compute. split; reflexivity. Qed.
