(* ===== verification/NetClientProps.v ===== *)
(** * Properties of the netcode client

    Runs of [NetcodeClient] over any sequence of calls: payloads are authentic
    and delivered at most once, the client follows the addresses of its token,
    and a client that hears nothing gives up. *)

From S2P Require Import Prelude Netcode ReplayProtection Token NetPacket NetClient.

(** Computing the fields of an updated client. *)
Ltac nc_simpl :=
  cbn [out_bind nc_set_state nc_set_connect_start nc_set_last_send nc_set_last_received nc_set_time nc_set_sequence nc_set_server
       nc_set_challenge nc_set_slot nc_set_replay nc_set_out nc_state nc_client_id nc_connect_start_time nc_last_packet_send_time
       nc_last_packet_received_time nc_current_time nc_sequence nc_server_addr nc_server_addr_index nc_connect_token
       nc_challenge_token_sequence nc_challenge_token_data nc_max_clients nc_client_index nc_send_rate nc_replay_protection nc_out].

Section runs.
Context {aead : Aead} {laws : AeadLaws aead}.
Implicit Types c : NetcodeClient.

(** ** Runs *)

Inductive client_action :=
  | ActProcess (buffer : Bytes)
  | ActUpdate (duration : Z)
  | ActPayload (payload : Bytes)
  | ActDisconnect.

(** One call, with the payload it gives to the application. *)
Definition client_act (c : NetcodeClient) (a : client_action) : out (NetcodeClient * option Bytes) :=
  match a with
  | ActProcess buffer => net_client_process_packet c buffer
  | ActUpdate duration => let! (c, _) := net_client_update c duration in Ret (c, None)
  | ActPayload payload => let! (c, _) := net_client_generate_payload_packet c payload in Ret (c, None)
  | ActDisconnect => let! (c, _) := net_client_disconnect c in Ret (c, None)
  end.

Fixpoint client_run (c : NetcodeClient) (actions : list client_action) : out (NetcodeClient * list Bytes) :=
  match actions with
  | [] => Ret (c, [])
  | a :: actions =>
      let! (c, p) := client_act c a in
      let! (c, ps) := client_run c actions in
      Ret (c, option_list p ++ ps)
  end.

(** ** What the calls leave alone *)

(** Only [process_packet] touches the replay protection, nothing the token. *)
Definition same_channel (c c' : NetcodeClient) : Prop :=
  nc_connect_token c' = nc_connect_token c /\ nc_replay_protection c' = nc_replay_protection c.

(** The address in use is the token's at the current index. *)
Definition on_route (c : NetcodeClient) : Prop :=
  len (nc_out c) = NETCODE_MAX_PACKET_BYTES /\ 0 <= nc_server_addr_index c /\
  (nc_is_disconnected c = false ->
   ct_server_addresses (nc_connect_token c) !! Z.to_nat (nc_server_addr_index c) = Some (Some (nc_server_addr c))).

Lemma nc_encode_frame c p c' r : nc_encode c p = Ret (c', r) -> exists o, c' = nc_set_out c o /\ len o = len (nc_out c).
Proof using.
  unfold nc_encode. destruct (net_encode _ _ _ _) as [[b r']|] eqn:E; [|done]. cbn. intros [= <- <-].
  exists b. split; [done|]. by eapply net_encode_len.
Qed.

Lemma update_internal_frame c d c' r :
  net_client_update_internal_state c d = Ret (c', r) -> same_channel c c' /\ (on_route c -> on_route c').
Proof using.
  intros H. unfold net_client_update_internal_state in H. destruct (dur_add _ _) as [time|]; cbn [out_bind] in H; [|done].
  destruct (timed_out _ _ _) as [to|]; cbn [out_bind] in H; [|done].
  assert (forall st r', Ret (nc_set_state (nc_set_time c time) (CDisconnected st), r') = Ret (c', r) -> same_channel c c' /\ (on_route c -> on_route c')) as Hdis.
  { intros st r' [= <- _]. split; [done|]. by intros (Ho & Hi & _). }
  assert (forall r', Ret (nc_set_time c time, r') = Ret (c', r) -> same_channel c c' /\ (on_route c -> on_route c')) as Hkeep.
  { intros r' [= <- _]. done. }
  assert (net_client_next_server (nc_set_time c time) = Ret (c', r) -> same_channel c c' /\ (on_route c -> on_route c')) as Hnext.
  { clear. unfold net_client_next_server. destruct (add64 _ _) as [i|] eqn:Ei; cbn [out_bind]; [|done]. apply add64_inv in Ei as [-> _].
    cbn [nc_set_state nc_set_time nc_server_addr_index nc_set_server nc_connect_token].
    destruct (32 <=? _); [intros [= <- _]; split; [done|]; intros (Ho & Hi & _); split_and!; [done|cbn; lia|done]|].
    destruct (vec_get _ _) as [slot|] eqn:Eg; cbn [out_bind]; [|done]. apply vec_get_inv in Eg as [Hi Hs].
    destruct slot as [a|]; intros [= <- _]; (split; [done|]; intros (Ho & Hi' & _); split_and!; [done|cbn; lia|done]). }
  destruct (nc_state (nc_set_time c time)); [by eapply Hkeep| | |destruct to; [by eapply Hdis|by eapply Hkeep]].
  all: destruct (sub64 _ _); cbn [out_bind] in H; [|done]; destruct (dur_sub _ _); cbn [out_bind] in H; [|done];
    destruct (_ <=? _); [by eapply Hdis|]; destruct to; [by apply Hnext|by eapply Hkeep].
Qed.

Lemma generate_packet_frame c c' r :
  net_client_generate_packet c = Ret (c', r) -> same_channel c c' /\ (on_route c -> on_route c').
Proof using.
  intros H. unfold net_client_generate_packet in H. destruct (match nc_last_packet_send_time c with Some _ => _ | None => _ end) as [[]|];
    cbn [out_bind] in H; [by injection H as <- _| |done].
  set (c1 := match nc_state c with CDisconnected _ => c | _ => _ end) in H.
  assert (same_channel c c1 /\ (on_route c -> on_route c1)) as [Hs1 Hr1] by (unfold c1; by destruct (nc_state c)). clearbody c1.
  destruct (match nc_state c1 with CDisconnected _ => None | _ => _ end) as [p|]; [|by injection H as <- _].
  destruct (nc_encode c1 p) as [[c2 r2]|] eqn:E; cbn [out_bind] in H; [|done]. apply nc_encode_frame in E as (o & -> & Ho).
  assert (on_route c -> on_route (nc_set_out c1 o)) as Hr2.
  { intros (H1 & H2 & H3)%Hr1. split_and!; [cbn; lia|done|done]. }
  destruct r2; [|by injection H as <- _]. destruct (add64 _ _); cbn [out_bind] in H; [|done]. by injection H as <- _.
Qed.

Lemma update_frame c d c' r : net_client_update c d = Ret (c', r) -> same_channel c c' /\ (on_route c -> on_route c').
Proof using.
  unfold net_client_update. destruct (net_client_update_internal_state c d) as [[c1 r1]|] eqn:E; cbn [out_bind]; [|done].
  apply update_internal_frame in E as [[Ht Hp] Hr]. destruct r1; [|by intros [= <- _]].
  intros [[Ht2 Hp2] Hr2]%generate_packet_frame. split; [split; congruence|auto].
Qed.

Lemma payload_frame c p c' r :
  net_client_generate_payload_packet c p = Ret (c', r) -> same_channel c c' /\ (on_route c -> on_route c').
Proof using.
  unfold net_client_generate_payload_packet. destruct (_ <? _); [by intros [= <- _]|]. destruct (negb _); [by intros [= <- _]|].
  destruct (nc_encode _ _) as [[c1 r1]|] eqn:E; cbn [out_bind]; [|done]. apply nc_encode_frame in E as (o & -> & Ho).
  assert (on_route c -> on_route (nc_set_out c o)) as Hr2 by (intros (H1 & H2 & H3); split_and!; [cbn; lia|done|done]).
  destruct r1; [|by intros [= <- _]]. destruct (add64 _ _); cbn [out_bind]; [|done]. by intros [= <- _].
Qed.

Lemma disconnect_frame c c' r :
  net_client_disconnect c = Ret (c', r) -> same_channel c c' /\ (on_route c -> on_route c').
Proof using.
  unfold net_client_disconnect. destruct (nc_encode _ _) as [[c1 r1]|] eqn:E; cbn [out_bind]; [|done].
  apply nc_encode_frame in E as (o & -> & Ho).
  assert (on_route c -> on_route (nc_set_out (nc_set_state c (CDisconnected NetDisconnectedByClient)) o)) as Hr2.
  { intros (H1 & H2 & H3). split_and!; [cbn in *; lia|done|done]. }
  destruct r1; by intros [= <- _].
Qed.

Lemma handle_frame c p : same_channel c (net_client_handle c p).1 /\ (on_route c -> on_route (net_client_handle c p).1) /\
  (forall payload, (net_client_handle c p).2 = Some payload -> p = Payload payload).
Proof using.
  unfold net_client_handle. destruct p; destruct (nc_state c) eqn:E; split_and!; try done; cbn [fst];
    try (intros (H1 & H2 & H3); split_and!; [done|done|]; cbn; rewrite ?E; intros; apply H3; unfold nc_is_disconnected; by rewrite E).
  all: try (intros payload' [= <-]; done).
Qed.

(** ** Runs deliver each authentic payload once *)

(** A delivered payload, the sequence and the datagram that carried it. *)
Definition carries (c : NetcodeClient) (d : Z * Bytes) (payload : Bytes) : Prop :=
  is_sealed d.2 (ct_protocol_id (nc_connect_token c)) (ct_server_to_client_key (nc_connect_token c)) d.1 (Payload payload).

Lemma process_packet_frame acc c buffer c' p :
  replay_inv acc (nc_replay_protection c) -> net_client_process_packet c buffer = Ret (c', p) ->
  nc_connect_token c' = nc_connect_token c /\ (on_route c -> on_route c') /\
  ((p = None /\ replay_inv acc (nc_replay_protection c')) \/
   exists q, (q ∉ acc) /\ replay_inv (q :: acc) (nc_replay_protection c') /\
     (forall payload, p = Some payload -> carries c (q, buffer) payload)).
Proof using laws.
  intros Hinv H. unfold net_client_process_packet in H.
  destruct (net_decode _ _ _ _) as [[o r]|] eqn:E; cbn [out_bind] in H; [|done].
  destruct (net_decode_accepts acc _ _ _ _ _ _ E Hinv) as (rp' & -> & Hrp). set (c1 := nc_set_replay c rp') in H.
  assert ((forall q0 payload, r = Ok (q0, Payload payload) -> exists q, (q ∉ acc) /\ replay_inv (q :: acc) rp' /\
    carries c (q, buffer) payload)) as Hpay.
  { intros q0 payload ->. apply net_decode_inv in E as [[? _]|(_ & k & [= <-] & [Hseal Hf Ha])]; [done|]. exists q0.
    cbn in Hf, Ha. destruct (advance_sequence _ _) as [rp2|] eqn:Eadv; [|done]. cbn in Ha. injection Ha as ->.
    assert (0 <= q0) as Hq by (destruct Hseal as (? & ? & ? & ? & ? & _ & _ & -> & _); apply le_val_range).
    destruct (replay_accept acc (nc_replay_protection c) q0 rp') as [? ?]; done. }
  assert (p = None \/ (exists payload q0, p = Some payload /\ r = Ok (q0, Payload payload))) as Hp.
  { destruct r as [[q0 pk]|]; [|injection H as _ <-; by left]. destruct p as [payload|]; [|by left]. right. exists payload, q0.
    split; [done|]. destruct (handle_frame c1 pk) as (_ & _ & Hx). injection H as H. rewrite H in Hx. by rewrite (Hx payload). }
  assert (nc_connect_token c' = nc_connect_token c /\ nc_replay_protection c' = rp' /\ (on_route c -> on_route c')) as (Ht & Hr & Hroute).
  { destruct r as [[q0 pk]|]; [|by injection H as <- _]. destruct (handle_frame c1 pk) as ([? ?] & Hr & _).
    injection H as H. rewrite H in *. done. }
  split_and!; try done. rewrite Hr. destruct Hp as [->|(payload & q0 & -> & Hok)].
  - destruct Hrp as [->|(s & ? & ?)]; [by left|]. right. by exists s.
  - destruct (Hpay _ _ Hok) as (q & Hq & Hinv' & Hc). right. exists q. split_and!; try done. by intros ? [= <-].
Qed.

Lemma client_act_frame acc c a c' p :
  replay_inv acc (nc_replay_protection c) -> client_act c a = Ret (c', p) ->
  nc_connect_token c' = nc_connect_token c /\ (on_route c -> on_route c') /\
  ((p = None /\ replay_inv acc (nc_replay_protection c')) \/
   exists q buffer, a = ActProcess buffer /\ (q ∉ acc) /\ replay_inv (q :: acc) (nc_replay_protection c') /\
     (forall payload, p = Some payload -> carries c (q, buffer) payload)).
Proof using laws.
  intros Hinv H. destruct a as [buffer|d|payload|]; cbn [client_act] in H.
  { destruct (process_packet_frame acc c buffer c' p Hinv H) as (? & ? & [?|(q & ?)]); split_and!; try done; [by left|right; by exists q, buffer]. }
  - destruct (net_client_update c d) as [[c1 r1]|] eqn:E; cbn [out_bind] in H; [|done]. injection H as <- <-.
    apply update_frame in E as [[Ht Hr] ?]. split_and!; try done. left. by rewrite Hr.
  - destruct (net_client_generate_payload_packet _ _) as [[c1 r1]|] eqn:E; cbn [out_bind] in H; [|done]. injection H as <- <-.
    apply payload_frame in E as [[Ht Hr] ?]. split_and!; try done. left. by rewrite Hr.
  - destruct (net_client_disconnect _) as [[c1 r1]|] eqn:E; cbn [out_bind] in H; [|done]. injection H as <- <-.
    apply disconnect_frame in E as [[Ht Hr] ?]. split_and!; try done. left. by rewrite Hr.
Qed.

Lemma client_run_frame actions : forall acc c c' ps,
  replay_inv acc (nc_replay_protection c) -> client_run c actions = Ret (c', ps) ->
  nc_connect_token c' = nc_connect_token c /\ (on_route c -> on_route c') /\
  exists ds, NoDup ds.*1 /\ (forall q, q ∈ ds.*1 -> q ∉ acc) /\
    Forall2 (fun d p => ActProcess d.2 ∈ actions /\ carries c d p) ds ps.
Proof using laws.
  induction actions as [|a actions IH]; intros acc c c' ps Hinv H; cbn [client_run] in H.
  { injection H as <- <-. split_and!; try done. exists []. split_and!; [constructor|by intros q []%elem_of_nil|constructor]. }
  destruct (client_act c a) as [[c1 p]|] eqn:E1; cbn [out_bind] in H; [|done].
  destruct (client_run c1 actions) as [[c2 ps2]|] eqn:E2; cbn [out_bind] in H; [|done]. injection H as <- <-.
  destruct (client_act_frame acc c a c1 p Hinv E1) as (Ht & Hroute & Hcase).
  assert (forall acc', acc ⊆ acc' -> replay_inv acc' (nc_replay_protection c1) ->
    nc_connect_token c2 = nc_connect_token c /\ (on_route c -> on_route c2) /\
    exists ds, NoDup ds.*1 /\ (forall q, q ∈ ds.*1 -> q ∉ acc') /\
      Forall2 (fun d p => ActProcess d.2 ∈ a :: actions /\ carries c d p) ds ps2) as Hrest.
  { intros acc' Hsub Hinv'. destruct (IH acc' c1 c2 ps2 Hinv' E2) as (Ht2 & Hr2 & ds & Hnd & Hds & Hall).
    split_and!; [congruence|auto|]. exists ds. split_and!; [done|done|]. eapply Forall2_impl; [exact Hall|].
    intros d x [Hin Hc]. split; [by right|]. unfold carries in *. by rewrite <- Ht. }
  destruct Hcase as [[-> Hinv']|(q & buffer & -> & Hq & Hinv' & Hc)]; [by apply (Hrest acc)|].
  destruct (Hrest (q :: acc)) as (Ht2 & Hr2 & ds & Hnd & Hds & Hall); [set_solver|done|]. split_and!; try done.
  destruct p as [payload|]; cbn [option_list app].
  - exists ((q, buffer) :: ds). split_and!.
    + apply NoDup_cons. split; [|done]. intros Hin%Hds. apply Hin. left.
    + intros x [->|Hx%Hds]%elem_of_cons; [done|]. set_solver.
    + constructor; [|done]. split; [left|by apply Hc].
  - exists ds. split_and!; [done| |done]. intros x Hx%Hds. set_solver.
Qed.

Lemma client_new_inv rnd now authentication c :
  net_client_new rnd now authentication = Ret (Ok c) ->
  on_route c /\ nc_replay_protection c = replay_new /\ nc_state c = SendingConnectionRequest /\ nc_server_addr_index c = 0.
Proof using.
  unfold net_client_new. destruct (match authentication with ClientSecure _ => _ | ClientUnsecure _ _ _ _ => _ end) as [[t|]|];
    cbn [out_bind]; [|done..].
  destruct (vec_get _ _) as [slot|] eqn:E; cbn [out_bind]; [|done]. destruct slot as [a|]; cbn [unwrap out_bind]; [|done].
  apply vec_get_inv in E as [_ E]. intros [= <-]. split_and!; done.
Qed.

(** ** Requests *)

Lemma request_wf t : token_wf t -> packet_wf (connection_request_from_token t).
Proof using. intros [(H1 & H2 & H3 & H4) _ _ Hx Hp _ _]. by split_and!. Qed.

(** The datagram of a connection request. *)
Definition request_bytes (t : ConnectToken) : Bytes := byte_of 0 :: concat (packet_write (connection_request_from_token t)).

(** A client that has not sent yet sends its request at once. *)
Lemma generate_request c :
  nc_state c = SendingConnectionRequest -> nc_last_packet_send_time c = None -> token_wf (nc_connect_token c) ->
  len (nc_out c) = NETCODE_MAX_PACKET_BYTES -> nc_sequence c < U64_MAX ->
  exists o, len o = NETCODE_MAX_PACKET_BYTES /\
    net_client_generate_packet c =
      Ret (nc_set_sequence (nc_set_out (nc_set_last_send c (Some (nc_current_time c))) o) (nc_sequence c + 1),
           Some (request_bytes (nc_connect_token c), nc_server_addr c)).
Proof using.
  intros Hst Hsend Htok Ho Hseq. unfold net_client_generate_packet. rewrite Hsend. cbn [out_bind]. rewrite Hst.
  cbn [nc_set_last_send nc_state nc_connect_token]. rewrite Hst. unfold nc_encode.
  destruct (net_encode_request (connection_request_from_token (nc_connect_token c)) (nc_out c) (ct_protocol_id (nc_connect_token c))
    (Some (nc_sequence c, ct_client_to_server_key (nc_connect_token c)))) as (b & E & Ht & Hl); [done|by apply request_wf|lia|].
  cbn [nc_set_last_send nc_out nc_connect_token nc_sequence]. rewrite E. cbn [out_bind nc_set_out nc_sequence]. rewrite add64_ok by (cbn; lia).
  cbn [out_bind]. exists b. split; [lia|]. unfold nc_packet, request_bytes. cbn [nc_set_sequence nc_set_out nc_out nc_server_addr nc_set_last_send]. change (Z.to_nat 1078) with 1078%nat. by rewrite Ht.
Qed.

(** ** Giving up *)

Section giving_up.
Context (t : ConnectToken) (hs : list SocketAddr).
Context (Hwf : token_wf t) (Hhs : ct_server_addresses t = addr_array hs) (Hlen : len hs <= 32).
Context (Htimeout : 0 < ct_timeout_seconds t) (Hexpire : ct_create_timestamp t <= ct_expire_timestamp t).

(** Longer than the timeout, shorter than the life of the token. *)
Definition silence (d : Z) : Prop :=
  from_secs (ct_timeout_seconds t) < d /\ as_secs d < ct_expire_timestamp t - ct_create_timestamp t.

(** The client has just started to try address [k], or has given up. *)
Definition trying (k : nat) (c : NetcodeClient) : Prop :=
  nc_connect_token c = t /\ nc_last_packet_received_time c <= nc_current_time c /\ 0 <= nc_sequence c /\
  match hs !! k with
  | Some a =>
      nc_state c = SendingConnectionRequest /\ nc_server_addr c = a /\ nc_server_addr_index c = Z.of_nat k /\
      nc_connect_start_time c = nc_current_time c /\ nc_last_packet_received_time c = nc_current_time c /\
      len (nc_out c) = NETCODE_MAX_PACKET_BYTES
  | None => nc_state c = CDisconnected ConnectionRequestTimedOut
  end.

Lemma addr_array_lookup k : (k < 32)%nat -> addr_array hs !! k = Some (hs !! k).
Proof using Hlen.
  intros Hk. unfold addr_array, len in *. destruct (hs !! k) as [a|] eqn:E.
  - rewrite lookup_app_l by (rewrite length_fmap; by eapply lookup_lt_Some). by rewrite list_lookup_fmap, E.
  - apply lookup_ge_None in E. rewrite lookup_app_r by (rewrite length_fmap; lia). apply lookup_replicate. rewrite length_fmap. split; [done|lia].
Qed.

Lemma silent_update k c d :
  trying k c -> silence d -> nc_current_time c + d <= DURATION_MAX -> nc_sequence c < U64_MAX ->
  exists c', client_act c (ActUpdate d) = Ret (c', None) /\ trying (S k) c' /\
    nc_current_time c' = nc_current_time c + d /\ nc_sequence c' <= nc_sequence c + 1.
Proof using Hwf Hhs Hlen Htimeout Hexpire.
  intros (Ht & Htime & Hseq0 & Hcase) [Hd1 Hd2] Hmax Hseq. cbn [client_act]. unfold net_client_update, net_client_update_internal_state.
  rewrite dur_add_ok by done. nc_simpl. rewrite Ht.
  unfold timed_out. rewrite (proj2 (Z.ltb_lt _ _)) by done. rewrite dur_add_ok by lia. nc_simpl.
  destruct (hs !! k) as [a|] eqn:Ek.
  2: { rewrite Hcase. nc_simpl. eexists. split; [done|]. split_and!; [|done|cbn; lia].
    split_and!; [done|cbn; assert (0 <= from_secs (ct_timeout_seconds t)) by (unfold from_secs, NANOS_PER_SEC; lia); lia|done|].
    assert (hs !! S k = None) as -> by (apply lookup_ge_None; apply lookup_ge_None in Ek; lia). done. }
  destruct Hcase as (Hst & Ha & Hi & Hstart & Hrecv & Hout). rewrite Hst. rewrite sub64_ok by done. nc_simpl.
  rewrite Hstart, Hrecv. assert (0 <= from_secs (ct_timeout_seconds t)) by (unfold from_secs, NANOS_PER_SEC; lia).
  rewrite dur_sub_ok by lia. nc_simpl. replace (nc_current_time c + d - nc_current_time c) with d by lia.
  rewrite (proj2 (Z.leb_gt _ _)) by done. rewrite (proj2 (Z.ltb_lt _ _)) by lia.
  assert (Z.of_nat k < 32) as Hk by (apply lookup_lt_Some in Ek; unfold len in Hlen; lia).
  unfold net_client_next_server. nc_simpl. rewrite Hst, Hi.
  rewrite add64_ok by (unfold U64_MAX; lia). nc_simpl. rewrite Ht, Hhs.
  replace (Z.of_nat k + 1) with (Z.of_nat (S k)) by lia. destruct (Z.leb_spec 32 (Z.of_nat (S k))) as [Hge|Hlt].
  { nc_simpl. eexists. split; [done|]. split_and!; [|done|cbn; lia]. split_and!; [done|cbn; lia|done|].
    assert (hs !! S k = None) as -> by (apply lookup_ge_None; unfold len in Hlen; lia). done. }
  rewrite (vec_get_ok _ _ (hs !! S k)); [|lia|rewrite Nat2Z.id; apply addr_array_lookup; lia]. nc_simpl.
  destruct (hs !! S k) as [b|] eqn:Eb; nc_simpl.
  2: { eexists. split; [done|]. split_and!; [|done|cbn; lia]. split_and!; [done|cbn; lia|done|]. by rewrite Eb. }
  match goal with |- context [net_client_generate_packet ?c1] => destruct (generate_request c1) as (o & Hol & E) end; [done|done|by cbn; rewrite Ht|done|done|].
  rewrite E. nc_simpl. eexists. split; [done|]. split_and!; [|done|cbn; lia].
  split_and!; [done|cbn; lia|cbn; lia|]. rewrite Eb. split_and!; done.
Qed.

Definition total (ds : list Z) : Z := foldr Z.add 0 ds.

Lemma silent_run ds : forall k c,
  trying k c -> Forall silence ds -> nc_current_time c + total ds <= DURATION_MAX -> nc_sequence c + len ds <= U64_MAX ->
  exists c', client_run c (ActUpdate <$> ds) = Ret (c', []) /\ trying (k + length ds) c'.
Proof using Hwf Hhs Hlen Htimeout Hexpire.
  induction ds as [|d ds IH]; intros k c Hc Hall Hmax Hseq; cbn [fmap list_fmap client_run].
  { exists c. by rewrite Nat.add_0_r. }
  apply Forall_cons in Hall as [Hd Hall]. rewrite len_cons in Hseq. cbn [total foldr] in Hmax. fold (total ds) in Hmax. pose proof (len_nonneg ds).
  assert (0 <= total ds) as Hpos.
  { clear -Hall Htimeout. induction Hall as [|x l [Hx _] _ IH]; [done|]. cbn [total foldr]. fold (total l). unfold from_secs, NANOS_PER_SEC in Hx. lia. }
  destruct (silent_update k c d) as (c1 & E1 & Hc1 & Ht1 & Hs1); [done|done|lia|lia|].
  rewrite E1. cbn [out_bind]. destruct (IH (S k) c1) as (c2 & E2 & Hc2); [done|done|lia|lia|].
  rewrite E2. cbn [out_bind option_list app]. exists c2. split; [done|]. by replace (k + length (d :: ds))%nat with (S k + length ds)%nat by (cbn; lia).
Qed.

End giving_up.

End runs.

(** ** Properties *)

(** C9: Over any sequence of calls on a new client (datagrams of any origin
    included), the payloads it delivers are those that datagrams carried sealed
    under the server's key of the token, each with its own sequence number: no
    forgery and no replay.  While it is not disconnected, it talks to the
    address of the token at its current index. *)
Theorem client_delivers_authentic_once {aead : Aead} {laws : AeadLaws aead} rnd now authentication c actions c' payloads :
  net_client_new rnd now authentication = Ret (Ok c) -> client_run c actions = Ret (c', payloads) ->
  on_route c' /\ nc_connect_token c' = nc_connect_token c /\
  exists ds : list (Z * Bytes), NoDup ds.*1 /\
    Forall2 (fun d p => ActProcess d.2 ∈ actions /\ carries c d p) ds payloads.
Proof.
  intros (Hroute & Hrp & _)%client_new_inv Hrun.
  destruct (client_run_frame actions [] c c' payloads) as (Ht & Hr & ds & Hnd & _ & Hall); [rewrite Hrp; apply replay_new_inv|done|].
  split_and!; [auto|done|]. by exists ds.
Qed.

(** A packet of the server for the client of [sample_token]. *)
Definition server_packet (sequence : Z) (p : NetPacket) : Bytes :=
  match net_encode p (replicate 1400 (byte_of 0)) 9 (Some (sequence, replicate 32 (byte_of 2))) with
  | Ret (b, Ok n) => take (Z.to_nat n) b
  | _ => []
  end.

(** The handshake, a payload, its replay, another payload. *)
Definition sample_actions : list client_action :=
  [ActUpdate 0; ActProcess (server_packet 0 (Challenge 1 (replicate 300 (byte_of 0)))); ActUpdate 0;
   ActProcess (server_packet 0 (KeepAlive 0 2)); ActProcess (server_packet 1 (Payload [byte_of 5]));
   ActProcess (server_packet 1 (Payload [byte_of 5])); ActProcess (server_packet 2 (Payload [byte_of 6]))].

Definition sample_client : out (result NetcodeClient NetcodeError) := net_client_new sample_random 0 (ClientSecure (sample_token 15)).

Lemma client_delivers_authentic_once_witness :
  exists c ds, sample_client = Ret (Ok c) /\ NoDup ds.*1 /\
    Forall2 (fun d p => ActProcess d.2 ∈ sample_actions /\ carries c d p) ds [[byte_of 5]; [byte_of 6]].
Proof.
  assert ((let! r := sample_client in match r with Ok c => let! (_, ps) := client_run c sample_actions in Ret ps | Err _ => Panic end)
          = Ret [[byte_of 5]; [byte_of 6]]) as H by (vm_compute; reflexivity).
  destruct sample_client as [[c|e]|] eqn:E; cbn [out_bind] in H; try discriminate H.
  destruct (client_run c sample_actions) as [[c' ps]|] eqn:Er; cbn [out_bind] in H; [|discriminate H]. injection H as ->.
  destruct (client_delivers_authentic_once sample_random 0 (ClientSecure (sample_token 15)) c sample_actions c' _ E Er)
    as (_ & _ & ds & Hnd & Hall).
  exists c, ds. split; [reflexivity|]. split; [exact Hnd|exact Hall].
Defined.

(** C32: A client that hears nothing tries the addresses of its token in order,
    one per timeout, and then gives up: after [n] such updates it is asking
    address [n] if there is one, and is disconnected otherwise.  The updates
    always return (each silence outlasts the timeout but not the token's life). *)
Theorem client_tries_every_server {aead : Aead} rnd now t hs c ds :
  token_wf t -> ct_server_addresses t = addr_array hs -> 0 < ct_timeout_seconds t ->
  ct_create_timestamp t <= ct_expire_timestamp t -> Forall (silence t) ds ->
  now + total ds <= DURATION_MAX -> len ds <= U64_MAX ->
  net_client_new rnd now (ClientSecure t) = Ret (Ok c) ->
  exists c', client_run c (ActUpdate <$> ds) = Ret (c', []) /\
    match hs !! length ds with
    | Some a => nc_state c' = SendingConnectionRequest /\ nc_server_addr c' = a
    | None => nc_state c' = CDisconnected ConnectionRequestTimedOut
    end.
Proof.
  intros Hwf Hhs Hto Hex Hds Hmax Hseq Hnew. destruct (tw_hosts _ Hwf) as (hs' & Hhs' & Hl & _).
  assert (len hs <= 32) as Hlen.
  { assert (len (addr_array hs) = 32) as H.
    { rewrite <- Hhs, Hhs'. unfold addr_array. rewrite len_app. unfold len in *. rewrite length_fmap, length_replicate. lia. }
    unfold addr_array in H. rewrite len_app in H. unfold len in *. rewrite length_fmap in H. lia. }
  assert (trying t hs 0 c /\ nc_current_time c = now /\ nc_sequence c = 0) as (Hc & <- & Hs).
  { unfold net_client_new in Hnew. cbn [out_bind] in Hnew. rewrite Hhs in Hnew. 
    rewrite (vec_get_ok _ _ (hs !! 0%nat)) in Hnew; [|done|apply addr_array_lookup; [done|lia]]. cbn [out_bind] in Hnew.
    destruct (hs !! 0%nat) as [a|] eqn:E; cbn [unwrap out_bind] in Hnew; [|done]. injection Hnew as <-. split; [|done].
    split_and!; [done|done|done|]. rewrite E. by split_and!. }
  destruct (silent_run t hs Hwf Hhs Hlen Hto Hex ds 0 c Hc Hds) as (c' & E & (_ & _ & _ & Hc')); [lia|lia|].
  exists c'. split; [done|]. cbn [Nat.add] in Hc'. destruct (hs !! length ds) as [a|]; [|done]. by destruct Hc' as (? & ? & _).
Qed.

Lemma client_tries_every_server_witness :
  exists c c', sample_client = Ret (Ok c) /\ client_run c [ActUpdate (from_secs 16)] = Ret (c', []) /\
    nc_state c' = CDisconnected ConnectionRequestTimedOut.
Proof.
  destruct sample_client as [[c|e]|] eqn:E; try discriminate E.
  destruct (client_tries_every_server sample_random 0 (sample_token 15) [sample_addr] c [from_secs 16]) as (c' & Er & Hst).
  - apply sample_token_wf. unfold i32. lia.
  - reflexivity.
  - reflexivity.
  - cbn. lia.
  - apply Forall_singleton. split; vm_compute; reflexivity.
  - vm_compute. discriminate.
  - vm_compute. discriminate.
  - exact E.
  - exists c, c'. split; [reflexivity|]. split; [exact Er|exact Hst].
Defined.
