(* ===== verification/Handshake.v ===== *)
(** * The netcode handshake

    The client of NetClient.v and the server of NetServer.v together: a client
    with a valid connect token connects in one round of four packets, and on
    the connection so made payloads flow both ways, in order. *)

From S2P Require Import Prelude Netcode ReplayProtection Token NetPacket NetClient NetServer NetServerInv.
From S2P Require Import NetServerProps NetClientProps.

(** ** Updating slots *)

Lemma find_slot_insert_new f l c : forall i k o,
  find_slot f i l = None -> l !! k = Some o -> f c = true -> find_slot f i (<[k := Some c]> l) = Some (i + Z.of_nat k, c).
Proof.
  induction l as [|x l IH]; intros i k o Hno Hk Hf; [done|]. destruct k as [|k]; cbn in *.
  - rewrite Hf. by rewrite Z.add_0_r.
  - replace (i + Z.of_nat (S k)) with (i + 1 + Z.of_nat k) by lia.
    destruct x as [y|]; [destruct (f y); [done|]|]; by eapply IH.
Qed.

Lemma find_slot_insert f l c : forall i j x,
  find_slot f i l = Some (j, x) -> f c = true -> find_slot f i (<[Z.to_nat (j - i) := Some c]> l) = Some (j, c).
Proof.
  induction l as [|y l IH]; intros i j x H Hf; [done|]. pose proof (find_slot_Some _ _ _ _ _ H) as (Hij & _). cbn in H.
  destruct (decide (i = j)) as [->|Hne].
  { rewrite Z.sub_diag. change (Z.to_nat 0) with 0%nat. cbn. by rewrite Hf. }
  replace (Z.to_nat (j - i)) with (S (Z.to_nat (j - (i + 1)))) by lia. cbn.
  destruct y as [y|]; [destruct (f y); [by simplify_eq|]|]; by eapply IH.
Qed.

Lemma find_by_addr_insert l addr slot x c :
  find_client_mut_by_addr l addr = Some (slot, x) -> cn_addr c = addr ->
  find_client_mut_by_addr (<[Z.to_nat slot := Some c]> l) addr = Some (slot, c).
Proof.
  intros H Ha. apply (find_slot_insert _ _ c) in H; [|by apply bool_decide_eq_true_2]. by rewrite Z.sub_0_r in H.
Qed.

Lemma find_by_id_insert l client_id slot x c :
  find_client_slot_by_id l client_id = Some (slot, x) -> cn_client_id c = client_id ->
  find_client_slot_by_id (<[Z.to_nat slot := Some c]> l) client_id = Some (slot, c).
Proof.
  intros H Ha. apply (find_slot_insert _ _ c) in H; [|by apply Z.eqb_eq]. by rewrite Z.sub_0_r in H.
Qed.

(** ** Connect token entries *)

Lemma search_entries_match e l : forall i st x,
  es_match (search_entries e i l st) = Some x -> es_match st = Some x \/ (Some x ∈ l /\ te_mac x = te_mac e).
Proof.
  induction l as [|o l IH]; intros i st x H; cbn in H; [by left|]. apply IH in H as [H|[? ?]]; [|right; split; [by right|done]].
  unfold search_entry in H. destruct o as [y|].
  - case_bool_decide as Hm; destruct (negb _ && _); cbn in H; simplify_eq; auto; right; (split; [left|done]).
  - destruct (es_empty st); by left.
Qed.

Section handshake.
Context {aead : Aead} {laws : AeadLaws aead}.
Implicit Types (c : NetcodeClient) (s : NetcodeServer).

(** A token that no other address has used is accepted. *)
Lemma find_or_add_fresh config s e :
  server_inv config s -> (forall x, Some x ∈ ns_connect_token_entries s -> te_mac x = te_mac e -> te_address x = te_address e) ->
  exists entries, find_or_add_connect_token_entry s e = Ret (ns_set_entries s entries, true) /\ len entries = len (ns_connect_token_entries s).
Proof using.
  intros Hinv Hx. destruct (find_or_add_inv config s e Hinv) as (s1 & b & E & Hinv1 & _). rewrite E.
  pose proof (sv_entries _ _ Hinv1) as Hl. rewrite <- (sv_entries _ _ Hinv) in Hl.
  unfold find_or_add_connect_token_entry in E. destruct (es_match _) as [x|] eqn:Em.
  - injection E as <- <-. apply search_entries_match in Em as [?|[Hin Hmac]]; [done|].
    rewrite bool_decide_eq_true_2 by (by apply Hx). exists (ns_connect_token_entries s). split; [by destruct s|done].
  - destruct (vec_set _ _ _) as [l|]; [|done]. cbn [out_bind] in E. injection E as <- <-. by exists l.
Qed.

(** ** Encoding with the buffers of the two sides *)

Lemma ns_encode_wire s p q key :
  len (ns_out s) = NETCODE_MAX_PACKET_BYTES -> is_request p = false -> packet_wf p -> u64 q ->
  exists o w, ns_encode s p q key = Ret (ns_set_out s o, Ok (len w)) /\ wire p (ns_protocol_id s) q key = Some w /\
    take (Z.to_nat (len w)) o = w /\ len o = NETCODE_MAX_PACKET_BYTES /\
    len w = 1 + sequence_bytes_required q + len (concat (packet_write p)) + 16.
Proof using laws.
  intros Ho Hr Hwf Hq. unfold ns_encode.
  destruct (net_encode_spec p (ns_out s) (ns_protocol_id s) q key) as (b & w & E & Hw & Ht & Hl & Hn); try done; [lia|].
  rewrite E. cbn [out_bind]. exists b, w. split_and!; try done. lia.
Qed.

Lemma nc_encode_wire c p :
  len (nc_out c) = NETCODE_MAX_PACKET_BYTES -> is_request p = false -> packet_wf p -> u64 (nc_sequence c) ->
  exists o w, nc_encode c p = Ret (nc_set_out c o, Ok (len w)) /\
    wire p (ct_protocol_id (nc_connect_token c)) (nc_sequence c) (ct_client_to_server_key (nc_connect_token c)) = Some w /\
    take (Z.to_nat (len w)) o = w /\ len o = NETCODE_MAX_PACKET_BYTES /\
    len w = 1 + sequence_bytes_required (nc_sequence c) + len (concat (packet_write p)) + 16.
Proof using laws.
  intros Ho Hr Hwf Hq. unfold nc_encode.
  destruct (net_encode_spec p (nc_out c) (ct_protocol_id (nc_connect_token c)) (nc_sequence c)
    (ct_client_to_server_key (nc_connect_token c))) as (b & w & E & Hw & Ht & Hl & Hn); try done; [lia|].
  rewrite E. cbn [out_bind]. exists b, w. split_and!; try done. lia.
Qed.

(** Packets are long enough to be decoded, except empty ones at sequence 0. *)
Lemma long_enough p q (w : Bytes) :
  len w = 1 + sequence_bytes_required q + len (concat (packet_write p)) + 16 -> u64 q ->
  0 < q \/ match p with Challenge _ _ | Response _ _ | KeepAlive _ _ => True | _ => False end -> 18 <= len w.
Proof using.
  intros -> Hq H. pose proof (len_nonneg (concat (packet_write p))). destruct (sequence_bytes_spec q Hq) as (Hn & Hlt & _).
  destruct H as [H|H].
  - destruct (decide (sequence_bytes_required q = 0)) as [E|]; [|lia]. rewrite E in Hlt. cbn in Hlt. lia.
  - destruct p as [| |ts td|ts td|ci mc| |]; try done; cbn [packet_write concat]; rewrite !len_app, !len_le_bytes;
      change (len (@nil byte)) with 0; try pose proof (len_nonneg td); lia.
Qed.

(** ** The setting *)

(** A token whose private part opens to the same identity under [key]. *)
Record issued (t : ConnectToken) (pt : PrivateConnectToken) (key : Bytes) : Prop := {
  is_wf : token_wf t;
  is_private : private_decode (ct_private_data t) (ct_protocol_id t) (ct_expire_timestamp t) (ct_xnonce t) key = Ret (Ok pt);
  is_same : pt_client_id pt = ct_client_id t /\ pt_client_to_server_key pt = ct_client_to_server_key t /\
    pt_server_to_client_key pt = ct_server_to_client_key t;
  is_life : ct_create_timestamp t < ct_expire_timestamp t;
}.

(** The server can take the client: there is room for it, and neither its id,
    its address nor its token is in use. *)
Record admissible (config : ServerConfig) (s : NetcodeServer) (addr : SocketAddr) (t : ConnectToken) (pt : PrivateConnectToken) : Prop := {
  ad_inv : server_inv config s;
  ad_sequences : sequences_left s;
  ad_protocol : ct_protocol_id t = ns_protocol_id s;
  ad_alive : as_secs (ns_current_time s) < ct_expire_timestamp t;
  ad_host : ns_secure s = true -> in_host_list s pt = true;
  ad_room : ns_connected_clients s < ns_max_clients s /\ is_Some (free_slot 0 (ns_clients s));
  ad_id : find_client_slot_by_id (ns_clients s) (ct_client_id t) = None;
  ad_addr : find_client_mut_by_addr (ns_clients s) addr = None;
  ad_pending : ns_pending_clients s !! addr = None /\ Z.of_nat (size (ns_pending_clients s)) < NETCODE_MAX_PENDING_CLIENTS;
  ad_entry : forall e, Some e ∈ ns_connect_token_entries s ->
    te_mac e = drop (Z.to_nat (NETCODE_CONNECT_TOKEN_PRIVATE_BYTES - NETCODE_MAC_BYTES)) (ct_private_data t) -> te_address e = addr;
}.

(** The connection the server makes of a token. *)
Definition pending_of (s : NetcodeServer) (addr : SocketAddr) (t : ConnectToken) (pt : PrivateConnectToken) : Connection :=
  mkConnection (ct_client_id t) (ct_server_to_client_key t) (ct_client_to_server_key t) addr (pt_timeout_seconds pt)
    (ct_expire_timestamp t) false SPendingResponse (pt_user_data pt) (ns_current_time s) (ns_current_time s) 0 replay_new.

(** ** The server's answers *)

Lemma server_answers_request config s addr t pt :
  issued t pt (ns_connect_key s) -> admissible config s addr t pt ->
  exists s' data w,
    net_server_process_packet s addr (request_bytes t) = Ret (s', SrPacketToSend addr w) /\
    wire (Challenge (ns_challenge_sequence s + 1) data) (ns_protocol_id s) (ns_global_sequence s) (ct_server_to_client_key t) = Some w /\
    18 <= len w /\ len data = NETCODE_CHALLENGE_TOKEN_BYTES /\
    challenge_decode data (ns_challenge_sequence s + 1) (ns_challenge_key s) =
      Ret (Ok (mkChallengeToken (ct_client_id t) (pt_user_data pt))) /\
    ns_pending_clients s' = <[addr := pending_of s addr t pt]> (ns_pending_clients s) /\
    ns_clients s' = ns_clients s /\ ns_protocol_id s' = ns_protocol_id s /\ ns_challenge_key s' = ns_challenge_key s /\
    ns_max_clients s' = ns_max_clients s.
Proof using laws.
  intros [Hwf Hpriv (Hid & Hk1 & Hk2) _] [Hinv [Hg Hc _] Hproto Halive Hhost [Hroom _] Hnid Hnaddr [Hnp Hsz] Hentry].
  unfold net_server_process_packet, process_packet_internal. pose proof (request_wf t Hwf) as Hreq.
  assert (len (request_bytes t) = 1078) as Hlen.
  { unfold request_bytes, connection_request_from_token. cbn [packet_write concat]. destruct Hreq as (Hv & _ & _ & Hx & Hd).
    rewrite len_cons, app_nil_r, !len_app, !len_le_bytes, Hv, Hx, Hd. done. }
  rewrite (proj2 (Z.ltb_ge _ _)) by (rewrite Hlen; unfold NETCODE_MAC_BYTES; lia). rewrite Hnaddr, Hnp.
  unfold request_bytes. rewrite net_decode_request by done. cbn [out_bind connection_request_from_token].
  unfold handle_connection_request. rewrite bool_decide_eq_true_2 by done. rewrite Hproto, Z.eqb_refl. cbn [negb].
  rewrite (proj2 (Z.leb_gt _ _)) by done. rewrite <- Hproto, Hpriv, Hproto. cbn [out_bind].
  assert (ns_secure s && negb (in_host_list s pt) = false) as ->.
  { destruct (ns_secure s); [|done]. by rewrite Hhost. }
  rewrite Hid, Hnid, Hnaddr. rewrite !bool_decide_eq_false_2 by (by intros []). cbn [orb].
  rewrite (proj2 (Z.leb_gt _ _)) by done. rewrite andb_false_r.
  match goal with |- context [find_or_add_connect_token_entry s ?e] => destruct (find_or_add_fresh config s e Hinv) as (entries & -> & Hel); [by apply Hentry|] end.
  cbn [out_bind negb]. unfold ns_connected_clients in Hroom. cbn [ns_set_entries ns_max_clients ns_clients].
  rewrite (proj2 (Z.leb_gt _ _)) by done. unfold challenge. cbn [ns_set_entries ns_challenge_sequence].
  rewrite add64_ok by lia. cbn [out_bind]. set (s1 := ns_set_challenge_sequence _ _). rewrite Hid, Hk2.
  assert (u64 (ct_client_id t)) as Hu by (by destruct (tw_ints _ Hwf)).
  assert (len (pt_user_data pt) = NETCODE_USER_DATA_BYTES) as Hud.
  { apply private_decode_inv in Hpriv as (? & ? & ? & _ & _ & Hr). by apply private_read_fields in Hr as [_ ?]. }
  destruct (generate_challenge_spec (ct_client_id t) (pt_user_data pt) (ns_challenge_sequence s1) (ns_challenge_key s1) Hu Hud)
    as (data & -> & Hdl & Hdec). cbn [out_bind].
  destruct (ns_encode_wire s1 (Challenge (ns_challenge_sequence s1) data) (ns_global_sequence s1) (ct_server_to_client_key t))
    as (o & w & -> & Hw & Ht & Hol & Hwl); [apply (sv_out _ _ Hinv)|done|split; [unfold u64; cbn; lia|done]|unfold u64; cbn; lia|].
  cbn [out_bind]. rewrite add64_ok by (cbn; lia). cbn [out_bind].
  cbn [ns_set_global_sequence ns_set_out ns_pending_clients s1 ns_set_challenge_sequence ns_set_entries]. rewrite Hnp.
  eexists _, data, w. split.
  { unfold ns_packet. cbn [ns_set_pending ns_out ns_set_global_sequence ns_set_out]. by rewrite Ht. }
  split; [done|]. split; [apply (long_enough _ _ _ Hwl); [unfold u64; cbn; lia|by right]|].
  split_and!; try done. cbn. by rewrite Hk1.
Qed.

(** The connection once the response has been accepted in a slot. *)
Definition connected_of (s : NetcodeServer) (pending : Connection) (user_data : Bytes) : Connection :=
  cn_set_sequence (cn_set_last_send (cn_set_user_data (cn_set_state (cn_set_last_received pending (ns_current_time s)) SConnected)
    user_data) (ns_current_time s)) (cn_sequence pending + 1).

Lemma server_answers_response s addr pending q tq data token slot w :
  len (ns_out s) = NETCODE_MAX_PACKET_BYTES -> find_client_mut_by_addr (ns_clients s) addr = None ->
  ns_pending_clients s !! addr = Some pending -> 0 <= cn_sequence pending < U64_MAX ->
  u64 q -> u64 tq -> len data = NETCODE_CHALLENGE_TOKEN_BYTES ->
  wire (Response tq data) (ns_protocol_id s) q (cn_receive_key pending) = Some w -> 18 <= len w ->
  challenge_decode data tq (ns_challenge_key s) = Ret (Ok token) ->
  find_client_slot_by_id (ns_clients s) (ch_client_id token) = None -> free_slot 0 (ns_clients s) = Some slot ->
  exists s' w',
    net_server_process_packet s addr w = Ret (s', SrClientConnected (cn_client_id pending) addr (ch_user_data token) w') /\
    wire (KeepAlive (slot mod 4294967296) (ns_max_clients s mod 4294967296)) (ns_protocol_id s) (cn_sequence pending)
      (cn_send_key pending) = Some w' /\ 18 <= len w' /\
    ns_clients s' = <[Z.to_nat slot := Some (connected_of s pending (ch_user_data token))]> (ns_clients s) /\
    ns_protocol_id s' = ns_protocol_id s /\ ns_current_time s' = ns_current_time s /\ len (ns_out s') = NETCODE_MAX_PACKET_BYTES.
Proof using laws.
  intros Hout Hno Hp Hcs Hq Htq Hdl Hw Hwl Hdec Hid Hfree.
  unfold net_server_process_packet, process_packet_internal. rewrite (proj2 (Z.ltb_ge _ _)) by (unfold NETCODE_MAC_BYTES; lia).
  rewrite Hno, Hp. unfold process_pending. rewrite (net_decode_wire (Response tq data) _ q) by done. cbn [packet_type replay_check replay_advance apply_replay_protection out_bind].
  assert (cn_set_replay pending (cn_replay_protection pending) = pending) as -> by (by destruct pending).
  unfold process_response. cbn [ns_set_pending ns_challenge_key ns_pending_clients ns_clients]. rewrite Hdec. cbn [out_bind].
  rewrite lookup_insert_eq. cbn [unwrap out_bind]. rewrite Hid, Hfree.
  match goal with |- context [ns_encode ?s1 ?p _ _] => destruct (ns_encode_wire s1 p (cn_sequence pending) (cn_send_key pending))
    as (o & w' & E & Hw' & Ht & Hol & Hl) end; [done|done| |unfold u64; lia|].
  { cbn. unfold U32_MAX. pose proof (Z.mod_pos_bound slot 4294967296). pose proof (Z.mod_pos_bound (ns_max_clients s) 4294967296). lia. }
  cbn [cn_set_last_send cn_set_user_data cn_set_state cn_set_last_received cn_sequence cn_send_key]. rewrite E. cbn [out_bind].
  rewrite add64_ok by lia. cbn [out_bind]. apply free_slot_Some in Hfree as [Hi _].
  rewrite vec_set_ok by (cbn; lia). cbn [out_bind]. eexists _, w'. split.
  { unfold ns_packet. cbn [ns_set_clients ns_set_out ns_out]. by rewrite Ht. }
  split_and!; try done. apply (long_enough _ _ _ Hl); [unfold u64; lia|by right].
Qed.

(** ** The client's side *)

(** A connecting client that has just heard the server does not time out. *)
Lemma client_stays c :
  nc_is_connecting c = true -> nc_last_packet_received_time c = nc_current_time c -> nc_connect_start_time c = nc_current_time c ->
  ct_create_timestamp (nc_connect_token c) < ct_expire_timestamp (nc_connect_token c) -> 0 <= nc_current_time c ->
  nc_current_time c + Z.max 0 (from_secs (ct_timeout_seconds (nc_connect_token c))) <= DURATION_MAX ->
  net_client_update_internal_state c 0 = Ret (c, Ok tt).
Proof using.
  intros Hst Hr Hs Hlife H0 Hmax. unfold net_client_update_internal_state.
  rewrite dur_add_ok by (destruct (Z.max_spec 0 (from_secs (ct_timeout_seconds (nc_connect_token c)))); lia). rewrite Z.add_0_r. cbn [out_bind].
  assert (nc_set_time c (nc_current_time c) = c) as -> by (by destruct c).
  assert (timed_out (ct_timeout_seconds (nc_connect_token c)) (nc_last_packet_received_time c) (nc_current_time c) = Ret false) as ->.
  { unfold timed_out. destruct (Z.ltb_spec 0 (ct_timeout_seconds (nc_connect_token c))); [|done]. rewrite Hr.
    assert (0 <= from_secs (ct_timeout_seconds (nc_connect_token c))) by (unfold from_secs, NANOS_PER_SEC; lia).
    rewrite dur_add_ok by lia. cbn [out_bind]. by rewrite (proj2 (Z.ltb_ge _ _)) by lia. }
  cbn [out_bind]. rewrite sub64_ok, Hs, dur_sub_ok, Z.sub_diag by lia. cbn [out_bind]. change (as_secs 0) with 0.
  rewrite (proj2 (Z.leb_gt _ _)) by lia. unfold nc_is_connecting in Hst. by destruct (nc_state c).
Qed.

Lemma client_sends_response c :
  nc_state c = SendingConnectionResponse -> nc_last_packet_send_time c = None -> len (nc_out c) = NETCODE_MAX_PACKET_BYTES ->
  0 <= nc_sequence c < U64_MAX -> u64 (nc_challenge_token_sequence c) -> len (nc_challenge_token_data c) = NETCODE_CHALLENGE_TOKEN_BYTES ->
  exists o w, len o = NETCODE_MAX_PACKET_BYTES /\ 18 <= len w /\
    wire (Response (nc_challenge_token_sequence c) (nc_challenge_token_data c)) (ct_protocol_id (nc_connect_token c)) (nc_sequence c)
      (ct_client_to_server_key (nc_connect_token c)) = Some w /\
    net_client_generate_packet c =
      Ret (nc_set_sequence (nc_set_out (nc_set_last_send c (Some (nc_current_time c))) o) (nc_sequence c + 1),
           Some (w, nc_server_addr c)).
Proof using laws.
  intros Hst Hsend Ho Hseq Hq Hd. unfold net_client_generate_packet. rewrite Hsend. cbn [out_bind]. rewrite Hst.
  cbn [nc_set_last_send nc_state]. rewrite Hst.
  match goal with |- context [nc_encode ?c1 ?p] => destruct (nc_encode_wire c1 p) as (o & w & E & Hw & Ht & Hol & Hl) end;
    [done|done|done|unfold u64; cbn; lia|].
  exists o, w. split_and!; [done| |done|].
  - apply (long_enough _ _ _ Hl); [unfold u64; cbn; lia|by right].
  - cbn [nc_set_last_send nc_challenge_token_sequence nc_challenge_token_data] in E |- *. rewrite E. nc_simpl. rewrite add64_ok by lia. nc_simpl.
    unfold nc_packet. nc_simpl. by rewrite Ht.
Qed.

Lemma client_receives c p q w rp' :
  is_request p = false -> packet_wf p -> u64 q -> 18 <= len w ->
  wire p (ct_protocol_id (nc_connect_token c)) q (ct_server_to_client_key (nc_connect_token c)) = Some w ->
  replay_check (Some (nc_replay_protection c)) (packet_type p) q = Ret false ->
  replay_advance (Some (nc_replay_protection c)) (packet_type p) q = Ret (Some rp') ->
  net_client_process_packet c w = Ret (net_client_handle (nc_set_replay c rp') p).
Proof using laws.
  intros Hr Hwf Hq Hl Hw Hc Ha. unfold net_client_process_packet. rewrite (net_decode_wire p _ q) by done.
  rewrite Hc. cbn [out_bind]. rewrite Ha. done.
Qed.

(** ** One exchange of the four packets *)

Definition handshake (c : NetcodeClient) (s : NetcodeServer) (addr : SocketAddr)
    : out (option (NetcodeClient * NetcodeServer * ServerResult)) :=
  let! (c, request) := net_client_update c 0 in
  match request with
  | None => Ret None
  | Some (request, _) =>
      let! (s, answer) := net_server_process_packet s addr request in
      match answer with
      | SrPacketToSend _ challenge =>
          let! (c, _) := net_client_process_packet c challenge in
          let! (c, response) := net_client_update c 0 in
          match response with
          | None => Ret None
          | Some (response, _) =>
              let! (s, result) := net_server_process_packet s addr response in
              match result with
              | SrClientConnected _ _ _ keep_alive =>
                  let! (c, _) := net_client_process_packet c keep_alive in
                  Ret (Some (c, s, result))
              | _ => Ret (Some (c, s, result))
              end
          end
      | _ => Ret None
      end
  end.

(** A client and the connection of a server that hold the two ends of a
    channel: same keys, and neither end has accepted a sequence that the other
    has still to use. *)
Record linked (c : NetcodeClient) (s : NetcodeServer) (addr : SocketAddr) (slot : Z) (conn : Connection) : Prop := {
  lk_client : nc_state c = CConnected /\ len (nc_out c) = NETCODE_MAX_PACKET_BYTES;
  lk_server : find_client_mut_by_addr (ns_clients s) addr = Some (slot, conn) /\
    find_client_slot_by_id (ns_clients s) (cn_client_id conn) = Some (slot, conn) /\
    cn_state conn = SConnected /\ len (ns_out s) = NETCODE_MAX_PACKET_BYTES;
  lk_keys : cn_receive_key conn = ct_client_to_server_key (nc_connect_token c) /\
    cn_send_key conn = ct_server_to_client_key (nc_connect_token c) /\ ct_protocol_id (nc_connect_token c) = ns_protocol_id s;
  lk_up : 0 < nc_sequence c /\ exists acc, replay_inv acc (cn_replay_protection conn) /\ Forall (fun q => q < nc_sequence c) acc;
  lk_down : 0 < cn_sequence conn /\ exists acc, replay_inv acc (nc_replay_protection c) /\ Forall (fun q => q < cn_sequence conn) acc;
}.

(** A client just created with the token. *)
Record fresh_client (t : ConnectToken) (c : NetcodeClient) : Prop := {
  fc_token : nc_connect_token c = t;
  fc_state : nc_state c = SendingConnectionRequest /\ nc_last_packet_send_time c = None /\ nc_sequence c = 0;
  fc_times : nc_last_packet_received_time c = nc_current_time c /\ nc_connect_start_time c = nc_current_time c /\ 0 <= nc_current_time c;
  fc_deadline : nc_current_time c + Z.max 0 (from_secs (ct_timeout_seconds t)) <= DURATION_MAX;
  fc_rest : len (nc_out c) = NETCODE_MAX_PACKET_BYTES /\ nc_replay_protection c = replay_new;
}.

Lemma new_client_fresh rnd now t c :
  net_client_new rnd now (ClientSecure t) = Ret (Ok c) -> 0 <= now ->
  now + Z.max 0 (from_secs (ct_timeout_seconds t)) <= DURATION_MAX -> fresh_client t c.
Proof using.
  intros H H0 Hd. unfold net_client_new in H. cbn [out_bind] in H. destruct (vec_get _ _) as [[a|]|]; cbn [unwrap out_bind] in H; [|done..].
  injection H as <-. by constructor.
Qed.

Lemma new_client_first_server rnd now t c :
  net_client_new rnd now (ClientSecure t) = Ret (Ok c) -> ct_server_addresses t !! O = Some (Some (nc_server_addr c)).
Proof using.
  intros H. unfold net_client_new in H. cbn [out_bind] in H. destruct (vec_get _ _) as [[a|]|] eqn:E; cbn [unwrap out_bind] in H; [|done..].
  injection H as <-. by apply vec_get_inv in E as [_ E].
Qed.

(** The client while it waits for the answer to its response: challenge stored,
    clock unchanged, sequence 2 next. *)
Definition responding (t : ConnectToken) (server_addr : SocketAddr) (c : NetcodeClient) : Prop :=
  nc_connect_token c = t /\ nc_server_addr c = server_addr /\ nc_state c = SendingConnectionResponse /\ nc_sequence c = 2 /\
  len (nc_out c) = NETCODE_MAX_PACKET_BYTES /\ nc_replay_protection c = replay_new.

(** From the request to the response, given the challenge packet in between. *)
Lemma client_half t c (H : fresh_client t c) :
  token_wf t -> ct_create_timestamp t < ct_expire_timestamp t ->
  exists c1, net_client_update c 0 = Ret (c1, Some (request_bytes t, nc_server_addr c)) /\
    forall gs cs data w, u64 gs -> u64 cs -> len data = NETCODE_CHALLENGE_TOKEN_BYTES -> 18 <= len w ->
      wire (Challenge cs data) (ct_protocol_id t) gs (ct_server_to_client_key t) = Some w ->
      exists c2 c3 w2, net_client_process_packet c1 w = Ret (c2, None) /\
        net_client_update c2 0 = Ret (c3, Some (w2, nc_server_addr c)) /\ responding t (nc_server_addr c) c3 /\ 18 <= len w2 /\
        wire (Response cs data) (ct_protocol_id t) 1 (ct_client_to_server_key t) = Some w2.
Proof using laws.
  intros Hwf Hlife. destruct H as [Ht (Hst & Hsend & Hseq) (Hr & Hs & H0) Hd [Ho Hrp]].
  unfold net_client_update at 1. rewrite client_stays; [|unfold nc_is_connecting; by rewrite Hst|done|done|by rewrite Ht|done|by rewrite Ht].
  cbn [out_bind]. destruct (generate_request c) as (o & Hol & ->); [done|done|by rewrite Ht|done|rewrite Hseq; done|].
  rewrite Ht. eexists. split; [done|]. intros gs cs data w Hgs Hcs Hdl Hl Hw.
  rewrite (client_receives _ (Challenge cs data) gs w replay_new);
    [|done|done|done|done|nc_simpl; by rewrite Ht|done|nc_simpl; by rewrite Hrp].
  unfold net_client_handle. nc_simpl. rewrite Hst.
  match goal with |- context [Ret (?c2, None) = _] => set (c2' := c2) end.
  destruct (client_sends_response c2') as (o2 & w2 & Hol2 & Hl2 & Hw2 & E); [done|done|done|cbn; rewrite Hseq; done|done|done|].
  exists c2'. eexists _, w2. split; [done|]. unfold net_client_update.
  rewrite client_stays; [|done|done|done|cbn; by rewrite Ht|done|cbn; by rewrite Ht]. cbn [out_bind]. rewrite E.
  split; [done|]. unfold c2' in Hw2. cbn in Hw2. rewrite Ht, Hseq in Hw2. split_and!; try done. split_and!; try done; cbn; [by rewrite Hseq].
Qed.

(** The keep-alive that ends the handshake. *)
Lemma client_connects t server_addr c i m w :
  responding t server_addr c -> 0 <= i <= U32_MAX -> 0 <= m <= U32_MAX -> 18 <= len w ->
  wire (KeepAlive i m) (ct_protocol_id t) 0 (ct_server_to_client_key t) = Some w ->
  exists c', net_client_process_packet c w = Ret (c', None) /\ nc_connect_token c' = t /\ nc_server_addr c' = server_addr /\ nc_state c' = CConnected /\
    nc_sequence c' = 2 /\ nc_client_index c' = i /\ nc_max_clients c' = m /\ len (nc_out c') = NETCODE_MAX_PACKET_BYTES /\
    replay_inv [0] (nc_replay_protection c').
Proof using laws.
  intros (Ht & Hsa & Hst & Hseq & Ho & Hrp) Hi Hm Hl Hw.
  assert (already_received replay_new 0 = Ret false) as Hno by (vm_compute; done).
  destruct (advance_sequence replay_new 0) as [rp|] eqn:Hadv; [|by vm_compute in Hadv].
  destruct (replay_accept [] replay_new 0 rp) as [_ Hinv]; [apply replay_new_inv|done|done|done|].
  rewrite (client_receives c (KeepAlive i m) 0 w rp); [|done|done|done|done|by rewrite Ht| |].
  - unfold net_client_handle. nc_simpl. rewrite Hst. eexists. split; [done|]. nc_simpl. by split_and!.
  - rewrite Hrp. exact Hno.
  - rewrite Hrp. cbn [replay_advance packet_type apply_replay_protection]. by rewrite Hadv.
Qed.

Lemma handshake_spec config s addr t pt c :
  issued t pt (ns_connect_key s) -> admissible config s addr t pt -> fresh_client t c ->
  exists c' s' slot conn keep_alive,
    handshake c s addr = Ret (Some (c', s', SrClientConnected (ct_client_id t) addr (pt_user_data pt) keep_alive)) /\
    server_inv config s' /\ linked c' s' addr slot conn /\ nc_connect_token c' = t /\
    cn_client_id conn = ct_client_id t /\ cn_user_data conn = pt_user_data pt /\ nc_client_index c' = slot mod 4294967296 /\
    nc_sequence c' = 2 /\ cn_sequence conn = 1 /\ nc_server_addr c' = nc_server_addr c.
Proof using laws.
  intros Hi Had Hf. destruct (client_half t c Hf (is_wf _ _ _ Hi) (is_life _ _ _ Hi)) as (c1 & E1 & Hhalf).
  destruct (server_answers_request config s addr t pt Hi Had) as (s1 & data & w & E2 & Hw & Hwl & Hdl & Hdec & Hp1 & Hc1 & Hpr1 & Hck1 & Hm1).
  destruct Had as [Hinv [Hg Hc _] Hproto _ _ [_ [slot Hslot]] Hnid Hnaddr _ _].
  assert (server_inv config s1) as Hinv1 by (by eapply net_process_packet_inv).
  destruct (Hhalf (ns_global_sequence s) (ns_challenge_sequence s + 1) data w) as (c2 & c3 & w2 & E3 & E4 & Hresp & Hw2l & Hw2);
    [unfold u64; lia|unfold u64; lia|done|done|by rewrite Hproto|].
  destruct (server_answers_response s1 addr (pending_of s addr t pt) 1 (ns_challenge_sequence s + 1) data
    (mkChallengeToken (ct_client_id t) (pt_user_data pt)) slot w2) as (s2 & w3 & E5 & Hw3 & Hw3l & Hc2 & Hpr2 & _ & Ho2); try done.
  { apply (sv_out _ _ Hinv1). } { by rewrite Hc1. } { rewrite Hp1. apply lookup_insert_eq. } { unfold u64; lia. }
  { by rewrite Hpr1, <- Hproto. } { by rewrite Hck1. } { by rewrite Hc1. } { by rewrite Hc1. }
  rewrite Hpr1, <- Hproto in Hw3. apply free_slot_Some in Hslot as [Hsl Hnone]. rewrite Z.sub_0_r in Hnone. rewrite Z.add_0_l in Hsl.
  destruct (client_connects t (nc_server_addr c) c3 (slot mod 4294967296) (ns_max_clients s1 mod 4294967296) w3 Hresp) as (c4 & E6 & Ht4 & Hsa4 & Hst4 & Hseq4 & Hi4 & _ & Ho4 & Hrp4); try done.
  { unfold U32_MAX. pose proof (Z.mod_pos_bound slot 4294967296). lia. }
  { unfold U32_MAX. pose proof (Z.mod_pos_bound (ns_max_clients s1) 4294967296). lia. }
  exists c4, s2, slot, (connected_of s1 (pending_of s addr t pt) (pt_user_data pt)), w3. split_and!; try done.
  - unfold handshake. rewrite E1. cbn [out_bind]. rewrite E2. cbn [out_bind]. rewrite E3. cbn [out_bind]. rewrite E4. cbn [out_bind].
    rewrite E5. cbn [out_bind]. rewrite E6. done.
  - by eapply net_process_packet_inv.
  - rewrite Hc1 in Hc2. assert (Z.of_nat (Z.to_nat slot) = slot) as Hz by lia. constructor.
    + done.
    + rewrite Hc2. split_and!; [| |done|done].
      * unfold find_client_mut_by_addr. rewrite <- Hz at 2. rewrite <- (Z.add_0_l (Z.of_nat _)).
        eapply find_slot_insert_new; [done|done|]. by rewrite bool_decide_eq_true_2.
      * unfold find_client_slot_by_id. rewrite <- Hz at 2. rewrite <- (Z.add_0_l (Z.of_nat _)).
        eapply find_slot_insert_new; [done|done|]. apply Z.eqb_refl.
    + rewrite Ht4, Hpr2, Hpr1. done.
    + rewrite Hseq4. split; [done|]. exists []. split; [apply replay_new_inv|constructor].
    + split; [done|]. exists [0]. split; [done|]. by repeat constructor.
Qed.

(** ** Payloads over a connection *)

(** A sequence above all accepted ones is accepted. *)
Lemma replay_fresh acc rp q :
  replay_inv acc rp -> Forall (fun x => x < q) acc -> 0 < q -> q <= U64_MAX - NETCODE_REPLAY_BUFFER_SIZE ->
  exists rp', already_received rp q = Ret false /\ advance_sequence rp q = Ret rp' /\ replay_inv (q :: acc) rp'.
Proof using.
  intros Hinv Hall H0 Hq. assert (seq_ok q) as Hok by (split; lia). rewrite Forall_forall in Hall.
  assert (~ replayed acc (most_recent_sequence rp) q) as Hn.
  { intros [Hin|Hold]; [apply Hall in Hin; lia|]. destruct (rp_latest _ _ Hinv) as [_ [Hm|Hm%Hall]]; unfold NETCODE_REPLAY_BUFFER_SIZE in *; lia. }
  destruct (already_received_spec acc rp q Hinv Hok) as (b & Hb & Hiff). destruct (advance_sequence_spec acc rp q Hinv Hok Hn) as (rp' & E & Hinv').
  exists rp'. split_and!; try done. rewrite Hb. destruct b; [|done]. exfalso. by apply Hn, Hiff.
Qed.

Lemma accepted_below q acc : Forall (fun x => x < q) acc -> Forall (fun x => x < q + 1) (q :: acc).
Proof using. intros H. constructor; [lia|]. eapply Forall_impl; [exact H|]. cbn. lia. Qed.

(** The client sends a payload, and the server at [server_addr] gets the packet if
    it is addressed to it. *)
Definition send_up (c : NetcodeClient) (s : NetcodeServer) (server_addr addr : SocketAddr) (payload : Bytes)
    : out (NetcodeClient * NetcodeServer * result ServerResult NetcodeError) :=
  let! (c, r) := net_client_generate_payload_packet c payload in
  match r with
  | Err e => Ret (c, s, Err e)
  | Ok (to, packet) =>
      if bool_decide (to = server_addr) then
        let! (s, result) := net_server_process_packet s addr packet in
        Ret (c, s, Ok result)
      else Ret (c, s, Ok SrNone)
  end.

(** The server sends a payload, and the client at [addr] gets the packet if it is
    addressed to it. *)
Definition send_down (s : NetcodeServer) (c : NetcodeClient) (addr : SocketAddr) (client_id : Z) (payload : Bytes)
    : out (NetcodeServer * NetcodeClient * result (option Bytes) NetcodeError) :=
  let! (s, r) := net_server_generate_payload_packet s client_id payload in
  match r with
  | Err e => Ret (s, c, Err e)
  | Ok (to, packet) =>
      if bool_decide (to = addr) then
        let! (c, received) := net_client_process_packet c packet in
        Ret (s, c, Ok received)
      else Ret (s, c, Ok None)
  end.

(** *** The four halves of an exchange *)

Lemma client_generates_payload c payload :
  nc_state c = CConnected -> len (nc_out c) = NETCODE_MAX_PACKET_BYTES -> len payload <= NETCODE_MAX_PAYLOAD_BYTES ->
  0 < nc_sequence c < U64_MAX ->
  exists o w, len o = NETCODE_MAX_PACKET_BYTES /\ 18 <= len w <= NETCODE_MAX_PACKET_BYTES /\
    wire (Payload payload) (ct_protocol_id (nc_connect_token c)) (nc_sequence c) (ct_client_to_server_key (nc_connect_token c)) = Some w /\
    net_client_generate_payload_packet c payload =
      Ret (nc_set_last_send (nc_set_sequence (nc_set_out c o) (nc_sequence c + 1)) (Some (nc_current_time c)),
           Ok (nc_server_addr c, w)).
Proof using laws.
  intros Hst Ho Hl Hq. assert (u64 (nc_sequence c)) as Hu by (unfold u64; lia).
  destruct (nc_encode_wire c (Payload payload)) as (o & w & E & Hw & Ht & Hol & Hwl); [done|done|done|done|].
  exists o, w. split_and!; [done|apply (long_enough _ _ _ Hwl); [done|left; lia]| |done|].
  - destruct (sequence_bytes_spec _ Hu) as [Hn _]. cbn [packet_write concat] in Hwl. rewrite app_nil_r in Hwl.
    unfold NETCODE_MAX_PACKET_BYTES, NETCODE_MAX_PAYLOAD_BYTES in *. lia.
  - unfold net_client_generate_payload_packet. rewrite (proj2 (Z.ltb_ge _ _)) by done. unfold nc_is_connected. rewrite Hst. cbn [negb].
    rewrite E. nc_simpl. rewrite add64_ok by lia. nc_simpl. unfold nc_packet. nc_simpl. by rewrite Ht.
Qed.

(** The connection after a payload under sequence [q]. *)
Definition heard (s : NetcodeServer) (conn : Connection) (rp : ReplayProtection) : Connection :=
  cn_set_confirmed (cn_set_last_received (cn_set_replay conn rp) (ns_current_time s)) true.

Lemma server_accepts_payload s addr slot conn acc q payload w :
  find_client_mut_by_addr (ns_clients s) addr = Some (slot, conn) -> cn_state conn = SConnected ->
  replay_inv acc (cn_replay_protection conn) -> Forall (fun x => x < q) acc -> 0 < q <= U64_MAX - NETCODE_REPLAY_BUFFER_SIZE ->
  len payload <= NETCODE_MAX_PAYLOAD_BYTES -> 18 <= len w ->
  wire (Payload payload) (ns_protocol_id s) q (cn_receive_key conn) = Some w ->
  exists rp, replay_inv (q :: acc) rp /\
    net_server_process_packet s addr w =
      Ret (ns_set_clients s (<[Z.to_nat slot := Some (heard s conn rp)]> (ns_clients s)), SrPayload (cn_client_id conn) payload).
Proof using laws.
  intros Hat Hst Hacc Hall Hq Hl H18 Hw. unfold net_server_process_packet, process_packet_internal.
  rewrite (proj2 (Z.ltb_ge _ _)) by (unfold NETCODE_MAC_BYTES; lia). rewrite Hat. unfold process_connected.
  assert (u64 q) as Hu by (unfold u64, NETCODE_REPLAY_BUFFER_SIZE in *; lia).
  rewrite (net_decode_wire (Payload payload) _ q) by done.
  destruct (replay_fresh acc (cn_replay_protection conn) q) as (rp & Hno & Hadv & Hinv); [done|done|lia|lia|].
  exists rp. split; [done|]. cbn [replay_check replay_advance packet_type apply_replay_protection]. rewrite Hno. cbn [out_bind].
  rewrite Hadv. cbn [out_bind cn_set_last_received cn_set_replay cn_state]. rewrite Hst.
  destruct (find_by_addr_Some _ _ _ _ Hat) as (Hs & _). by rewrite vec_set_ok.
Qed.

(** The connection after sending a packet. *)
Definition spoke (s : NetcodeServer) (conn : Connection) : Connection :=
  cn_set_last_send (cn_set_sequence conn (cn_sequence conn + 1)) (ns_current_time s).

Lemma server_generates_payload s slot conn payload :
  find_client_slot_by_id (ns_clients s) (cn_client_id conn) = Some (slot, conn) -> len (ns_out s) = NETCODE_MAX_PACKET_BYTES ->
  len payload <= NETCODE_MAX_PAYLOAD_BYTES -> 0 < cn_sequence conn < U64_MAX ->
  exists o w, len o = NETCODE_MAX_PACKET_BYTES /\ 18 <= len w <= NETCODE_MAX_PACKET_BYTES /\
    wire (Payload payload) (ns_protocol_id s) (cn_sequence conn) (cn_send_key conn) = Some w /\
    net_server_generate_payload_packet s (cn_client_id conn) payload =
      Ret (ns_set_clients (ns_set_out s o) (<[Z.to_nat slot := Some (spoke s conn)]> (ns_clients s)), Ok (cn_addr conn, w)).
Proof using laws.
  intros Hid Ho Hl Hq. assert (u64 (cn_sequence conn)) as Hu by (unfold u64; lia).
  destruct (ns_encode_wire s (Payload payload) (cn_sequence conn) (cn_send_key conn)) as (o & w & E & Hw & Ht & Hol & Hwl); [done..|].
  exists o, w. split_and!; [done|apply (long_enough _ _ _ Hwl); [done|left; lia]| |done|].
  - destruct (sequence_bytes_spec _ Hu) as [Hn _]. cbn [packet_write concat] in Hwl. rewrite app_nil_r in Hwl.
    unfold NETCODE_MAX_PACKET_BYTES, NETCODE_MAX_PAYLOAD_BYTES in *. lia.
  - unfold net_server_generate_payload_packet. rewrite (proj2 (Z.ltb_ge _ _)) by done. rewrite Hid, E. cbn [out_bind].
    rewrite add64_ok by lia. cbn [out_bind]. destruct (find_by_id_Some _ _ _ _ Hid) as (Hs & _). rewrite vec_set_ok by done.
    cbn [out_bind]. unfold ns_packet. cbn [ns_set_clients ns_out ns_set_out]. by rewrite Ht.
Qed.

Lemma client_accepts_payload c acc q payload w :
  nc_state c = CConnected -> replay_inv acc (nc_replay_protection c) -> Forall (fun x => x < q) acc ->
  0 < q <= U64_MAX - NETCODE_REPLAY_BUFFER_SIZE -> len payload <= NETCODE_MAX_PAYLOAD_BYTES -> 18 <= len w ->
  wire (Payload payload) (ct_protocol_id (nc_connect_token c)) q (ct_server_to_client_key (nc_connect_token c)) = Some w ->
  exists rp, replay_inv (q :: acc) rp /\
    net_client_process_packet c w = Ret (nc_set_last_received (nc_set_replay c rp) (nc_current_time c), Some payload).
Proof using laws.
  intros Hst Hacc Hall Hq Hl H18 Hw.
  destruct (replay_fresh acc (nc_replay_protection c) q) as (rp & Hno & Hadv & Hinv); [done|done|lia|lia|]. exists rp. split; [done|].
  rewrite (client_receives c (Payload payload) q w rp); [|done|done|unfold u64, NETCODE_REPLAY_BUFFER_SIZE in *; lia|done|done|exact Hno|].
  - unfold net_client_handle. nc_simpl. by rewrite Hst.
  - cbn [replay_advance packet_type apply_replay_protection]. by rewrite Hadv.
Qed.

(** *** Whole exchanges *)

Lemma send_up_step c s addr slot conn payload :
  linked c s addr slot conn -> len payload <= NETCODE_MAX_PAYLOAD_BYTES -> nc_sequence c <= U64_MAX - NETCODE_REPLAY_BUFFER_SIZE ->
  exists c' s' conn', send_up c s (nc_server_addr c) addr payload = Ret (c', s', Ok (SrPayload (cn_client_id conn) payload)) /\
    linked c' s' addr slot conn' /\ cn_client_id conn' = cn_client_id conn /\ nc_sequence c' = nc_sequence c + 1 /\
    cn_sequence conn' = cn_sequence conn /\ nc_server_addr c' = nc_server_addr c.
Proof using laws.
  intros [[Hst Ho] (Hat & Hid & Hcst & Hso) (Hk1 & Hk2 & Hp) (H0 & acc & Hacc & Hall) Hdown] Hl Hq.
  destruct (client_generates_payload c payload) as (o & w & Hol & Hwl & Hw & E1); [done|done|done|unfold NETCODE_REPLAY_BUFFER_SIZE in *; lia|].
  rewrite Hp, <- Hk1 in Hw. destruct (server_accepts_payload s addr slot conn acc (nc_sequence c) payload w) as (rp & Hrp & E2); try done; [lia|].
  unfold send_up. rewrite E1. cbn [out_bind]. rewrite bool_decide_eq_true_2 by done. rewrite E2. cbn [out_bind]. eexists _, _, (heard s conn rp). split; [done|].
  split; [|done]. constructor.
  - done.
  - destruct (find_by_addr_Some _ _ _ _ Hat) as (_ & _ & Haddr). cbn [ns_set_clients ns_clients]. split_and!; [| |done|done].
    + by eapply find_by_addr_insert.
    + by eapply find_by_id_insert.
  - done.
  - nc_simpl. split; [lia|]. exists (nc_sequence c :: acc). split; [done|by apply accepted_below].
  - done.
Qed.

Lemma send_down_step c s addr slot conn payload :
  linked c s addr slot conn -> len payload <= NETCODE_MAX_PAYLOAD_BYTES -> cn_sequence conn <= U64_MAX - NETCODE_REPLAY_BUFFER_SIZE ->
  exists s' c' conn', send_down s c addr (cn_client_id conn) payload = Ret (s', c', Ok (Some payload)) /\
    linked c' s' addr slot conn' /\ cn_client_id conn' = cn_client_id conn /\ cn_sequence conn' = cn_sequence conn + 1 /\
    nc_sequence c' = nc_sequence c /\ nc_server_addr c' = nc_server_addr c.
Proof using laws.
  intros [[Hst Ho] (Hat & Hid & Hcst & Hso) (Hk1 & Hk2 & Hp) Hup (H0 & acc & Hacc & Hall)] Hl Hq.
  destruct (server_generates_payload s slot conn payload) as (o & w & Hol & Hwl & Hw & E1); [done|done|done|unfold NETCODE_REPLAY_BUFFER_SIZE in *; lia|].
  rewrite <- Hp, Hk2 in Hw. destruct (client_accepts_payload c acc (cn_sequence conn) payload w) as (rp & Hrp & E2); try done; [lia|].
  unfold send_down. rewrite E1. cbn [out_bind].
  destruct (find_by_addr_Some _ _ _ _ Hat) as (_ & _ & Hca). rewrite bool_decide_eq_true_2 by done. rewrite E2. cbn [out_bind]. eexists _, _, (spoke s conn). split; [done|].
  split; [|done]. constructor.
  - done.
  - destruct (find_by_addr_Some _ _ _ _ Hat) as (_ & _ & Haddr). cbn [ns_set_clients ns_clients]. split_and!; [| |done|done].
    + by eapply find_by_addr_insert.
    + by eapply find_by_id_insert.
  - done.
  - done.
  - cbn. split; [lia|]. exists (cn_sequence conn :: acc). split; [done|by apply accepted_below].
Qed.

(** Payloads in both directions. *)
Inductive message :=
  | Up (payload : Bytes)
  | Down (payload : Bytes).

Definition message_len (m : message) : Z := match m with Up p | Down p => len p end.

(** Sending messages one after the other over a network that delivers what is
    addressed to the server at [server_addr] and to the client at [addr], and what
    the two applications receive. *)
Fixpoint exchange (c : NetcodeClient) (s : NetcodeServer) (server_addr addr : SocketAddr) (client_id : Z) (ms : list message)
    : out (NetcodeClient * NetcodeServer * list message) :=
  match ms with
  | [] => Ret (c, s, [])
  | Up payload :: ms =>
      let! (c, s, r) := send_up c s server_addr addr payload in
      let! (c, s, received) := exchange c s server_addr addr client_id ms in
      Ret (c, s, match r with
                 | Ok (SrPayload id p) => if id =? client_id then Up p :: received else received
                 | _ => received
                 end)
  | Down payload :: ms =>
      let! (s, c, r) := send_down s c addr client_id payload in
      let! (c, s, received) := exchange c s server_addr addr client_id ms in
      Ret (c, s, match r with Ok (Some p) => Down p :: received | _ => received end)
  end.

Lemma exchange_spec ms : forall c s addr slot conn,
  linked c s addr slot conn -> Forall (fun m => message_len m <= NETCODE_MAX_PAYLOAD_BYTES) ms ->
  nc_sequence c + len ms <= U64_MAX - NETCODE_REPLAY_BUFFER_SIZE -> cn_sequence conn + len ms <= U64_MAX - NETCODE_REPLAY_BUFFER_SIZE ->
  exists c' s' conn', exchange c s (nc_server_addr c) addr (cn_client_id conn) ms = Ret (c', s', ms) /\ linked c' s' addr slot conn'.
Proof using laws.
  induction ms as [|m ms IH]; intros c s addr slot conn Hl Hall Hu Hd; cbn [exchange]; [by exists c, s, conn|].
  apply Forall_cons in Hall as [Hm Hall]. rewrite len_cons in *. pose proof (len_nonneg ms). destruct m as [p|p]; cbn [message_len] in Hm.
  - destruct (send_up_step c s addr slot conn p Hl Hm) as (c1 & s1 & conn1 & -> & Hl1 & Hid & Hs1 & Hs2 & Hsa); [lia|]. cbn [out_bind].
    destruct (IH c1 s1 addr slot conn1 Hl1 Hall) as (c2 & s2 & conn2 & E & Hl2); [lia|lia|]. rewrite Hid, Hsa in E. rewrite E. cbn [out_bind].
    rewrite Z.eqb_refl. by exists c2, s2, conn2.
  - destruct (send_down_step c s addr slot conn p Hl Hm) as (s1 & c1 & conn1 & -> & Hl1 & Hid & Hs1 & Hs2 & Hsa); [lia|]. cbn [out_bind].
    destruct (IH c1 s1 addr slot conn1 Hl1 Hall) as (c2 & s2 & conn2 & E & Hl2); [lia|lia|]. rewrite Hid, Hsa in E. rewrite E. cbn [out_bind].
    by exists c2, s2, conn2.
Qed.

End handshake.

(** ** Properties *)

(** C8: The handshake completes: a new client whose token was sealed with the
    server's key, against any reachable server that can take it, is connected
    after one request, challenge, response and keep-alive.  The server reports
    the client with the id and user data of the token, keeps its invariant, and
    both ends hold the same keys and slot. *)
Theorem handshake_connects {aead : Aead} {laws : AeadLaws aead} config s addr t pt rnd now c :
  issued t pt (ns_connect_key s) -> admissible config s addr t pt ->
  net_client_new rnd now (ClientSecure t) = Ret (Ok c) -> 0 <= now ->
  now + Z.max 0 (from_secs (ct_timeout_seconds t)) <= DURATION_MAX ->
  exists c' s' slot conn keep_alive,
    handshake c s addr = Ret (Some (c', s', SrClientConnected (ct_client_id t) addr (pt_user_data pt) keep_alive)) /\
    server_inv config s' /\ linked c' s' addr slot conn /\
    cn_client_id conn = ct_client_id t /\ cn_user_data conn = pt_user_data pt /\ nc_client_index c' = slot mod 4294967296.
Proof.
  intros Hi Had Hnew H0 Hd. destruct (handshake_spec config s addr t pt c Hi Had) as (c' & s' & slot & conn & ka & E & Hinv & Hl & _ & Hid & Hud & Hix & _).
  - by eapply new_client_fresh.
  - by exists c', s', slot, conn, ka.
Qed.

(** C7: A session works end to end: a new client whose token was sealed with the
    server's key connects to any reachable server that can take it, and then any
    interleaving of fewer than 2^64 - 258 payloads of at most 1300 bytes each, in
    both directions, over a network that
    delivers a packet to the side it is addressed to (the server is at the first
    address of the token, the client at [addr]) and loses it if it is addressed
    elsewhere, is received by the other side, complete, unchanged and in order. *)
Theorem session_delivers {aead : Aead} {laws : AeadLaws aead} config s addr t pt rnd now c ms :
  issued t pt (ns_connect_key s) -> admissible config s addr t pt ->
  net_client_new rnd now (ClientSecure t) = Ret (Ok c) -> 0 <= now ->
  now + Z.max 0 (from_secs (ct_timeout_seconds t)) <= DURATION_MAX ->
  Forall (fun m => message_len m <= NETCODE_MAX_PAYLOAD_BYTES) ms -> 2 + len ms <= U64_MAX - NETCODE_REPLAY_BUFFER_SIZE ->
  exists server_addr c1 s1 r c2 s2, ct_server_addresses t !! O = Some (Some server_addr) /\
    handshake c s addr = Ret (Some (c1, s1, r)) /\
    exchange c1 s1 server_addr addr (ct_client_id t) ms = Ret (c2, s2, ms).
Proof.
  intros Hi Had Hnew H0 Hd Hms Hn.
  destruct (handshake_spec config s addr t pt c Hi Had) as (c1 & s1 & slot & conn & ka & E & _ & Hl & _ & Hid & _ & _ & Hs1 & Hs2 & Hsa).
  { by eapply new_client_fresh. }
  destruct (exchange_spec ms c1 s1 addr slot conn Hl Hms) as (c2 & s2 & conn2 & E2 & _); [lia|lia|].
  rewrite Hid, Hsa in E2. eexists (nc_server_addr c), c1, s1, _, c2, s2. split; [|split; [exact E|exact E2]].
  by eapply new_client_first_server.
Qed.

(** ** A concrete session *)

Definition handshake_key : Bytes := replicate 32 (byte_of 9).

Definition handshake_private : PrivateConnectToken :=
  mkPrivateToken 7 15 (addr_array [sample_addr]) (replicate 32 (byte_of 1)) (replicate 32 (byte_of 2)) (replicate 256 (byte_of 3)).

Definition handshake_token : ConnectToken :=
  match token_generate sample_random 0 9 300 7 15 [sample_addr] None handshake_key with
  | Ret (Ok t) => t
  | _ => sample_token 15
  end.

Lemma handshake_token_issued : issued handshake_token handshake_private (ns_connect_key sample_server).
Proof.
  constructor; [|vm_compute; reflexivity|split_and!; vm_compute; reflexivity|vm_compute; reflexivity].
  constructor; [| |vm_compute; reflexivity..| |split; vm_compute; reflexivity].
  - split_and!; vm_compute; split; congruence.
  - vm_compute. split; congruence.
  - exists [sample_addr]. split; [vm_compute; reflexivity|]. split; [vm_compute; congruence|apply sample_addr_plain].
Qed.

Lemma handshake_admissible : admissible sample_config sample_server (peer 1) handshake_token handshake_private.
Proof.
  assert (net_server_new (replicate 32 (byte_of 8)) sample_config = Ret sample_server) as Hnew.
  { apply (out_default_ret _ (net_server_new _ _)). vm_compute. reflexivity. }
  constructor.
  - by apply (new_inv sample_config (replicate 32 (byte_of 8))).
  - constructor; [vm_compute; split; congruence..|]. intros a c Hc. change (ns_pending_clients sample_server) with (∅ : gmap SocketAddr Connection) in Hc.
    by rewrite lookup_empty in Hc.
  - vm_compute. reflexivity.
  - vm_compute. reflexivity.
  - intros _. vm_compute. reflexivity.
  - split; [vm_compute; reflexivity|]. exists 0. vm_compute. reflexivity.
  - vm_compute. reflexivity.
  - vm_compute. reflexivity.
  - split; vm_compute; reflexivity.
  - intros e He. exfalso. change (ns_connect_token_entries sample_server) with (@vec_repeat (option ConnectTokenEntry) None (NETCODE_MAX_CLIENTS * 2)) in He.
    unfold vec_repeat in He. by apply elem_of_replicate in He as [? _].
Qed.

Lemma handshake_client : exists c, net_client_new sample_random 0 (ClientSecure handshake_token) = Ret (Ok c).
Proof.
  assert ((let! r := net_client_new sample_random 0 (ClientSecure handshake_token) in
           Ret (match r with Ok _ => true | Err _ => false end)) = Ret true) as H by (vm_compute; reflexivity).
  destruct (net_client_new sample_random 0 (ClientSecure handshake_token)) as [[c|e]|]; [by exists c|discriminate H|discriminate H].
Qed.

Lemma handshake_connects_witness :
  exists c c' s' keep_alive, net_client_new sample_random 0 (ClientSecure handshake_token) = Ret (Ok c) /\
    handshake c sample_server (peer 1) = Ret (Some (c', s', SrClientConnected 7 (peer 1) (replicate 256 (byte_of 3)) keep_alive)).
Proof.
  destruct handshake_client as [c E].
  destruct (handshake_connects sample_config sample_server (peer 1) handshake_token handshake_private sample_random 0 c)
    as (c' & s' & slot & conn & ka & Eh & _).
  - apply handshake_token_issued.
  - apply handshake_admissible.
  - exact E.
  - lia.
  - vm_compute. congruence.
  - exists c, c', s', ka. split; [exact E|exact Eh].
Defined.

Lemma session_delivers_witness :
  exists c c1 s1 r c2 s2, handshake c sample_server (peer 1) = Ret (Some (c1, s1, r)) /\
    exchange c1 s1 sample_addr (peer 1) 7 [Up [byte_of 1]; Down []; Up [byte_of 2]] = Ret (c2, s2, [Up [byte_of 1]; Down []; Up [byte_of 2]]).
Proof.
  destruct handshake_client as [c E].
  destruct (session_delivers sample_config sample_server (peer 1) handshake_token handshake_private sample_random 0 c
      [Up [byte_of 1]; Down []; Up [byte_of 2]]) as (server_addr & c1 & s1 & r & c2 & s2 & Ea & Eh & Ex).
  - apply handshake_token_issued.
  - apply handshake_admissible.
  - exact E.
  - lia.
  - vm_compute. congruence.
  - repeat (apply Forall_cons; split; [vm_compute; congruence|]). apply Forall_nil_2.
  - vm_compute. congruence.
  - assert (ct_server_addresses handshake_token !! O = Some (Some sample_addr)) as Ea' by (vm_compute; reflexivity).
    rewrite Ea in Ea'. injection Ea' as ->. exists c, c1, s1, r, c2, s2. split; [exact Eh|exact Ex].
Defined.

(** The first challenge and the first keep-alive of a connection are encrypted
    under the same key and the same nonce: the server's global sequence and the
    connection's own sequence both start at 0. *)
Example server_nonce_reused :
  let decoded packet :=
    let! (_, r) := net_decode packet 9 (Some (replicate 32 (byte_of 2))) None in
    Ret (match r with Ok (sequence, p) => Some (sequence, packet_type p) | Err _ => None end) in
  let keep_alive := match (sample_process sample_pending (peer 1) sample_response).2 with SrClientConnected _ _ _ p => p | _ => [] end in
  decoded (sample_ask sample_server 1 7 0).2 = Ret (Some (0, TChallenge)) /\ decoded keep_alive = Ret (Some (0, TKeepAlive)).
Proof. vm_compute. split; reflexivity. Qed.
