(* ===== verification/Transport.v ===== *)
(** * The netcode transports (renet_netcode/src)

    [NetcodeClientTransport] and [NetcodeServerTransport] join a renet endpoint,
    a netcode endpoint and a UDP socket.  The socket is what the program sees of
    it: the outcomes of the receptions to come, the outcomes of the sends to
    come, and the datagrams sent so far. *)

From S2P Require Import Prelude Octets Packet Connection Server.
From S2P Require Import Netcode ReplayProtection Token NetPacket NetClient NetServer.

(** ** Sockets ([std::net::UdpSocket], non-blocking) *)

Inductive recv_event :=
  | Datagram (data : Bytes) (addr : SocketAddr)
  | RecvError (kind : IoErrorKind).

Record Socket := mkSocket {
  sk_nonblocking : option IoErrorKind;
  sk_incoming : list recv_event;
  sk_outcomes : list (option IoErrorKind);
  sk_sent : list (SocketAddr * Bytes);
}.

(** [send_to]: the next outcome, success once they are used up. *)
Definition send_to (sk : Socket) (packet : Bytes) (addr : SocketAddr) : Socket * result unit IoErrorKind :=
  match sk_outcomes sk with
  | Some kind :: outcomes => (mkSocket (sk_nonblocking sk) (sk_incoming sk) outcomes (sk_sent sk), Err kind)
  | None :: outcomes => (mkSocket (sk_nonblocking sk) (sk_incoming sk) outcomes (sk_sent sk ++ [(addr, packet)]), Ok tt)
  | [] => (mkSocket (sk_nonblocking sk) (sk_incoming sk) [] (sk_sent sk ++ [(addr, packet)]), Ok tt)
  end.

(** What [recv_from] leaves in a buffer of 1400 bytes: longer datagrams are cut. *)
Definition received (data : Bytes) : Bytes := take (Z.to_nat NETCODE_MAX_PACKET_BYTES) data.

Definition sk_set_incoming (sk : Socket) (x : list recv_event) : Socket :=
  mkSocket (sk_nonblocking sk) x (sk_outcomes sk) (sk_sent sk).

(** ** Errors (lib.rs) *)

Inductive NetcodeTransportError :=
  | TeNetcode (inner : NetcodeError)
  | TeRenet (inner : DisconnectReason)
  | TeIO (inner : IoErrorKind).

(** ** The client (client.rs) *)

Record NetcodeClientTransport := mkClientTransport {
  tc_socket : Socket;
  tc_netcode_client : NetcodeClient;
}.

Definition tc_set_socket (self : NetcodeClientTransport) (x : Socket) : NetcodeClientTransport :=
  mkClientTransport x (tc_netcode_client self).
Definition tc_set_client (self : NetcodeClientTransport) (x : NetcodeClient) : NetcodeClientTransport :=
  mkClientTransport (tc_socket self) x.

Section client.
Context {oct : Octets} {aead : Aead}.

Definition tc_new (rnd : TokenRandom) (current_time : Z) (authentication : ClientAuthentication) (socket : Socket)
    : out (result NetcodeClientTransport NetcodeError) :=
  match sk_nonblocking socket with
  | Some kind => Ret (Err (IoError kind))
  | None =>
      let? netcode_client := net_client_new rnd current_time authentication in
      Ret (Ok (mkClientTransport socket netcode_client))
  end.

Definition tc_client_id (self : NetcodeClientTransport) : Z := nc_client_id (tc_netcode_client self).

Definition tc_time_since_last_received_packet (self : NetcodeClientTransport) : out Z :=
  nc_time_since_last_received_packet (tc_netcode_client self).

Definition tc_disconnect_reason (self : NetcodeClientTransport) : option NetDisconnectReason :=
  nc_disconnect_reason (tc_netcode_client self).

Definition tc_disconnect (self : NetcodeClientTransport) : out NetcodeClientTransport :=
  if nc_is_disconnected (tc_netcode_client self) then Ret self
  else
    let! (netcode_client, r) := net_client_disconnect (tc_netcode_client self) in
    let self := tc_set_client self netcode_client in
    match r with
    | Ok (addr, packet) =>
        let (socket, _) := send_to (tc_socket self) packet addr in
        Ret (tc_set_socket self socket)
    | Err _ => Ret self
    end.

(** The loop of [send_packets]. *)
Fixpoint tc_send_loop (self : NetcodeClientTransport) (packets : list Bytes)
    : out (NetcodeClientTransport * result unit NetcodeTransportError) :=
  match packets with
  | [] => Ret (self, Ok tt)
  | packet :: packets' =>
      let! (netcode_client, r) := net_client_generate_payload_packet (tc_netcode_client self) packet in
      let self := tc_set_client self netcode_client in
      match r with
      | Err e => Ret (self, Err (TeNetcode e))
      | Ok (addr, payload) =>
          let (socket, sent) := send_to (tc_socket self) payload addr in
          let self := tc_set_socket self socket in
          match sent with
          | Err e => Ret (self, Err (TeIO e))
          | Ok _ => tc_send_loop self packets'
          end
      end
  end.

Definition tc_send_packets (self : NetcodeClientTransport) (connection : RenetClient)
    : out (NetcodeClientTransport * RenetClient * result unit NetcodeTransportError) :=
  match nc_disconnect_reason (tc_netcode_client self) with
  | Some reason => Ret (self, connection, Err (TeNetcode (NetDisconnected reason)))
  | None =>
      let! (connection, packets) := get_packets_to_send connection in
      let! (self, r) := tc_send_loop self packets in
      Ret (self, connection, r)
  end.

(** The reception loop of [update], over the events of the socket; past the last
    one the socket would block. *)
Fixpoint tc_receive_loop (netcode_client : NetcodeClient) (client : RenetClient) (incoming : list recv_event)
    : out (NetcodeClient * RenetClient * list recv_event * result unit NetcodeTransportError) :=
  match incoming with
  | [] => Ret (netcode_client, client, [], Ok tt)
  | RecvError (WouldBlock | Interrupted) :: incoming' => Ret (netcode_client, client, incoming', Ok tt)
  | RecvError e :: incoming' => Ret (netcode_client, client, incoming', Err (TeIO e))
  | Datagram data addr :: incoming' =>
      if negb (bool_decide (addr = nc_server_addr netcode_client)) then tc_receive_loop netcode_client client incoming'
      else
        let! (netcode_client, payload) := net_client_process_packet netcode_client (received data) in
        match payload with
        | Some payload =>
            let! client := process_packet client payload in
            tc_receive_loop netcode_client client incoming'
        | None => tc_receive_loop netcode_client client incoming'
        end
  end.

Definition tc_update (self : NetcodeClientTransport) (duration : Z) (client : RenetClient)
    : out (NetcodeClientTransport * RenetClient * result unit NetcodeTransportError) :=
  match nc_disconnect_reason (tc_netcode_client self) with
  | Some reason => Ret (self, disconnect_due_to_transport client, Err (TeNetcode (NetDisconnected reason)))
  | None =>
      match disconnect_reason client with
      | Some error =>
          let! (netcode_client, r) := net_client_disconnect (tc_netcode_client self) in
          let self := tc_set_client self netcode_client in
          match r with
          | Err e => Ret (self, client, Err (TeNetcode e))
          | Ok (addr, disconnect_packet) =>
              let (socket, sent) := send_to (tc_socket self) disconnect_packet addr in
              let self := tc_set_socket self socket in
              match sent with
              | Err e => Ret (self, client, Err (TeIO e))
              | Ok _ => Ret (self, client, Err (TeRenet error))
              end
          end
      | None =>
          let client :=
            if nc_is_connected (tc_netcode_client self) then set_connected client
            else if nc_is_connecting (tc_netcode_client self) then set_connecting client
            else client in
          let! (netcode_client, client, incoming, r) :=
            tc_receive_loop (tc_netcode_client self) client (sk_incoming (tc_socket self)) in
          let self := tc_set_socket (tc_set_client self netcode_client) (sk_set_incoming (tc_socket self) incoming) in
          match r with
          | Err e => Ret (self, client, Err e)
          | Ok _ =>
              let! (netcode_client, packet) := net_client_update (tc_netcode_client self) duration in
              let self := tc_set_client self netcode_client in
              match packet with
              | None => Ret (self, client, Ok tt)
              | Some (packet, addr) =>
                  let (socket, sent) := send_to (tc_socket self) packet addr in
                  Ret (tc_set_socket self socket, client, map_err TeIO sent)
              end
          end
      end
  end.

End client.

(** ** The server (server.rs) *)

Record NetcodeServerTransport := mkServerTransport {
  ts_socket : Socket;
  ts_netcode_server : NetcodeServer;
}.

Definition ts_set_socket (self : NetcodeServerTransport) (x : Socket) : NetcodeServerTransport :=
  mkServerTransport x (ts_netcode_server self).
Definition ts_set_server (self : NetcodeServerTransport) (x : NetcodeServer) : NetcodeServerTransport :=
  mkServerTransport (ts_socket self) x.

Section server.
Context {oct : Octets} {aead : Aead}.

Definition ts_new (challenge_key : Bytes) (server_config : ServerConfig) (socket : Socket)
    : out (result NetcodeServerTransport IoErrorKind) :=
  match sk_nonblocking socket with
  | Some kind => Ret (Err kind)
  | None =>
      let! netcode_server := net_server_new challenge_key server_config in
      Ret (Ok (mkServerTransport socket netcode_server))
  end.

(** The observers. *)
Definition ts_addresses (self : NetcodeServerTransport) : list SocketAddr := ns_public_addresses (ts_netcode_server self).
Definition ts_max_clients (self : NetcodeServerTransport) : Z := ns_max_clients (ts_netcode_server self).
Definition ts_connected_clients (self : NetcodeServerTransport) : Z := ns_connected_clients (ts_netcode_server self).
Definition ts_user_data (self : NetcodeServerTransport) (client_id : Z) : option Bytes := ns_user_data (ts_netcode_server self) client_id.
Definition ts_client_addr (self : NetcodeServerTransport) (client_id : Z) : option SocketAddr :=
  ns_client_addr (ts_netcode_server self) client_id.
Definition ts_time_since_last_received_packet (self : NetcodeServerTransport) (client_id : Z) : out (option Z) :=
  ns_time_since_last_received_packet (ts_netcode_server self) client_id.

Definition ts_set_max_clients (self : NetcodeServerTransport) (max_clients : Z) : NetcodeServerTransport :=
  ts_set_server self (net_server_set_max_clients (ts_netcode_server self) max_clients).

Definition handle_server_result (server_result : ServerResult) (socket : Socket) (reliable_server : RenetServer)
    : out (Socket * RenetServer) :=
  match server_result with
  | SrNone => Ret (socket, reliable_server)
  | SrPacketToSend addr payload => Ret ((send_to socket payload addr).1, reliable_server)
  | SrPayload client_id payload =>
      let! (reliable_server, _) := process_packet_from reliable_server payload client_id in
      Ret (socket, reliable_server)
  | SrClientConnected client_id addr _ payload =>
      let! reliable_server := add_connection reliable_server client_id in
      Ret ((send_to socket payload addr).1, reliable_server)
  | SrClientDisconnected client_id addr payload =>
      let reliable_server := remove_connection reliable_server client_id in
      match payload with
      | Some payload => Ret ((send_to socket payload addr).1, reliable_server)
      | None => Ret (socket, reliable_server)
      end
  end.

(** One netcode call whose result is handled. *)
Definition ts_handle (call : NetcodeServer -> out (NetcodeServer * ServerResult))
    (state : NetcodeServerTransport * RenetServer) : out (NetcodeServerTransport * RenetServer) :=
  let (self, server) := state in
  let! (netcode_server, server_result) := call (ts_netcode_server self) in
  let! (socket, server) := handle_server_result server_result (ts_socket self) server in
  Ret (mkServerTransport socket netcode_server, server).

Definition ts_disconnect_all (self : NetcodeServerTransport) (server : RenetServer)
    : out (NetcodeServerTransport * RenetServer) :=
  fold_out (fun state client_id => ts_handle (fun s => net_server_disconnect s client_id) state)
    (self, server) (ns_clients_id (ts_netcode_server self)).

(** The reception loop of [update]. *)
Fixpoint ts_receive_loop (state : NetcodeServerTransport * RenetServer) (incoming : list recv_event)
    : out (NetcodeServerTransport * RenetServer * list recv_event * result unit NetcodeTransportError) :=
  match incoming with
  | [] => Ret (state, [], Ok tt)
  | RecvError (WouldBlock | Interrupted) :: incoming' => Ret (state, incoming', Ok tt)
  | RecvError ConnectionReset :: incoming' => ts_receive_loop state incoming'
  | RecvError e :: incoming' => Ret (state, incoming', Err (TeIO e))
  | Datagram data addr :: incoming' =>
      let! state := ts_handle (fun s => net_server_process_packet s addr (received data)) state in
      ts_receive_loop state incoming'
  end.

Definition ts_update (self : NetcodeServerTransport) (duration : Z) (server : RenetServer)
    : out (NetcodeServerTransport * RenetServer * result unit NetcodeTransportError) :=
  let! netcode_server := net_server_update (ts_netcode_server self) duration in
  let self := ts_set_server self netcode_server in
  let! (state, incoming, r) := ts_receive_loop (self, server) (sk_incoming (ts_socket self)) in
  let (self, server) := state in
  let self := ts_set_socket self (sk_set_incoming (ts_socket self) incoming) in
  match r with
  | Err e => Ret (self, server, Err e)
  | Ok _ =>
      let! (self, server) :=
        fold_out (fun state client_id => ts_handle (fun s => net_server_update_client s client_id) state)
          (self, server) (ns_clients_id (ts_netcode_server self)) in
      let! (self, server) :=
        fold_out (fun state client_id => ts_handle (fun s => net_server_disconnect s client_id) state)
          (self, server) (disconnections_id server) in
      Ret (self, server, Ok tt)
  end.

(** The packets of one client: the first failure skips the rest of them. *)
Fixpoint ts_send_client (self : NetcodeServerTransport) (client_id : Z) (packets : list Bytes) : out NetcodeServerTransport :=
  match packets with
  | [] => Ret self
  | packet :: packets' =>
      let! (netcode_server, r) := net_server_generate_payload_packet (ts_netcode_server self) client_id packet in
      let self := ts_set_server self netcode_server in
      match r with
      | Err _ => Ret self
      | Ok (addr, payload) =>
          let (socket, sent) := send_to (ts_socket self) payload addr in
          let self := ts_set_socket self socket in
          match sent with
          | Err _ => Ret self
          | Ok _ => ts_send_client self client_id packets'
          end
      end
  end.

Definition ts_send_packets (self : NetcodeServerTransport) (server : RenetServer) : out (NetcodeServerTransport * RenetServer) :=
  fold_out (fun '(self, server) client_id =>
    let! (server, r) := server_get_packets_to_send server client_id in
    let! packets := match r with Ok packets => Ret packets | Err _ => Panic end in
    let! self := ts_send_client self client_id packets in
    Ret (self, server)) (self, server) (clients_id server).

End server.
