(* ===== verification/TransportProps.v ===== *)
(** * Properties of the netcode transports

    The renet server and the netcode server stay in step, and the transport is
    transparent: what one renet endpoint puts into it is what the other gets. *)

From S2P Require Import Prelude Octets Packet Connection ConnectionProps Server.
From S2P Require Import Netcode ReplayProtection Token NetPacket NetClient NetServer NetServerInv NetServerProps NetClientProps.
From S2P Require Import Handshake Transport.

(** ** Which clients a netcode call adds and removes *)

Definition has_client (s : NetcodeServer) (id : Z) : Prop :=
  exists k c, ns_clients s !! k = Some (Some c) /\ cn_client_id c = id.

(** Clients stay, except the one a result reports as disconnected; and a client
    reported as connected is there. *)
Definition tracks (s s' : NetcodeServer) (r : ServerResult) : Prop :=
  (forall id, has_client s id -> has_client s' id \/ exists addr p, r = SrClientDisconnected id addr p) /\
  match r with SrClientConnected id _ _ _ => has_client s' id | _ => True end.

Lemma tracks_same s s' r :
  ns_clients s' = ns_clients s -> match r with SrClientConnected _ _ _ _ => False | _ => True end -> tracks s s' r.
Proof. intros H Hr. split; [intros id Hid; left; unfold has_client; by rewrite H|by destruct r]. Qed.

(** Updating a slot in place keeps all ids. *)
Lemma tracks_set s i c c' r :
  0 <= i < len (ns_clients s) -> ns_clients s !! Z.to_nat i = Some (Some c) -> cn_client_id c' = cn_client_id c ->
  match r with SrClientConnected _ _ _ _ => False | _ => True end ->
  exists l, vec_set (ns_clients s) i (Some c') = Ret l /\ forall s', ns_clients s' = l -> tracks s s' r.
Proof.
  intros Hi Hc Hid Hr. rewrite vec_set_ok by done. eexists. split; [done|]. intros s' Hs'. split; [|by destruct r].
  intros id (k & x & Hk & Hx). left. unfold has_client. rewrite Hs'. destruct (decide (k = Z.to_nat i)) as [->|Hne].
  - exists (Z.to_nat i), c'. rewrite list_lookup_insert_eq by (unfold len in Hi; lia). split; [done|congruence].
  - exists k, x. by rewrite list_lookup_insert_ne.
Qed.

(** Emptying a slot goes with a report. *)
Lemma tracks_clear s i c addr p :
  0 <= i < len (ns_clients s) -> ns_clients s !! Z.to_nat i = Some (Some c) ->
  exists l, vec_set (ns_clients s) i None = Ret l /\
    forall s', ns_clients s' = l -> tracks s s' (SrClientDisconnected (cn_client_id c) addr p).
Proof.
  intros Hi Hc. rewrite vec_set_ok by done. eexists. split; [done|]. intros s' Hs'. split; [|done].
  intros id (k & x & Hk & Hx). destruct (decide (k = Z.to_nat i)) as [->|Hne].
  - right. exists addr, p. congruence.
  - left. exists k, x. rewrite Hs'. by rewrite list_lookup_insert_ne.
Qed.

Section tracking.
Context {aead : Aead}.
Implicit Types s : NetcodeServer.

Lemma deny_clients s addr key s' r : deny s addr key = Ret (s', r) ->
  ns_clients s' = ns_clients s /\ match r with Ok (SrClientConnected _ _ _ _) => False | _ => True end.
Proof using.
  intros H. unfold deny in H. destruct (ns_encode _ _ _ _) as [[s1 [n|]]|] eqn:E; cbn [out_bind] in H; [| |done];
    apply ns_encode_inv in E as (o & -> & Ho); [|by injection H as <- <-].
  destruct (add64 _ _); cbn [out_bind] in H; [|done]. by injection H as <- <-.
Qed.

Lemma challenge_clients s addr expire token s' r : challenge s addr expire token = Ret (s', r) ->
  ns_clients s' = ns_clients s /\ match r with Ok (SrClientConnected _ _ _ _) => False | _ => True end.
Proof using.
  intros H. unfold challenge in H. destruct (add64 _ _) as [q|]; cbn [out_bind] in H; [|done].
  destruct (generate_challenge _ _ _ _) as [[p|]|]; cbn [out_bind] in H; [|by injection H as <- <-|done].
  destruct (ns_encode _ _ _ _) as [[s1 [n|]]|] eqn:E; cbn [out_bind] in H; [| |done];
    apply ns_encode_inv in E as (o & -> & Ho); [|by injection H as <- <-].
  destruct (add64 _ _) as [q'|]; cbn [out_bind] in H; [|done]. by injection H as <- <-.
Qed.

Lemma handle_request_clients s addr v pid ex xn data s' r :
  handle_connection_request s addr v pid ex xn data = Ret (s', r) ->
  ns_clients s' = ns_clients s /\ match r with Ok (SrClientConnected _ _ _ _) => False | _ => True end.
Proof using.
  intros H. unfold handle_connection_request in H.
  destruct (negb (bool_decide (v = _))); [by injection H as <- <-|]. destruct (negb (pid =? _)); [by injection H as <- <-|].
  destruct (ex <=? _); [by injection H as <- <-|]. destruct (private_decode _ _ _ _ _) as [[token|]|]; cbn [out_bind] in H; [|by injection H as <- <-|done].
  destruct (ns_secure s && _); [by injection H as <- <-|]. destruct (_ || _); [by injection H as <- <-|].
  destruct (bool_decide (ns_pending_clients s !! addr = None) && _); [by injection H as <- <-|].
  destruct (find_or_add_connect_token_entry _ _) as [[s1 b]|] eqn:E; cbn [out_bind] in H; [|done].
  assert (ns_clients s1 = ns_clients s) as Hc.
  { unfold find_or_add_connect_token_entry in E. destruct (es_match _); [by injection E as <- _|].
    destruct (vec_set _ _ _); [|done]. by injection E as <- _. }
  destruct (negb b); [by injection H as <- <-|]. destruct (ns_max_clients s1 <=? _).
  - apply deny_clients in H as [H ?]. split; [by rewrite H|done].
  - apply challenge_clients in H as [H ?]. split; [by rewrite H|done].
Qed.

(** The result of [process_packet] for a result of [process_packet_internal]. *)
Definition reported (r : result ServerResult NetcodeError) : ServerResult := match r with Ok r => r | Err _ => SrNone end.

Lemma process_connected_tracks s addr i c buffer s' r :
  find_client_mut_by_addr (ns_clients s) addr = Some (i, c) ->
  process_connected s addr i c buffer = Ret (s', r) -> tracks s s' (reported r).
Proof using.
  intros (Hi & Hc & _)%find_by_addr_Some H. unfold process_connected in H.
  destruct (net_decode _ _ _ _) as [[o d]|]; cbn [out_bind] in H; [|done].
  set (c' := match o with Some _ => _ | None => _ end) in *.
  assert (cn_client_id c' = cn_client_id c) as Hid by (unfold c'; by destruct o). clearbody c'.
  assert (forall c2 x, cn_client_id c2 = cn_client_id c -> match reported x with SrClientConnected _ _ _ _ => False | _ => True end ->
    (let! clients := vec_set (ns_clients s) i (Some c2) in Ret (ns_set_clients s clients, x)) = Ret (s', r) -> tracks s s' (reported r)) as Hset.
  { intros c2 x Hid2 Hx H2. destruct (tracks_set s i c c2 (reported x) Hi Hc Hid2 Hx) as (l & E & Ht).
    rewrite E in H2. cbn [out_bind] in H2. injection H2 as <- <-. by apply Ht. }
  destruct d as [[q p]|]; [|by eapply Hset; [..|exact H]].
  destruct (cn_state (cn_set_last_received c' (ns_current_time s))); [by eapply Hset; [..|exact H]..|].
  destruct p; try by eapply Hset; [..|exact H].
  destruct (tracks_clear s i c addr None Hi Hc) as (l & E & Ht). rewrite E in H. cbn [out_bind] in H. injection H as <- <-.
  cbn [reported cn_set_last_received cn_client_id]. rewrite Hid. by apply Ht.
Qed.

Lemma process_response_tracks s addr q data s' r :
  process_response s addr q data = Ret (s', r) -> tracks s s' (reported r).
Proof using.
  intros H. unfold process_response in H. destruct (challenge_decode _ _ _) as [[t|]|]; cbn [out_bind] in H;
    [|injection H as <- <-; by apply tracks_same|done].
  destruct (ns_pending_clients s !! addr) as [c|]; cbn [unwrap out_bind] in H; [|done].
  set (s1 := ns_set_pending s (delete addr (ns_pending_clients s))) in *. change (ns_clients s1) with (ns_clients s) in H.
  destruct (find_client_slot_by_id _ _); [injection H as <- <-; by apply tracks_same|].
  destruct (free_slot 0 (ns_clients s)) as [i|] eqn:Hf.
  2: { apply deny_clients in H as [Hc Hr]. apply tracks_same; [done|]. by destruct r as [[]|]. }
  apply free_slot_Some in Hf as [Hi Hnone]. rewrite Z.sub_0_r in Hnone. rewrite Z.add_0_l in Hi.
  destruct (ns_encode _ _ _ _) as [[s2 r2]|] eqn:E; cbn [out_bind] in H; [|done]. apply ns_encode_inv in E as (o & -> & Ho).
  destruct r2; [|injection H as <- <-; by apply tracks_same]. destruct (add64 _ _); cbn [out_bind] in H; [|done].
  rewrite vec_set_ok in H by done. cbn [out_bind] in H. injection H as <- <-. cbn [reported]. split.
  - intros id (k & x & Hk & Hx). left. exists k, x. cbn [ns_set_clients ns_clients ns_set_out].
    rewrite list_lookup_insert_ne; [done|]. intros <-. change (ns_clients s1) with (ns_clients s) in *. congruence.
  - eexists (Z.to_nat i), _. cbn [ns_set_clients ns_clients ns_set_out].
    rewrite list_lookup_insert_eq by (change (ns_clients s1) with (ns_clients s); unfold len in Hi; lia). done.
Qed.

Lemma process_packet_tracks s addr buffer s' r : net_server_process_packet s addr buffer = Ret (s', r) -> tracks s s' r.
Proof using.
  intros H. unfold net_server_process_packet in H. destruct (process_packet_internal s addr buffer) as [[s1 r1]|] eqn:E; [|done].
  assert (tracks s s1 (reported r1)) as Ht; [|by destruct r1; cbn [out_bind] in H; injection H as <- <-].
  clear H. unfold process_packet_internal in E. destruct (_ <? _); [injection E as <- <-; by apply tracks_same|].
  assert (forall s0 v pid ex xn data, ns_clients s0 = ns_clients s ->
    handle_connection_request s0 addr v pid ex xn data = Ret (s1, r1) -> tracks s s1 (reported r1)) as Hreq.
  { intros s0 v pid ex xn data Hs0 [Hc Hr]%handle_request_clients. apply tracks_same; [congruence|]. by destruct r1 as [[]|]. }
  destruct (find_client_mut_by_addr (ns_clients s) addr) as [[i c]|] eqn:Ha; [by eapply process_connected_tracks|].
  destruct (ns_pending_clients s !! addr) as [c|] eqn:Hp.
  - unfold process_pending in E. destruct (net_decode _ _ _ _) as [[o [[q p]|]]|]; cbn [out_bind] in E; [| |done].
    2: { injection E as <- <-. by apply tracks_same. }
    destruct p; try (injection E as <- <-; by apply tracks_same); [by eapply Hreq; [|exact E]|].
    apply process_response_tracks in E. exact E.
  - destruct (net_decode _ _ _ _) as [[o [[q p]|]]|]; cbn [out_bind] in E; [|injection E as <- <-; by apply tracks_same|done].
    destruct p; try done. by eapply Hreq; [|exact E].
Qed.

Lemma farewell_tracks s s1 c s' r :
  (forall s2 addr p, ns_clients s2 = ns_clients s1 -> tracks s s2 (SrClientDisconnected (cn_client_id c) addr p)) ->
  forall id, id = cn_client_id c -> farewell s1 id c = Ret (s', r) -> tracks s s' r.
Proof using.
  intros Ht id -> H. unfold farewell in H. destruct (ns_encode _ _ _ _) as [[s2 r2]|] eqn:E; cbn [out_bind] in H; [|done].
  apply ns_encode_inv in E as (o & -> & Ho). destruct r2; injection H as <- <-; by apply Ht.
Qed.

Lemma disconnect_tracks s id s' r : net_server_disconnect s id = Ret (s', r) -> tracks s s' r.
Proof using.
  intros H. unfold net_server_disconnect in H. destruct (find_client_slot_by_id _ _) as [[i c]|] eqn:Hf;
    [|injection H as <- <-; by apply tracks_same].
  apply find_by_id_Some in Hf as (Hi & Hc & Hid). destruct (vec_set _ _ _) as [l|] eqn:E; cbn [out_bind] in H; [|done].
  refine (farewell_tracks s (ns_set_clients s l) c s' r _ id _ H); [|done]. intros s2 addr p Hs2.
  destruct (tracks_clear s i c addr p Hi Hc) as (l' & E' & Ht). rewrite E in E'. injection E' as <-. by apply Ht.
Qed.

Lemma update_client_tracks s id s' r : net_server_update_client s id = Ret (s', r) -> tracks s s' r.
Proof using.
  intros H. unfold net_server_update_client in H. destruct (find_client_slot_by_id _ _) as [[i c]|] eqn:Hf;
    [|injection H as <- <-; by apply tracks_same].
  apply find_by_id_Some in Hf as (Hi & Hc & Hid). destruct (timed_out _ _ _) as [to|]; cbn [out_bind] in H; [|done].
  set (c' := if to then _ else _) in *. assert (cn_client_id c' = cn_client_id c) as Hid' by (unfold c'; by destruct to). clearbody c'.
  case_bool_decide.
  { destruct (vec_set _ _ _) as [l|] eqn:E; cbn [out_bind] in H; [|done].
    refine (farewell_tracks s (ns_set_clients s l) c' s' r _ id _ H); [|congruence]. intros s2 addr p Hs2. rewrite Hid'.
    destruct (tracks_clear s i c addr p Hi Hc) as (l' & E' & Ht). rewrite E in E'. injection E' as <-. by apply Ht. }
  destruct (dur_add _ _); cbn [out_bind] in H; [|done]. destruct (_ <=? _); [|injection H as <- <-; by apply tracks_same].
  destruct (ns_encode _ _ _ _) as [[s2 r2]|] eqn:E; cbn [out_bind] in H; [|done]. apply ns_encode_inv in E as (o & -> & Ho).
  destruct r2; [|injection H as <- <-; by apply tracks_same]. destruct (add64 _ _) as [q|]; cbn [out_bind] in H; [|done].
  match type of H with context [vec_set _ _ (Some ?c2)] =>
    destruct (tracks_set s i c c2 SrNone Hi Hc Hid' I) as (l & E & Ht) end.
  cbn [ns_set_out ns_clients] in H. rewrite E in H. cbn [out_bind] in H. injection H as <- <-. destruct (Ht (ns_set_clients (ns_set_out s o) l) eq_refl) as [Ht1 _].
  split; [|done]. intros id' [?|(? & ? & ?)]%Ht1; [by left|done].
Qed.

End tracking.

(** ** Connections of the renet server *)

Section backed.
Context {oct : Octets} {aead : Aead}.

(** Every connection of the renet server belongs to a client of the netcode server. *)
Definition backed (state : NetcodeServerTransport * RenetServer) : Prop :=
  forall id, is_Some (connections state.2 !! id) -> has_client (ts_netcode_server state.1) id.

Lemma process_packet_from_dom server payload id server' r :
  process_packet_from server payload id = Ret (server', r) ->
  forall k, is_Some (connections server' !! k) -> is_Some (connections server !! k).
Proof using.
  unfold process_packet_from. destruct (connections server !! id) as [c|] eqn:E; [|by intros [= <- _]].
  destruct (process_packet c payload) as [c'|]; cbn [out_bind]; [|done]. intros [= <- _] k. cbn.
  intros [x [[<- _]|[_ ?]]%lookup_insert_Some]; [by exists c|by exists x].
Qed.

Lemma flush_dom server id server' r :
  server_get_packets_to_send server id = Ret (server', r) ->
  forall k, is_Some (connections server' !! k) -> is_Some (connections server !! k).
Proof using.
  unfold server_get_packets_to_send. destruct (connections server !! id) as [c|] eqn:E; [|by intros [= <- _]].
  destruct (get_packets_to_send c) as [[c' ps]|]; cbn [out_bind]; [|done]. intros [= <- _] k. cbn.
  intros [x [[<- _]|[_ ?]]%lookup_insert_Some]; [by exists c|by exists x].
Qed.

Lemma handle_result_backed r socket server socket' server' s s' :
  tracks s s' r -> (forall id, is_Some (connections server !! id) -> has_client s id) ->
  handle_server_result r socket server = Ret (socket', server') ->
  forall id, is_Some (connections server' !! id) -> has_client s' id.
Proof using.
  intros [Hkeep Hnew] Hb H id Hid. destruct r as [|addr p|cid p|cid addr ud p|cid addr p]; cbn [handle_server_result] in H.
  - injection H as <- <-. destruct (Hkeep id (Hb id Hid)) as [?|(? & ? & ?)]; done.
  - injection H as <- <-. destruct (Hkeep id (Hb id Hid)) as [?|(? & ? & ?)]; done.
  - destruct (process_packet_from _ _ _) as [[sv x]|] eqn:E; cbn [out_bind] in H; [|done]. injection H as <- <-.
    pose proof (process_packet_from_dom _ _ _ _ _ E id Hid) as Hid0. destruct (Hkeep id (Hb id Hid0)) as [?|(? & ? & ?)]; done.
  - unfold add_connection in H. case_bool_decide as Hc; cbn [out_bind] in H.
    + injection H as <- <-. destruct (Hkeep id (Hb id Hid)) as [?|(? & ? & ?)]; done.
    + destruct (client_new_from_server _) as [conn|]; cbn [out_bind] in H; [|done]. injection H as <- <-. cbn in Hid.
      destruct Hid as [x [[<- _]|[_ Hx]]%lookup_insert_Some]; [done|]. destruct (Hkeep id (Hb id (mk_is_Some _ _ Hx))) as [?|(? & ? & ?)]; done.
  - assert (server' = remove_connection server cid) as -> by (by destruct p; injection H as <- <-). clear H.
    unfold remove_connection in Hid. destruct (connections server !! cid) as [x|] eqn:E; cbn in Hid.
    + destruct Hid as [y [Hne Hy]%lookup_delete_Some]. destruct (Hkeep id (Hb id (mk_is_Some _ _ Hy))) as [?|(? & ? & ?)]; [done|congruence].
    + destruct (Hkeep id (Hb id Hid)) as [?|(? & ? & ?)]; [done|]. destruct Hid. congruence.
Qed.

Lemma ts_handle_backed call state state' :
  (forall s s' r, call s = Ret (s', r) -> tracks s s' r) -> backed state -> ts_handle call state = Ret state' -> backed state'.
Proof using.
  intros Hcall Hb H. destruct state as [self server]. unfold ts_handle in H.
  destruct (call _) as [[s r]|] eqn:E; cbn [out_bind] in H; [|done].
  destruct (handle_server_result _ _ _) as [[sk sv]|] eqn:E2; cbn [out_bind] in H; [|done]. injection H as <-.
  intros id Hid. eapply handle_result_backed; [by eapply Hcall|exact Hb|exact E2|exact Hid].
Qed.

Lemma fold_handle_backed (call : Z -> NetcodeServer -> out (NetcodeServer * ServerResult)) ids : forall state state',
  (forall id s s' r, call id s = Ret (s', r) -> tracks s s' r) -> backed state ->
  fold_out (fun state id => ts_handle (call id) state) state ids = Ret state' -> backed state'.
Proof using.
  induction ids as [|id ids IH]; intros state state' Hcall Hb H; cbn [fold_out] in H; [by injection H as <-|].
  destruct (ts_handle _ _) as [st|] eqn:E; cbn [out_bind] in H; [|done].
  eapply IH; [done| |exact H]. eapply ts_handle_backed; [|exact Hb|exact E]. apply Hcall.
Qed.

Lemma receive_loop_backed incoming : forall state state' rest r,
  backed state -> ts_receive_loop state incoming = Ret (state', rest, r) -> backed state'.
Proof using.
  induction incoming as [|e incoming IH]; intros state state' rest r Hb H; cbn [ts_receive_loop] in H; [by injection H as <- _ _|].
  destruct e as [data addr|k].
  - destruct (ts_handle _ _) as [st|] eqn:E; cbn [out_bind] in H; [|done]. eapply IH; [|exact H].
    eapply ts_handle_backed; [|exact Hb|exact E]. intros s s' r'. apply process_packet_tracks.
  - destruct k; try (by injection H as <- _ _); by eapply IH.
Qed.

Lemma payload_clients s id p s' r : net_server_generate_payload_packet s id p = Ret (s', r) -> forall k, has_client s k -> has_client s' k.
Proof using.
  intros H k Hk. unfold net_server_generate_payload_packet in H. destruct (_ <? _); [by injection H as <- _|].
  destruct (find_client_slot_by_id _ _) as [[i c]|] eqn:Hf; [|by injection H as <- _]. apply find_by_id_Some in Hf as (Hi & Hc & Hid).
  destruct (ns_encode _ _ _ _) as [[s2 r2]|] eqn:E; cbn [out_bind] in H; [|done]. apply ns_encode_inv in E as (o & -> & Ho).
  destruct r2; [|by injection H as <- _]. destruct (add64 _ _) as [q|]; cbn [out_bind] in H; [|done].
  match type of H with context [vec_set _ _ (Some ?c2)] =>
    destruct (tracks_set s i c c2 SrNone Hi Hc eq_refl I) as (l & E & Ht) end.
  cbn [ns_set_out ns_clients] in H. rewrite E in H. cbn [out_bind] in H. injection H as <- _.
  destruct (Ht (ns_set_clients (ns_set_out s o) l) eq_refl) as [Ht1 _]. by destruct (Ht1 k Hk) as [?|(? & ? & ?)].
Qed.

Lemma send_client_clients packets : forall self id self',
  ts_send_client self id packets = Ret self' -> forall k, has_client (ts_netcode_server self) k -> has_client (ts_netcode_server self') k.
Proof using.
  induction packets as [|p packets IH]; intros self id self' H k Hk; cbn [ts_send_client] in H; [by injection H as <-|].
  destruct (net_server_generate_payload_packet _ _ _) as [[s r]|] eqn:E; cbn [out_bind] in H; [|done].
  pose proof (payload_clients _ _ _ _ _ E k Hk) as Hk'. destruct r as [[addr w]|]; [|by injection H as <-].
  destruct (send_to _ _ _) as [sk sent]. destruct sent; [|by injection H as <-]. by eapply IH.
Qed.

Lemma send_packets_backed ids : forall state state',
  backed state ->
  fold_out (fun '(self, server) client_id =>
    let! (server, r) := server_get_packets_to_send server client_id in
    let! packets := match r with Ok packets => Ret packets | Err _ => Panic end in
    let! self := ts_send_client self client_id packets in
    Ret (self, server)) state ids = Ret state' -> backed state'.
Proof using.
  induction ids as [|id ids IH]; intros [self server] state' Hb H; cbn [fold_out] in H; [by injection H as <-|].
  destruct (server_get_packets_to_send _ _) as [[sv r]|] eqn:E; cbn [out_bind] in H; [|done].
  destruct r as [packets|]; cbn [out_bind] in H; [|done].
  destruct (ts_send_client _ _ _) as [self2|] eqn:E2; cbn [out_bind] in H; [|done].
  eapply IH; [|exact H]. intros k Hk. cbn in *. eapply send_client_clients; [exact E2|]. apply Hb. cbn. by eapply flush_dom.
Qed.

(** What can happen to a server transport and its renet server: the calls of the
    transport, and anything the application does to the renet server short of
    adding connections itself. *)
Inductive transport_step : NetcodeServerTransport * RenetServer -> NetcodeServerTransport * RenetServer -> Prop :=
  | tr_update self server duration self' server' r :
      ts_update self duration server = Ret (self', server', r) -> transport_step (self, server) (self', server')
  | tr_send self server state' : ts_send_packets self server = Ret state' -> transport_step (self, server) state'
  | tr_disconnect_all self server state' : ts_disconnect_all self server = Ret state' -> transport_step (self, server) state'
  | tr_set_max_clients self server n : transport_step (self, server) (ts_set_max_clients self n, server)
  | tr_socket self server socket : transport_step (self, server) (ts_set_socket self socket, server)
  | tr_application self server server' :
      (forall id, is_Some (connections server' !! id) -> is_Some (connections server !! id)) ->
      transport_step (self, server) (self, server').

Lemma update_backed self server duration self' server' r :
  backed (self, server) -> ts_update self duration server = Ret (self', server', r) -> backed (self', server').
Proof using.
  intros Hb H. unfold ts_update in H. destruct (net_server_update _ _) as [ns|] eqn:E0; cbn [out_bind] in H; [|done].
  assert (backed (ts_set_server self ns, server)) as Hb0.
  { intros id Hid. apply Hb in Hid. unfold net_server_update in E0. destruct (dur_add _ _); [|done]. by injection E0 as <-. }
  destruct (ts_receive_loop _ _) as [[[st rest] r1]|] eqn:E1; cbn [out_bind] in H; [|done].
  apply receive_loop_backed in E1; [|done]. destruct st as [self1 server1].
  destruct r1; [|by injection H as <- <- _].
  destruct (fold_out _ _ _) as [[self2 server2]|] eqn:E2; cbn [out_bind] in H; [|done].
  apply (fold_handle_backed (fun client_id s => net_server_update_client s client_id)) in E2; [|intros ? ? ? ?; apply update_client_tracks|exact E1].
  destruct (fold_out _ _ (disconnections_id _)) as [[self3 server3]|] eqn:E3; cbn [out_bind] in H; [|done].
  apply (fold_handle_backed (fun client_id s => net_server_disconnect s client_id)) in E3; [|intros ? ? ? ?; apply disconnect_tracks|done].
  by injection H as <- <- _.
Qed.

Lemma transport_step_backed state state' : backed state -> transport_step state state' -> backed state'.
Proof using.
  intros Hb H. destruct H as [self server duration self' server' r H|self server state' H|self server state' H|self server n|self server sk|self server server' Hsub].
  - by eapply update_backed.
  - by eapply send_packets_backed.
  - eapply (fold_handle_backed (fun client_id s => net_server_disconnect s client_id)); [|exact Hb|exact H].
    intros ? ? ? ?. apply disconnect_tracks.
  - exact Hb.
  - exact Hb.
  - intros id Hid. by apply Hb, Hsub.
Qed.

End backed.

(** ** The transport carries packets *)

Section carrier.
Context {oct : Octets} {aead : Aead} {laws : AeadLaws aead}.

Lemma received_short w : len w <= NETCODE_MAX_PACKET_BYTES -> received w = w.
Proof using. intros H. unfold received. apply take_ge. unfold len, NETCODE_MAX_PACKET_BYTES in *. lia. Qed.

Lemma send_to_ok sk packet addr :
  sk_outcomes sk = [] -> send_to sk packet addr = (mkSocket (sk_nonblocking sk) (sk_incoming sk) [] (sk_sent sk ++ [(addr, packet)]), Ok tt).
Proof using. intros H. unfold send_to. by rewrite H. Qed.

(** The packets of a client given one after the other to its connection. *)
Definition deliver_up (id : Z) (server : RenetServer) (packets : list Bytes) : out RenetServer :=
  fold_out (fun server packet => let! (server, _) := process_packet_from server packet id in Ret server) server packets.

Lemma carry_up packets : forall c s addr slot conn sk,
  linked c s addr slot conn -> sk_outcomes sk = [] -> Forall (fun p => len p <= NETCODE_MAX_PAYLOAD_BYTES) packets ->
  nc_sequence c + len packets <= U64_MAX - NETCODE_REPLAY_BUFFER_SIZE ->
  exists c' s' conn' ws sk', tc_send_loop (mkClientTransport sk c) packets = Ret (mkClientTransport sk' c', Ok tt) /\
    sk_sent sk' = sk_sent sk ++ ((nc_server_addr c,.) <$> ws) /\ linked c' s' addr slot conn' /\ cn_client_id conn' = cn_client_id conn /\
    forall socket server, ts_receive_loop (mkServerTransport socket s, server) ((fun w => Datagram w addr) <$> ws) =
      let! server := deliver_up (cn_client_id conn) server packets in
      Ret (mkServerTransport socket s', server, [], Ok tt).
Proof using laws.
  induction packets as [|p packets IH]; intros c s addr slot conn sk Hl Hsk Hall Hseq.
  { exists c, s, conn, [], sk. split_and!; try done. by rewrite app_nil_r. }
  apply Forall_cons in Hall as [Hp Hall]. rewrite len_cons in Hseq. pose proof (len_nonneg packets).
  pose proof Hl as [[Hst Ho] (Hat & Hid & Hcst & Hso) (Hk1 & Hk2 & Hpr) (H0 & acc & Hacc & Hacc2) Hdown].
  destruct (client_generates_payload c p) as (o & w & Hol & Hwl & Hw & E1); [done|done|done|unfold NETCODE_REPLAY_BUFFER_SIZE in *; lia|].
  rewrite Hpr, <- Hk1 in Hw. destruct (server_accepts_payload s addr slot conn acc (nc_sequence c) p w) as (rp & Hrp & E2); try done; [lia|lia|].
  destruct (find_by_addr_Some _ _ _ _ Hat) as (_ & _ & Haddr).
  set (c1 := nc_set_last_send _ _) in E1. set (s1 := ns_set_clients s _) in E2.
  assert (linked c1 s1 addr slot (heard s conn rp)) as Hl1.
  { constructor; [done| |done| |done].
    - cbn [ns_set_clients ns_clients s1]. split_and!; [by eapply find_by_addr_insert|by eapply find_by_id_insert|done|done].
    - unfold c1. nc_simpl. split; [lia|]. exists (nc_sequence c :: acc). split; [done|by apply accepted_below]. }
  destruct (IH c1 s1 addr slot (heard s conn rp) (mkSocket (sk_nonblocking sk) (sk_incoming sk) [] (sk_sent sk ++ [(nc_server_addr c, w)])) Hl1)
    as (c2 & s2 & conn2 & ws & sk2 & E3 & Hsent & Hl2 & Hid2 & Hrecv); [done|done|unfold c1; nc_simpl; lia|].
  exists c2, s2, conn2, (w :: ws), sk2. split_and!; [| |done|done|].
  - cbn [tc_send_loop tc_netcode_client]. rewrite E1. cbn [out_bind tc_set_client tc_socket]. rewrite send_to_ok by done. exact E3.
  - rewrite Hsent. cbn. by rewrite <- app_assoc.
  - intros socket server. cbn [fmap list_fmap ts_receive_loop]. unfold ts_handle at 1. cbn [ts_netcode_server ts_socket].
    rewrite received_short by lia. rewrite E2. cbn [out_bind handle_server_result]. unfold deliver_up. cbn [fold_out].
    destruct (process_packet_from server p (cn_client_id conn)) as [[sv r]|]; cbn [out_bind]; [|done].
    setoid_rewrite Hrecv. done.
Qed.

Lemma carry_down packets : forall c s addr slot conn sk,
  linked c s addr slot conn -> sk_outcomes sk = [] -> Forall (fun p => len p <= NETCODE_MAX_PAYLOAD_BYTES) packets ->
  cn_sequence conn + len packets <= U64_MAX - NETCODE_REPLAY_BUFFER_SIZE ->
  exists c' s' conn' ws sk', ts_send_client (mkServerTransport sk s) (cn_client_id conn) packets = Ret (mkServerTransport sk' s') /\
    sk_sent sk' = sk_sent sk ++ ((addr,.) <$> ws) /\ linked c' s' addr slot conn' /\ cn_client_id conn' = cn_client_id conn /\
    forall client, tc_receive_loop c client ((fun w => Datagram w (nc_server_addr c)) <$> ws) =
      let! client := fold_out process_packet client packets in
      Ret (c', client, [], Ok tt).
Proof using laws.
  induction packets as [|p packets IH]; intros c s addr slot conn sk Hl Hsk Hall Hseq.
  { exists c, s, conn, [], sk. split_and!; try done. by rewrite app_nil_r. }
  apply Forall_cons in Hall as [Hp Hall]. rewrite len_cons in Hseq. pose proof (len_nonneg packets).
  pose proof Hl as [[Hst Ho] (Hat & Hid & Hcst & Hso) (Hk1 & Hk2 & Hpr) Hup (H0 & acc & Hacc & Hacc2)].
  destruct (server_generates_payload s slot conn p) as (o & w & Hol & Hwl & Hw & E1); [done|done|done|unfold NETCODE_REPLAY_BUFFER_SIZE in *; lia|].
  rewrite <- Hpr, Hk2 in Hw. destruct (client_accepts_payload c acc (cn_sequence conn) p w) as (rp & Hrp & E2); try done; [lia|lia|].
  destruct (find_by_addr_Some _ _ _ _ Hat) as (_ & _ & Haddr).
  set (c1 := nc_set_last_received _ _) in E2. set (s1 := ns_set_clients _ _) in E1.
  assert (linked c1 s1 addr slot (spoke s conn)) as Hl1.
  { constructor; [done| |done|done|].
    - cbn [ns_set_clients ns_clients s1]. split_and!; [by eapply find_by_addr_insert|by eapply find_by_id_insert|done|done].
    - cbn. split; [lia|]. exists (cn_sequence conn :: acc). split; [done|by apply accepted_below]. }
  destruct (IH c1 s1 addr slot (spoke s conn) (mkSocket (sk_nonblocking sk) (sk_incoming sk) [] (sk_sent sk ++ [(addr, w)])) Hl1)
    as (c2 & s2 & conn2 & ws & sk2 & E3 & Hsent & Hl2 & Hid2 & Hrecv); [done|done|cbn; lia|].
  exists c2, s2, conn2, (w :: ws), sk2. split_and!; [| |done|done|].
  - cbn [ts_send_client ts_netcode_server]. rewrite E1. cbn [out_bind ts_set_server ts_socket]. rewrite Haddr, send_to_ok by done. exact E3.
  - rewrite Hsent. cbn. by rewrite <- app_assoc.
  - intros client. cbn [fmap list_fmap tc_receive_loop]. rewrite bool_decide_eq_true_2 by done. cbn [negb].
    rewrite received_short by lia. rewrite E2. cbn [out_bind fold_out]. destruct (process_packet client p) as [client'|]; cbn [out_bind]; [|done].
    apply Hrecv.
Qed.

End carrier.

(** ** Properties *)

(** C21: However a server transport is driven (updates with any datagrams and
    socket errors, sends, disconnections, and whatever the application does to
    the renet server short of adding connections itself), every connection of
    the renet server belongs to a client that the netcode server holds in a
    slot: no connection outlives its client or exists without one. *)
Theorem renet_connections_backed {oct : Octets} {aead : Aead} self connection_config self' server' :
  rtc transport_step (self, server_new connection_config) (self', server') ->
  forall id, is_Some (connections server' !! id) -> has_client (ts_netcode_server self') id.
Proof.
  intros Hreach. assert (backed (self, server_new connection_config)) as Hb.
  { intros id [x Hx]. cbn in Hx. by rewrite lookup_empty in Hx. }
  change (backed (self', server')). induction Hreach as [|? st ? Hstep _ IH]; eauto using transport_step_backed.
Qed.

(** A socket on which the two datagrams of a handshake arrive. *)
Definition busy_socket : Socket :=
  mkSocket None [Datagram (sample_request 7 0) (peer 1); Datagram sample_response (peer 1)] [] [].

Definition busy_transport : NetcodeServerTransport := mkServerTransport busy_socket sample_server.

Lemma renet_connections_backed_witness :
  exists self' server', is_Some (connections server' !! 7) /\ has_client (ts_netcode_server self') 7.
Proof.
  assert ((let! (self, server, _) := ts_update (oct := quic_octets) busy_transport 0 (server_new default_config) in
           Ret (bool_decide (is_Some (connections server !! 7)))) = Ret true) as H by (vm_compute; reflexivity).
  destruct (ts_update (oct := quic_octets) busy_transport 0 (server_new default_config)) as [[[self' server'] r]|] eqn:E;
    cbn [out_bind] in H; [|discriminate H]. injection H as H. apply bool_decide_eq_true in H.
  exists self', server'. split; [exact H|].
  apply (renet_connections_backed (oct := quic_octets) busy_transport default_config self' server').
  - apply rtc_once. eapply tr_update. exact E.
  - exact H.
Defined.

(** C13: The transport is transparent from client to server, for packets that fit
    a netcode payload: over a connection and sockets that deliver, if each packet
    that the renet client produces has at most 1300 bytes and the netcode
    sequences last, [send_packets] puts on the wire datagrams to the server from
    which its reception loop feeds to the renet server exactly these packets, in
    order, for that client, and nothing else; and the connection remains one.
    (An acknowledgement may be longer, see [large_ack_blocks_transport].) *)
Theorem transport_carries_client_packets {oct : Octets} {aead : Aead} {laws : AeadLaws aead} self ns addr slot conn rc rc' packets :
  linked (tc_netcode_client self) ns addr slot conn -> sk_outcomes (tc_socket self) = [] ->
  get_packets_to_send rc = Ret (rc', packets) -> Forall (fun p => len p <= NETCODE_MAX_PAYLOAD_BYTES) packets ->
  nc_sequence (tc_netcode_client self) + len packets <= U64_MAX - NETCODE_REPLAY_BUFFER_SIZE ->
  exists self' ws ns' conn', tc_send_packets self rc = Ret (self', rc', Ok tt) /\
    sk_sent (tc_socket self') = sk_sent (tc_socket self) ++ ((nc_server_addr (tc_netcode_client self),.) <$> ws) /\
    linked (tc_netcode_client self') ns' addr slot conn' /\
    forall socket server, ts_receive_loop (mkServerTransport socket ns, server) ((fun w => Datagram w addr) <$> ws) =
      let! server := deliver_up (cn_client_id conn) server packets in
      Ret (mkServerTransport socket ns', server, [], Ok tt).
Proof.
  intros Hl Hsk Hget Hall Hseq. destruct self as [sk c]. cbn [tc_netcode_client tc_socket] in *.
  destruct (carry_up packets c ns addr slot conn sk Hl Hsk Hall Hseq) as (c' & s' & conn' & ws & sk' & E & Hsent & Hl' & _ & Hrecv).
  exists (mkClientTransport sk' c'), ws, s', conn'. split_and!; try done.
  unfold tc_send_packets, nc_disconnect_reason. cbn [tc_netcode_client]. destruct (lk_client _ _ _ _ _ Hl) as [-> _].
  rewrite Hget. cbn [out_bind]. by rewrite E.
Qed.

(** The two ends of the concrete session of Handshake.v. *)
Lemma sample_linked : exists c s slot conn, linked c s (peer 1) slot conn /\ nc_sequence c = 2 /\ cn_sequence conn = 1.
Proof.
  destruct handshake_client as [c E]. destruct (handshake_spec sample_config sample_server (peer 1) handshake_token handshake_private c)
    as (c' & s' & slot & conn & ka & _ & _ & Hl & _ & _ & _ & _ & Hs1 & Hs2 & _).
  - apply handshake_token_issued.
  - apply handshake_admissible.
  - eapply new_client_fresh; [exact E|lia|vm_compute; congruence].
  - exists c', s', slot, conn. split; [exact Hl|]. split; [exact Hs1|exact Hs2].
Qed.

(** A renet client with one message to send. *)
Definition talking_client : out RenetClient := let! c := default_client in send_message c 2 (replicate 3 (byte_of 5)).

Lemma transport_carries_client_packets_witness :
  exists c ns slot conn rc rc' packet self', linked c ns (peer 1) slot conn /\
    get_packets_to_send (oct := quic_octets) rc = Ret (rc', [packet]) /\
    tc_send_packets (oct := quic_octets) (mkClientTransport (mkSocket None [] [] []) c) rc = Ret (self', rc', Ok tt).
Proof.
  destruct sample_linked as (c & ns & slot & conn & Hl & Hs & _).
  assert ((let! rc := talking_client in let! (_, ps) := get_packets_to_send (oct := quic_octets) rc in Ret (len <$> ps)) = Ret [10]) as H
    by (vm_compute; reflexivity).
  destruct talking_client as [rc|]; [|discriminate H]. cbn [out_bind] in H.
  destruct (get_packets_to_send (oct := quic_octets) rc) as [[rc' ps]|] eqn:E; [|discriminate H]. cbn [out_bind] in H.
  destruct ps as [|packet [|p2 ps]]; try discriminate H. cbn in H. injection H as H.
  destruct (transport_carries_client_packets (oct := quic_octets) (mkClientTransport (mkSocket None [] [] []) c) ns (peer 1) slot conn rc rc' [packet])
    as (self' & ws & ns' & conn' & Hsend & _).
  - exact Hl.
  - reflexivity.
  - exact E.
  - apply Forall_singleton. rewrite H. vm_compute. congruence.
  - cbn [tc_netcode_client]. rewrite Hs. vm_compute. congruence.
  - exists c, ns, slot, conn, rc, rc', packet, self'. split; [exact Hl|]. split; [exact E|exact Hsend].
Defined.

(** C14: The transport is transparent from server to client, for packets that fit
    a netcode payload: over a connection and sockets that deliver, if each packet
    has at most 1300 bytes and the netcode sequences last, the datagrams that
    sending a client's packets puts on the wire, all to the client's address, make
    the client's reception loop give exactly those packets, in order, to its renet
    client, and nothing else; and the connection remains one. *)
Theorem transport_carries_server_packets {oct : Octets} {aead : Aead} {laws : AeadLaws aead} self nc addr slot conn packets :
  linked nc (ts_netcode_server self) addr slot conn -> sk_outcomes (ts_socket self) = [] ->
  Forall (fun p => len p <= NETCODE_MAX_PAYLOAD_BYTES) packets ->
  cn_sequence conn + len packets <= U64_MAX - NETCODE_REPLAY_BUFFER_SIZE ->
  exists self' ws nc' conn', ts_send_client self (cn_client_id conn) packets = Ret self' /\
    sk_sent (ts_socket self') = sk_sent (ts_socket self) ++ ((addr,.) <$> ws) /\
    linked nc' (ts_netcode_server self') addr slot conn' /\
    forall client, tc_receive_loop nc client ((fun w => Datagram w (nc_server_addr nc)) <$> ws) =
      let! client := fold_out process_packet client packets in
      Ret (nc', client, [], Ok tt).
Proof.
  intros Hl Hsk Hall Hseq. destruct self as [sk s]. cbn [ts_netcode_server ts_socket] in *.
  destruct (carry_down packets nc s addr slot conn sk Hl Hsk Hall Hseq) as (c' & s' & conn' & ws & sk' & E & Hsent & Hl' & _ & Hrecv).
  by exists (mkServerTransport sk' s'), ws, c', conn'.
Qed.

Lemma transport_carries_server_packets_witness :
  exists nc ns slot conn self' ws, linked nc ns (peer 1) slot conn /\
    ts_send_client (mkServerTransport (mkSocket None [] [] []) ns) (cn_client_id conn) [[byte_of 1]; []] = Ret self' /\
    sk_sent (ts_socket self') = (peer 1,.) <$> ws.
Proof.
  destruct sample_linked as (c & ns & slot & conn & Hl & _ & Hs).
  destruct (transport_carries_server_packets (oct := quic_octets) (mkServerTransport (mkSocket None [] [] []) ns) c (peer 1) slot conn [[byte_of 1]; []])
    as (self' & ws & nc' & conn' & Hsend & Hsent & _).
  - exact Hl.
  - reflexivity.
  - repeat (apply Forall_cons; split; [vm_compute; congruence|]). apply Forall_nil_2.
  - rewrite Hs. vm_compute. congruence.
  - exists c, ns, slot, conn, self', ws. split; [exact Hl|]. split; [exact Hsend|exact Hsent].
Defined.

(** Well-formed packets with gaps between their sequences, latest first. *)
Definition gappy_datagrams : list Bytes :=
  (fun i => datagram_of (oct := quic_octets) (SmallUnreliable (2 * (659 - i)) 0 [])) <$> seqZ 0 660.

(** An acknowledgement can be too long for the transport: the renet client packs
    it into up to 1400 bytes, the netcode client refuses payloads above 1300.
    [send_packets] then fails, and sends nothing, at every tick. *)
Theorem large_ack_blocks_transport :
  exists rc rc' ack, (let! c := default_client in receive_all (oct := quic_octets) c gappy_datagrams) = Ret rc /\ is_connected rc = true /\
    get_packets_to_send (oct := quic_octets) rc = Ret (rc', [ack]) /\ NETCODE_MAX_PAYLOAD_BYTES < len ack <= PACKET_BUFFER /\
    forall (aead : Aead) self, nc_state (tc_netcode_client self) = CConnected ->
      tc_send_packets (oct := quic_octets) self rc = Ret (self, rc', Err (TeNetcode PayloadAboveLimit)).
Proof.
  assert ((let! c := default_client in let! rc := receive_all (oct := quic_octets) c gappy_datagrams in
           let! (_, ps) := get_packets_to_send (oct := quic_octets) rc in Ret (is_connected rc, len <$> ps)) = Ret (true, [1325])) as H
    by (vm_compute; reflexivity).
  destruct default_client as [c|]; [|discriminate H]. cbn [out_bind] in H |- *.
  destruct (receive_all c gappy_datagrams) as [rc|]; [|discriminate H]. cbn [out_bind] in H.
  destruct (get_packets_to_send (oct := quic_octets) rc) as [[rc' ps]|] eqn:E; [|discriminate H]. cbn [out_bind] in H.
  destruct ps as [|ack [|p2 ps]]; try discriminate H. injection H as Hc Hlen.
  exists rc, rc', ack. split_and!; try done; [unfold NETCODE_MAX_PAYLOAD_BYTES; lia|unfold PACKET_BUFFER; lia|].
  intros aead self Hst. unfold tc_send_packets, nc_disconnect_reason. rewrite Hst, E. cbn [out_bind tc_send_loop].
  unfold net_client_generate_payload_packet. rewrite (proj2 (Z.ltb_lt _ _)) by (unfold NETCODE_MAX_PAYLOAD_BYTES; lia).
  cbn [out_bind]. by destruct self.
Qed.
