(* ===== verification/NetReports.v ===== *)
(** * What a netcode server reports of its clients

    The results of the calls of a netcode server tell the whole story of which
    clients it has: a client appears only with [SrClientConnected], and one that
    is reported as disconnected is gone, unless another client has the same id. *)

From S2P Require Import Prelude Octets Packet Connection Server.
From S2P Require Import Netcode ReplayProtection Token NetPacket NetClient NetServer NetServerInv NetServerProps.
From S2P Require Import Transport TransportProps.

(** No two connected clients have the same id. *)
Definition distinct_ids (s : NetcodeServer) : Prop :=
  forall i j c c', ns_clients s !! i = Some (Some c) -> ns_clients s !! j = Some (Some c') -> cn_client_id c = cn_client_id c' -> i = j.

Definition reports (s s' : NetcodeServer) (r : ServerResult) : Prop :=
  (forall id, has_client s' id -> has_client s id \/ exists addr ud p, r = SrClientConnected id addr ud p) /\
  match r with
  | SrClientDisconnected id _ _ => distinct_ids s -> ~ has_client s' id
  | SrPayload id _ => has_client s id
  | _ => True
  end.

(** Results that say nothing about clients. *)
Definition plain (r : ServerResult) : Prop := match r with SrNone | SrPacketToSend _ _ => True | _ => False end.

Lemma reports_same s s' r : ns_clients s' = ns_clients s -> plain r -> reports s s' r.
Proof. intros H Hr. split; [intros id; left; unfold has_client; by rewrite <- H|by destruct r]. Qed.

Lemma reports_set s i c c' r :
  0 <= i < len (ns_clients s) -> ns_clients s !! Z.to_nat i = Some (Some c) -> cn_client_id c' = cn_client_id c ->
  (plain r \/ exists p, r = SrPayload (cn_client_id c) p) ->
  exists l, vec_set (ns_clients s) i (Some c') = Ret l /\ forall s', ns_clients s' = l -> reports s s' r.
Proof.
  intros Hi Hc Hid Hr. rewrite vec_set_ok by done. eexists. split; [done|]. intros s' Hs'. split.
  - intros id (k & x & Hk & Hx). left. rewrite Hs' in Hk. apply list_lookup_insert_Some in Hk as [(<- & E & _)|[Hne Hk]].
    + injection E as <-. exists (Z.to_nat i), c. split; [done|congruence].
    + by exists k, x.
  - destruct Hr as [Hr|[p ->]]; [by destruct r|]. by exists (Z.to_nat i), c.
Qed.

Lemma reports_clear s i c addr p :
  0 <= i < len (ns_clients s) -> ns_clients s !! Z.to_nat i = Some (Some c) ->
  exists l, vec_set (ns_clients s) i None = Ret l /\
    forall s', ns_clients s' = l -> reports s s' (SrClientDisconnected (cn_client_id c) addr p).
Proof.
  intros Hi Hc. rewrite vec_set_ok by done. eexists. split; [done|]. intros s' Hs'.
  assert (forall k x, ns_clients s' !! k = Some (Some x) -> k <> Z.to_nat i /\ ns_clients s !! k = Some (Some x)) as Hk.
  { intros k x Hk. rewrite Hs' in Hk. by apply list_lookup_insert_Some in Hk as [(<- & E & _)|[Hne Hk]]. }
  split.
  - intros id (k & x & [_ Hx]%Hk & Hid). left. by exists k, x.
  - intros Hd (k & x & [Hne Hx]%Hk & Hid). exact (Hne (Hd _ _ _ _ Hx Hc Hid)).
Qed.

Section reports.
Context {aead : Aead}.
Implicit Types s : NetcodeServer.

Lemma deny_plain s addr key s' r : deny s addr key = Ret (s', r) -> ns_clients s' = ns_clients s /\ plain (reported r).
Proof using.
  intros H. split; [by destruct (deny_clients _ _ _ _ _ H)|]. unfold deny in H.
  destruct (ns_encode _ _ _ _) as [[s1 [n|]]|]; cbn [out_bind] in H; [|by injection H as <- <-|done].
  destruct (add64 _ _); cbn [out_bind] in H; [|done]. by injection H as <- <-.
Qed.

Lemma challenge_plain s addr expire token s' r : challenge s addr expire token = Ret (s', r) -> plain (reported r).
Proof using.
  intros H. unfold challenge in H. destruct (add64 _ _) as [q|]; cbn [out_bind] in H; [|done].
  destruct (generate_challenge _ _ _ _) as [[p|]|]; cbn [out_bind] in H; [|by injection H as <- <-|done].
  destruct (ns_encode _ _ _ _) as [[s1 [n|]]|]; cbn [out_bind] in H; [|by injection H as <- <-|done].
  destruct (add64 _ _) as [q'|]; cbn [out_bind] in H; [|done]. by injection H as <- <-.
Qed.

Lemma handle_request_plain s addr v pid ex xn data s' r :
  handle_connection_request s addr v pid ex xn data = Ret (s', r) -> ns_clients s' = ns_clients s /\ plain (reported r).
Proof using.
  intros H. split; [by destruct (handle_request_clients _ _ _ _ _ _ _ _ _ H)|]. unfold handle_connection_request in H.
  destruct (negb (bool_decide (v = _))); [by injection H as <- <-|]. destruct (negb (pid =? _)); [by injection H as <- <-|].
  destruct (ex <=? _); [by injection H as <- <-|]. destruct (private_decode _ _ _ _ _) as [[token|]|]; cbn [out_bind] in H; [|by injection H as <- <-|done].
  destruct (ns_secure s && _); [by injection H as <- <-|]. destruct (_ || _); [by injection H as <- <-|].
  destruct (bool_decide (ns_pending_clients s !! addr = None) && _); [by injection H as <- <-|].
  destruct (find_or_add_connect_token_entry _ _) as [[s1 b]|] eqn:E; cbn [out_bind] in H; [|done].
  destruct (negb b); [by injection H as <- <-|]. destruct (ns_max_clients s1 <=? _); [by destruct (deny_plain _ _ _ _ _ H)|by eapply challenge_plain].
Qed.

Lemma process_connected_reports s addr i c buffer s' r :
  find_client_mut_by_addr (ns_clients s) addr = Some (i, c) ->
  process_connected s addr i c buffer = Ret (s', r) -> reports s s' (reported r).
Proof using.
  intros (Hi & Hc & _)%find_by_addr_Some H. unfold process_connected in H.
  destruct (net_decode _ _ _ _) as [[o d]|]; cbn [out_bind] in H; [|done].
  set (c' := match o with Some _ => _ | None => _ end) in *.
  assert (cn_client_id c' = cn_client_id c) as Hid by (unfold c'; by destruct o). clearbody c'.
  assert (forall c2 x, cn_client_id c2 = cn_client_id c -> (plain (reported x) \/ exists p, reported x = SrPayload (cn_client_id c) p) ->
    (let! clients := vec_set (ns_clients s) i (Some c2) in Ret (ns_set_clients s clients, x)) = Ret (s', r) -> reports s s' (reported r)) as Hset.
  { intros c2 x Hid2 Hx H2. destruct (reports_set s i c c2 (reported x) Hi Hc Hid2 Hx) as (l & E & Ht).
    rewrite E in H2. cbn [out_bind] in H2. injection H2 as <- <-. by apply Ht. }
  destruct d as [[q p]|]; [|by eapply Hset; [| |exact H]; [|left]].
  destruct (cn_state (cn_set_last_received c' (ns_current_time s))); [by eapply Hset; [| |exact H]; [|left]..|].
  destruct p; try by eapply Hset; [| |exact H]; [|left].
  - eapply Hset; [| |exact H]; [done|]. right. eexists. cbn [reported cn_set_last_received cn_client_id]. by rewrite <- Hid.
  - destruct (reports_clear s i c addr None Hi Hc) as (l & E & Ht). rewrite E in H. cbn [out_bind] in H. injection H as <- <-.
    cbn [reported cn_set_last_received cn_client_id]. rewrite Hid. by apply Ht.
Qed.

Lemma process_response_reports s addr q data s' r :
  process_response s addr q data = Ret (s', r) -> reports s s' (reported r).
Proof using.
  intros H. unfold process_response in H. destruct (challenge_decode _ _ _) as [[t|]|]; cbn [out_bind] in H;
    [|injection H as <- <-; by apply reports_same|done].
  destruct (ns_pending_clients s !! addr) as [c|]; cbn [unwrap out_bind] in H; [|done].
  set (s1 := ns_set_pending s (delete addr (ns_pending_clients s))) in *. change (ns_clients s1) with (ns_clients s) in H.
  destruct (find_client_slot_by_id _ _); [injection H as <- <-; by apply reports_same|].
  destruct (free_slot 0 (ns_clients s)) as [i|] eqn:Hf.
  2: { apply deny_plain in H as [Hc Hr]. by apply reports_same. }
  apply free_slot_Some in Hf as [Hi Hnone]. rewrite Z.add_0_l in Hi.
  destruct (ns_encode _ _ _ _) as [[s2 r2]|] eqn:E; cbn [out_bind] in H; [|done]. apply ns_encode_inv in E as (o & -> & Ho).
  destruct r2; [|injection H as <- <-; by apply reports_same]. destruct (add64 _ _); cbn [out_bind] in H; [|done].
  rewrite vec_set_ok in H by done. cbn [out_bind] in H. injection H as <- <-. cbn [reported]. split; [|done].
  intros id (k & x & Hk & Hx). cbn [ns_set_clients ns_clients ns_set_out] in Hk.
  apply list_lookup_insert_Some in Hk as [(<- & Ex & _)|[Hne Hk]].
  - right. injection Ex as <-. cbn in Hx. rewrite <- Hx. by do 3 eexists.
  - left. by exists k, x.
Qed.

Lemma process_packet_reports s addr buffer s' r : net_server_process_packet s addr buffer = Ret (s', r) -> reports s s' r.
Proof using.
  intros H. unfold net_server_process_packet in H. destruct (process_packet_internal s addr buffer) as [[s1 r1]|] eqn:E; [|done].
  assert (reports s s1 (reported r1)) as Ht; [|by destruct r1; cbn [out_bind] in H; injection H as <- <-].
  clear H. unfold process_packet_internal in E. destruct (_ <? _); [injection E as <- <-; by apply reports_same|].
  assert (forall s0 v pid ex xn data, ns_clients s0 = ns_clients s ->
    handle_connection_request s0 addr v pid ex xn data = Ret (s1, r1) -> reports s s1 (reported r1)) as Hreq.
  { intros s0 v pid ex xn data Hs0 [Hc Hr]%handle_request_plain. apply reports_same; [congruence|done]. }
  destruct (find_client_mut_by_addr (ns_clients s) addr) as [[i c]|] eqn:Ha; [by eapply process_connected_reports|].
  destruct (ns_pending_clients s !! addr) as [c|] eqn:Hp.
  - unfold process_pending in E. destruct (net_decode _ _ _ _) as [[o [[q p]|]]|]; cbn [out_bind] in E; [| |done].
    2: { injection E as <- <-. by apply reports_same. }
    destruct p; try (injection E as <- <-; by apply reports_same); [by eapply Hreq; [|exact E]|].
    apply process_response_reports in E. exact E.
  - destruct (net_decode _ _ _ _) as [[o [[q p]|]]|]; cbn [out_bind] in E; [|injection E as <- <-; by apply reports_same|done].
    destruct p; try done. by eapply Hreq; [|exact E].
Qed.

Lemma update_client_reports s id s' r : net_server_update_client s id = Ret (s', r) -> reports s s' r.
Proof using.
  intros H. unfold net_server_update_client in H. destruct (find_client_slot_by_id _ _) as [[i c]|] eqn:Hf;
    [|injection H as <- <-; by apply reports_same].
  apply find_by_id_Some in Hf as (Hi & Hc & Hid). destruct (timed_out _ _ _) as [to|]; cbn [out_bind] in H; [|done].
  set (c' := if to then _ else _) in *. assert (cn_client_id c' = cn_client_id c) as Hid' by (unfold c'; by destruct to). clearbody c'.
  case_bool_decide.
  { destruct (vec_set _ _ _) as [l|] eqn:E; cbn [out_bind] in H; [|done]. unfold farewell in H.
    destruct (ns_encode _ _ _ _) as [[s2 r2]|] eqn:Ee; cbn [out_bind] in H; [|done]. apply ns_encode_inv in Ee as (o & -> & Ho).
    destruct r2 as [n|]; injection H as <- <-; rewrite <- Hid;
      match goal with |- reports _ _ (SrClientDisconnected _ ?a ?p) => destruct (reports_clear s i c a p Hi Hc) as (l' & E' & Ht) end;
      rewrite E in E'; injection E' as <-; by apply Ht. }
  destruct (dur_add _ _); cbn [out_bind] in H; [|done]. destruct (_ <=? _); [|injection H as <- <-; by apply reports_same].
  destruct (ns_encode _ _ _ _) as [[s2 r2]|] eqn:E; cbn [out_bind] in H; [|done]. apply ns_encode_inv in E as (o & -> & Ho).
  destruct r2; [|injection H as <- <-; by apply reports_same]. destruct (add64 _ _) as [q|]; cbn [out_bind] in H; [|done].
  match type of H with context [vec_set _ _ (Some ?c2)] =>
    destruct (reports_set s i c c2 SrNone Hi Hc Hid' (or_introl I)) as (l & E & Ht) end.
  cbn [ns_set_out ns_clients] in H. rewrite E in H. cbn [out_bind] in H. injection H as <- <-.
  destruct (Ht (ns_set_clients (ns_set_out s o) l) eq_refl) as [Ht1 _]. split; [|done]. intros k [?|(? & ? & ? & ?)]%Ht1; [by left|done].
Qed.

Lemma payload_reports s id p s' r : net_server_generate_payload_packet s id p = Ret (s', r) -> reports s s' SrNone.
Proof using.
  intros H. unfold net_server_generate_payload_packet in H. destruct (_ <? _); [injection H as <- _; by apply reports_same|].
  destruct (find_client_slot_by_id _ _) as [[i c]|] eqn:Hf; [|injection H as <- _; by apply reports_same]. apply find_by_id_Some in Hf as (Hi & Hc & Hid).
  destruct (ns_encode _ _ _ _) as [[s2 r2]|] eqn:E; cbn [out_bind] in H; [|done]. apply ns_encode_inv in E as (o & -> & Ho).
  destruct r2; [|injection H as <- _; by apply reports_same]. destruct (add64 _ _) as [q|]; cbn [out_bind] in H; [|done].
  match type of H with context [vec_set _ _ (Some ?c2)] =>
    destruct (reports_set s i c c2 SrNone Hi Hc eq_refl (or_introl I)) as (l & E & Ht) end.
  cbn [ns_set_out ns_clients] in H. rewrite E in H. cbn [out_bind] in H. injection H as <- _. by apply Ht.
Qed.

End reports.
