(* ===== verification/Session.v ===== *)
(** * The keys of a session

    What stays true of one client's session through every netcode call: the
    server holds its connection under the keys of its token, the client seals
    and opens with them, and a datagram opens to one payload only. *)

From S2P Require Import Prelude Octets Packet Connection Server.
From S2P Require Import Netcode ReplayProtection Token NetPacket NetClient NetServer NetServerInv NetServerProps NetClientProps.
From S2P Require Import Handshake Transport TransportProps.

(** ** Datagrams that open to a payload *)

Section opening.
Context {aead : Aead} {laws : AeadLaws aead}.

(** The payload that the key finds in a datagram, whatever was received before. *)
Definition opened (pid : Z) (key datagram : Bytes) : option Bytes :=
  match net_decode datagram pid (Some key) None with
  | Ret (_, Ok (_, Payload payload)) => Some payload
  | _ => None
  end.

(** The replay protection only refuses. *)
Lemma decoded_opened datagram pid key rp rp' q payload :
  net_decode datagram pid (Some key) rp = Ret (rp', Ok (q, Payload payload)) -> opened pid key datagram = Some payload.
Proof using.
  intros H. unfold opened. enough (net_decode datagram pid (Some key) None = Ret (None, Ok (q, Payload payload))) as -> by done.
  unfold net_decode in *. destruct (_ <? _); [done|]. destruct (vec_get _ _) as [x|]; cbn [out_bind] in *; [|done].
  destruct (decode_prefix _) as [t n]. destruct (type_from_u8 t) as [ty|]; [|done]. destruct (is_connection_request ty); [by destruct (packet_read _ _); simplify_eq|].
  destruct (read_sequence _ _) as [[[sq body]|]|]; cbn [out_bind] in *; [|done|done].
  destruct (match rp with Some _ => _ | None => _ end) as [[]|]; cbn [out_bind] in *; [done| |done].
  destruct (dencrypted_in_place _ _ _ _) as [[plain|]|]; cbn [out_bind] in *; [|done|done].
  destruct (match rp with Some _ => _ | None => _ end) as [rp1|]; cbn [out_bind] in *; [|done].
  destruct (sub64 _ _) as [m|]; cbn [out_bind] in *; [|done].
  by destruct (packet_read _ _); simplify_eq.
Qed.

(** What was sealed is what every opening finds. *)
Lemma opened_sealed pid q key payload payload' w :
  len payload <= NETCODE_MAX_PAYLOAD_BYTES -> u64 q ->
  wire (Payload payload) pid q key = Some w -> opened pid key w = Some payload' -> payload' = payload.
Proof using laws.
  intros Hl Hq Hw H. unfold opened in H. destruct (Z.ltb_spec (len w) 18) as [Hlt|].
  { unfold net_decode in H. rewrite (proj2 (Z.ltb_lt _ _)) in H by (unfold NETCODE_MAC_BYTES; lia). done. }
  rewrite (net_decode_wire (Payload payload) pid q key None w) in H by done. cbn in H. congruence.
Qed.

(** The server takes a payload only from a datagram that opens under the key of
    the client connected at the sender's address. *)
Lemma server_payload_opens s addr buffer s' id payload :
  net_server_process_packet s addr buffer = Ret (s', SrPayload id payload) ->
  exists slot c, find_client_mut_by_addr (ns_clients s) addr = Some (slot, c) /\ cn_client_id c = id /\
    opened (ns_protocol_id s) (cn_receive_key c) buffer = Some payload.
Proof using laws.
  intros H. unfold net_server_process_packet in H. destruct (process_packet_internal s addr buffer) as [[s1 r1]|] eqn:E; [|done].
  destruct r1 as [r1|]; cbn [out_bind] in H; [|done]. injection H as _ ->.
  pose proof (process_packet_internal_explained _ _ _ _ _ E) as (c0 & [slot Hat] & _ & _).
  unfold process_packet_internal in E. destruct (_ <? _); [done|]. rewrite Hat in E. exists slot, c0. split; [done|].
  unfold process_connected in E. destruct (net_decode _ _ _ _) as [[o d]|] eqn:Ed; cbn [out_bind] in E; [|done].
  set (c' := match o with Some _ => _ | None => _ end) in *.
  assert (cn_client_id c' = cn_client_id c0) as Hid by (unfold c'; by destruct o). clearbody c'.
  destruct d as [[q p]|]; [|by destruct (vec_set _ _ _); cbn [out_bind] in E].
  destruct (cn_state _), p; destruct (vec_set _ _ _); cbn [out_bind] in E; try done.
  injection E as _ <- <-. split; [done|]. by eapply decoded_opened.
Qed.

(** So does the client, under the server's key of its token. *)
Lemma client_payload_opens c buffer c' payload :
  net_client_process_packet c buffer = Ret (c', Some payload) ->
  opened (ct_protocol_id (nc_connect_token c)) (ct_server_to_client_key (nc_connect_token c)) buffer = Some payload.
Proof using.
  intros H. unfold net_client_process_packet in H. destruct (net_decode _ _ _ _) as [[o [[q p]|]]|] eqn:E; cbn [out_bind] in H; [|done..].
  injection H as H. destruct (handle_frame (match o with Some rp => nc_set_replay c rp | None => c end) p) as (_ & _ & Hp).
  rewrite H in Hp. specialize (Hp payload eq_refl). subst p. by eapply decoded_opened.
Qed.

End opening.

(** ** The client's side *)

Section client.
Context {aead : Aead} {laws : AeadLaws aead}.
Implicit Types c : NetcodeClient.

(** The client's keys are the session's, and it is able to seal. *)
Record client_keyed (pid : Z) (up down : Bytes) (c : NetcodeClient) : Prop := {
  ck_token : ct_protocol_id (nc_connect_token c) = pid /\ ct_client_to_server_key (nc_connect_token c) = up /\
    ct_server_to_client_key (nc_connect_token c) = down;
  ck_sequence : 0 <= nc_sequence c;
  ck_out : len (nc_out c) = NETCODE_MAX_PACKET_BYTES;
}.

(** Everything the session depends on, from the token, the sequence and the buffer. *)
Lemma client_keyed_frame pid up down c c' :
  client_keyed pid up down c -> nc_connect_token c' = nc_connect_token c -> nc_sequence c <= nc_sequence c' ->
  len (nc_out c') = len (nc_out c) -> client_keyed pid up down c'.
Proof using. intros [Ht Hq Ho] E1 E2 E3. constructor; rewrite ?E1, ?E3; [done|lia|done]. Qed.

Lemma handle_keyed c p : let c' := (net_client_handle c p).1 in
  nc_connect_token c' = nc_connect_token c /\ nc_sequence c' = nc_sequence c /\ nc_out c' = nc_out c.
Proof using. unfold net_client_handle. by destruct p, (nc_state c). Qed.

Lemma process_keyed pid up down c buffer c' r :
  client_keyed pid up down c -> net_client_process_packet c buffer = Ret (c', r) -> client_keyed pid up down c'.
Proof using.
  intros Hk H. unfold net_client_process_packet in H. destruct (net_decode _ _ _ _) as [[o d]|]; cbn [out_bind] in H; [|done].
  set (c1 := match o with Some _ => _ | None => _ end) in *.
  assert (client_keyed pid up down c1) as Hk1 by (unfold c1; destruct o; by eapply client_keyed_frame). clearbody c1.
  destruct d as [[q p]|]; injection H as H; [|by subst]. destruct (handle_keyed c1 p) as (E1 & E2 & E3). rewrite H in *. cbn in *.
  eapply client_keyed_frame; [exact Hk1|done|lia|by rewrite E3].
Qed.

Lemma client_update_keyed pid up down c d c' r :
  client_keyed pid up down c -> net_client_update c d = Ret (c', r) -> client_keyed pid up down c'.
Proof using.
  intros Hk H. unfold net_client_update in H.
  destruct (net_client_update_internal_state c d) as [[c1 r1]|] eqn:E; cbn [out_bind] in H; [|done].
  pose proof (update_internal_frame _ _ _ _ E) as [[Ht _] _].
  assert (nc_sequence c1 = nc_sequence c /\ nc_out c1 = nc_out c) as [Hs Ho].
  { unfold net_client_update_internal_state in E. destruct (dur_add _ _) as [time|]; cbn [out_bind] in E; [|done].
    destruct (timed_out _ _ _) as [to|]; cbn [out_bind] in E; [|done].
    assert (net_client_next_server (nc_set_time c time) = Ret (c1, r1) -> nc_sequence c1 = nc_sequence c /\ nc_out c1 = nc_out c) as Hnext.
    { clear. unfold net_client_next_server. destruct (add64 _ _) as [i|]; cbn [out_bind]; [|done].
      destruct (32 <=? _); [by intros [= <- _]|]. destruct (vec_get _ _) as [[a|]|]; cbn [out_bind]; [..|done]; by intros [= <- _]. }
    destruct (nc_state (nc_set_time c time)); [by injection E as <- _| | |destruct to; by injection E as <- _].
    all: destruct (sub64 _ _); cbn [out_bind] in E; [|done]; destruct (dur_sub _ _); cbn [out_bind] in E; [|done];
      destruct (_ <=? _); [by injection E as <- _|]; destruct to; [by apply Hnext|by injection E as <- _]. }
  assert (client_keyed pid up down c1) as Hk1 by (eapply client_keyed_frame; [exact Hk|done|lia|by rewrite Ho]).
  destruct r1; [|by injection H as <- _]. clear E Ht Hs Ho. unfold net_client_generate_packet in H.
  destruct (match nc_last_packet_send_time c1 with Some _ => _ | None => _ end) as [[]|]; cbn [out_bind] in H; [by injection H as <- _| |done].
  set (c2 := match nc_state c1 with CDisconnected _ => c1 | _ => _ end) in H.
  assert (client_keyed pid up down c2) as Hk2 by (unfold c2; destruct (nc_state c1); by eapply client_keyed_frame). clearbody c2.
  destruct (match nc_state c2 with CDisconnected _ => None | _ => _ end) as [p|]; [|by injection H as <- _].
  destruct (nc_encode c2 p) as [[c3 r3]|] eqn:E; cbn [out_bind] in H; [|done]. apply nc_encode_frame in E as (o & -> & Ho).
  destruct r3; [|injection H as <- _; by eapply client_keyed_frame]. destruct (add64 _ _) as [q|] eqn:Eq; cbn [out_bind] in H; [|done].
  apply add64_inv in Eq as [-> _]. injection H as <- _. eapply client_keyed_frame; [exact Hk2|done|nc_simpl; lia|done].
Qed.

Lemma disconnect_keyed pid up down c c' r :
  client_keyed pid up down c -> net_client_disconnect c = Ret (c', r) -> client_keyed pid up down c'.
Proof using.
  intros Hk H. unfold net_client_disconnect in H. destruct (nc_encode _ _) as [[c1 r1]|] eqn:E; cbn [out_bind] in H; [|done].
  apply nc_encode_frame in E as (o & -> & Ho). assert (c' = nc_set_out (nc_set_state c (CDisconnected NetDisconnectedByClient)) o) as ->
    by (by destruct r1; injection H as <- _). by eapply client_keyed_frame.
Qed.

(** A payload packet is the sealed payload, under the next sequence. *)
Lemma client_payload_sealed pid up down c payload c' r :
  client_keyed pid up down c -> net_client_generate_payload_packet c payload = Ret (c', r) ->
  client_keyed pid up down c' /\
  match r with
  | Ok (_, w) => len payload <= NETCODE_MAX_PAYLOAD_BYTES /\ exists q, u64 q /\ wire (Payload payload) pid q up = Some w
  | Err _ => True
  end.
Proof using laws.
  intros Hk H. unfold net_client_generate_payload_packet in H. destruct (Z.ltb_spec NETCODE_MAX_PAYLOAD_BYTES (len payload)) as [?|Hl]; [by injection H as <- <-|].
  destruct (negb _); [by injection H as <- <-|]. destruct (nc_encode _ _) as [[c1 r1]|] eqn:E; cbn [out_bind] in H; [|done].
  destruct r1 as [n|]; [|apply nc_encode_frame in E as (o & -> & Ho); injection H as <- <-; split; [by eapply client_keyed_frame|done]].
  pose proof (nc_encode_frame _ _ _ _ E) as (o & -> & Ho). destruct (add64 _ _) as [q|] eqn:Eq; cbn [out_bind] in H; [|done].
  apply add64_inv in Eq as [-> Hu]. injection H as <- <-. cbn [nc_set_out nc_sequence] in Hu.
  destruct Hk as [(Hp & Hup & Hd) Hs Hout]. split; [constructor; nc_simpl; [done|lia|lia]|].
  destruct (nc_encode_wire c (Payload payload)) as (o' & w & E' & Hw & Ht & _); [done|done|done|unfold u64; lia|].
  rewrite E in E'. injection E' as -> ->. rewrite Hp, Hup in Hw. split; [done|]. exists (nc_sequence c). split; [unfold u64; lia|].
  rewrite Hw. f_equal. symmetry. exact Ht.
Qed.

End client.

(** ** The server's side *)

Section server.
Context {aead : Aead} {laws : AeadLaws aead}.
Implicit Types s : NetcodeServer.
Variables (id : Z) (up down : Bytes).

(** A connection of the session's client has the session's keys. *)
Definition right_keys (c : Connection) : Prop :=
  cn_client_id c = id -> cn_receive_key c = up /\ cn_send_key c = down /\ 0 <= cn_sequence c.

Lemma right_keys_frame c c' :
  right_keys c -> cn_client_id c' = cn_client_id c -> cn_receive_key c' = cn_receive_key c -> cn_send_key c' = cn_send_key c ->
  cn_sequence c <= cn_sequence c' -> right_keys c'.
Proof using. unfold right_keys. intros H -> -> -> Hq Hid. destruct (H Hid) as (? & ? & ?). split_and!; [done|done|lia]. Qed.

Record server_keyed (s : NetcodeServer) : Prop := {
  sk_clients : forall k c, ns_clients s !! k = Some (Some c) -> right_keys c;
  sk_pending : forall a c, ns_pending_clients s !! a = Some c -> right_keys c;
}.

Lemma keyed_same s s' :
  server_keyed s -> ns_clients s' = ns_clients s -> ns_pending_clients s' = ns_pending_clients s -> server_keyed s'.
Proof using. intros [H1 H2] E1 E2. constructor; rewrite ?E1, ?E2; done. Qed.

Lemma keyed_set_slot s i c l s' :
  server_keyed s -> right_keys c -> vec_set (ns_clients s) i (Some c) = Ret l -> ns_clients s' = l ->
  ns_pending_clients s' = ns_pending_clients s -> server_keyed s'.
Proof using.
  intros [H1 H2] Hc [_ ->]%vec_set_inv E1 E2. constructor; rewrite ?E1, ?E2; [|done].
  intros k x [(_ & [= ->] & _)|[_ ?]]%list_lookup_insert_Some; [done|by eapply H1].
Qed.

Lemma keyed_clear_slot s i l s' :
  server_keyed s -> vec_set (ns_clients s) i None = Ret l -> ns_clients s' = l ->
  ns_pending_clients s' = ns_pending_clients s -> server_keyed s'.
Proof using.
  intros [H1 H2] [_ ->]%vec_set_inv E1 E2. constructor; rewrite ?E1, ?E2; [|done].
  intros k x [(_ & ? & _)|[_ ?]]%list_lookup_insert_Some; [done|by eapply H1].
Qed.

Lemma keyed_insert_pending s addr c : server_keyed s -> right_keys c -> server_keyed (ns_set_pending s (<[addr := c]> (ns_pending_clients s))).
Proof using. intros [H1 H2] Hc. constructor; cbn; [done|]. intros a x [[_ <-]|[_ ?]]%lookup_insert_Some; [done|by eapply H2]. Qed.

Lemma keyed_delete_pending s addr : server_keyed s -> server_keyed (ns_set_pending s (delete addr (ns_pending_clients s))).
Proof using. intros [H1 H2]. constructor; cbn; [done|]. intros a x [_ ?]%lookup_delete_Some. by eapply H2. Qed.

Lemma server_update_keyed s duration s' : server_keyed s -> net_server_update s duration = Ret s' -> server_keyed s'.
Proof using.
  intros [H1 H2] H. unfold net_server_update in H. destruct (dur_add _ _) as [time|]; cbn [out_bind] in H; [|done]. injection H as <-.
  constructor; cbn [ns_set_pending ns_set_time ns_clients ns_pending_clients]; [done|].
  intros a c [Hc _]%map_lookup_filter_Some. rewrite lookup_fmap in Hc. apply fmap_Some in Hc as (c0 & Hc0 & ->).
  apply H2 in Hc0. destruct (_ <? _); by eapply right_keys_frame.
Qed.

Lemma farewell_keyed s i c s' r : server_keyed s -> farewell s i c = Ret (s', r) -> server_keyed s'.
Proof using.
  intros Hk H. unfold farewell in H. destruct (ns_encode _ _ _ _) as [[s1 r1]|] eqn:E; cbn [out_bind] in H; [|done].
  apply ns_encode_inv in E as (o & -> & _). destruct r1; injection H as <- _; by eapply keyed_same.
Qed.

Lemma server_disconnect_keyed s i s' r : server_keyed s -> net_server_disconnect s i = Ret (s', r) -> server_keyed s'.
Proof using.
  intros Hk H. unfold net_server_disconnect in H. destruct (find_client_slot_by_id _ _) as [[j c]|]; [|by injection H as <- _].
  destruct (vec_set _ _ _) as [l|] eqn:E; cbn [out_bind] in H; [|done]. eapply farewell_keyed; [|exact H]. by eapply keyed_clear_slot.
Qed.

Lemma update_client_keyed s i s' r : server_keyed s -> net_server_update_client s i = Ret (s', r) -> server_keyed s'.
Proof using.
  intros Hk H. unfold net_server_update_client in H. destruct (find_client_slot_by_id _ _) as [[j c]|] eqn:Hf; [|by injection H as <- _].
  apply find_by_id_Some in Hf as (_ & Hc & _). apply (sk_clients _ Hk) in Hc.
  destruct (timed_out _ _ _) as [to|]; cbn [out_bind] in H; [|done].
  set (c' := if to then _ else _) in *. assert (right_keys c') as Hc' by (unfold c'; destruct to; by eapply right_keys_frame). clearbody c'.
  case_bool_decide.
  { destruct (vec_set _ _ _) as [l|] eqn:E; cbn [out_bind] in H; [|done]. eapply farewell_keyed; [|exact H]. by eapply keyed_clear_slot. }
  destruct (dur_add _ _); cbn [out_bind] in H; [|done]. destruct (_ <=? _); [|by injection H as <- _].
  destruct (ns_encode _ _ _ _) as [[s2 r2]|] eqn:E; cbn [out_bind] in H; [|done]. apply ns_encode_inv in E as (o & -> & _).
  destruct r2; [|injection H as <- _; by eapply keyed_same]. destruct (add64 _ _) as [q|] eqn:Eq; cbn [out_bind] in H; [|done].
  apply add64_inv in Eq as [-> _].
  destruct (vec_set _ _ _) as [l|] eqn:El; cbn [out_bind] in H; [|done]. injection H as <- _.
  eapply (keyed_set_slot (ns_set_out s o)); [by eapply keyed_same| |exact El|done|done]. eapply right_keys_frame; [exact Hc'|done..|cbn; lia].
Qed.

(** A payload for the session's client is sealed under the session's key. *)
Lemma server_payload_sealed s i payload s' r :
  server_keyed s -> len (ns_out s) = NETCODE_MAX_PACKET_BYTES -> net_server_generate_payload_packet s i payload = Ret (s', r) ->
  server_keyed s' /\
  match r with
  | Ok (_, w) => i = id -> len payload <= NETCODE_MAX_PAYLOAD_BYTES /\ exists q, u64 q /\ wire (Payload payload) (ns_protocol_id s) q down = Some w
  | Err _ => True
  end.
Proof using laws.
  intros Hk Ho H. unfold net_server_generate_payload_packet in H.
  destruct (Z.ltb_spec NETCODE_MAX_PAYLOAD_BYTES (len payload)) as [?|Hl]; [by injection H as <- <-|].
  destruct (find_client_slot_by_id _ _) as [[j c]|] eqn:Hf; [|by injection H as <- <-].
  apply find_by_id_Some in Hf as (_ & Hc & Hid). apply (sk_clients _ Hk) in Hc.
  destruct (ns_encode _ _ _ _) as [[s2 r2]|] eqn:E; cbn [out_bind] in H; [|done]. pose proof (ns_encode_inv _ _ _ _ _ _ E) as (o & -> & _).
  destruct r2 as [n|]; [|injection H as <- <-; split; [by eapply keyed_same|done]].
  destruct (add64 _ _) as [q|] eqn:Eq; cbn [out_bind] in H; [|done]. apply add64_inv in Eq as [-> Hu].
  destruct (vec_set _ _ _) as [l|] eqn:El; cbn [out_bind] in H; [|done]. injection H as <- <-. split.
  - eapply (keyed_set_slot (ns_set_out s o)); [by eapply keyed_same| |exact El|done|done]. eapply right_keys_frame; [exact Hc|done..|cbn; lia].
  - intros Hi. destruct (Hc (eq_trans Hid Hi)) as (_ & Hd & Hs). split; [done|]. exists (cn_sequence c). split; [unfold u64; lia|].
    destruct (ns_encode_wire s (Payload payload) (cn_sequence c) (cn_send_key c)) as (o' & w & E' & Hw & Ht & _); [done|done|done|unfold u64; lia|].
    rewrite E in E'. injection E' as -> ->. rewrite Hd in Hw. rewrite Hw. f_equal. symmetry. exact Ht.
Qed.

(** A datagram in which no token for the client carries other keys. *)
Definition token_genuine (pid : Z) (connect_key datagram : Bytes) : bool :=
  match packet_read TConnectionRequest (drop 1 datagram) with
  | Ok (ConnectionRequest _ _ ex xn data) =>
      match private_decode data pid ex xn connect_key with
      | Ret (Ok token) =>
          negb (pt_client_id token =? id) ||
          bool_decide (pt_client_to_server_key token = up) && bool_decide (pt_server_to_client_key token = down)
      | _ => true
      end
  | _ => true
  end.

Lemma token_genuine_request pid key datagram v pid' ex xn data token :
  token_genuine pid key datagram = true -> packet_read TConnectionRequest (drop 1 datagram) = Ok (ConnectionRequest v pid' ex xn data) ->
  private_decode data pid ex xn key = Ret (Ok token) -> pt_client_id token = id ->
  pt_client_to_server_key token = up /\ pt_server_to_client_key token = down.
Proof using.
  unfold token_genuine. intros H Hr E <-. rewrite Hr, E, Z.eqb_refl in H. cbn in H. apply andb_true_iff in H as [H1 H2].
  split; by eapply bool_decide_eq_true_1.
Qed.

Lemma deny_keyed s addr key s' r : server_keyed s -> deny s addr key = Ret (s', r) -> server_keyed s'.
Proof using.
  intros Hk H. unfold deny in H. destruct (ns_encode _ _ _ _) as [[s1 [n|]]|] eqn:E; cbn [out_bind] in H; [| |done];
    apply ns_encode_inv in E as (o & -> & Ho); [|injection H as <- _; by eapply keyed_same].
  destruct (add64 _ _); cbn [out_bind] in H; [|done]. injection H as <- _. by eapply keyed_same.
Qed.

Lemma challenge_keyed s addr expire token s' r :
  server_keyed s -> (pt_client_id token = id -> pt_client_to_server_key token = up /\ pt_server_to_client_key token = down) ->
  challenge s addr expire token = Ret (s', r) -> server_keyed s'.
Proof using.
  intros Hk Ht H. unfold challenge in H. destruct (add64 _ _) as [q|]; cbn [out_bind] in H; [|done].
  destruct (generate_challenge _ _ _ _) as [[p|]|]; cbn [out_bind] in H; [|injection H as <- _; by eapply keyed_same|done].
  destruct (ns_encode _ _ _ _) as [[s1 [n|]]|] eqn:E; cbn [out_bind] in H; [| |done];
    apply ns_encode_inv in E as (o & -> & Ho); [|injection H as <- _; by eapply keyed_same].
  destruct (add64 _ _) as [q'|]; cbn [out_bind] in H; [|done]. injection H as <- _.
  set (s1 := ns_set_global_sequence _ q'). assert (server_keyed s1) as Hk1 by (by eapply keyed_same).
  apply (keyed_insert_pending s1); [done|].
  match goal with |- right_keys (cn_set_last_send (cn_set_last_received ?x _) _) => assert (right_keys x); [|by eapply (right_keys_frame x)] end.
  destruct (_ !! addr) as [c|] eqn:Ec.
  - by eapply (sk_pending _ Hk1).
  - intros Hid. cbn in *. destruct (Ht Hid). done.
Qed.

Lemma handle_request_keyed s addr v pid ex xn data s' r :
  server_keyed s ->
  (forall token, private_decode data (ns_protocol_id s) ex xn (ns_connect_key s) = Ret (Ok token) -> pt_client_id token = id ->
     pt_client_to_server_key token = up /\ pt_server_to_client_key token = down) ->
  handle_connection_request s addr v pid ex xn data = Ret (s', r) -> server_keyed s'.
Proof using.
  intros Hk Ht H. unfold handle_connection_request in H.
  destruct (negb (bool_decide (v = _))); [by injection H as <- _|]. destruct (negb (pid =? _)); [by injection H as <- _|].
  destruct (ex <=? _); [by injection H as <- _|].
  destruct (private_decode _ _ _ _ _) as [[token|]|]; cbn [out_bind] in H; [|by injection H as <- _|done].
  specialize (Ht token eq_refl). destruct (ns_secure s && _); [by injection H as <- _|]. destruct (_ || _); [by injection H as <- _|].
  destruct (bool_decide (ns_pending_clients s !! addr = None) && _); [by injection H as <- _|].
  destruct (find_or_add_connect_token_entry _ _) as [[s1 b]|] eqn:E; cbn [out_bind] in H; [|done].
  assert (server_keyed s1) as Hk1.
  { unfold find_or_add_connect_token_entry in E. destruct (es_match _); [by injection E as <- _|].
    destruct (vec_set _ _ _); [|done]. injection E as <- _. by eapply keyed_same. }
  destruct (negb b); [by injection H as <- _|]. destruct (ns_max_clients s1 <=? _).
  - eapply deny_keyed; [|exact H]. by apply keyed_delete_pending.
  - by eapply challenge_keyed.
Qed.

Lemma process_connected_keyed s addr i c buffer s' r :
  server_keyed s -> right_keys c -> process_connected s addr i c buffer = Ret (s', r) -> server_keyed s'.
Proof using.
  intros Hk Hc H. unfold process_connected in H. destruct (net_decode _ _ _ _) as [[o d]|]; cbn [out_bind] in H; [|done].
  set (c' := match o with Some _ => _ | None => _ end) in *.
  assert (right_keys c') as Hc' by (unfold c'; destruct o; by eapply right_keys_frame). clearbody c'.
  assert (forall c2 x, right_keys c2 -> (let! clients := vec_set (ns_clients s) i (Some c2) in Ret (ns_set_clients s clients, x)) = Ret (s', r) ->
    server_keyed s') as Hset.
  { clear H. intros c2 x Hc2 H2. destruct (vec_set _ _ _) as [l|] eqn:E; cbn [out_bind] in H2; [|done]. injection H2 as <- _. by eapply keyed_set_slot. }
  destruct d as [[q p]|]; [|by eapply Hset].
  assert (right_keys (cn_set_last_received c' (ns_current_time s))) as Hc2 by (by eapply right_keys_frame).
  destruct (cn_state _); [by eapply Hset; [|exact H]..|].
  destruct p; try (eapply Hset; [|exact H]; by eapply right_keys_frame).
  destruct (vec_set _ _ _) as [l|] eqn:E; cbn [out_bind] in H; [|done]. injection H as <- _. by eapply keyed_clear_slot.
Qed.

Lemma process_response_keyed s addr q data s' r :
  server_keyed s -> process_response s addr q data = Ret (s', r) -> server_keyed s'.
Proof using.
  intros Hk H. unfold process_response in H. destruct (challenge_decode _ _ _) as [[t|]|]; cbn [out_bind] in H; [|by injection H as <- _|done].
  destruct (ns_pending_clients s !! addr) as [c|] eqn:Hp; cbn [unwrap out_bind] in H; [|done]. apply (sk_pending _ Hk) in Hp.
  apply (keyed_delete_pending s addr) in Hk. set (s1 := ns_set_pending s (delete addr (ns_pending_clients s))) in *.
  destruct (find_client_slot_by_id _ _); [by injection H as <- _|]. destruct (free_slot 0 (ns_clients s1)) as [i|]; [|by eapply deny_keyed].
  destruct (ns_encode _ _ _ _) as [[s2 r2]|] eqn:E; cbn [out_bind] in H; [|done]. apply ns_encode_inv in E as (o & -> & _).
  destruct r2; [|injection H as <- _; by eapply keyed_same]. destruct (add64 _ _) as [q'|] eqn:Eq; cbn [out_bind] in H; [|done].
  apply add64_inv in Eq as [-> _]. destruct (vec_set _ _ _) as [l|] eqn:El; cbn [out_bind] in H; [|done]. injection H as <- _.
  eapply (keyed_set_slot (ns_set_out s1 o)); [by eapply keyed_same| |exact El|done|done]. eapply right_keys_frame; [exact Hp|done..|cbn; lia].
Qed.

Lemma server_process_keyed s addr buffer s' r :
  server_keyed s -> token_genuine (ns_protocol_id s) (ns_connect_key s) buffer = true -> net_server_process_packet s addr buffer = Ret (s', r) -> server_keyed s'.
Proof using laws.
  intros Hk Ht H. unfold net_server_process_packet in H. destruct (process_packet_internal s addr buffer) as [[s1 r1]|] eqn:E; [|done].
  assert (server_keyed s1) as Hk1; [|by destruct r1; cbn [out_bind] in H; injection H as <- _]. clear H.
  unfold process_packet_internal in E. destruct (_ <? _); [by injection E as <- _|].
  destruct (find_client_mut_by_addr (ns_clients s) addr) as [[i c]|] eqn:Ha.
  { apply find_by_addr_Some in Ha as (_ & Hc & _). eapply process_connected_keyed; [exact Hk| |exact E]. by eapply sk_clients. }
  destruct (ns_pending_clients s !! addr) as [c|] eqn:Hp.
  - unfold process_pending in E. destruct (net_decode _ _ _ _) as [[o d]|] eqn:Ed; cbn [out_bind] in E; [|done].
    apply (sk_pending _ Hk) in Hp. set (c' := match o with Some _ => _ | None => _ end) in *.
    assert (right_keys c') as Hc' by (unfold c'; destruct o; by eapply right_keys_frame). clearbody c'.
    destruct d as [[q p]|]; [|injection E as <- _; by apply keyed_insert_pending].
    assert (server_keyed (ns_set_pending s (<[addr := cn_set_last_received c' (ns_current_time s)]> (ns_pending_clients s)))) as Hk2.
    { apply keyed_insert_pending; [done|]. by eapply right_keys_frame. }
    destruct p as [v pid ex xn data| | |ts td| | |]; try by injection E as <- _.
    + apply net_decode_inv in Ed as [(_ & _ & _ & Hr)|[? _]]; [|done]. eapply handle_request_keyed; [exact Hk2| |exact E].
      intros token Hd. by eapply token_genuine_request.
    + by eapply process_response_keyed.
  - destruct (net_decode _ _ _ _) as [[o [[q p]|]]|] eqn:Ed; cbn [out_bind] in E; [|by injection E as <- _|done].
    destruct p as [v pid ex xn data| | | | | |]; try done. apply net_decode_inv in Ed as [(_ & _ & _ & Hr)|[? _]]; [|done].
    eapply handle_request_keyed; [exact Hk| |exact E]. intros token Hd. by eapply token_genuine_request.
Qed.

End server.
