(* ===== verification/EndToEnd.v ===== *)
(** * A session, end to end

    One client and the server together, from the application's calls down to the
    datagrams: renet endpoints (Connection.v, Server.v), netcode endpoints and
    sockets (Transport.v), and a network under the control of an attacker who
    may drop, repeat, delay, reorder, redirect and invent datagrams.  Two things
    are out of the attacker's reach, and are assumptions of the theorems: sealing
    payloads with the session's keys ([unforged]), and making a connect token
    for the client's id with other keys ([no_other_token]), which takes the key
    the server checks tokens with.  The session refines the two peers of
    System.v, so that the guarantees proved there hold of the whole stack.

    With [ServerAuthentication::Unsecure] the key of the tokens is all zeros, and
    anyone can make such a token: the second assumption then is one about who
    reaches the server, not about cryptography ([zero_key_impostor]). *)

From S2P Require Import Prelude Octets Packet ReliableRecv Connection ConnectionSpec Server.
From S2P Require Import Netcode ReplayProtection Token NetPacket NetClient NetServer NetServerInv NetServerProps NetClientProps.
From S2P Require Import Handshake Transport TransportProps Session System.

(** ** The application's calls on the server *)

Inductive server_call :=
  | CallSend (client_id ch : Z) (m : Bytes)
  | CallBroadcast (ch : Z) (m : Bytes)
  | CallBroadcastExcept (except_id ch : Z) (m : Bytes)
  | CallReceive (client_id ch : Z)
  | CallUpdate (duration : Z)
  | CallDisconnect (client_id : Z)
  | CallDisconnectAll
  | CallEvent.

Definition call_server (rs : RenetServer) (call : server_call) : out RenetServer :=
  match call with
  | CallSend client_id ch m => server_send_message rs client_id ch m
  | CallBroadcast ch m => broadcast_message rs ch m
  | CallBroadcastExcept except_id ch m => broadcast_message_except rs except_id ch m
  | CallReceive client_id ch => let! (rs, _) := server_receive_message rs client_id ch in Ret rs
  | CallUpdate duration => server_update rs duration
  | CallDisconnect client_id => Ret (server_disconnect rs client_id)
  | CallDisconnectAll => Ret (disconnect_all rs)
  | CallEvent => Ret (get_event rs).1
  end.

(** What the call does to the connection of a client. *)
Definition call_on (id : Z) (call : server_call) : option action :=
  match call with
  | CallSend client_id ch m => if client_id =? id then Some (Send ch m) else None
  | CallBroadcast ch m => Some (Send ch m)
  | CallBroadcastExcept except_id ch m => if except_id =? id then None else Some (Send ch m)
  | CallReceive client_id ch => if client_id =? id then Some (Receive ch) else None
  | CallUpdate duration => Some (Update duration)
  | CallDisconnect client_id => if client_id =? id then Some (System.Disconnect DisconnectedByServer) else None
  | CallDisconnectAll => Some (System.Disconnect DisconnectedByServer)
  | CallEvent => None
  end.

(** What the application does with a client. *)
Definition app_action (a : action) : bool :=
  match a with Send _ _ | Receive _ | Update _ | System.Disconnect _ => true | _ => false end.

(** ** The session *)

(** The client's peer, its transport, the payload datagrams it has sent; the
    server's peer for this client, its transport, the renet server, and the
    payload datagrams it has sent to this client. *)
Record session := mkSession {
  se_client : System.peer;
  se_tc : NetcodeClientTransport;
  se_up : list Bytes;
  se_peer : System.peer;
  se_ts : NetcodeServerTransport;
  se_server : RenetServer;
  se_down : list Bytes;
}.

(** The network chooses what the socket receives next and whether sends succeed. *)
Definition network (sk : Socket) (incoming : list recv_event) (outcomes : list (option IoErrorKind)) : Socket :=
  mkSocket (sk_nonblocking sk) incoming outcomes (sk_sent sk).

(** What was sent through the socket between two states of it. *)
Definition sent_since (sk sk' : Socket) : list Bytes := (drop (length (sk_sent sk)) (sk_sent sk')).*2.

Inductive session_action :=
  | ClientApp (a : action)
  | ClientSend (outcomes : list (option IoErrorKind))
  | ClientTick (duration : Z) (incoming : list recv_event) (outcomes : list (option IoErrorKind))
  | ClientHangUp (outcomes : list (option IoErrorKind))
  | ServerApp (call : server_call)
  | ServerSend (outcomes : list (option IoErrorKind))
  | ServerTick (duration : Z) (incoming : list recv_event) (outcomes : list (option IoErrorKind))
  | ServerSetMax (n : Z).

Section session.
Context {oct : Octets} {aead : Aead}.
Variables (config : ServerConfig) (id : Z) (up down : Bytes).

(** A datagram that opens under the key was sent by the key's holder. *)
Definition genuine (key : Bytes) (log : list Bytes) (datagram : Bytes) : bool :=
  match opened (sc_protocol_id config) key datagram with
  | Some _ => bool_decide (datagram ∈ log)
  | None => true
  end.

(** The attacker does not seal payloads with the session's keys: a datagram that
    opens under one of them is one that its holder has sent before. *)
Definition unforged (s : session) (act : session_action) : bool :=
  let from (key : Bytes) (log : list Bytes) :=
    forallb (fun e => match e with Datagram data _ => genuine key log (received data) | RecvError _ => true end) in
  match act with
  | ClientTick _ incoming _ => from down (se_down s) incoming
  | ServerTick _ incoming _ => from up (se_up s) incoming
  | _ => true
  end.

(** No connection request that reaches the server has a token for the client's
    id with other keys than the session's. *)
Definition no_other_token (act : session_action) : bool :=
  match act with
  | ServerTick _ incoming _ =>
      forallb (fun e => match e with
        | Datagram data _ => token_genuine id up down (sc_protocol_id config) (config_key config) (received data)
        | RecvError _ => true
        end) incoming
  | _ => true
  end.

(** The turn of one client in [send_packets], noting what is sent to [id]: the
    packets of its connection and the datagrams that carry them. *)
Definition send_turn (state : NetcodeServerTransport * RenetServer * list Bytes * list Bytes) (client_id : Z)
    : out (NetcodeServerTransport * RenetServer * list Bytes * list Bytes) :=
  let '(self, server, packets, datagrams) := state in
  let! (server, r) := server_get_packets_to_send server client_id in
  let! sent := match r with Ok packets => Ret packets | Err _ => Panic end in
  let! self' := ts_send_client self client_id sent in
  if client_id =? id then Ret (self', server, packets ++ sent, datagrams ++ sent_since (ts_socket self) (ts_socket self'))
  else Ret (self', server, packets, datagrams).

Definition ts_send_noting (self : NetcodeServerTransport) (server : RenetServer)
    : out (NetcodeServerTransport * RenetServer * list Bytes * list Bytes) :=
  fold_out send_turn (self, server, [], []) (clients_id server).

(** The server has dropped the connection. *)
Definition farewell_given (rs : RenetServer) : bool :=
  existsb (fun e => match e with ClientDisconnected client_id _ => client_id =? id | _ => false end) (events rs).

(** The peer of the connection that the renet server holds for the client. *)
Definition follow (p : System.peer) (rs : RenetServer) : System.peer :=
  match connections rs !! id with Some c => with_client p c | None => p end.

(** One step of the session; [None] when the step cannot be taken. *)
Definition session_act (s : session) (act : session_action) : option session :=
  let '(mkSession a tc ups b ts rs downs) := s in
  match act with
  | ClientApp x =>
      if app_action x then
        a' ← peer_act a b x;
        Some (mkSession a' tc ups b ts rs downs)
      else None
  | ClientSend outcomes =>
      let tc := tc_set_socket tc (network (tc_socket tc) [] outcomes) in
      if bool_decide (packet_sequence (p_client a) + flush_bound (p_client a) <= VARINT_MAX) then
        match tc_send_packets tc (p_client a), nc_disconnect_reason (tc_netcode_client tc), get_packets_to_send (p_client a) with
        | Ret (tc', c', _), None, Ret (_, packets) =>
            Some (mkSession (mkPeer c' (p_sent a) (p_offered a) (p_delivered a) (p_wire a ++ packets)) tc'
                    (ups ++ sent_since (tc_socket tc) (tc_socket tc')) b ts rs downs)
        | _, _, _ => None
        end
      else None
  | ClientTick duration incoming outcomes =>
      let tc := tc_set_socket tc (network (tc_socket tc) incoming outcomes) in
      match tc_update tc duration (p_client a) with
      | Ret (tc', c', _) => Some (mkSession (with_client a c') tc' ups b ts rs downs)
      | Panic => None
      end
  | ClientHangUp outcomes =>
      match tc_disconnect (tc_set_socket tc (network (tc_socket tc) [] outcomes)) with
      | Ret tc' => Some (mkSession a tc' ups b ts rs downs)
      | Panic => None
      end
  | ServerApp call =>
      match call_server rs call with
      | Ret rs' =>
          b' ← match connections rs !! id, call_on id call with
               | Some _, Some x => peer_act b a x
               | _, _ => Some b
               end;
          Some (mkSession a tc ups b' ts rs' downs)
      | Panic => None
      end
  | ServerSend outcomes =>
      let ts := ts_set_socket ts (network (ts_socket ts) [] outcomes) in
      if bool_decide (packet_sequence (p_client b) + flush_bound (p_client b) <= VARINT_MAX) then
        match ts_send_noting ts rs with
        | Ret (ts', rs', packets, datagrams) =>
            let b' := mkPeer (p_client (follow b rs')) (p_sent b) (p_offered b) (p_delivered b) (p_wire b ++ packets) in
            Some (mkSession a tc ups b' ts' rs' (downs ++ datagrams))
        | Panic => None
        end
      else None
  | ServerTick duration incoming outcomes =>
      let ts := ts_set_socket ts (network (ts_socket ts) incoming outcomes) in
      match ts_update ts duration rs with
      | Ret (ts', rs', _) =>
          if farewell_given rs' then None else Some (mkSession a tc ups (follow b rs') ts' rs' downs)
      | Panic => None
      end
  | ServerSetMax n => Some (mkSession a tc ups b (ts_set_max_clients ts n) rs downs)
  end.

Inductive session_run : session -> list session_action -> session -> Prop :=
  | run_none s : session_run s [] s
  | run_step s act s' acts s'' :
      unforged s act = true -> session_act s act = Some s' -> session_run s' acts s'' -> session_run s (act :: acts) s''.

(** A new client with the session's keys, and a new server. *)
Inductive session_init : session -> Prop :=
  | init_session client_config server_config c1 c2 rnd now authentication socket tc challenge_key socket' ts :
      0 <= cfg_available_bytes_per_tick client_config -> 0 <= cfg_available_bytes_per_tick server_config ->
      Forall config_ok (client_channels_config client_config ++ server_channels_config client_config ++
        server_channels_config server_config ++ client_channels_config server_config) ->
      client_new client_config = Ret c1 -> client_new_from_server server_config = Ret c2 ->
      tc_new rnd now authentication socket = Ret (Ok tc) ->
      (let token := nc_connect_token (tc_netcode_client tc) in
       ct_protocol_id token = sc_protocol_id config /\ ct_client_to_server_key token = up /\ ct_server_to_client_key token = down) ->
      0 <= sc_max_clients config -> ts_new challenge_key config socket' = Ret (Ok ts) ->
      session_init (mkSession (fresh_peer c1) tc [] (fresh_peer c2) ts (server_new server_config) []).

(** A new session has come to this state by these actions. *)
Definition session_reachable (acts : list session_action) (s : session) : Prop :=
  exists s0, session_init s0 /\ session_run s0 acts s.

End session.

(** Noting does not change what [send_packets] does. *)
Lemma send_noting_fold {oct : Octets} {aead : Aead} id ids : forall self server packets datagrams,
  fold_out (fun '(self, server) client_id =>
    let! (server, r) := server_get_packets_to_send server client_id in
    let! packets := match r with Ok packets => Ret packets | Err _ => Panic end in
    let! self := ts_send_client self client_id packets in
    Ret (self, server)) (self, server) ids =
  let! (self, server, _, _) := fold_out (send_turn id) (self, server, packets, datagrams) ids in Ret (self, server).
Proof.
  induction ids as [|i ids IH]; intros self server packets datagrams; [done|]. cbn [fold_out]. unfold send_turn at 1.
  destruct (server_get_packets_to_send server i) as [[server1 [sent|]]|]; cbn [out_bind]; [|done|done].
  destruct (ts_send_client self i sent) as [self1|]; cbn [out_bind]; [|done].
  destruct (i =? id); apply IH.
Qed.

Lemma send_noting_sends {oct : Octets} {aead : Aead} id self server :
  ts_send_packets self server = let! (self, server, _, _) := ts_send_noting id self server in Ret (self, server).
Proof. apply send_noting_fold. Qed.

(** ** The invariant *)

Section invariant.
Context {oct : Octets} {oct_laws : OctetsLaws oct} {aead : Aead} {laws : AeadLaws aead}.
Variables (config : ServerConfig) (id : Z) (up down : Bytes).
Abbreviation pid := (sc_protocol_id config).

(** The renet server holds [c] for the client, or would make it. *)
Definition conn_is (rs : RenetServer) (c : RenetClient) : Prop :=
  match connections rs !! id with
  | Some c' => c' = c
  | None => client_new_from_server (connection_config rs) = Ret c
  end.

Definition server_good (ns : NetcodeServer) : Prop := server_inv config ns /\ server_keyed id up down ns.

(** The datagrams of a log carry packets of the wire. *)
Definition carries (key : Bytes) (log wire : list Bytes) : Prop :=
  forall w payload, w ∈ log -> opened pid key w = Some payload -> payload ∈ wire.

Record session_inv (s : session) : Prop := {
  si_peers : reachable (se_client s, se_peer s);
  si_conn : conn_is (se_server s) (p_client (se_peer s));
  si_client : client_keyed pid up down (tc_netcode_client (se_tc s));
  si_server : server_good (ts_netcode_server (se_ts s));
  si_up : carries up (se_up s) (p_wire (se_client s));
  si_down : carries down (se_down s) (p_wire (se_peer s));
}.

Lemma reach_left a b a' : reachable (a, b) -> peer_step a b a' -> reachable (a', b).
Proof using. intros (s0 & Hi & Hr) Hs. exists s0. split; [done|]. eapply rtc_r; [exact Hr|by apply step_left]. Qed.

Lemma reach_right a b b' : reachable (a, b) -> peer_step b a b' -> reachable (a, b').
Proof using. intros (s0 & Hi & Hr) Hs. exists s0. split; [done|]. eapply rtc_r; [exact Hr|by apply step_right]. Qed.

Lemma carries_app key log wire log' wire' :
  carries key log wire -> carries key log' wire' -> carries key (log ++ log') (wire ++ wire').
Proof using. intros H H' w p [Hw|Hw]%elem_of_app Ho; apply elem_of_app; [left; by eapply H|right; by eapply H']. Qed.

Lemma genuine_payload key log wire datagram payload :
  carries key log wire -> genuine config key log datagram = true -> opened pid key datagram = Some payload -> payload ∈ wire.
Proof using. intros Hc Hg Ho. unfold genuine in Hg. rewrite Ho in Hg. apply bool_decide_eq_true in Hg. by eapply Hc. Qed.

(** A sealed payload is a datagram that carries it. *)
Lemma carries_sealed key q payload w wire :
  len payload <= NETCODE_MAX_PAYLOAD_BYTES -> u64 q -> NetPacket.wire (Payload payload) pid q key = Some w -> payload ∈ wire ->
  carries key [w] wire.
Proof using laws. intros Hl Hq Hw Hin x p ->%list_elem_of_singleton Ho. by rewrite (opened_sealed _ _ _ _ _ _ Hl Hq Hw Ho). Qed.

Lemma carries_nil key wire : carries key [] wire.
Proof using. intros w p []%elem_of_nil. Qed.

Lemma sent_since_refl sk : sent_since sk sk = [].
Proof using. unfold sent_since. by rewrite drop_all. Qed.

(** A send adds the datagram, or nothing. *)
Lemma send_to_cases sk w addr :
  exists sent, sk_sent (send_to sk w addr).1 = sk_sent sk ++ sent /\ (sent = [] \/ sent = [(addr, w)]).
Proof using.
  unfold send_to. destruct (sk_outcomes sk) as [|[k|] o]; cbn; [by eexists; eauto|exists []; rewrite app_nil_r; auto|by eexists; eauto].
Qed.

Lemma sent_since_app sk sk' sent : sk_sent sk' = sk_sent sk ++ sent -> sent_since sk sk' = sent.*2.
Proof using. intros E. unfold sent_since. by rewrite E, drop_app_length. Qed.

(** ** The client's side *)

Lemma tc_send_loop_carries packets : forall self self' r,
  client_keyed pid up down (tc_netcode_client self) -> tc_send_loop self packets = Ret (self', r) ->
  client_keyed pid up down (tc_netcode_client self') /\
  exists sent, sk_sent (tc_socket self') = sk_sent (tc_socket self) ++ sent /\ carries up sent.*2 packets.
Proof using laws.
  induction packets as [|p packets IH]; intros self self' r Hk H; cbn [tc_send_loop] in H.
  { injection H as <- _. split; [done|]. exists []. rewrite app_nil_r. split; [done|apply carries_nil]. }
  destruct (net_client_generate_payload_packet _ _) as [[nc r1]|] eqn:E; cbn [out_bind] in H; [|done].
  apply (client_payload_sealed _ _ _ _ _ _ _ Hk) in E as [Hk1 E].
  destruct r1 as [[addr w]|]; [|injection H as <- _; split; [done|]; exists []; rewrite app_nil_r; split; [done|apply carries_nil]].
  destruct E as (Hl & q & Hq & Hw).
  destruct (send_to_cases (tc_socket (tc_set_client self nc)) w addr) as (sent & Hs & Hsent).
  assert (carries up sent.*2 (p :: packets)) as Hc.
  { destruct Hsent as [->| ->]; [apply carries_nil|]. eapply carries_sealed; [done..|left]. }
  destruct (send_to _ _ _) as [sk r2]. cbn [fst] in Hs. destruct r2.
  - apply IH in H as [Hk2 (sent' & Hs' & Hc')]; [|done]. split; [done|]. exists (sent ++ sent'). cbn in Hs, Hs'. rewrite Hs', Hs, <- app_assoc.
    split; [done|]. rewrite fmap_app. intros x y [Hx|Hx]%elem_of_app Ho; [by eapply Hc|right; by eapply Hc'].
  - injection H as <- _. split; [done|]. by exists sent.
Qed.

Lemma tc_receive_loop_peers a b downs incoming : forall nc c nc' c' rest r,
  carries down downs (p_wire b) ->
  (forall data addr, Datagram data addr ∈ incoming -> genuine config down downs (received data) = true) ->
  client_keyed pid up down nc -> reachable (with_client a c, b) ->
  tc_receive_loop nc c incoming = Ret (nc', c', rest, r) ->
  client_keyed pid up down nc' /\ reachable (with_client a c', b).
Proof using.
  intros nc c nc' c' rest r Hd. revert nc c. induction incoming as [|e incoming IH]; intros nc c Hg Hk Hr H; cbn [tc_receive_loop] in H.
  { by injection H as <- <- _ _. }
  assert (forall data addr, Datagram data addr ∈ incoming -> genuine config down downs (received data) = true) as Hg'
    by (intros; eapply Hg; by right).
  destruct e as [data addr|k]; [|destruct k; by injection H as <- <- _ _].
  destruct (negb _); [by eapply IH|]. destruct (net_client_process_packet _ _) as [[nc1 payload]|] eqn:E; cbn [out_bind] in H; [|done].
  pose proof (process_keyed _ _ _ _ _ _ _ Hk E) as Hk1. destruct payload as [payload|]; [|by eapply IH].
  destruct (process_packet c payload) as [c1|] eqn:Ep; cbn [out_bind] in H; [|done]. eapply IH; [done|done| |exact H].
  apply client_payload_opens in E. destruct Hk as [(Hp & _ & Hdk) _ _]. rewrite Hp, Hdk in E.
  eapply reach_left; [exact Hr|]. eapply (System.step_deliver (with_client a c)); [|exact Ep].
  eapply genuine_payload; [done| |exact E]. eapply Hg. left.
Qed.

Lemma reach_status a b c c' : reachable (with_client a c, b) -> status_op c c' -> reachable (with_client a c', b).
Proof using. intros Hr Hs. eapply reach_left; [exact Hr|]. by apply (System.step_status (with_client a c)). Qed.

Lemma with_client_same p : with_client p (p_client p) = p.
Proof using. by destruct p. Qed.

Lemma tc_update_peers a b downs self duration self' c' r :
  carries down downs (p_wire b) ->
  (forall data addr, Datagram data addr ∈ sk_incoming (tc_socket self) -> genuine config down downs (received data) = true) ->
  client_keyed pid up down (tc_netcode_client self) -> reachable (a, b) ->
  tc_update self duration (p_client a) = Ret (self', c', r) ->
  client_keyed pid up down (tc_netcode_client self') /\ reachable (with_client a c', b).
Proof using.
  intros Hd Hg Hk Hr H. rewrite <- (with_client_same a) in Hr. unfold tc_update in H.
  destruct (nc_disconnect_reason _).
  { injection H as <- <- _. split; [done|]. eapply reach_status; [exact Hr|constructor]. }
  destruct (disconnect_reason _).
  { destruct (net_client_disconnect _) as [[nc r1]|] eqn:E; cbn [out_bind] in H; [|done]. apply (disconnect_keyed _ _ _ _ _ _ Hk) in E.
    destruct r1 as [[addr w]|]; [|by injection H as <- <- _]. destruct (send_to _ _ _) as [sk []]; by injection H as <- <- _. }
  set (c1 := if nc_is_connected _ then _ else _) in H.
  assert (reachable (with_client a c1, b)) as Hr1.
  { unfold c1. destruct (nc_is_connected _); [eapply reach_status; [exact Hr|constructor]|].
    destruct (nc_is_connecting _); [eapply reach_status; [exact Hr|constructor]|done]. }
  clearbody c1. destruct (tc_receive_loop _ _ _) as [[[[nc1 c2] rest] r1]|] eqn:E; cbn [out_bind] in H; [|done].
  eapply (tc_receive_loop_peers a b downs) in E as [Hk1 Hr2]; [|done..].
  destruct r1; [|by injection H as <- <- _].
  destruct (net_client_update _ _) as [[nc2 packet]|] eqn:E; cbn [out_bind] in H; [|done]. apply (client_update_keyed _ _ _ _ _ _ _ Hk1) in E.
  destruct packet as [[packet addr]|]; [|by injection H as <- <- _]. destruct (send_to _ _ _) as [sk sent]. by injection H as <- <- _.
Qed.

Lemma tc_disconnect_keyed self self' :
  client_keyed pid up down (tc_netcode_client self) -> tc_disconnect self = Ret self' -> client_keyed pid up down (tc_netcode_client self').
Proof using.
  intros Hk H. unfold tc_disconnect in H. destruct (nc_is_disconnected _); [by injection H as <-|].
  destruct (net_client_disconnect _) as [[nc r]|] eqn:E; cbn [out_bind] in H; [|done]. apply (disconnect_keyed _ _ _ _ _ _ Hk) in E.
  destruct r as [[addr w]|]; [|by injection H as <-]. destruct (send_to _ _ _). by injection H as <-.
Qed.

(** ** The server's side *)

Section peers.
Variables (a b : System.peer).

(** During an update the connection follows some run of the peers, until it is dropped. *)
Definition following (rs : RenetServer) : Prop :=
  farewell_given id rs = true \/
  exists c, conn_is rs c /\ (connections rs !! id = None -> c = p_client b) /\ reachable (a, with_client b c).

Lemma farewell_app e rs : farewell_given id rs = true -> farewell_given id (push_event rs e) = true.
Proof using. unfold farewell_given. cbn. rewrite existsb_app. by intros ->. Qed.

Lemma conn_is_insert rs rs' i c c' :
  conn_is rs c -> connections rs' = <[i := c']> (connections rs) -> i <> id -> connection_config rs' = connection_config rs -> conn_is rs' c.
Proof using. unfold conn_is. intros H E Hne Ec. by rewrite E, lookup_insert_ne, Ec. Qed.

Lemma reach_follow c c' : reachable (a, with_client b c) -> peer_step (with_client b c) a (with_client b c') -> reachable (a, with_client b c').
Proof using. intros Hr Hs. by eapply reach_right. Qed.

Lemma process_following rs payload i rs' r :
  (i = id -> payload ∈ p_wire a) -> following rs -> process_packet_from rs payload i = Ret (rs', r) -> following rs'.
Proof using.
  intros Hp Hf H. unfold process_packet_from in H. destruct (connections rs !! i) as [c0|] eqn:E; [|by injection H as <- _].
  destruct (process_packet c0 payload) as [c1|] eqn:Ep; cbn [out_bind] in H; [|done]. injection H as <- _.
  destruct Hf as [Hf|(c & Hc & Hn & Hr)]; [by left|right]. destruct (decide (i = id)) as [->|Hne].
  - unfold conn_is in Hc. rewrite E in Hc. subst c0. exists c1. split; [unfold conn_is; cbn; by rewrite lookup_insert_eq|].
    split; [cbn; by rewrite lookup_insert_eq|].
    eapply reach_follow; [exact Hr|]. eapply (System.step_deliver (with_client b c)); [by apply Hp|exact Ep].
  - exists c. split; [by eapply conn_is_insert|]. split; [cbn; by rewrite lookup_insert_ne|done].
Qed.

Lemma add_following rs i rs' : following rs -> add_connection rs i = Ret rs' -> following rs'.
Proof using.
  intros Hf H. unfold add_connection in H. case_bool_decide as Hs; [by injection H as <-|].
  destruct (client_new_from_server _) as [c0|] eqn:E; cbn [out_bind] in H; [|done]. injection H as <-.
  destruct Hf as [Hf|(c & Hc & Hn & Hr)]; [left; by apply farewell_app|right]. destruct (decide (i = id)) as [->|Hne].
  - unfold conn_is in Hc. apply eq_None_not_Some in Hs. rewrite Hs, E in Hc. injection Hc as <-.
    exists (set_connected c0). split; [unfold conn_is; cbn; by rewrite lookup_insert_eq|].
    split; [cbn; by rewrite lookup_insert_eq|].
    eapply reach_follow; [exact Hr|]. apply (System.step_status (with_client b c0)). constructor.
  - exists c. split; [by eapply conn_is_insert|]. split; [cbn; by rewrite lookup_insert_ne|done].
Qed.

Lemma remove_following rs i : following rs -> following (remove_connection rs i).
Proof using.
  intros Hf. unfold remove_connection. destruct (connections rs !! i) as [c0|] eqn:E; [|done].
  destruct (decide (i = id)) as [->|Hne].
  - left. unfold farewell_given. cbn. rewrite existsb_app. cbn. rewrite Z.eqb_refl. apply orb_true_r.
  - destruct Hf as [Hf|(c & Hc & Hn & Hr)]; [left; by apply farewell_app|right]. exists c.
    unfold conn_is in *. cbn. by rewrite lookup_delete_ne.
Qed.

Lemma handle_following r socket rs socket' rs' :
  (forall payload, r = SrPayload id payload -> payload ∈ p_wire a) -> following rs ->
  handle_server_result r socket rs = Ret (socket', rs') -> following rs'.
Proof using.
  intros Hp Hf H. destruct r as [|addr p|i p|i addr ud p|i addr p]; cbn [handle_server_result] in H.
  - by injection H as _ <-.
  - by injection H as _ <-.
  - destruct (process_packet_from _ _ _) as [[rs1 x]|] eqn:E; cbn [out_bind] in H; [|done]. injection H as _ <-.
    eapply process_following; [|exact Hf|exact E]. intros ->. by apply Hp.
  - destruct (add_connection _ _) as [rs1|] eqn:E; cbn [out_bind] in H; [|done]. injection H as _ <-. by eapply add_following.
  - assert (rs' = remove_connection rs i) as -> by (by destruct p; injection H as _ <-). by apply remove_following.
Qed.

(** One netcode call, its effect on the netcode server and on the peers. *)
Lemma ts_handle_following call state state' :
  (forall s s' r, server_good s -> call s = Ret (s', r) ->
     server_good s' /\ forall payload, r = SrPayload id payload -> payload ∈ p_wire a) ->
  server_good (ts_netcode_server state.1) /\ following state.2 -> ts_handle call state = Ret state' ->
  server_good (ts_netcode_server state'.1) /\ following state'.2.
Proof using.
  intros Hcall [Hg Hf] H. destruct state as [self rs]. unfold ts_handle in H.
  destruct (call _) as [[s r]|] eqn:E; cbn [out_bind] in H; [|done]. apply (Hcall _ _ _ Hg) in E as [Hg' Hp].
  destruct (handle_server_result _ _ _) as [[sk sv]|] eqn:E2; cbn [out_bind] in H; [|done]. injection H as <-.
  split; [done|]. by eapply handle_following.
Qed.

Lemma update_client_good s i s' r : server_good s -> net_server_update_client s i = Ret (s', r) ->
  server_good s' /\ forall payload, r = SrPayload id payload -> payload ∈ p_wire a.
Proof using.
  intros [Hi Hk] H. split; [split; [by eapply update_client_inv|by eapply update_client_keyed]|]. intros payload ->. exfalso.
  unfold net_server_update_client in H. destruct (find_client_slot_by_id _ _) as [[j c]|]; [|done].
  destruct (timed_out _ _ _); cbn [out_bind] in H; [|done]. case_bool_decide.
  - destruct (vec_set _ _ _); cbn [out_bind] in H; [|done]. unfold farewell in H.
    by destruct (ns_encode _ _ _ _) as [[? []]|]; cbn [out_bind] in H.
  - destruct (dur_add _ _); cbn [out_bind] in H; [|done]. destruct (_ <=? _); [|done].
    destruct (ns_encode _ _ _ _) as [[? []]|]; cbn [out_bind] in H; [|done|done].
    destruct (add64 _ _); cbn [out_bind] in H; [|done]. by destruct (vec_set _ _ _); cbn [out_bind] in H.
Qed.

Lemma disconnect_good s i s' r : server_good s -> net_server_disconnect s i = Ret (s', r) ->
  server_good s' /\ forall payload, r = SrPayload id payload -> payload ∈ p_wire a.
Proof using.
  intros [Hi Hk] H. split; [split; [by eapply disconnect_inv|by eapply server_disconnect_keyed]|]. intros payload ->. exfalso.
  unfold net_server_disconnect in H. destruct (find_client_slot_by_id _ _) as [[j c]|]; [|done].
  destruct (vec_set _ _ _); cbn [out_bind] in H; [|done]. unfold farewell in H.
  by destruct (ns_encode _ _ _ _) as [[? []]|]; cbn [out_bind] in H.
Qed.

Lemma process_good ups addr buffer s s' r :
  carries up ups (p_wire a) -> genuine config up ups buffer = true -> token_genuine id up down pid (config_key config) buffer = true ->
  server_good s -> net_server_process_packet s addr buffer = Ret (s', r) ->
  server_good s' /\ forall payload, r = SrPayload id payload -> payload ∈ p_wire a.
Proof using laws.
  intros Hc Hg Ht [Hi Hk] H. pose proof (sv_fixed _ _ Hi) as Hfix. injection Hfix as Hpid Hkey _ _. split.
  - split; [by eapply net_process_packet_inv|]. eapply server_process_keyed; [exact Hk| |exact H]. by rewrite Hpid, Hkey.
  - intros payload ->. apply server_payload_opens in H as (slot & c & Hf & Hid & Ho). rewrite Hpid in Ho.
    apply find_by_addr_Some in Hf as (_ & Hcl & _). destruct (sk_clients _ _ _ _ Hk _ _ Hcl Hid) as (Hup & _). rewrite Hup in Ho.
    by eapply genuine_payload.
Qed.

Lemma fold_handle_following (call : Z -> NetcodeServer -> out (NetcodeServer * ServerResult)) ids state state' :
  (forall i s s' r, server_good s -> call i s = Ret (s', r) ->
     server_good s' /\ forall payload, r = SrPayload id payload -> payload ∈ p_wire a) ->
  server_good (ts_netcode_server state.1) /\ following state.2 ->
  fold_out (fun state i => ts_handle (call i) state) state ids = Ret state' ->
  server_good (ts_netcode_server state'.1) /\ following state'.2.
Proof using.
  intros Hcall Hs H. eapply (fold_out_inv _ (fun st => server_good (ts_netcode_server st.1) /\ following st.2)); [|exact Hs|exact H].
  intros st i st' _ Hst Hh. cbn beta in Hh. eapply ts_handle_following; [|exact Hst|exact Hh]. apply Hcall.
Qed.

Lemma receive_loop_following ups incoming : forall state state' rest r,
  carries up ups (p_wire a) ->
  (forall data addr, Datagram data addr ∈ incoming -> genuine config up ups (received data) = true /\
     token_genuine id up down pid (config_key config) (received data) = true) ->
  server_good (ts_netcode_server state.1) /\ following state.2 ->
  ts_receive_loop state incoming = Ret (state', rest, r) ->
  server_good (ts_netcode_server state'.1) /\ following state'.2.
Proof using laws.
  intros state state' rest r Hc. revert state. induction incoming as [|e incoming IH]; intros state Hg Hs H; cbn [ts_receive_loop] in H.
  { by injection H as <- _ _. }
  assert (forall data addr, Datagram data addr ∈ incoming -> genuine config up ups (received data) = true /\
     token_genuine id up down pid (config_key config) (received data) = true) as Hg' by (intros; eapply Hg; by right).
  destruct e as [data addr|k]; [|destruct k; try (by injection H as <- _ _); by eapply IH].
  destruct (ts_handle _ _) as [st|] eqn:E; cbn [out_bind] in H; [|done]. eapply IH; [done| |exact H].
  eapply ts_handle_following; [|exact Hs|exact E]. intros s s' r' Hgood Hp. destruct (Hg data addr) as [H1 H2]; [left|].
  exact (process_good ups addr (received data) s s' r' Hc H1 H2 Hgood Hp).
Qed.

Lemma ts_update_following ups self rs duration self' rs' r :
  carries up ups (p_wire a) ->
  (forall data addr, Datagram data addr ∈ sk_incoming (ts_socket self) -> genuine config up ups (received data) = true /\
     token_genuine id up down pid (config_key config) (received data) = true) ->
  server_good (ts_netcode_server self) -> following rs -> ts_update self duration rs = Ret (self', rs', r) ->
  server_good (ts_netcode_server self') /\ following rs'.
Proof using laws.
  intros Hc Hg [Hi Hk] Hf H. unfold ts_update in H. destruct (net_server_update _ _) as [ns|] eqn:E0; cbn [out_bind] in H; [|done].
  destruct (ts_receive_loop _ _) as [[[st rest] r1]|] eqn:E1; cbn [out_bind] in H; [|done].
  eapply receive_loop_following in E1 as [Hg1 Hf1]; [|exact Hc|done|].
  2:{ split; [split; [by eapply update_inv|by eapply server_update_keyed]|exact Hf]. }
  destruct st as [self1 rs1]. cbn [fst snd] in Hg1, Hf1. destruct r1; [|by injection H as <- <- _].
  destruct (fold_out _ _ _) as [[self2 rs2]|] eqn:E2; cbn [out_bind] in H; [|done].
  apply (fold_handle_following (fun i s => net_server_update_client s i)) in E2 as [Hg2 Hf2]; [|intros ? ? ? ?; apply update_client_good|done].
  destruct (fold_out _ _ (disconnections_id _)) as [[self3 rs3]|] eqn:E3; cbn [out_bind] in H; [|done].
  apply (fold_handle_following (fun i s => net_server_disconnect s i)) in E3 as [Hg3 Hf3]; [|intros ? ? ? ?; apply disconnect_good|done].
  by injection H as <- <- _.
Qed.

(** A connection that was not dropped is that of the peer that follows it. *)
Lemma following_follow rs : following rs -> farewell_given id rs = false ->
  reachable (a, follow id b rs) /\ conn_is rs (p_client (follow id b rs)).
Proof using.
  intros [H|(c & Hc & Hn & Hr)] Hf; [congruence|]. unfold follow, conn_is in *. destruct (connections rs !! id) as [c'|] eqn:E.
  - by subst c'.
  - rewrite (Hn eq_refl) in *. by rewrite with_client_same in Hr.
Qed.

End peers.

(** What a call of the application does to one connection. *)
Definition client_effect (x : action) (c c' : RenetClient) : Prop :=
  match x with
  | Send ch m => send_message c ch m = Ret c'
  | Receive ch => exists r, receive_message c ch = Ret (c', r)
  | Update duration => client_update c duration = Ret c'
  | System.Disconnect reason => c' = disconnect_with_reason c reason
  | _ => False
  end.

Lemma peer_act_effect p other x p' c' :
  peer_act p other x = Some p' -> client_effect x (p_client p) c' -> p_client p' = c' /\ p_wire p' = p_wire p.
Proof using.
  intros H He. destruct x as [ch m|ch|d| |n| |reason]; cbn in H, He; [| | |done|done|done|by simplify_eq].
  - rewrite He in H. by destruct (_ && _); simplify_eq.
  - destruct He as [r E]. rewrite E in H. by simplify_eq.
  - rewrite He in H. by case_bool_decide; simplify_eq/=.
Qed.

Lemma call_effect rs call rs' :
  call_server rs call = Ret rs' ->
  connection_config rs' = connection_config rs /\
  match connections rs !! id, call_on id call with
  | Some c, Some x => exists c', client_effect x c c' /\ connections rs' !! id = Some c'
  | o, _ => connections rs' !! id = o
  end.
Proof using.
  destruct call as [i ch m|ch m|i ch m|i ch|d|i| |]; cbn [call_server call_on]; intros H.
  - unfold server_send_message in H. destruct (Z.eqb_spec i id) as [->|Hne].
    + destruct (connections rs !! id) as [c|] eqn:E; [|by injection H as <-]. destruct (send_message _ _ _) as [c'|] eqn:Es; cbn in H; [|done].
      injection H as <-. split; [done|]. exists c'. split; [done|]. cbn. by rewrite lookup_insert_eq.
    + assert (connection_config rs' = connection_config rs /\ connections rs' !! id = connections rs !! id) as [-> ->]; [|by destruct (_ !! id)].
      destruct (connections rs !! i) as [c|]; [|by injection H as <-]. destruct (send_message _ _ _) as [c'|]; cbn in H; [|done].
      injection H as <-. cbn. by rewrite lookup_insert_ne.
  - unfold broadcast_message in H. destruct (map_values_mut _ _) as [m'|] eqn:E; cbn in H; [|done]. injection H as <-. split; [done|].
    apply (map_values_mut_lookup _ _ _ id) in E. cbn. by destruct (connections rs !! id).
  - unfold broadcast_message_except in H. destruct (map_iter_mut _ _) as [m'|] eqn:E; cbn in H; [|done]. injection H as <-. split; [done|].
    apply (map_iter_mut_lookup _ _ _ id) in E. cbn. destruct (connections rs !! id) as [c|]; [|done]. destruct E as (w & E & ->).
    destruct (i =? id); [by injection E as ->|by exists w].
  - destruct (server_receive_message _ _ _) as [[rs1 r]|] eqn:E0; cbn in H; [|done]. injection H as ->. unfold server_receive_message in E0.
    destruct (Z.eqb_spec i id) as [->|Hne].
    + destruct (connections rs !! id) as [c|] eqn:E; [|by injection E0 as <- _]. destruct (receive_message _ _) as [[c' r']|] eqn:Es; cbn in E0; [|done].
      injection E0 as <- _. split; [done|]. exists c'. split; [by exists r'|]. cbn. by rewrite lookup_insert_eq.
    + assert (connection_config rs' = connection_config rs /\ connections rs' !! id = connections rs !! id) as [-> ->]; [|by destruct (_ !! id)].
      destruct (connections rs !! i) as [c|]; [|by injection E0 as <- _]. destruct (receive_message _ _) as [[c' r']|]; cbn in E0; [|done].
      injection E0 as <- _. cbn. by rewrite lookup_insert_ne.
  - unfold server_update in H. destruct (map_values_mut _ _) as [m'|] eqn:E; cbn in H; [|done]. injection H as <-. split; [done|].
    apply (map_values_mut_lookup _ _ _ id) in E. cbn. by destruct (connections rs !! id).
  - injection H as <-. unfold server_disconnect. destruct (Z.eqb_spec i id) as [->|Hne].
    + destruct (connections rs !! id) as [c|] eqn:E; [|done]. split; [done|]. eexists. split; [done|]. cbn. by rewrite lookup_insert_eq.
    + destruct (connections rs !! i) as [c|]; [|by destruct (_ !! id)]. split; [done|]. cbn. rewrite lookup_insert_ne by done. by destruct (_ !! id).
  - injection H as <-. split; [done|]. cbn. rewrite lookup_fmap. destruct (connections rs !! id); [|done]. by eexists.
  - injection H as <-. unfold get_event. destruct (events rs); cbn; by destruct (_ !! id).
Qed.

(** The packets of one client's turn. *)
Lemma ts_send_client_good packets : forall self i self',
  server_good (ts_netcode_server self) -> ts_send_client self i packets = Ret self' ->
  server_good (ts_netcode_server self') /\
  exists sent, sk_sent (ts_socket self') = sk_sent (ts_socket self) ++ sent /\ (i = id -> carries down sent.*2 packets).
Proof using laws.
  induction packets as [|p packets IH]; intros self i self' Hg H; cbn [ts_send_client] in H.
  { injection H as <-. split; [done|]. exists []. rewrite app_nil_r. split; [done|]. intros _. apply carries_nil. }
  destruct (net_server_generate_payload_packet _ _ _) as [[ns r1]|] eqn:E; cbn [out_bind] in H; [|done]. destruct Hg as [Hi Hk].
  pose proof (payload_inv _ _ _ _ _ _ Hi E) as Hi1. pose proof (sv_fixed _ _ Hi) as Hfix. injection Hfix as Hpid _ _ _.
  apply (server_payload_sealed _ _ _ _ _ _ _ _ Hk (sv_out _ _ Hi)) in E as [Hk1 E]. rewrite Hpid in E.
  destruct r1 as [[addr w]|].
  2:{ injection H as <-. split; [done|]. exists []. rewrite app_nil_r. split; [done|]. intros _. apply carries_nil. }
  destruct (send_to_cases (ts_socket (ts_set_server self ns)) w addr) as (sent & Hs & Hsent).
  assert (i = id -> carries down sent.*2 (p :: packets)) as Hc.
  { intros Hid. destruct (E Hid) as (Hl & q & Hq & Hw). destruct Hsent as [->| ->]; [apply carries_nil|]. eapply carries_sealed; [done..|left]. }
  destruct (send_to _ _ _) as [sk r2]. cbn [fst] in Hs. destruct r2.
  - apply IH in H as [Hg2 (sent' & Hs' & Hc')]; [|done]. split; [done|]. exists (sent ++ sent'). cbn in Hs, Hs'. rewrite Hs', Hs, <- app_assoc.
    split; [done|]. intros Hid. rewrite fmap_app. intros x y [Hx|Hx]%elem_of_app Ho; [by eapply Hc|right; by eapply Hc'].
  - injection H as <-. split; [done|]. by exists sent.
Qed.

(** The peer while [send_packets] goes over the clients; until its turn it is [b]. *)
Record sending (a b : System.peer) (todo : Prop) (state : NetcodeServerTransport * RenetServer * list Bytes * list Bytes) : Prop := {
  sn_peers : exists c, conn_is state.1.1.2 c /\ (connections state.1.1.2 !! id = None -> c = p_client b) /\ (todo -> c = p_client b /\ state.1.2 = []) /\
    reachable (a, mkPeer c (p_sent b) (p_offered b) (p_delivered b) (p_wire b ++ state.1.2));
  sn_server : server_good (ts_netcode_server state.1.1.1);
  sn_down : carries down state.2 state.1.2;
}.

Lemma send_turn_sending a b (todo todo' : Prop) state i state' :
  packet_sequence (p_client b) + flush_bound (p_client b) <= VARINT_MAX ->
  sending a b todo state -> (i = id -> todo) -> (todo' -> todo /\ i <> id) -> send_turn id state i = Ret state' -> sending a b todo' state'.
Proof using laws.
  intros Hb [(c & Hc & Hn & Htodo & Hr) Hg Hd] Hi Hi' H. destruct state as [[[self rs] packets] datagrams]. cbn [fst snd] in *.
  unfold send_turn in H. unfold server_get_packets_to_send in H. destruct (connections rs !! i) as [ci|] eqn:Ei; cbn [out_bind] in H; [|done].
  destruct (get_packets_to_send ci) as [[ci' sent]|] eqn:Eg; cbn [out_bind] in H; [|done].
  destruct (ts_send_client self i sent) as [self'|] eqn:Es; cbn [out_bind] in H; [|done].
  apply (ts_send_client_good _ _ _ _ Hg) in Es as [Hg' (snt & Hs & Hc')]. destruct (Z.eqb_spec i id) as [->|Hne]; injection H as <-.
  - unfold conn_is in Hc. rewrite Ei in Hc. subst ci. destruct (Htodo (Hi eq_refl)) as [-> ->]. constructor; cbn [fst snd].
    + exists ci'. split; [unfold conn_is; cbn; by rewrite lookup_insert_eq|]. cbn. rewrite lookup_insert_eq. split; [done|].
      split; [intros [_ ?]%Hi'; done|]. rewrite app_nil_r in Hr. eapply reach_right; [exact Hr|].
      exact (System.step_flush (mkPeer (p_client b) (p_sent b) (p_offered b) (p_delivered b) (p_wire b)) a ci' sent Hb Eg).
    + done.
    + rewrite (sent_since_app _ _ _ Hs). apply carries_app; [done|by apply Hc'].
  - constructor; cbn [fst snd]; [|done|done]. exists c. split; [by eapply conn_is_insert|].
    cbn. rewrite lookup_insert_ne by done. split; [done|]. split; [|done]. intros [? _]%Hi'. by apply Htodo.
Qed.

Lemma send_fold_sending a b ids : forall state state',
  packet_sequence (p_client b) + flush_bound (p_client b) <= VARINT_MAX -> NoDup ids ->
  sending a b (id ∈ ids) state -> fold_out (send_turn id) state ids = Ret state' -> sending a b False state'.
Proof using laws.
  induction ids as [|i ids IH]; intros state state' Hb Hnd Hs H; cbn [fold_out] in H.
  { injection H as <-. destruct Hs as [(c & Hc & Hn & _ & Hr) Hg Hd]. constructor; [|done|done]. by exists c. }
  apply NoDup_cons in Hnd as [Hni Hnd]. destruct (send_turn id state i) as [st|] eqn:E; cbn [out_bind] in H; [|done].
  eapply IH; [done|done| |exact H]. eapply send_turn_sending; [done|exact Hs| | |exact E].
  - intros ->. left.
  - intros Hin. split; [by right|]. by intros ->.
Qed.

(** ** Every step keeps the invariant *)

Lemma client_send_inv a tc ups b ts rs downs outcomes s' :
  session_inv (mkSession a tc ups b ts rs downs) ->
  session_act id (mkSession a tc ups b ts rs downs) (ClientSend outcomes) = Some s' -> session_inv s'.
Proof using laws.
  intros [Hr Hc Hk Hs Hu Hd] H. cbn [session_act] in H. cbn [se_client se_tc se_up se_peer se_ts se_server se_down] in *.
  set (tc0 := tc_set_socket tc _) in H. case_bool_decide as Hb; [|done].
  destruct (tc_send_packets tc0 (p_client a)) as [[[tc' c'] r]|] eqn:E; [|done]. unfold tc_send_packets in E.
  destruct (nc_disconnect_reason _); [done|]. destruct (get_packets_to_send _) as [[c1 packets]|] eqn:Eg; cbn [out_bind] in E; [|done].
  destruct (tc_send_loop _ _) as [[tc1 r1]|] eqn:El; cbn [out_bind] in E; [|done]. injection E as <- <- _. injection H as <-.
  apply tc_send_loop_carries in El as [Hk' (sent & Hsent & Hcar)]; [|done].
  constructor; cbn [se_client se_tc se_up se_peer se_ts se_server se_down]; [|done..| |done].
  - eapply reach_left; [exact Hr|]. by apply System.step_flush.
  - change (network (tc_socket tc) [] outcomes) with (tc_socket tc0). rewrite (sent_since_app _ _ _ Hsent). by apply carries_app.
Qed.

Lemma server_send_inv a tc ups b ts rs downs outcomes s' :
  session_inv (mkSession a tc ups b ts rs downs) ->
  session_act id (mkSession a tc ups b ts rs downs) (ServerSend outcomes) = Some s' -> session_inv s'.
Proof using laws.
  intros [Hr Hc Hk Hs Hu Hd] H. cbn [session_act] in H. cbn [se_client se_tc se_up se_peer se_ts se_server se_down] in *.
  case_bool_decide as Hb; [|done].
  destruct (ts_send_noting _ _ _) as [[[[ts' rs'] packets] datagrams]|] eqn:E; [|done]. injection H as <-.
  apply (send_fold_sending a b) in E as [(c & Hc' & Hn & _ & Hr') Hg Hcar]; [|done|apply clients_id_NoDup|]; cbn [fst snd] in *.
  2:{ constructor; cbn; [|done|apply carries_nil]. exists (p_client b). rewrite app_nil_r. split_and!; try done. by destruct b. }
  assert (p_client (follow id b rs') = c) as Ef.
  { unfold follow, conn_is in *. destruct (connections rs' !! id); [done|]. symmetry. by apply Hn. }
  constructor; cbn [se_client se_tc se_up se_peer se_ts se_server se_down p_client p_wire]; rewrite ?Ef; try done. by apply carries_app.
Qed.

Lemma session_act_inv s act s' :
  session_inv s -> unforged config up down s act = true -> no_other_token config id up down act = true ->
  session_act id s act = Some s' -> session_inv s'.
Proof using laws.
  intros Hinv Hg Ht H. destruct s as [a tc ups b ts rs downs].
  destruct act as [x|outcomes|duration incoming outcomes|outcomes|call|outcomes|duration incoming outcomes|n];
    [|by eapply client_send_inv| | | |by eapply server_send_inv| |];
    destruct Hinv as [Hr Hc Hk Hs Hu Hd]; cbn [session_act] in H; cbn [unforged no_other_token] in Hg, Ht; cbn [se_client se_tc se_up se_peer se_ts se_server se_down] in *.
  - destruct (app_action x) eqn:Ea; [|done]. apply bind_Some in H as (a' & Ha & [= <-]).
    assert (p_wire a' = p_wire a) as Hw.
    { destruct x; try done; cbn in Ha; repeat case_match; simplify_eq/=; try done. by apply fmap_Some in Ha as (? & _ & ->). }
    constructor; cbn [se_client se_tc se_up se_peer se_ts se_server se_down]; try done; [|by rewrite Hw].
    eapply reach_left; [exact Hr|by eapply peer_act_sound].
  - rewrite forallb_forall in Hg. destruct (tc_update _ _ _) as [[[tc' c'] r]|] eqn:E; [|done]. injection H as <-.
    eapply (tc_update_peers a b downs) in E as [Hk' Hr']; [constructor; done|done| |done|done].
    intros data addr Hin%list_elem_of_In. by apply Hg in Hin.
  - destruct (tc_disconnect _) as [tc'|] eqn:E; [|done]. injection H as <-. constructor; try done.
    cbn. eapply tc_disconnect_keyed; [|exact E]. done.
  - destruct (call_server rs call) as [rs'|] eqn:E; [|done]. apply bind_Some in H as (b' & Hb & [= <-]).
    apply call_effect in E as [Ecfg E].
    assert (reachable (a, b') /\ conn_is rs' (p_client b') /\ p_wire b' = p_wire b) as (Hr' & Hc' & Hw).
    { unfold conn_is in *. destruct (connections rs !! id) as [c|]; [|simplify_eq; by rewrite E, Ecfg]. subst c.
      destruct (call_on id call) as [x|]; [|simplify_eq; by rewrite E]. destruct E as (c' & He & Ec).
      destruct (peer_act_effect _ _ _ _ _ Hb He) as [Hp Hw]. rewrite Ec. split_and!; try done.
      eapply reach_right; [exact Hr|by eapply peer_act_sound]. }
    constructor; try done. cbn. by rewrite Hw.
  - rewrite forallb_forall in Hg, Ht. destruct (ts_update _ _ _) as [[[ts' rs'] r]|] eqn:E; [|done]. destruct (farewell_given id rs') eqn:Hf; [done|]. injection H as <-.
    eapply (ts_update_following a b ups) in E as [Hg' Hf']; [|done| |done|].
    + apply following_follow in Hf' as [Hr' Hc']; [|done]. constructor; try done. cbn. by unfold follow; destruct (_ !! id).
    + intros data addr Hin%list_elem_of_In. split; [by apply Hg in Hin|by apply Ht in Hin].
    + right. exists (p_client b). by rewrite with_client_same.
  - injection H as <-. constructor; try done. destruct Hs as [Hi Hkd]. split; [by apply set_max_clients_inv|by eapply keyed_same].
Qed.

Lemma session_init_inv s : session_init config up down s -> session_inv s.
Proof using.
  intros [cc sc c1 c2 rnd now auth sk tc ck sk' ts H1 H2 Hok E1 E2 Etc Htok Hmax Ets].
  assert (nc_sequence (tc_netcode_client tc) = 0 /\ len (nc_out (tc_netcode_client tc)) = NETCODE_MAX_PACKET_BYTES) as [Hq Ho].
  { unfold tc_new in Etc. destruct (sk_nonblocking sk); [done|]. destruct (net_client_new _ _ _) as [[nc|]|] eqn:E; cbn [out_bind] in Etc; [|done|done].
    injection Etc as <-. cbn. unfold net_client_new in E.
    destruct (match auth with ClientUnsecure _ _ _ _ => _ | ClientSecure _ => _ end) as [[token|]|]; cbn [out_bind] in E; [|done|done].
    destruct (vec_get _ _) as [slot|]; cbn [out_bind] in E; [|done]. destruct (unwrap slot); cbn [out_bind] in E; [|done]. by injection E as <-. }
  constructor; cbn [se_client se_tc se_up se_peer se_ts se_server se_down]; [| | | |apply carries_nil..].
  - exists (fresh_peer c1, fresh_peer c2). split; [|done].
    eapply (init_peers (cfg_available_bytes_per_tick cc) (client_channels_config cc) (server_channels_config cc)
      c1 (cfg_available_bytes_per_tick sc) (server_channels_config sc) (client_channels_config sc)); done.
  - done.
  - constructor; [done|lia|done].
  - unfold ts_new in Ets. destruct (sk_nonblocking sk'); [done|]. destruct (net_server_new _ _) as [ns|] eqn:E; cbn [out_bind] in Ets; [|done].
    injection Ets as <-. cbn. split; [by eapply new_inv|]. unfold net_server_new in E. destruct (_ <? _); [done|]. injection E as <-.
    constructor; cbn; [|done]. intros k c Hk. unfold vec_repeat in Hk. by apply lookup_replicate in Hk as [? _].
Qed.

Lemma session_reachable_inv acts s :
  session_reachable config id up down acts s -> forallb (no_other_token config id up down) acts = true -> session_inv s.
Proof using laws.
  intros (s0 & Hi & Hr). apply session_init_inv in Hi. induction Hr as [|s1 act s2 acts s3 Hg Hs _ IH]; [done|].
  cbn [forallb]. intros [Ht Hts]%andb_true_iff. apply IH; [|done]. by eapply session_act_inv.
Qed.

End invariant.

(** ** Properties *)

(** On an ordered channel of linked peers, what was received is a prefix of what was sent. *)
Lemma linked_prefix {oct : Octets} {oct_laws : OctetsLaws oct} d e a b ch chan :
  System.linked d e a b -> receive_reliable_channels (p_client b) !! ch = Some chan -> reliable_order chan = Ordered ->
  log_of (p_delivered b) ch `prefix_of` log_of (p_sent a) ch.
Proof.
  intros Hl Hch Hord. destruct (linked_logs _ _ _ _ Hl ch) as [<- _]. destruct Hl as [_ Hb].
  pose proof (hf_log _ _ _ _ Hb ch) as Hlog. rewrite Hch in Hlog. unfold chan_log in Hlog. rewrite Hord in Hlog. rewrite Hlog. apply prefix_take.
Qed.

(** C5: The whole stack refines the abstract system of two peers.  A client and
    a server are run from their creation by any sequence of calls of the two
    applications, transport updates and transport sends, over sockets that
    receive whatever an attacker chooses (noise, replays, other clients'
    datagrams, altered, lost and reordered ones), with two limits: a payload that
    opens under one of the session's keys was sent by the holder of that key
    ([unforged], part of [session_reachable]), and no connection request with a
    connect token for this client's id and other keys reaches the server
    ([no_other_token]).  The second is what the secrecy of the server's private
    key gives; with [ServerAuthentication::Unsecure] that key is all zeros, and
    the theorem says nothing about a server that an impostor reaches.  As long as
    no call panics and the server has not dropped the connection, the renet
    client and the server's connection for it are two peers of System.v in a
    reachable state: the handshake, encryption, replay protection and sockets
    between them only lose, repeat and reorder renet's packets. *)
Theorem end_to_end_refinement {oct : Octets} {oct_laws : OctetsLaws oct} {aead : Aead} {laws : AeadLaws aead} config id up down acts s :
  session_reachable config id up down acts s -> forallb (no_other_token config id up down) acts = true ->
  reachable (se_client s, se_peer s) /\
  forall c, connections (se_server s) !! id = Some c -> c = p_client (se_peer s).
Proof.
  intros H Ht. pose proof (session_reachable_inv _ _ _ _ _ _ H Ht) as Hi. split; [apply (si_peers _ _ _ _ _ Hi)|]. intros c Hc.
  pose proof (si_conn _ _ _ _ _ Hi) as Hconn. unfold conn_is in Hconn. by rewrite Hc in Hconn.
Qed.

(** C6: End-to-end delivery under attack.  In every such session (the attacker
    neither seals payloads with the session's keys nor brings the server a
    connect token for this client's id with other keys, as anyone can under
    [ServerAuthentication::Unsecure]), what either application has received on an
    ordered reliable channel is a prefix of what the other application sent on
    it: the attacker can delay messages, but neither alter, repeat, reorder, skip
    nor inject one. *)
Theorem end_to_end_ordered {oct : Octets} {oct_laws : OctetsLaws oct} {aead : Aead} {laws : AeadLaws aead} config id up down acts s ch chan :
  session_reachable config id up down acts s -> forallb (no_other_token config id up down) acts = true ->
  reliable_order chan = Ordered ->
  (receive_reliable_channels (p_client (se_peer s)) !! ch = Some chan ->
     log_of (p_delivered (se_peer s)) ch `prefix_of` log_of (p_sent (se_client s)) ch) /\
  (receive_reliable_channels (p_client (se_client s)) !! ch = Some chan ->
     log_of (p_delivered (se_client s)) ch `prefix_of` log_of (p_sent (se_peer s)) ch).
Proof.
  intros H Ht Hord. pose proof (session_reachable_inv _ _ _ _ _ _ H Ht) as Hi.
  destruct (reachable_pair _ _ (si_peers _ _ _ _ _ Hi)) as (d & e & Hl).
  split; intros Hch; [exact (linked_prefix d e _ _ ch chan Hl Hch Hord)|]. apply System.linked_sym in Hl.
  exact (linked_prefix e d _ _ ch chan Hl Hch Hord).
Qed.

(** Why [no_other_token] is an assumption: on an unsecure server, a token for any
    client id with keys of one's own choice is made with the key of zeros. *)
Lemma zero_key_impostor {aead : Aead} {laws : AeadLaws aead} config id up down p expire xnonce :
  sc_authentication config = ServerUnsecure -> u64 (sc_protocol_id config) -> u64 expire ->
  len xnonce = NETCODE_CONNECT_TOKEN_XNONCE_BYTES ->
  private_wf p -> pt_client_id p = id -> pt_client_to_server_key p <> up ->
  exists data datagram,
    private_encode p (vec_repeat (byte_of 0) NETCODE_CONNECT_TOKEN_PRIVATE_BYTES) (sc_protocol_id config) expire xnonce
      (vec_repeat (byte_of 0) NETCODE_KEY_BYTES) = Ret (Ok data) /\
    datagram = byte_of 0 :: concat (packet_write (ConnectionRequest NETCODE_VERSION_INFO (sc_protocol_id config) expire xnonce data)) /\
    forall duration addr outcomes, no_other_token config id up down (ServerTick duration [Datagram datagram addr] outcomes) = false.
Proof using.
  intros Hu Hpid Hex Hx Hwf Hid Hne.
  destruct (private_encode_spec p (vec_repeat (byte_of 0) NETCODE_CONNECT_TOKEN_PRIVATE_BYTES) (sc_protocol_id config) expire xnonce
    (vec_repeat (byte_of 0) NETCODE_KEY_BYTES) Hwf) as (data & E & Hl & Hd); [done|].
  set (q := ConnectionRequest NETCODE_VERSION_INFO (sc_protocol_id config) expire xnonce data).
  assert (packet_wf q) as Hq by done. pose proof (packet_read_write _ Hq) as Hr. pose proof (len_packet_write _ Hq) as Hlen.
  exists data, (byte_of 0 :: concat (packet_write q)). split; [done|]. split; [done|]. intros duration addr outcomes.
  cbn [no_other_token forallb]. unfold token_genuine, received. rewrite take_ge.
  - rewrite drop_one. change (packet_type q) with TConnectionRequest in Hr. rewrite Hr. unfold q, config_key. cbv beta iota. rewrite Hu, Hd.
    rewrite Hid, Z.eqb_refl. cbn [negb orb]. by rewrite bool_decide_eq_false_2.
  - cbn [length]. unfold len, NETCODE_MAX_PAYLOAD_BYTES, NETCODE_MAX_PACKET_BYTES in *. lia.
Qed.

(** ** A concrete session *)

Section demo.
#[local] Existing Instance quic_octets.

Definition hear_client (s : session) : list recv_event := (fun x => Datagram x.2 (NetServerInv.peer 1)) <$> sk_sent (tc_socket (se_tc s)).
Definition hear_server (s : session) : list recv_event := (fun x => Datagram x.2 sample_addr) <$> sk_sent (ts_socket (se_ts s)).

Definition demo_up : Bytes := ct_client_to_server_key handshake_token.
Definition demo_down : Bytes := ct_server_to_client_key handshake_token.

Definition quiet_socket : Socket := mkSocket None [] [] [].

Definition session_start : option session :=
  match client_new default_config, client_new_from_server default_config,
        tc_new sample_random 0 (ClientSecure handshake_token) quiet_socket, ts_new (replicate 32 (byte_of 8)) sample_config quiet_socket with
  | Ret c1, Ret c2, Ret (Ok tc), Ret (Ok ts) => Some (mkSession (fresh_peer c1) tc [] (fresh_peer c2) ts (server_new default_config) [])
  | _, _, _, _ => None
  end.

(** Everything sent so far arrives again, after some noise. *)
Definition noise : recv_event := Datagram (byte_of <$> seqZ 0 40) sample_addr.
Definition tick : Z := 250000000.

Definition session_script : list (session -> session_action) := [
  (fun s => ClientTick tick [noise] []);
  (fun s => ServerTick tick (noise :: hear_client s) []);
  (fun s => ClientTick tick (hear_server s) []);
  (fun s => ServerTick tick (hear_client s) []);
  (fun s => ClientTick tick (hear_server s) []);
  (fun s => ClientApp (Send 2 (byte_of <$> [1; 2; 3])));
  (fun s => ClientSend []);
  (fun s => ServerTick tick (hear_client s) []);
  (fun s => ServerApp (CallReceive 7 2));
  (fun s => ServerApp (CallSend 7 2 (byte_of <$> [4; 5])));
  (fun s => ServerSend []);
  (fun s => ClientTick tick (hear_server s) []);
  (fun s => ClientApp (Receive 2))].

(** The state and the actions so far; stops at an action outside the assumptions. *)
Definition play (state : option (list session_action * session)) (step : session -> session_action)
    : option (list session_action * session) :=
  '(acts, s) ← state;
  if unforged sample_config demo_up demo_down s (step s) && no_other_token sample_config 7 demo_up demo_down (step s) then
    s' ← session_act 7 s (step s); Some (acts ++ [step s], s')
  else None.

Definition session_end : option (list session_action * session) := foldl play (pair [] <$> session_start) session_script.

Definition fair (state : list session_action * session) : Prop :=
  session_reachable sample_config 7 demo_up demo_down state.1 state.2 /\
  forallb (no_other_token sample_config 7 demo_up demo_down) state.1 = true.

Lemma session_run_snoc config id up down s acts s' act s'' :
  session_run config id up down s acts s' -> unforged config up down s' act = true -> session_act id s' act = Some s'' ->
  session_run config id up down s (acts ++ [act]) s''.
Proof. induction 1; intros; econstructor; eauto. constructor. Qed.

Lemma play_fair script : forall state state', fair state -> foldl play (Some state) script = Some state' -> fair state'.
Proof.
  assert (forall script, foldl play None script = None) as Hnone by (intros l; by induction l).
  induction script as [|step script IH]; intros [acts s] s' Hr H; cbn [foldl] in H; [by injection H as <-|].
  cbn [play mbind option_bind] in H.
  destruct (unforged _ _ _ _ _) eqn:Hg; cbn [andb] in H; [|by rewrite Hnone in H].
  destruct (no_other_token _ _ _ _ _) eqn:Ht; [|by rewrite Hnone in H].
  destruct (session_act _ s (step s)) as [s1|] eqn:E; cbn [mbind option_bind] in H; [|by rewrite Hnone in H].
  eapply IH; [|exact H]. destruct Hr as [(s0 & Hi & Hr) Hts]. cbn [fst snd] in *. split; cbn [fst snd].
  - exists s0. split; [done|]. by eapply session_run_snoc.
  - rewrite forallb_app, Hts. cbn [forallb andb]. by rewrite Ht.
Qed.

Lemma tc_new_token rnd now token socket tc :
  tc_new rnd now (ClientSecure token) socket = Ret (Ok tc) -> nc_connect_token (tc_netcode_client tc) = token.
Proof.
  unfold tc_new, net_client_new. destruct (sk_nonblocking socket); [done|]. cbn [out_bind].
  destruct (vec_get _ _) as [slot|]; cbn [out_bind]; [|done]. destruct (unwrap slot); cbn [out_bind]; [|done]. by intros [= <-].
Qed.

Lemma session_start_init s : session_start = Some s -> session_init sample_config demo_up demo_down s.
Proof.
  unfold session_start. destruct (client_new default_config) as [c1|] eqn:E1; [|done].
  destruct (client_new_from_server default_config) as [c2|] eqn:E2; [|done].
  destruct (tc_new _ _ _ _) as [[tc|]|] eqn:E3; [|done|done]. destruct (ts_new _ _ _) as [[ts|]|] eqn:E4; [|done|done]. intros [= <-].
  eapply init_session; [| | |exact E1|exact E2|exact E3| |vm_compute; congruence|exact E4]; [vm_compute; congruence..| |].
  - repeat constructor; vm_compute; congruence.
  - rewrite (tc_new_token _ _ _ _ _ E3). unfold demo_up, demo_down. split; [vm_compute; reflexivity|]. split; reflexivity.
Qed.

Lemma session_end_fair state : session_end = Some state -> fair state.
Proof.
  unfold session_end. destruct session_start as [s0|] eqn:E; cbn [fmap option_fmap option_map].
  - apply play_fair. split; [|reflexivity]. exists s0. split; [by apply session_start_init|constructor].
  - intros H. exfalso. vm_compute in E. discriminate E.
Qed.

End demo.

(** What the applications saw at the end of the concrete session. *)
Lemma session_end_logs : exists acts s, session_end = Some (acts, s) /\
  log_of (p_delivered (se_peer s)) 2 = [byte_of <$> [1; 2; 3]] /\ log_of (p_delivered (se_client s)) 2 = [byte_of <$> [4; 5]] /\
  is_Some (connections (se_server s) !! 7) /\
  reliable_order <$> receive_reliable_channels (p_client (se_peer s)) !! 2 = Some Ordered.
Proof.
  assert (('(_, s) ← session_end; Some (log_of (p_delivered (se_peer s)) 2, log_of (p_delivered (se_client s)) 2,
    bool_decide (is_Some (connections (se_server s) !! 7)),
    match reliable_order <$> receive_reliable_channels (p_client (se_peer s)) !! 2 with Some Ordered => true | _ => false end)) =
    Some ([byte_of <$> [1; 2; 3]], [byte_of <$> [4; 5]], true, true)) as H by (vm_compute; reflexivity).
  destruct session_end as [[acts s]|]; [|discriminate H]. cbn [mbind option_bind] in H. injection H as H1 H2 H3 H4. exists acts, s.
  split; [done|]. split; [exact H1|]. split; [exact H2|]. split; [by apply bool_decide_eq_true in H3|].
  destruct (reliable_order <$> _) as [[]|]; [done|discriminate H4..].
Qed.

Lemma end_to_end_refinement_witness :
  exists s, is_Some (connections (se_server s) !! 7) /\ log_of (p_delivered (se_peer s)) 2 = [byte_of <$> [1; 2; 3]] /\
    reachable (oct := quic_octets) (se_client s, se_peer s).
Proof.
  destruct session_end_logs as (acts & s & E & H1 & _ & H2 & _). exists s. split; [exact H2|]. split; [exact H1|].
  destruct (session_end_fair _ E) as [Hr Ht].
  exact (proj1 (end_to_end_refinement sample_config 7 demo_up demo_down acts s Hr Ht)).
Defined.

Lemma end_to_end_ordered_witness :
  exists s, log_of (p_delivered (se_peer s)) 2 = [byte_of <$> [1; 2; 3]] /\ log_of (p_delivered (se_client s)) 2 = [byte_of <$> [4; 5]] /\
    log_of (p_delivered (se_peer s)) 2 `prefix_of` log_of (p_sent (se_client s)) 2.
Proof.
  destruct session_end_logs as (acts & s & E & H1 & H2 & _ & Ho). exists s. split; [exact H1|]. split; [exact H2|].
  apply fmap_Some in Ho as (chan & Hch & Ho). destruct (session_end_fair _ E) as [Hr Ht].
  exact (proj1 (end_to_end_ordered sample_config 7 demo_up demo_down acts s 2 chan Hr Ht (eq_sym Ho)) Hch).
Defined.
