(* ===== verification/Steam.v ===== *)
(** * The Steam transports (renet_steam/src)

    [SteamServerTransport] and [SteamClientTransport] join a renet endpoint to
    Steam's networking sockets.  Steam itself (the steamworks package) is a
    parameter: the class [Steamworks] gives its answers, each an arbitrary
    function of the calls made so far.  The program's side of it is the list of
    those calls, the latest first. *)

From stdpp Require Import strings.
From S2P Require Import Prelude Octets Packet Connection Server.

(** ** Steam as the program sees it *)

(** Handles, ids and configuration entries are opaque numbers. *)
Abbreviation ListenSocket := Z.
Abbreviation NetConnection := Z.
Abbreviation ConnectionRequest := Z.
Abbreviation SteamId := Z.
Abbreviation LobbyId := Z.
Abbreviation NetworkingConfigEntry := Z.
Abbreviation SteamAddr := Z.

(** [AppGeneric] is the only reason the program gives. *)
Inductive NetConnectionEnd := EndAppGeneric | EndOther (code : Z).

Inductive NetworkingConnectionState :=
  | NcsNone | NcsConnecting | NcsFindingRoute | NcsConnected | NcsClosedByPeer | NcsProblemDetectedLocally.

#[global] Instance NetworkingConnectionState_eq_dec : EqDecision NetworkingConnectionState.
Proof. solve_decision. Defined.

Inductive InvalidHandle := InvalidHandleError.
Inductive SteamError := SteamNoConnection | SteamErrorCode (code : Z).

(** An event of a listen socket; the identity of the remote end is a Steam id or not. *)
Inductive ListenSocketEvent :=
  | LseConnected (remote : option SteamId) (connection : NetConnection)
  | LseDisconnected (remote : option SteamId)
  | LseConnecting (remote : option SteamId) (request : ConnectionRequest).

(** What the program asks of Steam. Dropping a handle is a call of its destructor. *)
Inductive SteamCall :=
  | CallListenP2p (port : Z) (options : list NetworkingConfigEntry)
  | CallListenIp (addr : SteamAddr) (options : list NetworkingConfigEntry)
  | CallDropListen (sock : ListenSocket)
  | CallPoll (sock : ListenSocket)
  | CallAccept (request : ConnectionRequest) (remote : SteamId)
  | CallReject (request : ConnectionRequest) (why : string)
  | CallHasFriend (id : SteamId)
  | CallLobbyMembers (lobby : LobbyId)
  | CallConnectP2p (id : SteamId)
  | CallConnectIp (addr : SteamAddr)
  | CallInfo (connection : NetConnection)
  | CallReceive (connection : NetConnection) (batch : Z)
  | CallSend (connection : NetConnection) (packet : Bytes)
  | CallFlush (connection : NetConnection)
  | CallClose (connection : NetConnection) (why : string) (linger : bool)
  | CallDrop (connection : NetConnection).

Abbreviation SteamCalls := (list SteamCall).

(** Steam's answers. [connection_info] gives the state, if it is known, and the
    reason of the end, if there is one; [pending_events] is the number of events
    queued on a socket. *)
Class Steamworks := {
  listen_p2p : SteamCalls -> Z -> list NetworkingConfigEntry -> result ListenSocket InvalidHandle;
  listen_ip : SteamCalls -> SteamAddr -> list NetworkingConfigEntry -> result ListenSocket InvalidHandle;
  poll_event : SteamCalls -> ListenSocket -> option ListenSocketEvent;
  has_friend : SteamCalls -> SteamId -> bool;
  lobby_members : SteamCalls -> LobbyId -> list SteamId;
  connect_p2p : SteamCalls -> SteamId -> result NetConnection InvalidHandle;
  connect_ip : SteamCalls -> SteamAddr -> result NetConnection InvalidHandle;
  connection_info : SteamCalls -> NetConnection -> option (option NetworkingConnectionState * option NetConnectionEnd);
  receive_messages : SteamCalls -> NetConnection -> Z -> result (list Bytes) InvalidHandle;
  send_steam_message : SteamCalls -> NetConnection -> Bytes -> result unit SteamError;
  flush_messages : SteamCalls -> NetConnection -> result unit SteamError;
  user_steam_id : SteamId;
  pending_events : SteamCalls -> ListenSocket -> nat;
}.

(** What the loops rely on: an event that is handed out leaves the queue, and the
    program's own calls queue nothing (events are queued by the callbacks). *)
Class SteamLaws (steam : Steamworks) := {
  poll_takes calls sock event :
    poll_event calls sock = Some event -> (pending_events (CallPoll sock :: calls) sock < pending_events calls sock)%nat;
  calls_queue_nothing calls call sock : (pending_events (call :: calls) sock <= pending_events calls sock)%nat;
}.

Definition MAX_MESSAGE_BATCH_SIZE : Z := 512.

(** ** The server (server.rs) *)

Inductive AccessPermission :=
  | Public
  | Private
  | FriendsOnly
  | InList (list : gset SteamId)
  | InLobby (lobby : LobbyId).

Record SteamServerConfig := mkSteamConfig {
  sc_max_clients : Z;
  sc_access_permission : AccessPermission;
}.

Record SteamServerTransport := mkSteamServer {
  ss_listen_socket : list ListenSocket;
  ss_max_clients : Z;
  ss_access_permission : AccessPermission;
  ss_connections : gmap Z NetConnection;
}.

Record SteamServerSocketOptions := mkSocketOptions {
  so_p2p : bool;
  so_socket_addr : option SteamAddr;
  so_configs : list NetworkingConfigEntry;
}.

Definition new_p2p : SteamServerSocketOptions := mkSocketOptions true None [].
Definition new_address (addr : SteamAddr) : SteamServerSocketOptions := mkSocketOptions false (Some addr) [].
Definition socket_options_default : SteamServerSocketOptions := new_p2p.
Definition with_p2p (self : SteamServerSocketOptions) : SteamServerSocketOptions :=
  mkSocketOptions true (so_socket_addr self) (so_configs self).
Definition with_address (self : SteamServerSocketOptions) (addr : SteamAddr) : SteamServerSocketOptions :=
  mkSocketOptions (so_p2p self) (Some addr) (so_configs self).
Definition with_config (self : SteamServerSocketOptions) (config_option : NetworkingConfigEntry) : SteamServerSocketOptions :=
  mkSocketOptions (so_p2p self) (so_socket_addr self) (so_configs self ++ [config_option]).

Definition ss_set_connections (self : SteamServerTransport) (x : gmap Z NetConnection) : SteamServerTransport :=
  mkSteamServer (ss_listen_socket self) (ss_max_clients self) (ss_access_permission self) x.

(** The calls, the transport and the renet server, threaded through the code. *)
Record steam_state := mkSteamState {
  sm_self : SteamServerTransport;
  sm_calls : SteamCalls;
  sm_server : RenetServer;
}.

Section server.
Context {oct : Octets} {steam : Steamworks}.

(** A listen socket created before a failure is dropped on the way out. *)
Definition steam_server_new (calls : SteamCalls) (config : SteamServerConfig) (socket_options : SteamServerSocketOptions)
    : SteamCalls * result SteamServerTransport InvalidHandle :=
  let options := so_configs socket_options in
  let '(calls, p2p) :=
    if so_p2p socket_options then
      (CallListenP2p 0 options :: calls,
       match listen_p2p calls 0 options with Ok sock => Ok [sock] | Err e => Err e end)
    else (calls, Ok []) in
  match p2p with
  | Err e => (calls, Err e)
  | Ok listen_socket =>
      let '(calls, all) :=
        match so_socket_addr socket_options with
        | Some addr =>
            let calls' := CallListenIp addr options :: calls in
            match listen_ip calls addr options with
            | Ok sock => (calls', Ok (listen_socket ++ [sock]))
            | Err e => ((CallDropListen <$> listen_socket) ++ calls', Err e)
            end
        | None => (calls, Ok listen_socket)
        end in
      match all with
      | Err e => (calls, Err e)
      | Ok listen_socket =>
          (calls, Ok (mkSteamServer listen_socket (sc_max_clients config) (sc_access_permission config) ∅))
      end
  end.

Definition steam_max_clients (self : SteamServerTransport) : Z := ss_max_clients self.

Definition set_access_permissions (self : SteamServerTransport) (access_permission : AccessPermission) : SteamServerTransport :=
  mkSteamServer (ss_listen_socket self) (ss_max_clients self) access_permission (ss_connections self).

Definition kicked : string := "Client was kicked".

Definition steam_disconnect_client (st : steam_state) (client_id : Z) (flush_last_packets : bool) : steam_state :=
  let '(self, calls) :=
    match ss_connections (sm_self st) !! client_id with
    | Some value =>
        (ss_set_connections (sm_self st) (delete client_id (ss_connections (sm_self st))),
         CallClose value kicked flush_last_packets :: sm_calls st)
    | None => (sm_self st, sm_calls st)
    end in
  mkSteamState self calls (remove_connection (sm_server st) client_id).

Definition steam_disconnect_all (st : steam_state) (flush_last_packets : bool) : out steam_state :=
  let keys := (map_to_list (ss_connections (sm_self st))).*1 in
  fold_out (fun st client_id =>
    let! value := unwrap (ss_connections (sm_self st) !! client_id) in
    Ret (mkSteamState
      (ss_set_connections (sm_self st) (delete client_id (ss_connections (sm_self st))))
      (CallClose value kicked flush_last_packets :: sm_calls st)
      (remove_connection (sm_server st) client_id))) st keys.

(** Whether the policy lets a user in, with the question it asks. *)
Definition permitted (access_permission : AccessPermission) (calls : SteamCalls) (steam_id : SteamId) : SteamCalls * bool :=
  match access_permission with
  | Public => (calls, true)
  | Private => (calls, false)
  | FriendsOnly => (CallHasFriend steam_id :: calls, has_friend calls steam_id)
  | InList list => (calls, bool_decide (steam_id ∈ list))
  | InLobby lobby => (CallLobbyMembers lobby :: calls, bool_decide (steam_id ∈ lobby_members calls lobby))
  end.

Definition handle_connecting (self : SteamServerTransport) (calls : SteamCalls) (server : RenetServer)
    (remote : option SteamId) (request : ConnectionRequest) : SteamCalls :=
  if ss_max_clients self <=? connected_clients server then CallReject request "Too many clients" :: calls
  else
    match remote with
    | None => CallReject request "Invalid steam id" :: calls
    | Some steam_id =>
        let '(calls, allowed) := permitted (ss_access_permission self) calls steam_id in
        if allowed then CallAccept request steam_id :: calls
        else CallReject request "Not allowed" :: calls
    end.

(** One event. A connection that is replaced, removed or not taken is dropped. *)
Definition handle_listen_event (st : steam_state) (event : ListenSocketEvent) : out steam_state :=
  let self := sm_self st in
  let calls := sm_calls st in
  match event with
  | LseConnected (Some steam_id) connection =>
      let! server := add_connection (sm_server st) steam_id in
      let dropped := CallDrop <$> option_list (ss_connections self !! steam_id) in
      Ret (mkSteamState (ss_set_connections self (<[steam_id := connection]> (ss_connections self))) (dropped ++ calls) server)
  | LseConnected None connection => Ret (mkSteamState self (CallDrop connection :: calls) (sm_server st))
  | LseDisconnected (Some steam_id) =>
      let server := remove_connection (sm_server st) steam_id in
      let dropped := CallDrop <$> option_list (ss_connections self !! steam_id) in
      Ret (mkSteamState (ss_set_connections self (delete steam_id (ss_connections self))) (dropped ++ calls) server)
  | LseDisconnected None => Ret st
  | LseConnecting remote request =>
      Ret (mkSteamState self (handle_connecting self calls (sm_server st) remote request) (sm_server st))
  end.

(** [while let Some(event) = listen_socket.try_receive_event()]; the fuel is the
    number of queued events, and one more for the last poll. *)
Fixpoint poll_loop (fuel : nat) (st : steam_state) (sock : ListenSocket) : out steam_state :=
  match fuel with
  | O => Ret st
  | S fuel' =>
      let event := poll_event (sm_calls st) sock in
      let st := mkSteamState (sm_self st) (CallPoll sock :: sm_calls st) (sm_server st) in
      match event with
      | None => Ret st
      | Some event =>
          let! st := handle_listen_event st event in
          poll_loop fuel' st sock
      end
  end.

Definition poll_socket (st : steam_state) (sock : ListenSocket) : out steam_state :=
  poll_loop (S (pending_events (sm_calls st) sock)) st sock.

(** The messages of one connection; a client unknown to the renet server is logged. *)
Definition receive_from (st : steam_state) (kv : Z * NetConnection) : out steam_state :=
  let '(client_id, connection) := kv in
  let answer := receive_messages (sm_calls st) connection MAX_MESSAGE_BATCH_SIZE in
  let calls := CallReceive connection MAX_MESSAGE_BATCH_SIZE :: sm_calls st in
  match answer with
  | Err _ => Ret (mkSteamState (sm_self st) calls (sm_server st))
  | Ok messages =>
      let! server :=
        fold_out (fun server message => let! (server, _) := process_packet_from server message client_id in Ret server)
          (sm_server st) messages in
      Ret (mkSteamState (sm_self st) calls server)
  end.

Definition steam_server_update (st : steam_state) : out steam_state :=
  let! st := fold_out poll_socket st (ss_listen_socket (sm_self st)) in
  fold_out receive_from st (map_to_list (ss_connections (sm_self st))).

(** The packets of one connection, then the flush; the first failure ends it. *)
Fixpoint send_then_flush (calls : SteamCalls) (connection : NetConnection) (packets : list Bytes)
    : SteamCalls * result unit SteamError :=
  match packets with
  | [] => (CallFlush connection :: calls, flush_messages calls connection)
  | packet :: packets' =>
      match send_steam_message calls connection packet with
      | Err e => (CallSend connection packet :: calls, Err e)
      | Ok _ => send_then_flush (CallSend connection packet :: calls) connection packets'
      end
  end.

Definition steam_server_send_packets (st : steam_state) : out steam_state :=
  fold_out (fun st client_id =>
    match ss_connections (sm_self st) !! client_id with
    | None => Ret st
    | Some connection =>
        let! (server, r) := server_get_packets_to_send (sm_server st) client_id in
        let! packets := match r with Ok packets => Ret packets | Err _ => Panic end in
        Ret (mkSteamState (sm_self st) (send_then_flush (sm_calls st) connection packets).1 server)
    end) st (clients_id (sm_server st)).

End server.

(** ** The client (client.rs) *)

Inductive SteamConnectionState :=
  | ScConnected (connection : NetConnection)
  | ScDisconnected (end_reason : NetConnectionEnd).

(** [SteamClientTransport]: the handle of the networking sockets has no state. *)
Record SteamClientTransport := mkSteamClient { cs_state : SteamConnectionState }.

Section client.
Context {oct : Octets} {steam : Steamworks}.

Definition steam_client_new_p2p (calls : SteamCalls) (steam_id : SteamId) : SteamCalls * result SteamClientTransport InvalidHandle :=
  (CallConnectP2p steam_id :: calls,
   match connect_p2p calls steam_id with
   | Ok connection => Ok (mkSteamClient (ScConnected connection))
   | Err e => Err e
   end).

Definition steam_client_new_ip (calls : SteamCalls) (socket_addr : SteamAddr) : SteamCalls * result SteamClientTransport InvalidHandle :=
  (CallConnectIp socket_addr :: calls,
   match connect_ip calls socket_addr with
   | Ok connection => Ok (mkSteamClient (ScConnected connection))
   | Err e => Err e
   end).

Definition connection_state (self : SteamClientTransport) (calls : SteamCalls) : SteamCalls * NetworkingConnectionState :=
  match cs_state self with
  | ScDisconnected _ => (calls, NcsNone)
  | ScConnected connection =>
      (CallInfo connection :: calls,
       match connection_info calls connection with
       | None => NcsNone
       | Some (info_state, _) => default NcsNone info_state
       end)
  end.

Definition sc_is_connected (self : SteamClientTransport) (calls : SteamCalls) : SteamCalls * bool :=
  let (calls, status) := connection_state self calls in (calls, bool_decide (status = NcsConnected)).

Definition sc_is_disconnected (self : SteamClientTransport) (calls : SteamCalls) : SteamCalls * bool :=
  let (calls, status) := connection_state self calls in
  (calls, bool_decide (status = NcsClosedByPeer) || bool_decide (status = NcsProblemDetectedLocally) || bool_decide (status = NcsNone)).

Definition sc_is_connecting (self : SteamClientTransport) (calls : SteamCalls) : SteamCalls * bool :=
  let (calls, status) := connection_state self calls in
  (calls, bool_decide (status = NcsConnecting) || bool_decide (status = NcsFindingRoute)).

Definition sc_disconnect_reason (self : SteamClientTransport) (calls : SteamCalls) : SteamCalls * option NetConnectionEnd :=
  match cs_state self with
  | ScDisconnected end_reason => (calls, Some end_reason)
  | ScConnected connection =>
      (CallInfo connection :: calls, match connection_info calls connection with Some (_, end_reason) => end_reason | None => None end)
  end.

Definition sc_client_id : Z := user_steam_id.

Definition sc_disconnect (self : SteamClientTransport) (calls : SteamCalls) : SteamClientTransport * SteamCalls :=
  match cs_state self with
  | ScDisconnected _ => (self, calls)
  | ScConnected connection =>
      (mkSteamClient (ScDisconnected EndAppGeneric), CallClose connection "Client disconnected" false :: calls)
  end.

Definition steam_client_update (self : SteamClientTransport) (calls : SteamCalls) (client : RenetClient)
    : out (SteamClientTransport * SteamCalls * RenetClient) :=
  let (calls, disconnected) := sc_is_disconnected self calls in
  if disconnected then
    let client := disconnect_due_to_transport client in
    match cs_state self with
    | ScConnected connection =>
        let end_reason :=
          default EndAppGeneric (match connection_info calls connection with Some (_, end_reason) => end_reason | None => None end) in
        Ret (mkSteamClient (ScDisconnected end_reason), CallDrop connection :: CallInfo connection :: calls, client)
    | ScDisconnected _ => Ret (self, calls, client)
    end
  else
    let (calls, connected) := sc_is_connected self calls in
    let '(calls, client) :=
      if connected then (calls, set_connected client)
      else
        let (calls, connecting) := sc_is_connecting self calls in
        (calls, if connecting then set_connecting client else client) in
    match cs_state self with
    | ScDisconnected _ => Panic
    | ScConnected connection =>
        let answer := receive_messages calls connection MAX_MESSAGE_BATCH_SIZE in
        let calls := CallReceive connection MAX_MESSAGE_BATCH_SIZE :: calls in
        match answer with
        | Err _ => Ret (self, calls, client)
        | Ok messages =>
            let! client := fold_out process_packet client messages in
            Ret (self, calls, client)
        end
    end.

Definition steam_client_send_packets (self : SteamClientTransport) (calls : SteamCalls) (client : RenetClient)
    : out (SteamCalls * RenetClient * result unit SteamError) :=
  let (calls, disconnected) := sc_is_disconnected self calls in
  if disconnected then Ret (calls, client, Err SteamNoConnection)
  else
    let (calls, connecting) := sc_is_connecting self calls in
    if connecting then Ret (calls, client, Ok tt)
    else
      match cs_state self with
      | ScDisconnected _ => Panic
      | ScConnected connection =>
          let! (client, packets) := get_packets_to_send client in
          let (calls, r) := send_then_flush calls connection packets in
          Ret (calls, client, r)
      end.

End client.
