(* ===== verification/SteamProps.v ===== *)
(** * Properties of the Steam transports

    The renet server and the table of Steam connections stay in step, admission
    follows the access permission, the event loops drain their sockets, and the
    client transport panics only where the renet client does. *)

From stdpp Require Import strings.
From S2P Require Import Prelude Octets Packet Connection ConnectionProps Server Steam.

(** ** The renet server and the connections stay in step *)

Section matching.
Context {oct : Octets} {steam : Steamworks}.
Implicit Types st : steam_state.

(** The same clients on both sides. *)
Definition matched st : Prop :=
  dom (ss_connections (sm_self st)) = dom (connections (sm_server st)).

Lemma dom_keeps server server' : keeps server server' -> dom (connections server') = dom (connections server).
Proof.
  intros [H _]. apply set_eq. intros id. rewrite !elem_of_dom. specialize (H id).
  destruct (connections server !! id), (connections server' !! id); cbn in H; try done; split; intros []; eauto.
Qed.

Lemma dom_remove server id : dom (connections (remove_connection server id)) = dom (connections server) ∖ {[id]}.
Proof.
  unfold remove_connection. destruct (connections server !! id) as [c|] eqn:E; cbn; [set_solver|].
  apply not_elem_of_dom in E. set_solver.
Qed.

Lemma dom_add server id server' :
  add_connection server id = Ret server' -> dom (connections server') = {[id]} ∪ dom (connections server).
Proof.
  unfold add_connection. case_bool_decide as Hc.
  - intros [= <-]. apply elem_of_dom in Hc. set_solver.
  - destruct (client_new_from_server _) as [c|]; cbn; [|done]. intros [= <-]. cbn. set_solver.
Qed.

Lemma handle_event_matched st event st' : matched st -> handle_listen_event st event = Ret st' -> matched st'.
Proof.
  unfold matched. intros Hm H. destruct event as [[id|] conn|[id|]|remote request]; cbn in H.
  - destruct (add_connection _ _) as [server|] eqn:E; cbn in H; [|done]. injection H as <-. cbn.
    rewrite (dom_add _ _ _ E), dom_insert_L. set_solver.
  - by injection H as <-.
  - injection H as <-. cbn. rewrite dom_remove, dom_delete_L. set_solver.
  - by injection H as <-.
  - by injection H as <-.
Qed.

Lemma poll_loop_matched fuel sock : forall st st', matched st -> poll_loop fuel st sock = Ret st' -> matched st'.
Proof.
  induction fuel as [|fuel IH]; intros st st' Hm H; cbn in H; [by injection H as <-|].
  destruct (poll_event _ _) as [event|]; [|by injection H as <-].
  destruct (handle_listen_event _ _) as [st1|] eqn:E; cbn in H; [|done].
  eapply IH; [|exact H]. by eapply handle_event_matched; [|exact E].
Qed.

Lemma receive_from_keeps st kv st' :
  receive_from st kv = Ret st' -> keeps (sm_server st) (sm_server st') /\ sm_self st' = sm_self st.
Proof.
  destruct kv as [id conn]. unfold receive_from. destruct (receive_messages _ _ _) as [msgs|]; [|intros [= <-]; split; reflexivity].
  destruct (fold_out _ _ _) as [server|] eqn:E; cbn; [|done]. intros [= <-]. split; [|done]. cbn.
  eapply (fold_out_inv _ (keeps (sm_server st))); [|reflexivity|exact E].
  intros s m s' _ Hs Hm. cbn beta in Hm. destruct (process_packet_from s m id) as [[s1 r]|] eqn:Ep; cbn in Hm; [|done].
  injection Hm as <-. etrans; [exact Hs|by eapply process_packet_from_keeps].
Qed.

Lemma receive_all_keeps kvs : forall st st',
  fold_out receive_from st kvs = Ret st' -> keeps (sm_server st) (sm_server st') /\ sm_self st' = sm_self st.
Proof.
  intros st st' H. eapply (fold_out_inv _ (fun x => keeps (sm_server st) (sm_server x) /\ sm_self x = sm_self st)); [|split; reflexivity|exact H].
  intros s kv s' _ [Hk Hs] Hr. apply receive_from_keeps in Hr as [? Hs']. split; [by etrans|congruence].
Qed.

Lemma update_matched st st' : matched st -> steam_server_update st = Ret st' -> matched st'.
Proof.
  unfold steam_server_update. intros Hm H. destruct (fold_out poll_socket _ _) as [st1|] eqn:E; cbn in H; [|done].
  assert (matched st1) as Hm1.
  { eapply (fold_out_inv _ matched); [|exact Hm|exact E]. intros s sock s' _. apply poll_loop_matched. }
  apply receive_all_keeps in H as [Hk Hs]. unfold matched in *. by rewrite Hs, (dom_keeps _ _ Hk).
Qed.

(** One turn of [send_packets]. *)
Lemma send_turn_keeps st id st' :
  match ss_connections (sm_self st) !! id with
  | None => Ret st
  | Some connection =>
      let! (server, r) := server_get_packets_to_send (sm_server st) id in
      let! packets := match r with Ok packets => Ret packets | Err _ => Panic end in
      Ret (mkSteamState (sm_self st) (send_then_flush (sm_calls st) connection packets).1 server)
  end = Ret st' -> keeps (sm_server st) (sm_server st') /\ sm_self st' = sm_self st.
Proof.
  destruct (ss_connections _ !! _); [|intros [= <-]; split; reflexivity].
  destruct (server_get_packets_to_send _ _) as [[server r]|] eqn:E; cbn; [|done].
  destruct r; cbn; [|done]. intros [= <-]. split; [|done]. by eapply server_flush_keeps.
Qed.

Lemma send_packets_keeps st st' :
  steam_server_send_packets st = Ret st' -> keeps (sm_server st) (sm_server st') /\ sm_self st' = sm_self st.
Proof.
  intros H. eapply (fold_out_inv _ (fun x => keeps (sm_server st) (sm_server x) /\ sm_self x = sm_self st)); [|split; reflexivity|exact H].
  intros s id s' _ [Hk Hs] Hr. cbn beta in Hr. apply send_turn_keeps in Hr as [? Hs']. split; [by etrans|congruence].
Qed.

Lemma disconnect_client_matched st id b : matched st -> matched (steam_disconnect_client st id b).
Proof.
  unfold matched, steam_disconnect_client. intros Hm. destruct (ss_connections _ !! id) eqn:E; cbn; rewrite dom_remove.
  - rewrite dom_delete_L. set_solver.
  - apply not_elem_of_dom in E. set_solver.
Qed.

(** [disconnect_all] returns, whatever the state, and leaves the clients of the
    renet server that had no connection. *)
Lemma disconnect_all_effect st b :
  exists st', steam_disconnect_all st b = Ret st' /\ ss_connections (sm_self st') = ∅ /\
    dom (connections (sm_server st')) = dom (connections (sm_server st)) ∖ dom (ss_connections (sm_self st)).
Proof.
  unfold steam_disconnect_all.
  assert (dom (ss_connections (sm_self st)) = list_to_set (map_to_list (ss_connections (sm_self st))).*1) as Hd.
  { apply set_eq. intros k. rewrite elem_of_dom, elem_of_list_to_set, list_elem_of_fmap. split.
    - intros [v Hv]. exists (k, v). split; [done|]. by apply elem_of_map_to_list.
    - intros ([k' v] & -> & Hv%elem_of_map_to_list). by exists v. }
  pose proof (NoDup_fst_map_to_list (ss_connections (sm_self st))) as Hn.
  remember ((map_to_list (ss_connections (sm_self st))).*1) as keys eqn:Ek. clear Ek. revert st Hd Hn.
  induction keys as [|k keys IH]; intros st Hd Hn.
  - exists st. split; [done|]. cbn in Hd. rewrite Hd. split; [by apply dom_empty_iff_L|set_solver].
  - cbn [fold_out]. apply NoDup_cons in Hn as [Hk Hn].
    assert (is_Some (ss_connections (sm_self st) !! k)) as [v Hv] by (apply elem_of_dom; set_solver).
    rewrite Hv. cbn [unwrap out_bind].
    match goal with |- context [fold_out _ ?s keys] => destruct (IH s) as (st' & E & He & Hs) end; [|done|].
    { cbn. rewrite dom_delete_L. set_solver. }
    exists st'. split; [exact E|]. split; [exact He|]. rewrite Hs. cbn. rewrite dom_remove, dom_delete_L.
    apply elem_of_dom_2 in Hv. set_solver.
Qed.

(** What can happen to a server transport: its own calls, calls of Steam made
    elsewhere, and anything the application does to the renet server that
    neither adds nor removes a connection. *)
Inductive steam_step : steam_state -> steam_state -> Prop :=
  | sst_update st st' : steam_server_update st = Ret st' -> steam_step st st'
  | sst_send st st' : steam_server_send_packets st = Ret st' -> steam_step st st'
  | sst_disconnect_client st id b : steam_step st (steam_disconnect_client st id b)
  | sst_disconnect_all st b st' : steam_disconnect_all st b = Ret st' -> steam_step st st'
  | sst_permissions st p : steam_step st (mkSteamState (set_access_permissions (sm_self st) p) (sm_calls st) (sm_server st))
  | sst_calls st calls : steam_step st (mkSteamState (sm_self st) (calls ++ sm_calls st) (sm_server st))
  | sst_application st taken server' :
      server_step (sm_server st) taken server' -> dom (connections server') = dom (connections (sm_server st)) ->
      steam_step st (mkSteamState (sm_self st) (sm_calls st) server').

Lemma steam_step_matched st st' : matched st -> steam_step st st' -> matched st'.
Proof.
  intros Hm H. destruct H as [st st' H|st st' H|st id b|st b st' H|st p|st calls|st taken server' _ Hd].
  - by eapply update_matched.
  - apply send_packets_keeps in H as [Hk Hs]. unfold matched in *. by rewrite Hs, (dom_keeps _ _ Hk).
  - by apply disconnect_client_matched.
  - destruct (disconnect_all_effect st b) as (st1 & E & He & Hd). rewrite E in H. injection H as <-.
    unfold matched. rewrite He, Hd, dom_empty_L, Hm. set_solver.
  - exact Hm.
  - exact Hm.
  - unfold matched in *. cbn. congruence.
Qed.

Lemma steam_reachable_matched st st' : matched st -> rtc steam_step st st' -> matched st'.
Proof. intros Hm H. revert Hm. induction H; intros; [done|]. eauto using steam_step_matched. Qed.

(** The connections of a new transport. *)
Lemma new_transport_empty calls config options calls' self :
  steam_server_new calls config options = (calls', Ok self) -> ss_connections self = ∅.
Proof.
  unfold steam_server_new. intros H. repeat (case_match; simplify_eq); done.
Qed.

End matching.

(** ** Admission *)

Section admission.
Context {oct : Octets} {steam : Steamworks}.

(** The policy: who may come in, by Steam's answers after the calls so far. *)
Definition consents (perm : AccessPermission) (calls : SteamCalls) (id : SteamId) : Prop :=
  match perm with
  | Public => True
  | Private => False
  | FriendsOnly => has_friend calls id = true
  | InList users => id ∈ users
  | InLobby lobby => id ∈ lobby_members calls lobby
  end.

(** The question that the policy puts to Steam. *)
Definition question (perm : AccessPermission) (id : SteamId) : SteamCalls :=
  match perm with
  | FriendsOnly => [CallHasFriend id]
  | InLobby lobby => [CallLobbyMembers lobby]
  | _ => []
  end.

(** The last calls are a poll that found the user's request, and the question. *)
Definition considered (perm : AccessPermission) (request : ConnectionRequest) (id : SteamId) (calls : SteamCalls) (verdict : Prop) : Prop :=
  exists sock before, calls = question perm id ++ CallPoll sock :: before /\
    poll_event before sock = Some (LseConnecting (Some id) request) /\ (verdict <-> consents perm (CallPoll sock :: before) id).

(** Acceptances and refusals, [calls] being those before them. *)
Definition justified (perm : AccessPermission) (calls : SteamCalls) (call : SteamCall) : Prop :=
  match call with
  | CallAccept request id => considered perm request id calls True
  | CallReject request why => why = "Not allowed"%string -> exists id, considered perm request id calls False
  | _ => True
  end.

Definition lawful (perm : AccessPermission) (calls new : SteamCalls) : Prop :=
  forall l1 call l2, new = l1 ++ call :: l2 -> justified perm (l2 ++ calls) call.

Definition extends (perm : AccessPermission) (calls calls' : SteamCalls) : Prop :=
  exists new, calls' = new ++ calls /\ lawful perm calls new.

#[global] Instance extends_refl perm : Reflexive (extends perm).
Proof. intros calls. exists []. split; [done|]. intros [|? ?] ? ? ?; discriminate. Qed.

#[global] Instance extends_trans perm : Transitive (extends perm).
Proof.
  intros c1 c2 c3 (n1 & -> & H1) (n2 & -> & H2). exists (n2 ++ n1). split; [by rewrite app_assoc|].
  intros l1 call l2 E. apply app_eq_app in E as [k [[-> E]|[-> E]]].
  - destruct k as [|x k]; cbn in E.
    + apply (H1 [] call l2). done.
    + injection E as <- ->. rewrite <- app_assoc. by apply (H2 l1 call k).
  - apply (H1 k call l2). done.
Qed.

Lemma extends_call perm calls call : justified perm calls call -> extends perm calls (call :: calls).
Proof.
  intros Hj. exists [call]. split; [done|]. intros [|x l1] call' l2 H; cbn in H; [by injection H as -> <-|].
  injection H as _ H. by destruct l1.
Qed.

Lemma permitted_spec perm calls id calls' b :
  permitted perm calls id = (calls', b) -> calls' = question perm id ++ calls /\ (b = true <-> consents perm calls id).
Proof.
  unfold permitted. destruct perm; intros [= <- <-]; (split; [done|]); cbn [consents]; try done; by rewrite bool_decide_eq_true.
Qed.

Lemma extends_question perm calls id : extends perm calls (question perm id ++ calls).
Proof. destruct perm; cbn [question app]; try reflexivity; by apply extends_call. Qed.

Lemma extends_connecting self sock before server remote request :
  poll_event before sock = Some (LseConnecting remote request) ->
  extends (ss_access_permission self) (CallPoll sock :: before) (handle_connecting self (CallPoll sock :: before) server remote request).
Proof.
  intros Hp. unfold handle_connecting. destruct (_ <=? _); [by apply extends_call|]. destruct remote as [id|]; [|by apply extends_call].
  destruct (permitted _ _ _) as [calls1 b] eqn:E. apply permitted_spec in E as [-> Hb].
  etrans; [apply (extends_question _ _ id)|]. destruct b; apply extends_call.
  - exists sock, before. split; [done|]. split; [done|]. by rewrite <- Hb.
  - intros _. exists id, sock, before. split; [done|]. split; [done|]. by rewrite <- Hb.
Qed.

Lemma extends_drop perm calls connection :
  extends perm calls ((CallDrop <$> option_list connection) ++ calls).
Proof. destruct connection; [by apply extends_call|reflexivity]. Qed.

Lemma handle_event_extends st sock before event st' :
  sm_calls st = CallPoll sock :: before -> poll_event before sock = Some event -> handle_listen_event st event = Ret st' ->
  extends (ss_access_permission (sm_self st)) (sm_calls st) (sm_calls st') /\
  ss_access_permission (sm_self st') = ss_access_permission (sm_self st).
Proof.
  intros Hc Hp. destruct event as [[id|] conn|[id|]|remote request]; cbn; intros H.
  - destruct (add_connection _ _); cbn in H; [|done]. injection H as <-. split; [apply extends_drop|done].
  - injection H as <-. split; [by apply extends_call|done].
  - injection H as <-. split; [apply extends_drop|done].
  - injection H as <-. done.
  - injection H as <-. split; [|done]. cbn [sm_calls]. rewrite Hc. by apply extends_connecting.
Qed.

Lemma poll_loop_extends fuel sock : forall st st',
  poll_loop fuel st sock = Ret st' ->
  extends (ss_access_permission (sm_self st)) (sm_calls st) (sm_calls st') /\
  ss_access_permission (sm_self st') = ss_access_permission (sm_self st).
Proof.
  induction fuel as [|fuel IH]; intros st st' H; cbn in H; [by injection H as <-|].
  destruct (poll_event _ _) as [event|] eqn:Ep; [|injection H as <-; split; [by apply extends_call|done]].
  destruct (handle_listen_event _ _) as [st1|] eqn:E; cbn in H; [|done].
  apply (handle_event_extends _ sock (sm_calls st)) in E as [E1 E2]; [|done..]. apply IH in H as [H1 H2]. cbn in *. rewrite E2 in H1, H2.
  split; [|done]. etrans; [|exact H1]. etrans; [|exact E1]. by apply extends_call.
Qed.

Lemma receive_from_extends perm st kv st' : receive_from st kv = Ret st' -> extends perm (sm_calls st) (sm_calls st').
Proof.
  destruct kv as [id conn]. unfold receive_from. destruct (receive_messages _ _ _); [|intros [= <-]; by apply extends_call].
  destruct (fold_out _ _ _); cbn; [|done]. intros [= <-]. by apply extends_call.
Qed.

End admission.

(** ** The event loops *)

Section draining.
Context {oct : Octets} {steam : Steamworks} {laws : SteamLaws steam}.

Lemma pending_app new calls sock : (pending_events (new ++ calls) sock <= pending_events calls sock)%nat.
Proof using laws.
  induction new as [|call new IH]; [done|]. cbn. pose proof (calls_queue_nothing (new ++ calls) call sock). lia.
Qed.

Lemma handle_event_calls st event st' :
  handle_listen_event st event = Ret st' -> exists new, sm_calls st' = new ++ sm_calls st.
Proof using.
  destruct event as [[id|] conn|[id|]|remote request]; cbn; intros H.
  - destruct (add_connection _ _); cbn in H; [|done]. injection H as <-. by eexists.
  - injection H as <-. by eexists [_].
  - injection H as <-. by eexists.
  - injection H as <-. by exists [].
  - injection H as <-. cbn [sm_calls]. unfold handle_connecting. destruct (_ <=? _); [by eexists [_]|]. destruct remote as [id|]; [|by eexists [_]].
    destruct (permitted _ _ _) as [calls1 b] eqn:E. apply permitted_spec in E as [-> _]. destruct b; by eexists (_ :: question _ id).
Qed.

(** With the fuel of [poll_socket] the loop ends because the socket has no more event. *)
Lemma poll_loop_drains fuel sock : forall st st',
  (pending_events (sm_calls st) sock < fuel)%nat -> poll_loop fuel st sock = Ret st' ->
  exists calls, sm_calls st' = CallPoll sock :: calls /\ poll_event calls sock = None.
Proof using laws.
  induction fuel as [|fuel IH]; intros st st' Hf H; [lia|]. cbn in H.
  destruct (poll_event (sm_calls st) sock) as [event|] eqn:E; [|injection H as <-; by eexists].
  destruct (handle_listen_event _ _) as [st1|] eqn:Eh; cbn in H; [|done].
  eapply IH; [|exact H]. apply handle_event_calls in Eh as [new Hnew]. cbn in Hnew. rewrite Hnew.
  pose proof (pending_app new (CallPoll sock :: sm_calls st) sock). pose proof (poll_takes _ _ _ E). lia.
Qed.

(** More fuel changes nothing. *)
Lemma poll_loop_fuel fuel sock : forall st fuel',
  (pending_events (sm_calls st) sock < fuel)%nat -> (fuel <= fuel')%nat -> poll_loop fuel' st sock = poll_loop fuel st sock.
Proof using laws.
  induction fuel as [|fuel IH]; intros st fuel' Hf Hle; [lia|]. destruct fuel' as [|fuel']; [lia|]. cbn.
  destruct (poll_event (sm_calls st) sock) as [event|] eqn:E; [|done].
  destruct (handle_listen_event _ _) as [st1|] eqn:Eh; cbn; [|done].
  apply IH; [|lia]. apply handle_event_calls in Eh as [new Hnew]. cbn in Hnew. rewrite Hnew.
  pose proof (pending_app new (CallPoll sock :: sm_calls st) sock). pose proof (poll_takes _ _ _ E). lia.
Qed.

End draining.

(** ** Clients that only the renet server has disconnected *)

Section forgotten.
Context {oct : Octets} {steam : Steamworks}.

(** Steam reports nothing about a client. *)
Definition silent (id : SteamId) : Prop := forall calls sock,
  match poll_event calls sock with
  | Some (LseConnected (Some i) _) | Some (LseDisconnected (Some i)) => i <> id
  | _ => True
  end.

Definition event_client (e : ServerEvent) : Z :=
  match e with ClientConnected i | ClientDisconnected i _ => i end.

(** The client's entries: its renet connection, its Steam connection, and what
    the queued events say about it. *)
Definition entry (id : Z) (st : steam_state) : option RenetClient * option NetConnection * list ServerEvent :=
  (connections (sm_server st) !! id, ss_connections (sm_self st) !! id,
   filter (fun e => event_client e = id) (events (sm_server st))).

Lemma entry_handle id st event st' :
  match event with LseConnected (Some i) _ | LseDisconnected (Some i) => i <> id | _ => True end ->
  handle_listen_event st event = Ret st' -> entry id st' = entry id st.
Proof.
  intros Hs H. unfold entry. destruct event as [[i|] conn|[i|]|remote request]; cbn in H.
  - destruct (add_connection _ _) as [server|] eqn:E; cbn in H; [|done]. injection H as <-. cbn.
    rewrite lookup_insert_ne by done. apply add_connection_effect in E as [(Hn & c & _ & ->)| ->]; [|done]. cbn.
    rewrite lookup_insert_ne by done. rewrite filter_app, filter_cons_False, filter_nil, app_nil_r by done. done.
  - by injection H as <-.
  - injection H as <-. cbn. rewrite lookup_delete_ne by done. unfold remove_connection.
    destruct (connections _ !! i); cbn; [|done]. rewrite lookup_delete_ne by done.
    rewrite filter_app, filter_cons_False, filter_nil, app_nil_r by done. done.
  - by injection H as <-.
  - by injection H as <-.
Qed.

Lemma entry_poll id fuel sock : silent id -> forall st st', poll_loop fuel st sock = Ret st' -> entry id st' = entry id st.
Proof.
  intros Hs. induction fuel as [|fuel IH]; intros st st' H; cbn in H; [by injection H as <-|].
  pose proof (Hs (sm_calls st) sock) as Hev. destruct (poll_event _ _) as [event|]; [|by injection H as <-].
  destruct (handle_listen_event _ _) as [st1|] eqn:E; cbn in H; [|done].
  apply (entry_handle id) in E; [|done]. apply IH in H. by rewrite H, E.
Qed.

(** Datagrams do not change a disconnected connection. *)
Lemma entry_process id c server message i server' r :
  connections server !! id = Some c -> is_disconnected c = true ->
  process_packet_from server message i = Ret (server', r) ->
  connections server' !! id = Some c /\ events server' = events server.
Proof.
  intros Hc Hd H. unfold process_packet_from in H. destruct (connections server !! i) as [c1|] eqn:E; [|by injection H as <- _].
  destruct (process_packet c1 message) as [c2|] eqn:Ep; cbn in H; [|done]. injection H as <- _. split; [|done]. cbn.
  destruct (decide (i = id)) as [->|]; [|by rewrite lookup_insert_ne]. rewrite lookup_insert_eq.
  unfold process_packet in Ep. assert (c1 = c) as -> by congruence. rewrite Hd in Ep. congruence.
Qed.

Lemma entry_receive id c kv st st' :
  connections (sm_server st) !! id = Some c -> is_disconnected c = true -> receive_from st kv = Ret st' -> entry id st' = entry id st.
Proof.
  intros Hc Hd H. destruct kv as [i conn]. unfold receive_from in H. destruct (receive_messages _ _ _) as [msgs|]; [|by injection H as <-].
  destruct (fold_out _ _ _) as [server|] eqn:E; cbn in H; [|done]. injection H as <-. unfold entry. cbn.
  assert (connections server !! id = Some c /\ events server = events (sm_server st)) as [H1 H2].
  { eapply (fold_out_inv _ (fun s => connections s !! id = Some c /\ events s = events (sm_server st))); [|split; [exact Hc|done]|exact E].
    intros s m s' _ [Hs He] Hm. cbn beta in Hm. destruct (process_packet_from s m i) as [[s1 r]|] eqn:Ep; cbn in Hm; [|done].
    injection Hm as <-. apply (entry_process id c) in Ep as [? ?]; [|done..]. split; [done|congruence]. }
  by rewrite H1, H2, Hc.
Qed.

Lemma entry_update id c st st' :
  silent id -> connections (sm_server st) !! id = Some c -> is_disconnected c = true ->
  steam_server_update st = Ret st' -> entry id st' = entry id st.
Proof.
  intros Hs Hc Hd H. unfold steam_server_update in H. destruct (fold_out poll_socket _ _) as [st1|] eqn:E; cbn in H; [|done].
  assert (entry id st1 = entry id st) as E1.
  { eapply (fold_out_inv _ (fun x => entry id x = entry id st)); [|done|exact E].
    intros s sock s' _ He Hp. rewrite <- He. by eapply entry_poll. }
  rewrite <- E1. eapply (fold_out_inv _ (fun x => entry id x = entry id st1)); [| |exact H]; [|done].
  intros s kv s' _ He Hr. rewrite <- He. apply (entry_receive id c kv); [|done|done].
  unfold entry in He, E1. simplify_eq. congruence.
Qed.

(** Sending serves the connected clients only. *)
Lemma entry_send_turn id i st st' :
  i <> id ->
  match ss_connections (sm_self st) !! i with
  | None => Ret st
  | Some connection =>
      let! (server, r) := server_get_packets_to_send (sm_server st) i in
      let! packets := match r with Ok packets => Ret packets | Err _ => Panic end in
      Ret (mkSteamState (sm_self st) (send_then_flush (sm_calls st) connection packets).1 server)
  end = Ret st' -> entry id st' = entry id st.
Proof.
  intros Hi. destruct (ss_connections _ !! _); [|by intros [= <-]]. unfold server_get_packets_to_send.
  destruct (connections (sm_server st) !! i) as [c|] eqn:E; cbn; [|done].
  destruct (get_packets_to_send c) as [[c' packets]|]; cbn; [|done]. intros [= <-]. unfold entry. cbn.
  by rewrite lookup_insert_ne.
Qed.

Lemma entry_send id c st st' :
  connections (sm_server st) !! id = Some c -> is_disconnected c = true ->
  steam_server_send_packets st = Ret st' -> entry id st' = entry id st.
Proof.
  intros Hc Hd H. eapply (fold_out_inv _ (fun x => entry id x = entry id st)); [|done|exact H].
  intros s i s' Hi He Hr. cbn beta in Hr. rewrite <- He. apply (entry_send_turn id i s s'); [|exact Hr]. intros ->.
  unfold clients_id in Hi. apply list_elem_of_fmap in Hi as ([k c1] & -> & [Hcon Hk]%list_elem_of_filter).
  apply elem_of_map_to_list in Hk. cbn in *. assert (c1 = c) as -> by congruence.
  unfold is_connected, is_disconnected in *. by destruct (connection_status c).
Qed.

End forgotten.

(** ** A scripted Steam, for concrete runs *)

Fixpoint polls (calls : SteamCalls) (sock : ListenSocket) : nat :=
  match calls with
  | [] => O
  | CallPoll s :: calls' => if s =? sock then S (polls calls' sock) else polls calls' sock
  | _ :: calls' => polls calls' sock
  end.

(** Every socket hands out the events of [script]; connections are in [state]
    and receive [messages] on every call; user 7 is a friend and in every lobby. *)
Definition scripted_steam (script : list ListenSocketEvent) (state : NetworkingConnectionState) (messages : list Bytes) : Steamworks := {|
  listen_p2p _ _ _ := Ok 1;
  listen_ip _ _ _ := Ok 2;
  poll_event calls sock := script !! polls calls sock;
  has_friend _ id := id =? 7;
  lobby_members _ _ := [7];
  connect_p2p _ _ := Ok 5;
  connect_ip _ _ := Ok 5;
  connection_info _ _ := Some (Some state, None);
  receive_messages _ _ _ := Ok messages;
  send_steam_message _ _ _ := Ok tt;
  flush_messages _ _ := Ok tt;
  user_steam_id := 1;
  pending_events calls sock := (length script - polls calls sock)%nat;
|}.

#[global] Instance scripted_laws script state messages : SteamLaws (scripted_steam script state messages).
Proof.
  split; cbn.
  - intros calls sock event H%lookup_lt_Some. rewrite Z.eqb_refl. lia.
  - intros calls call sock. destruct call; try lia. destruct (_ =? _); lia.
Qed.

(** ** The theorems *)

(** C22: However a Steam server transport is driven (events of any kind, in any
    order, on any socket; sends, kicks, changes of permission, and whatever the
    application does to the renet server short of adding or removing
    connections itself), the renet server has a connection exactly for the
    clients whose Steam connection the transport holds; and [disconnect_all]
    returns from every such state, with no connection left on either side. *)
Theorem steam_connections_match {oct : Octets} {steam : Steamworks} calls config options calls' self connection_config st :
  steam_server_new calls config options = (calls', Ok self) ->
  rtc steam_step (mkSteamState self calls' (server_new connection_config)) st ->
  dom (ss_connections (sm_self st)) = dom (connections (sm_server st)) /\
  forall flush, exists st', steam_disconnect_all st flush = Ret st' /\
    ss_connections (sm_self st') = ∅ /\ connections (sm_server st') = ∅.
Proof.
  intros Hnew Hrun. assert (matched st) as Hm.
  { eapply steam_reachable_matched; [|exact Hrun]. unfold matched. cbn. by rewrite (new_transport_empty _ _ _ _ _ Hnew), !dom_empty_L. }
  split; [exact Hm|]. intros flush. destruct (disconnect_all_effect st flush) as (st' & E & He & Hd). exists st'.
  split_and!; [done|done|]. apply dom_empty_iff_L. rewrite Hd. unfold matched in Hm. rewrite Hm. set_solver.
Qed.

(** Two users ask and then connect; a third one leaves. *)
Definition party_script : list ListenSocketEvent :=
  [LseConnecting (Some 7) 100; LseConnecting (Some 8) 101; LseConnected (Some 7) 20; LseConnected (Some 8) 21; LseDisconnected (Some 9)].

Definition party_steam : Steamworks := scripted_steam party_script NcsConnected [].

Definition party_new : SteamCalls * result SteamServerTransport InvalidHandle :=
  steam_server_new (steam := party_steam) [] (mkSteamConfig 1 Public) new_p2p.

Definition party_server : SteamServerTransport := mkSteamServer [1] 1 Public ∅.

Definition party_start : steam_state := mkSteamState party_server [CallListenP2p 0 []] (server_new default_config).

Definition party : out steam_state := steam_server_update (oct := quic_octets) (steam := party_steam) party_start.

Lemma party_runs : exists st, party = Ret st /\ dom (connections (sm_server st)) = {[7; 8]}.
Proof.
  destruct party as [st|] eqn:E; [|vm_compute in E; discriminate E].
  assert ((let! st := party in Ret (bool_decide (dom (connections (sm_server st)) = {[7; 8]}))) = Ret true) as H by (vm_compute; reflexivity).
  rewrite E in H. injection H as H. exists st. split; [reflexivity|]. by apply bool_decide_eq_true in H.
Qed.

Lemma steam_connections_match_witness :
  exists st, party = Ret st /\ dom (ss_connections (sm_self st)) = {[7; 8]}.
Proof.
  destruct party_runs as (st & E & Hd). exists st. split; [exact E|]. rewrite <- Hd.
  apply (steam_connections_match (oct := quic_octets) (steam := party_steam) [] (mkSteamConfig 1 Public) new_p2p [CallListenP2p 0 []] party_server default_config st).
  - reflexivity.
  - apply rtc_once. apply sst_update. exact E.
Defined.

(** C23: Admission follows the access permission.  Whatever events [update] finds,
    it only adds calls to those already made.  Each user that it accepts had just
    asked to connect, and may come in: everybody under [Public], nobody under
    [Private], under the others a friend, a listed user, a member of the lobby, by
    what Steam answers at that moment.  Each request that it rejects as not
    allowed is of a user that may not. *)
Theorem steam_admits_permitted {oct : Octets} {steam : Steamworks} st st' :
  steam_server_update st = Ret st' ->
  exists new, sm_calls st' = new ++ sm_calls st /\
    (forall l1 request id l2, new = l1 ++ CallAccept request id :: l2 ->
       exists sock before, l2 ++ sm_calls st = question (ss_access_permission (sm_self st)) id ++ CallPoll sock :: before /\
         poll_event before sock = Some (LseConnecting (Some id) request) /\
         match ss_access_permission (sm_self st) with
         | Public => True
         | Private => False
         | FriendsOnly => has_friend (CallPoll sock :: before) id = true
         | InList users => id ∈ users
         | InLobby lobby => id ∈ lobby_members (CallPoll sock :: before) lobby
         end) /\
    (forall l1 request l2, new = l1 ++ CallReject request "Not allowed" :: l2 ->
       exists id sock before, l2 ++ sm_calls st = question (ss_access_permission (sm_self st)) id ++ CallPoll sock :: before /\
         poll_event before sock = Some (LseConnecting (Some id) request) /\
         match ss_access_permission (sm_self st) with
         | Public => False
         | Private => True
         | FriendsOnly => has_friend (CallPoll sock :: before) id = false
         | InList users => id ∉ users
         | InLobby lobby => id ∉ lobby_members (CallPoll sock :: before) lobby
         end).
Proof.
  intros H. unfold steam_server_update in H. destruct (fold_out poll_socket _ _) as [st1|] eqn:E; cbn in H; [|done].
  set (perm := ss_access_permission (sm_self st)) in *.
  assert (extends perm (sm_calls st) (sm_calls st1) /\ ss_access_permission (sm_self st1) = perm) as [H1 _].
  { eapply (fold_out_inv _ (fun x => extends perm (sm_calls st) (sm_calls x) /\ ss_access_permission (sm_self x) = perm));
      [|split; reflexivity|exact E].
    intros s sock s' _ [Hx Hp] Hs. apply poll_loop_extends in Hs as [Hy Hq]. rewrite Hp in Hy, Hq. split; [by etrans|done]. }
  assert (extends perm (sm_calls st1) (sm_calls st')) as H2.
  { eapply (fold_out_inv _ (fun x => extends perm (sm_calls st1) (sm_calls x))); [|reflexivity|exact H].
    intros s kv s' _ Hx Hs. etrans; [exact Hx|by eapply receive_from_extends]. }
  destruct (transitivity H1 H2) as (new & Hn & Hl). exists new. split; [done|]. split.
  - intros l1 request id l2 E'. destruct (Hl _ _ _ E') as (sock & before & ? & ? & [Hc _]). exists sock, before. split; [done|]. split; [done|by apply Hc].
  - intros l1 request l2 E'. destruct (Hl _ _ _ E' eq_refl) as (id & sock & before & ? & ? & Hc). exists id, sock, before. split; [done|]. split; [done|].
    unfold consents in Hc. destruct perm; try tauto. apply not_true_is_false. tauto.
Qed.

Definition club_start : steam_state := mkSteamState (mkSteamServer [1] 5 FriendsOnly ∅) [CallListenP2p 0 []] (server_new default_config).

Definition club : out steam_state := steam_server_update (oct := quic_octets) (steam := party_steam) club_start.

(** The latest calls first. *)
Definition club_calls : SteamCalls :=
  [CallReceive 21 512; CallReceive 20 512; CallPoll 1; CallPoll 1; CallPoll 1; CallPoll 1; CallReject 101 "Not allowed"; CallHasFriend 8; CallPoll 1]
  ++ CallAccept 100 7 :: [CallHasFriend 7; CallPoll 1].

Lemma club_runs : exists st, club = Ret st /\ sm_calls st = club_calls ++ [CallListenP2p 0 []].
Proof.
  assert ((let! st := club in Ret (sm_calls st)) = Ret (club_calls ++ [CallListenP2p 0 []])) as H by (vm_compute; reflexivity).
  destruct club as [st|]; cbn [out_bind] in H; [|discriminate H]. exists st. split; [reflexivity|]. by injection H.
Qed.

(** A server for friends, which users 7 and 8 ask: 7 is accepted because it is a
    friend, 8 is rejected because it is not. *)
Lemma steam_admits_permitted_witness :
  (exists before, [CallHasFriend 7; CallPoll 1; CallListenP2p 0 []] = CallHasFriend 7 :: CallPoll 1 :: before /\
     has_friend (Steamworks := party_steam) (CallPoll 1 :: before) 7 = true) /\
  exists id sock before, [CallHasFriend 8; CallPoll 1; CallAccept 100 7; CallHasFriend 7; CallPoll 1; CallListenP2p 0 []] = CallHasFriend id :: CallPoll sock :: before /\
    has_friend (Steamworks := party_steam) (CallPoll sock :: before) id = false.
Proof.
  destruct club_runs as (st & E & Hc).
  destruct (steam_admits_permitted (oct := quic_octets) (steam := party_steam) club_start st E) as (new & H1 & H2 & H3).
  cbn [club_start sm_calls] in H1. rewrite Hc in H1. apply app_inj_tail in H1 as [H1 _]. split.
  - destruct (H2 _ 100 7 [CallHasFriend 7; CallPoll 1] (eq_sym H1)) as (sock & before & Hb & _ & Hf). cbn in Hb. injection Hb as <- <-.
    eexists. split; [reflexivity|exact Hf].
  - destruct (H3 [CallReceive 21 512; CallReceive 20 512; CallPoll 1; CallPoll 1; CallPoll 1; CallPoll 1] 101
        [CallHasFriend 8; CallPoll 1; CallAccept 100 7; CallHasFriend 7; CallPoll 1] (eq_sym H1)) as (id & sock & before & Hb & _ & Hf).
    exists id, sock, before. split; [exact Hb|exact Hf].
Defined.

(** C24: [update] empties every listen socket: the loop over its events, which has
    no bound of its own, ends with a poll that finds none. *)
Theorem steam_update_drains {oct : Octets} {steam : Steamworks} {laws : SteamLaws steam} st st' sock :
  steam_server_update st = Ret st' -> sock ∈ ss_listen_socket (sm_self st) ->
  exists later calls, sm_calls st' = later ++ CallPoll sock :: calls /\ poll_event calls sock = None.
Proof.
  intros H Hin. unfold steam_server_update in H. destruct (fold_out poll_socket _ _) as [st1|] eqn:E; cbn in H; [|done].
  assert (exists later, sm_calls st' = later ++ sm_calls st1) as [later ->].
  { eapply (fold_out_inv _ (fun x => exists later, sm_calls x = later ++ sm_calls st1)); [|by exists []|exact H].
    intros s kv s' _ [l Hl] Hs. apply (receive_from_extends Public) in Hs as (n & -> & _). rewrite Hl, app_assoc. by eexists. }
  apply list_elem_of_split in Hin as (before & after & Hsplit). rewrite Hsplit, fold_out_app in E.
  destruct (fold_out poll_socket st before) as [sta|]; cbn [fold_out out_bind] in E; [|done].
  destruct (poll_socket sta sock) as [stb|] eqn:Eb; cbn [out_bind] in E; [|done].
  apply poll_loop_drains in Eb as (calls & Hc & Hp); [|lia].
  assert (exists l, sm_calls st1 = l ++ sm_calls stb) as [l ->].
  { eapply (fold_out_inv _ (fun x => exists l, sm_calls x = l ++ sm_calls stb)); [|by exists []|exact E].
    intros s k s' _ [m Hm] Hs. apply poll_loop_extends in Hs as [(n & -> & _) _]. rewrite Hm, app_assoc. by eexists. }
  exists (later ++ l), calls. rewrite Hc. split; [by rewrite app_assoc|done].
Qed.

Lemma steam_update_drains_witness :
  exists st later calls, party = Ret st /\ sm_calls st = later ++ CallPoll 1 :: calls /\ (polls calls 1 >= 5)%nat.
Proof.
  destruct party_runs as (st & E & _).
  destruct (steam_update_drains (oct := quic_octets) (steam := party_steam) party_start st 1 E) as (later & calls & H1 & H2).
  - left.
  - exists st, later, calls. split; [exact E|]. split; [exact H1|]. apply lookup_ge_None in H2. exact H2.
Defined.

(** [max_clients] bounds the clients that are connected when a request comes,
    not those that were accepted: requests that are answered before any of them
    has connected are all accepted. Here one [update] admits two clients to a
    server of one. *)
Theorem steam_max_clients_exceeded :
  (let! st := party in Ret (ss_max_clients (sm_self st), connected_clients (sm_server st))) = Ret (1, 2).
Proof. vm_compute. reflexivity. Qed.

(** Over Steam, disconnecting a client of the renet server
    ([RenetServer::disconnect]) has no effect on the connection: as long as
    Steam itself reports nothing about the client, whatever [update] and
    [send_packets] do, the client stays in both tables, unchanged, no event is
    raised for it, and it is counted as a disconnected client of the server. *)
Theorem steam_disconnect_not_carried {oct : Octets} {steam : Steamworks} id c st st' :
  silent id -> connections (sm_server st) !! id = Some c -> is_disconnected c = true ->
  rtc (fun s s' => steam_server_update s = Ret s' \/ steam_server_send_packets s = Ret s') st st' ->
  entry id st' = entry id st /\ id ∈ disconnections_id (sm_server st').
Proof.
  intros Hs Hc Hd Hrun. assert (entry id st' = entry id st) as He.
  { induction Hrun as [|x y z Hxy _ IH]; [done|]. assert (entry id y = entry id x) as Ey.
    { destruct Hxy as [H|H]; [by eapply entry_update|by eapply entry_send]. }
    rewrite <- Ey. apply IH. unfold entry in Ey. congruence. }
  split; [done|]. unfold disconnections_id. apply list_elem_of_fmap. exists (id, c). split; [done|].
  apply list_elem_of_filter. split; [done|]. apply elem_of_map_to_list. unfold entry in He. congruence.
Qed.

(** Client 7 is kicked by the renet server, over a Steam that is quiet about it. *)
Definition quiet_steam : Steamworks := scripted_steam [LseConnecting (Some 8) 101] NcsConnected [].

Definition kicked_state : out steam_state :=
  let! server := add_connection (server_new default_config) 7 in
  Ret (mkSteamState (mkSteamServer [1] 4 Public {[7 := 20]}) [] (server_disconnect server 7)).

Definition kicked_later (st : steam_state) : out steam_state :=
  let! st := steam_server_update (oct := quic_octets) (steam := quiet_steam) st in
  steam_server_send_packets (oct := quic_octets) (steam := quiet_steam) st.

Lemma steam_disconnect_not_carried_witness :
  exists st st', kicked_state = Ret st /\ kicked_later st = Ret st' /\ 7 ∈ disconnections_id (sm_server st').
Proof.
  destruct kicked_state as [st|] eqn:E; [|vm_compute in E; discriminate E].
  destruct (kicked_later st) as [st'|] eqn:E'.
  2:{ exfalso. assert ((let! st := kicked_state in let! st := kicked_later st in Ret tt) = Ret tt) as H by (vm_compute; reflexivity).
      rewrite E in H. cbn [out_bind] in H. rewrite E' in H. discriminate H. }
  exists st, st'. split; [reflexivity|]. split; [exact E'|].
  assert ((let! st := kicked_state in Ret (is_disconnected <$> connections (sm_server st) !! 7)) = Ret (Some true)) as H
    by (vm_compute; reflexivity).
  rewrite E in H. injection H as H. destruct (connections (sm_server st) !! 7) as [c|] eqn:Ec; [|discriminate H]. injection H as Hd.
  unfold kicked_later in E'. destruct (steam_server_update st) as [st1|] eqn:E1; [|discriminate E']. cbn [out_bind] in E'.
  apply (steam_disconnect_not_carried (oct := quic_octets) (steam := quiet_steam) 7 c st st').
  - intros calls sock. cbn. destruct (polls calls sock) as [|[|n]]; exact I.
  - exact Ec.
  - exact Hd.
  - eapply rtc_l; [left; exact E1|]. apply rtc_once. right. exact E'.
Defined.

(** The client transport panics only where the renet client does: the two
    [unreachable!] are, although each asks Steam for the state of the connection
    anew, and a panic of [update] is one of [process_packet] on a message that
    was received, a panic of [send_packets] one of [get_packets_to_send]. *)
Theorem steam_client_panics_in_renet {oct : Octets} {steam : Steamworks} self calls client :
  steam_client_update self calls client = Panic \/ steam_client_send_packets self calls client = Panic ->
  (exists calls' connection messages client', cs_state self = ScConnected connection /\
     receive_messages calls' connection MAX_MESSAGE_BATCH_SIZE = Ok messages /\
     client' ∈ [set_connected client; set_connecting client; client] /\ fold_out process_packet client' messages = Panic) \/
  get_packets_to_send client = Panic.
Proof.
  intros [H|H].
  - left. unfold steam_client_update, sc_is_disconnected, sc_is_connected, sc_is_connecting, connection_state in H.
    destruct (cs_state self) as [connection|]; [|done].
    repeat match type of H with
    | (if ?b then _ else _) = _ => destruct b; [discriminate|]
    | (let '(_, _) := (if ?b then _ else _) in _) = _ => destruct b
    | match receive_messages ?cs _ _ with _ => _ end = _ => destruct (receive_messages cs connection MAX_MESSAGE_BATCH_SIZE) as [messages|] eqn:E; [|discriminate]
    end.
    + destruct (fold_out _ _ _) eqn:Ef; [discriminate|]. eexists _, connection, messages, _. split_and!; [done|exact E| |exact Ef]. set_solver.
    + destruct (fold_out _ _ _) eqn:Ef; [discriminate|]. eexists _, connection, messages, _. split_and!; [done|exact E| |exact Ef].
      destruct (_ || _); set_solver.
  - right. unfold steam_client_send_packets, sc_is_disconnected, sc_is_connecting, connection_state in H.
    destruct (cs_state self) as [connection|]; [|done]. destruct (_ || _ || _); [done|]. destruct (_ || _); [done|].
    destruct (get_packets_to_send client) as [[c ps]|]; [|done]. cbn in H. by destruct (send_then_flush _ _ _).
Qed.

(** A peer that sends the slice whose index is out of range. *)
Definition hostile_steam : Steamworks := scripted_steam [] NcsConnected [forged_slice 0 2 2].

Lemma steam_client_panics_in_renet_witness :
  exists c, default_client = Ret c /\
    steam_client_update (oct := quic_octets) (steam := hostile_steam) (mkSteamClient (ScConnected 5)) [] c = Panic /\
    ((exists calls' connection messages client', ScConnected 5 = ScConnected connection /\
       receive_messages (Steamworks := hostile_steam) calls' connection MAX_MESSAGE_BATCH_SIZE = Ok messages /\
       client' ∈ [set_connected c; set_connecting c; c] /\ fold_out (process_packet (oct := quic_octets)) client' messages = Panic) \/
     get_packets_to_send (oct := quic_octets) c = Panic).
Proof.
  destruct default_client as [c|] eqn:E; [|vm_compute in E; discriminate E].
  assert (steam_client_update (oct := quic_octets) (steam := hostile_steam) (mkSteamClient (ScConnected 5)) [] c = Panic) as H.
  { destruct (steam_client_update (oct := quic_octets) (steam := hostile_steam) (mkSteamClient (ScConnected 5)) [] c) eqn:Eu; [|reflexivity].
    assert ((let! c := default_client in steam_client_update (oct := quic_octets) (steam := hostile_steam) (mkSteamClient (ScConnected 5)) [] c) = Panic) as H
      by (vm_compute; reflexivity).
    rewrite E in H. cbn [out_bind] in H. rewrite Eu in H. discriminate H. }
  exists c. split; [reflexivity|]. split; [exact H|].
  apply (steam_client_panics_in_renet (oct := quic_octets) (steam := hostile_steam) (mkSteamClient (ScConnected 5)) [] c). left. exact H.
Defined.
