(* ===== verification/Visualizer.v ===== *)
(** * The visualizer (renet_visualizer/src)

    The circular buffers of the last [N] values of each metric, what the client
    and the server visualizers record in them, and what they ask to be drawn:
    the graphs with their scale and points.  Widgets, layout and text are egui's
    and are not modelled; [remap], the linear map of egui, is a parameter. *)

From Stdlib Require Import SpecFloat.
From stdpp Require Import strings.
From S2P Require Import Prelude Octets Packet Stats Connection Server.

(** ** [f32] *)

Abbreviation f32 := spec_float.

(** [x as f32], from a float and from an integer. *)
Definition f32_of_f64 (x : f64) : f32 :=
  match x with
  | S754_finite s m e => binary_normalize 24 128 (cond_Zopp s (Zpos m)) e s
  | _ => x
  end.
Definition f32_of (x : Z) : f32 := binary_normalize 24 128 x 0 false.
Definition f32_mul : f32 -> f32 -> f32 := SFmul 24 128.
Definition f32_add : f32 -> f32 -> f32 := SFadd 24 128.
Definition f32_sub : f32 -> f32 -> f32 := SFsub 24 128.
(** A decimal literal, as the quotient it stands for. *)
Definition f32_ratio (a b : Z) : f32 := SFdiv 24 128 (f32_of a) (f32_of b).

Definition is_nan (x : f32) : bool := match x with S754_nan => true | _ => false end.

(** [f32::max]: a NaN gives way to the other argument. *)
Definition f32_max (a b : f32) : f32 :=
  if is_nan a then b else if is_nan b then a else if SFltb a b then b else a.

(** ** Circular buffers (circular_buffer.rs) *)

Record CircularBuffer (T : Type) := mkBuffer {
  cb_queue : list T;
  cb_cursor : Z;
}.
Arguments mkBuffer {T}.
Arguments cb_queue {T}.
Arguments cb_cursor {T}.

(** The length [N] is a parameter of the type: it is that of the array. *)
Definition buffer_default {T} (N : Z) (zero : T) : CircularBuffer T := mkBuffer (vec_repeat zero N) 0.

Definition buffer_push {T} (N : Z) (self : CircularBuffer T) (value : T) : out (CircularBuffer T) :=
  let! queue := vec_set (cb_queue self) (cb_cursor self) value in
  let! cursor := add64 (cb_cursor self) 1 in
  let! cursor := if N =? 0 then Panic else Ret (cursor mod N) in
  Ret (mkBuffer queue cursor).

(** [split_at] panics when the cursor is out of range. *)
Definition as_vec {T} (self : CircularBuffer T) : out (list T) :=
  let! end_ := sub_slice (cb_queue self) 0 (cb_cursor self) in
  let! start := sub_slice (cb_queue self) (cb_cursor self) (len (cb_queue self)) in
  Ret (start ++ end_).

(** ** Clients (lib.rs) *)

(** The style only matters through the size of the graphs. *)
Record RenetVisualizerStyle := mkStyle { vs_width : f32; vs_height : f32 }.

Definition style_default : RenetVisualizerStyle := mkStyle (f32_of 200) (f32_of 100).

Inductive TopValue :=
  | SuggestedValues (values : list f32)
  | MaxValue (multiplicated : f32).

Inductive TextFormat := Percentage | Normal.

Record RenetClientVisualizer := mkClientVisualizer {
  cv_rtt : CircularBuffer f32;
  cv_sent_bandwidth_kbps : CircularBuffer f32;
  cv_received_bandwidth_kbps : CircularBuffer f32;
  cv_packet_loss : CircularBuffer f32;
  cv_style : RenetVisualizerStyle;
}.

(** [f32::default()]. *)
Definition f32_zero : f32 := f32_of 0.

Definition client_visualizer_new (N : Z) (style : RenetVisualizerStyle) : RenetClientVisualizer :=
  mkClientVisualizer (buffer_default N f32_zero) (buffer_default N f32_zero) (buffer_default N f32_zero)
    (buffer_default N f32_zero) style.

Definition client_visualizer_default (N : Z) : RenetClientVisualizer := client_visualizer_new N style_default.

(** Bytes per second in kilobits per second. *)
Definition kbps (bytes_per_second : f64) : f32 :=
  f32_of_f64 (f64_div (f64_mul bytes_per_second (f64_of 8)) (f64_of 1000)).

Definition client_add_network_info (N : Z) (self : RenetClientVisualizer) (info : NetworkInfo) : out RenetClientVisualizer :=
  let! rtt := buffer_push N (cv_rtt self) (f32_of_f64 (f64_mul (ni_rtt info) (f64_of 1000))) in
  let! sent := buffer_push N (cv_sent_bandwidth_kbps self) (kbps (ni_bytes_sent_per_second info)) in
  let! received := buffer_push N (cv_received_bandwidth_kbps self) (kbps (ni_bytes_received_per_second info)) in
  let! loss := buffer_push N (cv_packet_loss self) (f32_of_f64 (ni_packet_loss info)) in
  Ret (mkClientVisualizer rtt sent received loss (cv_style self)).

(** ** Graphs *)

(** The arguments of a call of [show_graph]. *)
Record graph := mkGraph {
  g_style : RenetVisualizerStyle;
  g_label : string;
  g_text_format : TextFormat;
  g_top_value : TopValue;
  g_values : list f32;
}.

Definition draw_received_kbps (self : RenetClientVisualizer) : out graph :=
  let! values := as_vec (cv_received_bandwidth_kbps self) in
  Ret (mkGraph (cv_style self) "Received Kbitps" Normal (MaxValue (f32_ratio 3 2)) values).

Definition draw_sent_kbps (self : RenetClientVisualizer) : out graph :=
  let! values := as_vec (cv_sent_bandwidth_kbps self) in
  Ret (mkGraph (cv_style self) "Sent Kbitps" Normal (MaxValue (f32_ratio 3 2)) values).

Definition draw_packet_loss (self : RenetClientVisualizer) : out graph :=
  let! values := as_vec (cv_packet_loss self) in
  Ret (mkGraph (cv_style self) "Packet Loss" Percentage
    (SuggestedValues [f32_ratio 5 100; f32_ratio 1 10; f32_ratio 1 4; f32_ratio 1 2; f32_of 1]) values).

Definition draw_rtt (self : RenetClientVisualizer) : out graph :=
  let! values := as_vec (cv_rtt self) in
  Ret (mkGraph (cv_style self) "Round Time Trip (ms)" Normal
    (SuggestedValues [f32_of 32; f32_of 64; f32_of 128; f32_of 256; f32_of 512]) values).

Definition draw_all (self : RenetClientVisualizer) : out (list graph) :=
  let! received := draw_received_kbps self in
  let! sent := draw_sent_kbps self in
  let! rtt := draw_rtt self in
  let! loss := draw_packet_loss self in
  Ret [received; sent; rtt; loss].

(** The first suggested value above [max], or [max]. *)
Fixpoint suggested_top (max : f32) (suggested_values : list f32) : f32 :=
  match suggested_values with
  | [] => max
  | value :: suggested_values' => if SFltb max value then value else suggested_top max suggested_values'
  end.

Definition graph_max (values : list f32) : f32 := foldl f32_max (S754_infinity true) values.

(** The value at the top of a graph. *)
Definition graph_top (top_value : TopValue) (values : list f32) : f32 :=
  match top_value with
  | MaxValue multiplicated => f32_mul (graph_max values) multiplicated
  | SuggestedValues suggested_values => suggested_top (graph_max values) suggested_values
  end.

(** The points of the line, from the lower left corner that the layout gives;
    [remap x from to] maps one interval to another. A graph of no value is not drawn. *)
Definition graph_points (remap : f32 -> f32 * f32 -> f32 * f32 -> f32) (init_x init_y : f32) (g : graph) : list (f32 * f32) :=
  let max := graph_top (g_top_value g) (g_values g) in
  let size := len (g_values g) in
  imap (fun i value =>
    let x := remap (f32_of (Z.of_nat i)) (f32_zero, f32_of size) (f32_zero, vs_width (g_style g)) in
    let y := if SFeqb max f32_zero then f32_zero else remap value (f32_zero, max) (f32_zero, vs_height (g_style g)) in
    (f32_add x init_x, f32_sub init_y y)) (g_values g).

(** ** The server visualizer *)

Record RenetServerVisualizer := mkServerVisualizer {
  sv_show_all_clients : bool;
  sv_selected_client : option Z;
  sv_clients : gmap Z RenetClientVisualizer;
  sv_style : RenetVisualizerStyle;
}.

Definition server_visualizer_new (style : RenetVisualizerStyle) : RenetServerVisualizer := mkServerVisualizer false None ∅ style.
Definition server_visualizer_default : RenetServerVisualizer := server_visualizer_new style_default.

Definition sv_set_clients (self : RenetServerVisualizer) (x : gmap Z RenetClientVisualizer) : RenetServerVisualizer :=
  mkServerVisualizer (sv_show_all_clients self) (sv_selected_client self) x (sv_style self).

Definition visualizer_add_client (N : Z) (self : RenetServerVisualizer) (client_id : Z) : RenetServerVisualizer :=
  sv_set_clients self (<[client_id := client_visualizer_new N (sv_style self)]> (sv_clients self)).

Definition visualizer_remove_client (self : RenetServerVisualizer) (client_id : Z) : RenetServerVisualizer :=
  sv_set_clients self (delete client_id (sv_clients self)).

Definition server_add_network_info (N : Z) (self : RenetServerVisualizer) (client_id : Z) (info : NetworkInfo) : out RenetServerVisualizer :=
  match sv_clients self !! client_id with
  | Some client =>
      let! client := client_add_network_info N client info in
      Ret (sv_set_clients self (<[client_id := client]> (sv_clients self)))
  | None => Ret self
  end.

Definition visualizer_update (N : Z) (self : RenetServerVisualizer) (server : RenetServer) : out RenetServerVisualizer :=
  fold_out (fun self client_id =>
    let! r := server_network_info server client_id in
    match r with
    | Ok info => server_add_network_info N self client_id info
    | Err _ => Ret self
    end) self (clients_id server).

Definition draw_client_metrics (self : RenetServerVisualizer) (client_id : Z) : out (list graph) :=
  match sv_clients self !! client_id with
  | Some client => draw_all client
  | None => Ret []
  end.

(** What the window shows of the clients: all of them, or the selected one. *)
Definition window_graphs (self : RenetServerVisualizer) : out (list (Z * list graph)) :=
  if sv_show_all_clients self then
    fold_out (fun drawn kv => let! graphs := draw_all kv.2 in Ret (drawn ++ [(kv.1, graphs)])) [] (map_to_list (sv_clients self))
  else
    match sv_selected_client self with
    | Some selected_client =>
        match sv_clients self !! selected_client with
        | Some client => let! graphs := draw_all client in Ret [(selected_client, graphs)]
        | None => Ret []
        end
    | None => Ret []
    end.

(** ** The buffers hold the last values *)

Section buffers.
Context {T : Type} (N : Z).
Implicit Types b : CircularBuffer T.

Definition buffer_ok b : Prop := len (cb_queue b) = N /\ 0 <= cb_cursor b < N /\ N <= U64_MAX.

Lemma buffer_default_ok (zero : T) : 0 < N <= U64_MAX -> buffer_ok (buffer_default N zero).
Proof. intros. unfold buffer_ok. cbn. rewrite len_repeat by lia. lia. Qed.

Lemma as_vec_ok b : buffer_ok b ->
  as_vec b = Ret (drop (Z.to_nat (cb_cursor b)) (cb_queue b) ++ take (Z.to_nat (cb_cursor b)) (cb_queue b)).
Proof.
  intros (Hl & Hc & _). unfold as_vec. rewrite !sub_slice_ok by lia. cbn [out_bind]. do 2 f_equal.
  - rewrite take_ge; [done|]. rewrite length_drop. unfold len in *. lia.
  - by rewrite Z.sub_0_r, drop_0.
Qed.

(** A push drops the oldest value and appends the new one. *)
Lemma buffer_push_shifts b x : buffer_ok b ->
  exists b' old, buffer_push N b x = Ret b' /\ buffer_ok b' /\ as_vec b = Ret old /\ as_vec b' = Ret (tail old ++ [x]).
Proof.
  intros Hok. pose proof Hok as (Hl & Hc & HN). unfold buffer_push.
  rewrite vec_set_ok by lia. cbn [out_bind]. rewrite add64_ok by lia. cbn [out_bind].
  destruct (Z.eqb_spec N 0); [lia|]. cbn [out_bind].
  set (b' := mkBuffer _ _). assert (buffer_ok b') as Hok'.
  { unfold buffer_ok, b'. cbn. unfold len in *. rewrite length_insert. pose proof (Z.mod_pos_bound (cb_cursor b + 1) N). lia. }
  exists b', (drop (Z.to_nat (cb_cursor b)) (cb_queue b) ++ take (Z.to_nat (cb_cursor b)) (cb_queue b)).
  split; [done|]. split; [done|]. split; [by apply as_vec_ok|]. rewrite (as_vec_ok b' Hok'). f_equal. unfold b'. cbn.
  set (q := cb_queue b) in *. set (c := Z.to_nat (cb_cursor b)).
  assert (c < length q)%nat as Hcl by (unfold len, c in *; lia).
  assert (tail (drop c q ++ take c q) = drop (S c) q ++ take c q) as ->.
  { destruct (lookup_lt_is_Some_2 q c Hcl) as [y Hy]. by rewrite (drop_S _ _ _ Hy). }
  destruct (decide (cb_cursor b + 1 = N)) as [E|E].
  - rewrite E, Z.mod_same by lia. cbn. rewrite drop_0, app_nil_r, (drop_ge q) by (unfold len, c in *; lia). cbn.
    rewrite insert_take_drop, drop_ge by (unfold len, c in *; lia). done.
  - rewrite Z.mod_small by lia. replace (Z.to_nat (cb_cursor b + 1)) with (S c) by (unfold c; lia).
    rewrite drop_insert_lt by lia. rewrite <- app_assoc. f_equal.
    rewrite insert_take_drop, take_app_ge by (rewrite ?length_take; lia). rewrite length_take.
    by replace (S c - c `min` length q)%nat with 1%nat by lia.
Qed.

(** Any number of pushes leaves the last [N] values, the zeros before the first ones. *)
Lemma buffer_pushes_window xs : forall b old,
  buffer_ok b -> as_vec b = Ret old ->
  exists b', fold_out (buffer_push N) b xs = Ret b' /\ buffer_ok b' /\ as_vec b' = Ret (drop (length xs) (old ++ xs)).
Proof.
  induction xs as [|x xs IH]; intros b old Hok Ho; cbn [fold_out length].
  - exists b. by rewrite drop_0, app_nil_r.
  - destruct (buffer_push_shifts b x Hok) as (b1 & old1 & -> & Hok1 & Ho1 & Hv). cbn [out_bind].
    rewrite Ho in Ho1. injection Ho1 as <-. destruct (IH b1 _ Hok1 Hv) as (b' & -> & Hok' & Hv'). exists b'. split_and!; [done..|].
    rewrite Hv'. f_equal. rewrite <- app_assoc. cbn. destruct old as [|y old]; [|done].
    exfalso. rewrite as_vec_ok in Ho by done. injection Ho as Ho%app_eq_nil. destruct Ho as [Hd Ht].
    destruct Hok as (Hl & Hc & _). apply (f_equal length) in Hd, Ht. rewrite length_drop in Hd. rewrite length_take in Ht.
    unfold len in Hl. cbn in *. lia.
Qed.

End buffers.

(** A circular buffer is the window of the last [N] values: pushing any
    values into a new one never runs out of range, keeps the cursor below [N],
    and [as_vec] then returns the last [N] of the zeros followed by those
    values, oldest first. *)
Theorem circular_buffer_window {T} N (zero : T) xs :
  0 < N <= U64_MAX ->
  exists b, fold_out (buffer_push N) (buffer_default N zero) xs = Ret b /\ 0 <= cb_cursor b < N /\
    as_vec b = Ret (drop (length xs) (replicate (Z.to_nat N) zero ++ xs)).
Proof.
  intros HN. pose proof (buffer_default_ok N zero HN) as Hok.
  destruct (buffer_pushes_window N xs _ (replicate (Z.to_nat N) zero) Hok) as (b & E & Hb & Hv).
  - rewrite (as_vec_ok N _ Hok). cbn. by rewrite drop_0, app_nil_r.
  - exists b. split; [exact E|]. split; [|exact Hv]. by destruct Hb as (_ & ? & _).
Qed.

Lemma circular_buffer_window_witness :
  exists b, fold_out (buffer_push 3) (buffer_default 3 0) [1; 2; 3; 4; 5] = Ret b /\ as_vec b = Ret [3; 4; 5].
Proof.
  destruct (circular_buffer_window 3 0 [1; 2; 3; 4; 5]) as (b & E & _ & Hv).
  - unfold U64_MAX. lia.
  - exists b. split; [exact E|exact Hv].
Defined.

(** ** What an update records *)

Definition client_visualizer_ok (N : Z) (v : RenetClientVisualizer) : Prop :=
  buffer_ok N (cv_rtt v) /\ buffer_ok N (cv_sent_bandwidth_kbps v) /\
  buffer_ok N (cv_received_bandwidth_kbps v) /\ buffer_ok N (cv_packet_loss v).

Definition visualizer_ok (N : Z) (self : RenetServerVisualizer) : Prop :=
  map_Forall (fun _ v => client_visualizer_ok N v) (sv_clients self).

Lemma new_visualizer_ok N style : 0 < N <= U64_MAX -> client_visualizer_ok N (client_visualizer_new N style).
Proof. intros. split_and!; by apply buffer_default_ok. Qed.

(** The window of [b'] is that of [b] moved on by [x]. *)
Definition shifted (b b' : CircularBuffer f32) (x : f32) : Prop :=
  exists old, as_vec b = Ret old /\ as_vec b' = Ret (tail old ++ [x]).

(** The windows of [v'] are those of [v] moved on by one sample. *)
Definition sampled (v v' : RenetClientVisualizer) (info : NetworkInfo) : Prop :=
  shifted (cv_rtt v) (cv_rtt v') (f32_of_f64 (f64_mul (ni_rtt info) (f64_of 1000))) /\
  shifted (cv_sent_bandwidth_kbps v) (cv_sent_bandwidth_kbps v') (kbps (ni_bytes_sent_per_second info)) /\
  shifted (cv_received_bandwidth_kbps v) (cv_received_bandwidth_kbps v') (kbps (ni_bytes_received_per_second info)) /\
  shifted (cv_packet_loss v) (cv_packet_loss v') (f32_of_f64 (ni_packet_loss info)).

Lemma add_network_info_samples N v info : client_visualizer_ok N v ->
  exists v', client_add_network_info N v info = Ret v' /\ client_visualizer_ok N v' /\ sampled v v' info.
Proof.
  intros (H1 & H2 & H3 & H4). unfold client_add_network_info.
  destruct (buffer_push_shifts N _ (f32_of_f64 (f64_mul (ni_rtt info) (f64_of 1000))) H1) as (b1 & o1 & -> & ? & ? & ?).
  destruct (buffer_push_shifts N _ (kbps (ni_bytes_sent_per_second info)) H2) as (b2 & o2 & E2 & ? & ? & ?).
  destruct (buffer_push_shifts N _ (kbps (ni_bytes_received_per_second info)) H3) as (b3 & o3 & E3 & ? & ? & ?).
  destruct (buffer_push_shifts N _ (f32_of_f64 (ni_packet_loss info)) H4) as (b4 & o4 & E4 & ? & ? & ?).
  cbn [out_bind]. rewrite E2. cbn [out_bind]. rewrite E3. cbn [out_bind]. rewrite E4. cbn [out_bind].
  eexists. split; [reflexivity|]. split; [done|]. split_and!; by eexists.
Qed.

Lemma elem_of_clients_id server id : id ∈ clients_id server <-> server_is_connected server id = true.
Proof.
  unfold clients_id, server_is_connected. rewrite list_elem_of_fmap. split.
  - intros ([k c] & -> & [Hc Hk]%list_elem_of_filter). apply elem_of_map_to_list in Hk. cbn in *. by rewrite Hk.
  - destruct (connections server !! id) as [c|] eqn:E; [|done]. intros Hc. exists (id, c). split; [done|].
    apply list_elem_of_filter. split; [done|]. by apply elem_of_map_to_list.
Qed.

(** The loop of [update] over some of the clients. *)
Lemma update_loop_samples N server ids : NoDup ids -> forall self self',
  visualizer_ok N self ->
  fold_out (fun self client_id =>
    let! r := server_network_info server client_id in
    match r with
    | Ok info => server_add_network_info N self client_id info
    | Err _ => Ret self
    end) self ids = Ret self' ->
  visualizer_ok N self' /\
  forall id v, sv_clients self !! id = Some v ->
    exists v', sv_clients self' !! id = Some v' /\
      if bool_decide (id ∈ ids)
      then match connections server !! id with
           | Some c => exists info, network_info c = Ret info /\ sampled v v' info
           | None => v' = v
           end
      else v' = v.
Proof.
  induction 1 as [|i ids Hi _ IH]; intros self self' Hok H; cbn [fold_out] in H.
  - injection H as <-. split; [done|]. intros id v Hv. exists v. by rewrite bool_decide_eq_false_2 by apply not_elem_of_nil.
  - destruct (server_network_info server i) as [r|] eqn:En; cbn [out_bind] in H; [|done].
    unfold server_network_info in En.
    assert (exists self1, (match r with Ok info => server_add_network_info N self i info | Err _ => Ret self end) = Ret self1 /\
      visualizer_ok N self1 /\
      (forall id, id <> i -> sv_clients self1 !! id = sv_clients self !! id) /\
      (forall v, sv_clients self !! i = Some v -> exists v1, sv_clients self1 !! i = Some v1 /\
         match connections server !! i with
         | Some c => exists info, network_info c = Ret info /\ sampled v v1 info
         | None => v1 = v
         end)) as (self1 & E1 & Hok1 & Hother & Hsame).
    { destruct (connections server !! i) as [c|] eqn:Ec.
      - destruct (network_info c) as [info|] eqn:Ei; cbn in En; [|done]. injection En as <-.
        unfold server_add_network_info. destruct (sv_clients self !! i) as [v|] eqn:Ev; [|by exists self].
        destruct (add_network_info_samples N v info (Hok i v Ev)) as (v' & -> & Hv' & Hs). cbn [out_bind].
        eexists. split; [reflexivity|]. split_and!.
        + by apply map_Forall_insert_2.
        + intros id Hne. cbn. by rewrite lookup_insert_ne.
        + intros v0 [= <-]. exists v'. cbn. rewrite lookup_insert_eq. split; [done|]. by exists info.
      - injection En as <-. exists self. split_and!; [done..|]. intros v Hv. by exists v. }
    rewrite E1 in H. cbn [out_bind] in H. destruct (IH _ _ Hok1 H) as [Hok' Hall]. split; [done|].
    intros id v Hv. destruct (decide (id = i)) as [->|Hne].
    + destruct (Hsame v Hv) as (v1 & Hv1 & Hs). destruct (Hall i v1 Hv1) as (v' & Hv' & Hs').
      rewrite bool_decide_eq_false_2 in Hs' by done. subst v'. exists v1. split; [done|]. by rewrite bool_decide_eq_true_2 by set_solver.
    + destruct (Hall id v) as (v' & Hv' & Hs'); [by rewrite Hother|]. exists v'. split; [done|].
      by rewrite (bool_decide_ext (id ∈ i :: ids) (id ∈ ids)) by set_solver.
Qed.

(** [update] samples exactly the connected clients: the four windows of each
    client that is shown and connected move on by one sample of its network
    information, converted to milliseconds, kilobits per second and [f32]; the
    windows of every other client stay as they are. *)
Theorem visualizer_update_samples N self server self' id v :
  visualizer_ok N self -> visualizer_update N self server = Ret self' -> sv_clients self !! id = Some v ->
  exists v', sv_clients self' !! id = Some v' /\
    match connections server !! id with
    | Some c => if is_connected c then exists info, network_info c = Ret info /\ sampled v v' info else v' = v
    | None => v' = v
    end.
Proof.
  intros Hok H Hv. destruct (update_loop_samples N server _ (clients_id_NoDup server) _ _ Hok H) as [_ Hall].
  destruct (Hall id v Hv) as (v' & Hv' & Hs). exists v'. split; [done|].
  rewrite (bool_decide_ext _ _ (elem_of_clients_id server id)) in Hs. unfold server_is_connected in Hs.
  destruct (connections server !! id) as [c|]; [|by case_bool_decide].
  destruct (is_connected c); [by rewrite bool_decide_eq_true_2 in Hs|by rewrite bool_decide_eq_false_2 in Hs].
Qed.

(** A server with client 7, shown with windows of 3 values. *)
Definition shown_server : out RenetServer := add_connection (server_new default_config) 7.
Definition shown_start : RenetServerVisualizer := visualizer_add_client 3 server_visualizer_default 7.

Lemma shown_start_ok : visualizer_ok 3 shown_start.
Proof.
  unfold visualizer_ok, shown_start, visualizer_add_client. cbn. apply map_Forall_insert_2; [|apply map_Forall_empty].
  apply new_visualizer_ok. unfold U64_MAX. lia.
Qed.

Lemma visualizer_update_samples_witness :
  exists server self' c v', shown_server = Ret server /\ visualizer_update 3 shown_start server = Ret self' /\
    connections server !! 7 = Some c /\ sv_clients self' !! 7 = Some v' /\
    exists info, network_info c = Ret info /\ sampled (client_visualizer_new 3 style_default) v' info.
Proof.
  destruct shown_server as [server|] eqn:E; [|vm_compute in E; discriminate E].
  destruct (visualizer_update 3 shown_start server) as [self'|] eqn:Eu.
  2:{ exfalso. assert ((let! s := shown_server in let! v := visualizer_update 3 shown_start s in Ret tt) = Ret tt) as H by (vm_compute; reflexivity).
      rewrite E in H. cbn [out_bind] in H. rewrite Eu in H. discriminate H. }
  assert ((let! s := shown_server in Ret (is_connected <$> connections s !! 7)) = Ret (Some true)) as Hc by (vm_compute; reflexivity).
  rewrite E in Hc. injection Hc as Hc. destruct (connections server !! 7) as [c|] eqn:Ec; [|discriminate Hc]. injection Hc as Hc.
  destruct (visualizer_update_samples 3 shown_start server self' 7 (client_visualizer_new 3 style_default)) as (v' & Hv' & Hs).
  - exact shown_start_ok.
  - exact Eu.
  - reflexivity.
  - rewrite Ec, Hc in Hs. exists server, self', c, v'. split; [reflexivity|]. split; [exact Eu|]. split; [exact Ec|]. split; [exact Hv'|exact Hs].
Defined.

(** ** The scale of a graph *)

(** The place of a number in the order of floats: sign class, exponent, mantissa. *)
Definition rank (x : f32) : Z * Z * Z :=
  match x with
  | S754_infinity true => (0, 0, 0)
  | S754_finite true m e => (1, - e, - Zpos m)
  | S754_zero _ | S754_nan => (2, 0, 0)
  | S754_finite false m e => (3, e, Zpos m)
  | S754_infinity false => (4, 0, 0)
  end.

Definition rank_le (a b : Z * Z * Z) : Prop :=
  a.1.1 < b.1.1 \/ (a.1.1 = b.1.1 /\ (a.1.2 < b.1.2 \/ (a.1.2 = b.1.2 /\ a.2 <= b.2))).

Lemma SFleb_rank (x y : f32) :
  is_nan x = false -> is_nan y = false -> SFleb x y = true <-> rank_le (rank x) (rank y).
Proof.
  unfold SFleb, rank_le. intros Hx Hy.
  destruct x as [[]|[]| |[] m1 e1], y as [[]|[]| |[] m2 e2]; cbn in *; try done;
    try (split; [intros _; lia|done]); try (split; [done|lia]).
  - destruct (Z.compare_spec e1 e2) as [->|?|?]; [|split; [done|lia]|split; [lia|done]].
    change (Pos.compare_cont Eq m1 m2) with (Pos.compare m1 m2).
    destruct (Pos.compare_spec m1 m2); cbn; (split; [intros; try done; lia|intros; try done; lia]).
  - destruct (Z.compare_spec e1 e2) as [->|?|?]; [|split; [lia|done]|split; [done|lia]].
    change (Pos.compare_cont Eq m1 m2) with (Pos.compare m1 m2).
    destruct (Pos.compare_spec m1 m2); cbn; (split; [intros; try done; lia|intros; try done; lia]).
Qed.

Lemma SFltb_leb (x y : f32) : SFltb x y = true -> SFleb x y = true.
Proof. unfold SFltb, SFleb. by destruct (SFcompare x y) as [[]|]. Qed.

Lemma SFltb_nan (x y : f32) : SFltb x y = true -> is_nan x = false /\ is_nan y = false.
Proof. unfold SFltb. destruct x as [[]|[]| |[] m1 e1], y as [[]|[]| |[] m2 e2]; cbn; done. Qed.

(** Of two numbers the one that is not below is above. *)
Lemma SFltb_false_leb (x y : f32) : is_nan x = false -> is_nan y = false -> SFltb x y = false -> SFleb y x = true.
Proof.
  intros Hx Hy H. apply SFleb_rank; [done..|]. assert (SFleb x y = false \/ SFeqb x y = true) as [E|E].
  - unfold SFltb, SFleb, SFeqb in *. destruct (SFcompare x y) as [[]|]; auto.
  - pose proof (SFleb_rank x y Hx Hy) as Hr. unfold rank_le in *. rewrite E in Hr.
    assert (~ (false = true)) by done. destruct (rank x) as [[a b] c], (rank y) as [[a' b'] c']. cbn in *.
    destruct (decide (a < a' \/ a = a' /\ (b < b' \/ b = b' /\ c <= c'))); [tauto|lia].
  - clear H. unfold SFeqb, rank_le in *.
    destruct x as [[]|[]| |[] m1 e1], y as [[]|[]| |[] m2 e2]; cbn in *; try done; try lia.
    + destruct (Z.compare_spec e1 e2) as [->|?|?]; try done. change (Pos.compare_cont Eq m1 m2) with (Pos.compare m1 m2) in E.
      destruct (Pos.compare_spec m1 m2); cbn in E; try done. lia.
    + destruct (Z.compare_spec e1 e2) as [->|?|?]; try done. change (Pos.compare_cont Eq m1 m2) with (Pos.compare m1 m2) in E.
      destruct (Pos.compare_spec m1 m2); cbn in E; try done. lia.
Qed.

Lemma SFleb_trans (x y z : f32) : is_nan y = false -> SFleb x y = true -> SFleb y z = true -> SFleb x z = true.
Proof.
  intros Hy H1 H2.
  assert (is_nan x = false) as Hx by (destruct x; try done; by destruct y as [[]|[]| |[] m1 e1]).
  assert (is_nan z = false) as Hz by (destruct z; try done; by destruct y as [[]|[]| |[] m1 e1]).
  apply SFleb_rank in H1, H2; [|done..]. apply SFleb_rank; [done..|]. unfold rank_le in *. lia.
Qed.

Lemma f32_max_spec a b : is_nan a = false -> is_nan (f32_max a b) = false /\ SFleb a (f32_max a b) = true /\
  (is_nan b = false -> SFleb b (f32_max a b) = true).
Proof.
  intros Ha. unfold f32_max. rewrite Ha.
  assert (forall x, is_nan x = false -> SFleb x x = true) as Hrefl.
  { intros x Hx. apply SFleb_rank; [done..|]. unfold rank_le. lia. }
  destruct (is_nan b) eqn:Hb; [split_and!; auto; done|]. destruct (SFltb a b) eqn:E.
  - split_and!; auto. by apply SFltb_leb.
  - split_and!; auto. intros _. by apply SFltb_false_leb.
Qed.

Lemma foldl_max_spec values : forall acc, is_nan acc = false ->
  is_nan (foldl f32_max acc values) = false /\ SFleb acc (foldl f32_max acc values) = true /\
  forall v, v ∈ values -> is_nan v = false -> SFleb v (foldl f32_max acc values) = true.
Proof.
  induction values as [|x values IH]; intros acc Ha; cbn [foldl].
  - split_and!; [done| |by intros v ?%elem_of_nil]. apply SFleb_rank; [done..|]. unfold rank_le. lia.
  - destruct (f32_max_spec acc x Ha) as (Hm & Hle & Hx). destruct (IH _ Hm) as (Hn & Hle' & Hall). split_and!; [done| |].
    + by apply (SFleb_trans _ (f32_max acc x)).
    + intros v [->|Hv]%elem_of_cons Hvn; [|by apply Hall]. apply (SFleb_trans _ (f32_max acc x)); [exact Hm|by apply Hx|done].
Qed.

Lemma suggested_top_above max suggested :
  is_nan max = false -> SFleb max (suggested_top max suggested) = true /\
  (suggested_top max suggested = max \/ suggested_top max suggested ∈ suggested).
Proof.
  intros Hm. induction suggested as [|x l [IH1 IH2]]; cbn.
  - split; [|by left]. apply SFleb_rank; [done..|]. unfold rank_le. lia.
  - destruct (SFltb max x) eqn:E.
    + split; [by apply SFltb_leb|]. right. left.
    + split; [done|]. destruct IH2 as [->|?]; [by left|right; by right].
Qed.

(** C40: A graph with suggested scales shows all of its values: the top of the
    scale is one of the suggestions or the greatest value, and every value that
    is a number is at most the top, whatever [f32]s were recorded. *)
Theorem suggested_scale_covers suggested values v :
  v ∈ values -> is_nan v = false ->
  let top := graph_top (SuggestedValues suggested) values in
  SFleb v top = true /\ (top ∈ suggested \/ top = graph_max values).
Proof.
  intros Hv Hn. cbn. unfold graph_max. destruct (foldl_max_spec values (S754_infinity true) eq_refl) as (Hm & _ & Hall).
  destruct (suggested_top_above (foldl f32_max (S754_infinity true) values) suggested Hm) as [Hle Hin].
  split; [|by destruct Hin; [right|left]]. eapply SFleb_trans; [exact Hm|by apply Hall|exact Hle].
Qed.

Lemma suggested_scale_covers_witness :
  SFleb (f32_of 40) (graph_top (SuggestedValues [f32_of 32; f32_of 64]) [f32_of 3; S754_nan; f32_of 40]) = true /\
  graph_top (SuggestedValues [f32_of 32; f32_of 64]) [f32_of 3; S754_nan; f32_of 40] = f32_of 64.
Proof.
  split; [|vm_compute; reflexivity].
  apply (suggested_scale_covers [f32_of 32; f32_of 64] [f32_of 3; S754_nan; f32_of 40] (f32_of 40)).
  - right. right. left.
  - reflexivity.
Defined.
