(* ===== verification/Bevy.v ===== *)
(** * The Bevy plugins (bevy_renet/src)

    Every system of the plugins is a function on the resources of the
    application, guarded by its run conditions; [plugin_build] is what [build]
    registers.  Bevy's scheduler is a parameter: the theorems hold for every
    order of the systems that respects the registered constraints. *)

From S2P Require Import Prelude Octets Packet Connection ConnectionProps Server.
From S2P Require Import Netcode ReplayProtection Token NetPacket NetClient NetServer NetServerInv NetServerProps Handshake.
From S2P Require Import Transport TransportProps Steam.

(** ** The resources *)

(** [w_delta] is [Time::delta], [w_exit] tells whether there is an unread
    [AppExit] event; the three lists are what was written to the event queues. *)
Record World := mkWorld {
  w_delta : Z;
  w_exit : bool;
  w_server : option RenetServer;
  w_client : option RenetClient;
  w_netcode_server : option NetcodeServerTransport;
  w_netcode_client : option NetcodeClientTransport;
  w_steam_server : option SteamServerTransport;
  w_steam_client : option SteamClientTransport;
  w_steam_calls : SteamCalls;
  w_server_events : list ServerEvent;
  w_netcode_errors : list NetcodeTransportError;
  w_steam_errors : list SteamError;
}.

Definition set_server (w : World) (x : RenetServer) : World :=
  mkWorld (w_delta w) (w_exit w) (Some x) (w_client w) (w_netcode_server w) (w_netcode_client w) (w_steam_server w)
    (w_steam_client w) (w_steam_calls w) (w_server_events w) (w_netcode_errors w) (w_steam_errors w).
Definition set_client (w : World) (x : RenetClient) : World :=
  mkWorld (w_delta w) (w_exit w) (w_server w) (Some x) (w_netcode_server w) (w_netcode_client w) (w_steam_server w)
    (w_steam_client w) (w_steam_calls w) (w_server_events w) (w_netcode_errors w) (w_steam_errors w).
Definition set_netcode_server (w : World) (x : NetcodeServerTransport) : World :=
  mkWorld (w_delta w) (w_exit w) (w_server w) (w_client w) (Some x) (w_netcode_client w) (w_steam_server w)
    (w_steam_client w) (w_steam_calls w) (w_server_events w) (w_netcode_errors w) (w_steam_errors w).
Definition set_netcode_client (w : World) (x : NetcodeClientTransport) : World :=
  mkWorld (w_delta w) (w_exit w) (w_server w) (w_client w) (w_netcode_server w) (Some x) (w_steam_server w)
    (w_steam_client w) (w_steam_calls w) (w_server_events w) (w_netcode_errors w) (w_steam_errors w).
Definition set_steam_server (w : World) (x : SteamServerTransport) (calls : SteamCalls) : World :=
  mkWorld (w_delta w) (w_exit w) (w_server w) (w_client w) (w_netcode_server w) (w_netcode_client w) (Some x)
    (w_steam_client w) calls (w_server_events w) (w_netcode_errors w) (w_steam_errors w).
Definition set_steam_client (w : World) (x : SteamClientTransport) (calls : SteamCalls) : World :=
  mkWorld (w_delta w) (w_exit w) (w_server w) (w_client w) (w_netcode_server w) (w_netcode_client w) (w_steam_server w)
    (Some x) calls (w_server_events w) (w_netcode_errors w) (w_steam_errors w).
Definition write_server_event (w : World) (e : ServerEvent) : World :=
  mkWorld (w_delta w) (w_exit w) (w_server w) (w_client w) (w_netcode_server w) (w_netcode_client w) (w_steam_server w)
    (w_steam_client w) (w_steam_calls w) (w_server_events w ++ [e]) (w_netcode_errors w) (w_steam_errors w).
(** [if let Err(e) = r { errors.write(e) }]. *)
Definition write_netcode_error (w : World) (r : result unit NetcodeTransportError) : World :=
  mkWorld (w_delta w) (w_exit w) (w_server w) (w_client w) (w_netcode_server w) (w_netcode_client w) (w_steam_server w)
    (w_steam_client w) (w_steam_calls w) (w_server_events w)
    (match r with Err e => w_netcode_errors w ++ [e] | Ok _ => w_netcode_errors w end) (w_steam_errors w).
Definition write_steam_error (w : World) (r : result unit SteamError) : World :=
  mkWorld (w_delta w) (w_exit w) (w_server w) (w_client w) (w_netcode_server w) (w_netcode_client w) (w_steam_server w)
    (w_steam_client w) (w_steam_calls w) (w_server_events w) (w_netcode_errors w)
    (match r with Err e => w_steam_errors w ++ [e] | Ok _ => w_steam_errors w end).

(** ** The systems *)

Section systems.
Context {oct : Octets} {aead : Aead} {steam : Steamworks}.

(** lib.rs *)

Definition server_update_system (w : World) (server : RenetServer) : out World :=
  let! server := server_update server (w_delta w) in
  Ret (set_server w server).

(** [while let Some(event) = server.get_event()]; each turn takes one event. *)
Fixpoint emit_loop (fuel : nat) (w : World) (server : RenetServer) : World :=
  match fuel, get_event server with
  | S fuel', (server, Some event) => emit_loop fuel' (write_server_event w event) server
  | _, (server, _) => set_server w server
  end.

Definition emit_server_events_system (w : World) (server : RenetServer) : World :=
  emit_loop (length (events server)) w server.

Definition client_update_system (w : World) (client : RenetClient) : out World :=
  let! client := client_update client (w_delta w) in
  Ret (set_client w client).

(** netcode.rs *)

Definition netcode_server_update_system (w : World) (transport : NetcodeServerTransport) (server : RenetServer) : out World :=
  let! (transport, server, r) := ts_update transport (w_delta w) server in
  Ret (write_netcode_error (set_server (set_netcode_server w transport) server) r).

Definition netcode_server_send_packets (w : World) (transport : NetcodeServerTransport) (server : RenetServer) : out World :=
  let! (transport, server) := ts_send_packets transport server in
  Ret (set_server (set_netcode_server w transport) server).

Definition netcode_server_disconnect_on_exit (w : World) (transport : NetcodeServerTransport) (server : RenetServer) : out World :=
  if w_exit w then
    let! (transport, server) := ts_disconnect_all transport server in
    Ret (set_server (set_netcode_server w transport) server)
  else Ret w.

Definition netcode_client_update_system (w : World) (transport : NetcodeClientTransport) (client : RenetClient) : out World :=
  let! (transport, client, r) := tc_update transport (w_delta w) client in
  Ret (write_netcode_error (set_client (set_netcode_client w transport) client) r).

Definition netcode_client_send_packets (w : World) (transport : NetcodeClientTransport) (client : RenetClient) : out World :=
  let! (transport, client, r) := tc_send_packets transport client in
  Ret (write_netcode_error (set_client (set_netcode_client w transport) client) r).

Definition netcode_client_disconnect_on_exit (w : World) (transport : NetcodeClientTransport) : out World :=
  if w_exit w then
    let! transport := tc_disconnect transport in
    Ret (set_netcode_client w transport)
  else Ret w.

(** steam.rs; the server transport is optional in each of its systems. *)

Definition with_steam_server (w : World) (server : RenetServer) (f : steam_state -> out steam_state) : out World :=
  match w_steam_server w with
  | None => Ret w
  | Some transport =>
      let! st := f (mkSteamState transport (w_steam_calls w) server) in
      Ret (set_server (set_steam_server w (sm_self st) (sm_calls st)) (sm_server st))
  end.

Definition steam_server_update_system (w : World) (server : RenetServer) : out World :=
  with_steam_server w server steam_server_update.

Definition steam_server_send_system (w : World) (server : RenetServer) : out World :=
  with_steam_server w server steam_server_send_packets.

Definition steam_server_disconnect_on_exit (w : World) (server : RenetServer) : out World :=
  with_steam_server w server (fun st => if w_exit w then steam_disconnect_all st false else Ret st).

Definition steam_client_update_system (w : World) (transport : SteamClientTransport) (client : RenetClient) : out World :=
  let! (transport, calls, client) := steam_client_update transport (w_steam_calls w) client in
  Ret (set_client (set_steam_client w transport calls) client).

Definition steam_client_send_system (w : World) (transport : SteamClientTransport) (client : RenetClient) : out World :=
  let! (calls, client, r) := steam_client_send_packets transport (w_steam_calls w) client in
  Ret (write_steam_error (set_client (set_steam_client w transport calls) client) r).

Definition steam_client_disconnect_on_exit (w : World) (transport : SteamClientTransport) : World :=
  if w_exit w then
    let (transport, calls) := sc_disconnect transport (w_steam_calls w) in
    set_steam_client w transport calls
  else w.

(** ** What the plugins register *)

Inductive system :=
  | ServerUpdate | EmitServerEvents | ClientUpdate
  | NetcodeServerUpdate | NetcodeServerSend | NetcodeServerExit
  | NetcodeClientUpdate | NetcodeClientSend | NetcodeClientExit
  | SteamServerUpdate | SteamServerSend | SteamServerExit
  | SteamClientUpdate | SteamClientSend | SteamClientExit.

(** A system with its run conditions: it runs when its resources exist. *)
Definition run_system (w : World) (s : system) : out World :=
  match s, w_server w, w_client w with
  | ServerUpdate, Some server, _ => server_update_system w server
  | EmitServerEvents, Some server, _ => Ret (emit_server_events_system w server)
  | ClientUpdate, _, Some client => client_update_system w client
  | NetcodeServerUpdate, Some server, _ =>
      match w_netcode_server w with Some transport => netcode_server_update_system w transport server | None => Ret w end
  | NetcodeServerSend, Some server, _ =>
      match w_netcode_server w with Some transport => netcode_server_send_packets w transport server | None => Ret w end
  | NetcodeServerExit, Some server, _ =>
      match w_netcode_server w with Some transport => netcode_server_disconnect_on_exit w transport server | None => Ret w end
  | NetcodeClientUpdate, _, Some client =>
      match w_netcode_client w with Some transport => netcode_client_update_system w transport client | None => Ret w end
  | NetcodeClientSend, _, Some client =>
      match w_netcode_client w with Some transport => netcode_client_send_packets w transport client | None => Ret w end
  | NetcodeClientExit, _, Some _ =>
      match w_netcode_client w with Some transport => netcode_client_disconnect_on_exit w transport | None => Ret w end
  | SteamServerUpdate, Some server, _ => steam_server_update_system w server
  | SteamServerSend, Some server, _ => steam_server_send_system w server
  | SteamServerExit, Some server, _ => steam_server_disconnect_on_exit w server
  | SteamClientUpdate, _, Some client =>
      match w_steam_client w with Some transport => steam_client_update_system w transport client | None => Ret w end
  | SteamClientSend, _, Some client =>
      match w_steam_client w with Some transport => steam_client_send_system w transport client | None => Ret w end
  | SteamClientExit, _, Some _ =>
      match w_steam_client w with Some transport => Ret (steam_client_disconnect_on_exit w transport) | None => Ret w end
  | _, _, _ => Ret w
  end.

Definition run_systems (w : World) (order : list system) : out World := fold_out run_system w order.

End systems.

#[global] Instance system_eq_dec : EqDecision system.
Proof. solve_decision. Defined.

Inductive schedule := PreUpdate | PostUpdate | Last.

#[global] Instance schedule_eq_dec : EqDecision schedule.
Proof. solve_decision. Defined.

(** A registered system, with the systems it runs after and before. *)
Record registration := mkRegistration {
  rg_schedule : schedule;
  rg_system : system;
  rg_after : list system;
  rg_before : list system;
}.

Inductive plugin :=
  | RenetServerPlugin | RenetClientPlugin | NetcodeServerPlugin | NetcodeClientPlugin | SteamServerPlugin | SteamClientPlugin.

Definition renet_server_plugin_build : list registration :=
  [mkRegistration PreUpdate ServerUpdate [] []; mkRegistration PreUpdate EmitServerEvents [ServerUpdate] []].

Definition renet_client_plugin_build : list registration := [mkRegistration PreUpdate ClientUpdate [] []].

Definition netcode_server_plugin_build : list registration :=
  [mkRegistration PreUpdate NetcodeServerUpdate [ServerUpdate] [EmitServerEvents];
   mkRegistration PostUpdate NetcodeServerSend [] [];
   mkRegistration Last NetcodeServerExit [] []].

Definition netcode_client_plugin_build : list registration :=
  [mkRegistration PreUpdate NetcodeClientUpdate [ClientUpdate] [];
   mkRegistration PostUpdate NetcodeClientSend [] [];
   mkRegistration Last NetcodeClientExit [] []].

Definition steam_server_plugin_build : list registration :=
  [mkRegistration PreUpdate SteamServerUpdate [ServerUpdate] [EmitServerEvents];
   mkRegistration PostUpdate SteamServerSend [] [];
   mkRegistration Last SteamServerExit [] []].

Definition steam_client_plugin_build : list registration :=
  [mkRegistration PreUpdate SteamClientUpdate [ClientUpdate] [];
   mkRegistration PostUpdate SteamClientSend [] [];
   mkRegistration Last SteamClientExit [] []].

Definition plugin_build (p : plugin) : list registration :=
  match p with
  | RenetServerPlugin => renet_server_plugin_build
  | RenetClientPlugin => renet_client_plugin_build
  | NetcodeServerPlugin => netcode_server_plugin_build
  | NetcodeClientPlugin => netcode_client_plugin_build
  | SteamServerPlugin => steam_server_plugin_build
  | SteamClientPlugin => steam_client_plugin_build
  end.

Definition registered (plugins : list plugin) : list registration := plugins ≫= plugin_build.

(** ** The scheduler *)

(** [a] does not come after [b]. *)
Definition precedes (order : list system) (a b : system) : Prop :=
  forall i j, order !! i = Some a -> order !! j = Some b -> (i < j)%nat.

(** What Bevy guarantees of the order it runs a schedule in: every system
    registered there, once, under the constraints. *)
Record valid_order (plugins : list plugin) (sched : schedule) (order : list system) : Prop := {
  vo_systems : order ≡ₚ rg_system <$> filter (fun r => rg_schedule r = sched) (registered plugins);
  vo_after r a : r ∈ registered plugins -> a ∈ rg_after r -> precedes order a (rg_system r);
  vo_before r b : r ∈ registered plugins -> b ∈ rg_before r -> precedes order (rg_system r) b;
}.

(** ** Run conditions (lib.rs) *)

Definition client_connected (client : option RenetClient) : bool :=
  match client with Some client => is_connected client | None => false end.

Definition client_disconnected (client : option RenetClient) : bool :=
  match client with Some client => is_disconnected client | None => true end.

Definition client_connecting (client : option RenetClient) : bool :=
  match client with Some client => is_connecting client | None => false end.

(** The [Local] of a system is its first argument, and the first component of its result. *)
Definition client_just_connected (last_connected : bool) (client : option RenetClient) : bool * bool :=
  let connected := default false (is_connected <$> client) in
  let just_connected := negb last_connected && connected in
  (connected, just_connected).

Definition client_just_disconnected (last_connected : bool) (client : option RenetClient) : bool * bool :=
  let disconnected := default true (is_disconnected <$> client) in
  let just_disconnected := last_connected && disconnected in
  (negb disconnected, just_disconnected).
