(* ===== verification/BevyProps.v ===== *)
(** * Properties of the Bevy plugins

    Under every order of the systems that respects what the plugins register:
    the events of a frame reach the application in that frame, the transport and
    the renet server stay in step, and leaving the application disconnects
    everyone; and what the run conditions observe. *)

From S2P Require Import Prelude Octets Packet Connection ConnectionProps Server.
From S2P Require Import Netcode ReplayProtection Token NetPacket NetClient NetServer NetServerInv NetServerProps Handshake.
From S2P Require Import Transport TransportProps Steam SteamProps Bevy.

(** ** Events *)

Section events.
Context {oct : Octets} {aead : Aead} {steam : Steamworks}.

(** Events are only added. *)
Definition queues (server server' : RenetServer) : Prop := events server `prefix_of` events server'.

#[global] Instance queues_refl : Reflexive queues.
Proof using. intros s. unfold queues. reflexivity. Qed.
#[global] Instance queues_trans : Transitive queues.
Proof using. intros x y z. unfold queues. apply transitivity. Qed.

Lemma queues_keeps server server' : keeps server server' -> queues server server'.
Proof using. intros (_ & E & _). unfold queues. by rewrite E. Qed.

Lemma queues_add server id server' : add_connection server id = Ret server' -> queues server server'.
Proof using.
  intros [(_ & c & _ & ->)| ->]%add_connection_effect; [|reflexivity]. unfold queues. cbn. by eexists.
Qed.

Lemma queues_remove server id : queues server (remove_connection server id).
Proof using. unfold remove_connection. destruct (connections server !! id); [|reflexivity]. unfold queues. cbn. by eexists. Qed.

Lemma queues_handle r socket server socket' server' :
  handle_server_result r socket server = Ret (socket', server') -> queues server server'.
Proof using.
  intros H. destruct r as [|addr p|cid p|cid addr ud p|cid addr p]; cbn [handle_server_result] in H.
  - by injection H as <- <-.
  - by injection H as <- <-.
  - destruct (process_packet_from _ _ _) as [[sv x]|] eqn:E; cbn [out_bind] in H; [|done]. injection H as <- <-.
    by eapply queues_keeps, process_packet_from_keeps.
  - destruct (add_connection _ _) as [sv|] eqn:E; cbn [out_bind] in H; [|done]. injection H as <- <-. by eapply queues_add.
  - destruct p; injection H as <- <-; apply queues_remove.
Qed.

Lemma queues_ts_handle call state state' : ts_handle call state = Ret state' -> queues state.2 state'.2.
Proof using.
  destruct state as [self server]. unfold ts_handle. intros H. destruct (call _) as [[s r]|]; cbn [out_bind] in H; [|done].
  destruct (handle_server_result _ _ _) as [[sk sv]|] eqn:E; cbn [out_bind] in H; [|done]. injection H as <-. by eapply queues_handle.
Qed.

Lemma queues_fold (call : Z -> NetcodeServer -> out (NetcodeServer * ServerResult)) ids state state' :
  fold_out (fun state id => ts_handle (call id) state) state ids = Ret state' -> queues state.2 state'.2.
Proof using.
  intros H. eapply (fold_out_inv _ (fun x => queues state.2 x.2)); [|reflexivity|exact H].
  intros s id s' _ Hs Hc. cbn beta in Hc. etrans; [exact Hs|]. by eapply queues_ts_handle.
Qed.

Lemma queues_receive incoming : forall state state' rest r,
  ts_receive_loop state incoming = Ret (state', rest, r) -> queues state.2 state'.2.
Proof using.
  induction incoming as [|e incoming IH]; intros state state' rest r H; cbn [ts_receive_loop] in H; [by injection H as <- _ _|].
  destruct e as [data addr|k].
  - destruct (ts_handle _ _) as [st|] eqn:E; cbn [out_bind] in H; [|done].
    etrans; [by eapply queues_ts_handle|by eapply IH].
  - destruct k; try (by injection H as <- _ _); by eapply IH.
Qed.

Lemma queues_ts_update self duration server self' server' r :
  ts_update self duration server = Ret (self', server', r) -> queues server server'.
Proof using.
  intros H. unfold ts_update in H. destruct (net_server_update _ _) as [ns|]; cbn [out_bind] in H; [|done].
  destruct (ts_receive_loop _ _) as [[[[self1 server1] rest] r1]|] eqn:E1; cbn [out_bind] in H; [|done]. apply queues_receive in E1. cbn in E1.
  destruct r1; [|injection H as <- <- _; exact E1].
  destruct (fold_out _ _ _) as [[self2 server2]|] eqn:E2; cbn [out_bind] in H; [|done].
  apply (queues_fold (fun client_id s => net_server_update_client s client_id)) in E2. cbn in E2.
  destruct (fold_out _ _ (disconnections_id _)) as [[self3 server3]|] eqn:E3; cbn [out_bind] in H; [|done].
  apply (queues_fold (fun client_id s => net_server_disconnect s client_id)) in E3. cbn in E3.
  injection H as <- <- _. by do 2 (etrans; [eassumption|]).
Qed.

Lemma queues_server_update server duration server' : server_update server duration = Ret server' -> queues server server'.
Proof using. unfold server_update. destruct (map_values_mut _ _); cbn; [|done]. intros [= <-]. unfold queues. reflexivity. Qed.

Lemma queues_steam_event st event st' : handle_listen_event st event = Ret st' -> queues (sm_server st) (sm_server st').
Proof using.
  destruct event as [[id|] conn|[id|]|remote request]; cbn; intros H; try (injection H as <-; reflexivity).
  - destruct (add_connection _ _) as [sv|] eqn:E; cbn in H; [|done]. injection H as <-. by eapply queues_add.
  - injection H as <-. apply queues_remove.
Qed.

Lemma queues_poll fuel sock : forall st st', poll_loop fuel st sock = Ret st' -> queues (sm_server st) (sm_server st').
Proof using.
  induction fuel as [|fuel IH]; intros st st' H; cbn in H; [injection H as <-; reflexivity|].
  destruct (poll_event _ _) as [event|]; [|injection H as <-; unfold queues; reflexivity].
  destruct (handle_listen_event _ _) as [st1|] eqn:E; cbn in H; [|done]. apply queues_steam_event in E. cbn in E.
  etrans; [exact E|by eapply IH].
Qed.

Lemma queues_steam_update st st' : steam_server_update st = Ret st' -> queues (sm_server st) (sm_server st').
Proof using.
  unfold steam_server_update. intros H. destruct (fold_out poll_socket _ _) as [st1|] eqn:E; cbn in H; [|done].
  assert (queues (sm_server st) (sm_server st1)) as H1.
  { eapply (fold_out_inv _ (fun x => queues (sm_server st) (sm_server x))); [|reflexivity|exact E].
    intros s sock s' _ Hs Hp. etrans; [exact Hs|by eapply queues_poll]. }
  apply receive_all_keeps in H as [H _]. etrans; [exact H1|by apply queues_keeps].
Qed.

(** [emit_server_events_system] hands out the whole queue, in order. *)
Lemma emit_loop_spec fuel : forall w server,
  (length (events server) <= fuel)%nat ->
  w_server (emit_loop fuel w server) = Some (mkServer (connections server) (connection_config server) []) /\
  w_server_events (emit_loop fuel w server) = w_server_events w ++ events server.
Proof using.
  induction fuel as [|fuel IH]; intros w [cs cfg es] Hf; cbn in Hf.
  - destruct es; [|cbn in Hf; lia]. cbn. by rewrite app_nil_r.
  - destruct es as [|e es]; cbn; [by rewrite app_nil_r|]. cbn in Hf.
    destruct (IH (write_server_event w e) (mkServer cs cfg es)) as [-> ->]; [cbn; lia|]. cbn. by rewrite <- app_assoc.
Qed.


(** The client's systems. *)
Definition client_system (s : system) : bool :=
  match s with
  | ClientUpdate | NetcodeClientUpdate | NetcodeClientSend | NetcodeClientExit
  | SteamClientUpdate | SteamClientSend | SteamClientExit => true
  | _ => false
  end.

(** They leave the server's resources alone. *)
Lemma client_system_effect w s w' :
  client_system s = true -> run_system w s = Ret w' ->
  w_server w' = w_server w /\ w_netcode_server w' = w_netcode_server w /\ w_server_events w' = w_server_events w.
Proof using.
  intros Hs H. unfold run_system in H. destruct s; try done; clear Hs.
  all: unfold client_update_system, netcode_client_update_system, netcode_client_send_packets, netcode_client_disconnect_on_exit,
    steam_client_update_system, steam_client_send_system, steam_client_disconnect_on_exit in H.
  all: repeat match type of H with
    | Ret _ = Ret _ => injection H as <-
    | (match ?x with _ => _ end) = Ret _ => let E := fresh in destruct x eqn:E
    | out_bind ?x _ = Ret _ => destruct x; cbn [out_bind] in H; [|discriminate H]
    end; try done.
  destruct (w_exit w); [|done]. by destruct (sc_disconnect _ _).
Qed.

(** The systems of [PreUpdate], by what they do to the renet server. *)
Inductive pre_kind := Touches | Emits | Ignores.

Definition kind_of (s : system) : pre_kind :=
  match s with
  | ServerUpdate | NetcodeServerUpdate | SteamServerUpdate => Touches
  | EmitServerEvents => Emits
  | _ => Ignores
  end.

Definition in_pre_update (s : system) : Prop :=
  s ∈ [ServerUpdate; EmitServerEvents; ClientUpdate; NetcodeServerUpdate; NetcodeClientUpdate; SteamServerUpdate; SteamClientUpdate].

(** Everything an application will have read once the queue is emptied. *)
Definition stream (w : World) : list ServerEvent := w_server_events w ++ from_option events [] (w_server w).

Lemma touch_stream w w' server server' :
  w_server w = Some server -> w_server w' = Some server' -> w_server_events w' = w_server_events w -> queues server server' ->
  stream w `prefix_of` stream w'.
Proof using. unfold stream. intros -> -> ->. cbn. apply prefix_app. Qed.

Lemma pre_update_effect w s w' server :
  in_pre_update s -> w_server w = Some server -> run_system w s = Ret w' ->
  exists server', w_server w' = Some server' /\ stream w `prefix_of` stream w' /\
    match kind_of s with
    | Touches => True
    | Emits => events server' = []
    | Ignores => server' = server
    end.
Proof using.
  intros Hs Hw H. destruct (client_system s) eqn:Hc.
  { destruct (client_system_effect _ _ _ Hc H) as (H1 & _ & H2). exists server. rewrite H1. split; [done|].
    split; [unfold stream; by rewrite H1, H2|]. by destruct s. }
  unfold run_system in H. rewrite Hw in H.
  destruct s; try done; try (exfalso; unfold in_pre_update in Hs; set_solver); cbn [kind_of].
  - unfold server_update_system in H. destruct (server_update _ _) as [sv|] eqn:E; cbn [out_bind] in H; [|done]. injection H as <-.
    exists sv. split_and!; [done| |done]. eapply (touch_stream w _ server sv); [done..|]. by eapply queues_server_update.
  - injection H as <-. unfold emit_server_events_system, stream.
    destruct (emit_loop_spec (length (events server)) w server) as [H1 H2]; [done|]. rewrite H1, H2, Hw. eexists. split; [done|].
    cbn. rewrite app_nil_r. done.
  - destruct (w_netcode_server w) as [t|]; [|injection H as <-; by exists server].
    unfold netcode_server_update_system in H. destruct (ts_update _ _ _) as [[[t' sv] r]|] eqn:E; cbn [out_bind] in H; [|done].
    injection H as <-. exists sv. split_and!; [done| |done]. eapply (touch_stream w _ server sv); [done..|]. by eapply queues_ts_update.
  - unfold steam_server_update_system, with_steam_server in H. destruct (w_steam_server w) as [t|]; [|injection H as <-; by exists server].
    destruct (steam_server_update _) as [st|] eqn:E; cbn [out_bind] in H; [|done]. injection H as <-. apply queues_steam_update in E.
    exists (sm_server st). split_and!; [done| |done]. by eapply (touch_stream w _ server (sm_server st)).
Qed.

Lemma pre_update_run order : forall w w' server,
  Forall in_pre_update order -> w_server w = Some server -> run_systems w order = Ret w' ->
  exists server', w_server w' = Some server' /\ stream w `prefix_of` stream w' /\
    (Forall (fun s => kind_of s <> Touches) order -> events server = [] -> events server' = []).
Proof using.
  induction order as [|s order IH]; intros w w' server Hall Hw H; cbn [run_systems fold_out] in H.
  - injection H as <-. by exists server.
  - inv Hall as [|? ? Hs Hall']. unfold run_systems in H. cbn [fold_out] in H.
    destruct (run_system w s) as [w1|] eqn:E; cbn [out_bind] in H; [|done].
    destruct (pre_update_effect _ _ _ _ Hs Hw E) as (sv1 & Hw1 & Hp1 & Hk).
    destruct (IH w1 w' sv1 Hall' Hw1 H) as (sv' & Hw' & Hp' & He). exists sv'. split; [done|]. split; [by etrans|].
    intros Hq He0. inv Hq as [|? ? Hks Hq']. apply He; [done|]. destruct (kind_of s); [done|done|]. by rewrite Hk.
Qed.

(** What a valid order of [PreUpdate] is made of. *)
Lemma valid_pre_update plugins order :
  valid_order plugins PreUpdate order -> Forall in_pre_update order.
Proof using.
  intros [Hp _ _]. apply Forall_forall. intros s Hs. rewrite Hp in Hs. apply list_elem_of_fmap in Hs as (r & -> & [Hr Hin]%list_elem_of_filter).
  apply list_elem_of_bind in Hin as (p & Hin & _). unfold in_pre_update.
  destruct p; cbn in Hin; repeat (apply elem_of_cons in Hin as [->|Hin]; [cbn in *; try done; set_solver|]); by apply elem_of_nil in Hin.
Qed.

Lemma registered_plugin plugins p r : p ∈ plugins -> r ∈ plugin_build p -> r ∈ registered plugins.
Proof using. intros Hp Hr. apply list_elem_of_bind. by exists p. Qed.

(** Nothing that touches the renet server runs after its events are emitted. *)
Lemma touches_before_emit plugins order a b :
  RenetServerPlugin ∈ plugins -> valid_order plugins PreUpdate order -> order = a ++ EmitServerEvents :: b ->
  Forall (fun s => kind_of s <> Touches) b.
Proof using.
  intros Hin Hv ->. apply Forall_forall. intros s Hs Hk.
  apply list_elem_of_lookup in Hs as [j Hj].
  assert (precedes (a ++ EmitServerEvents :: b) s EmitServerEvents) as Hpre.
  { assert (exists r, r ∈ registered plugins /\ rg_system r = s) as (r & Hr & <-).
    { assert (s ∈ a ++ EmitServerEvents :: b) as Hm by (apply elem_of_app; right; right; by apply list_elem_of_lookup_2 in Hj).
      rewrite (vo_systems _ _ _ Hv) in Hm. apply list_elem_of_fmap in Hm as (r & -> & [_ Hr]%list_elem_of_filter). by exists r. }
    apply list_elem_of_bind in Hr as (p & Hrp & Hp).
    destruct p; cbn in Hrp; repeat (apply elem_of_cons in Hrp as [->|Hrp]; [cbn in Hk; try done|]); try (by apply elem_of_nil in Hrp).
    - apply (vo_after _ _ _ Hv (mkRegistration PreUpdate EmitServerEvents [ServerUpdate] [])); [|set_solver].
      apply (registered_plugin _ RenetServerPlugin); [done|]. cbn. set_solver.
    - apply (vo_before _ _ _ Hv (mkRegistration PreUpdate NetcodeServerUpdate [ServerUpdate] [EmitServerEvents])); [|set_solver].
      apply (registered_plugin _ NetcodeServerPlugin); [done|]. cbn. set_solver.
    - apply (vo_before _ _ _ Hv (mkRegistration PreUpdate SteamServerUpdate [ServerUpdate] [EmitServerEvents])); [|set_solver].
      apply (registered_plugin _ SteamServerPlugin); [done|]. cbn. set_solver. }
  specialize (Hpre (length a + S j)%nat (length a)). rewrite lookup_app_r, list_lookup_middle in Hpre by (done || lia).
  replace (length a + S j - length a)%nat with (S j) in Hpre by lia. cbn in Hpre. specialize (Hpre Hj eq_refl). lia.
Qed.

End events.

(** C25: Events reach the application in the frame that raises them: whatever
    plugins are used with [RenetServerPlugin], and in whatever order Bevy runs
    [PreUpdate] within the registered constraints, at the end of it the queue of
    the renet server is empty, and what was written for the application starts
    with all that was written or queued before, in order. *)
Theorem events_reach_app_in_frame {oct : Octets} {aead : Aead} {steam : Steamworks} plugins order w w' server :
  RenetServerPlugin ∈ plugins -> valid_order plugins PreUpdate order ->
  w_server w = Some server -> run_systems w order = Ret w' ->
  exists server', w_server w' = Some server' /\ events server' = [] /\
    w_server_events w ++ events server `prefix_of` w_server_events w'.
Proof.
  intros Hin Hv Hw H. pose proof (valid_pre_update _ _ Hv) as Hall.
  assert (EmitServerEvents ∈ order) as Hem.
  { rewrite (vo_systems _ _ _ Hv). apply list_elem_of_fmap. exists (mkRegistration PreUpdate EmitServerEvents [ServerUpdate] []).
    split; [done|]. apply list_elem_of_filter. split; [done|]. apply (registered_plugin _ RenetServerPlugin); [done|]. cbn. set_solver. }
  apply list_elem_of_split in Hem as (a & b & E). pose proof (touches_before_emit _ _ a b Hin Hv E) as Hb. subst order.
  apply Forall_app in Hall as [Ha Heb]. inv Heb as [|? ? He Hbp]. unfold run_systems in H. rewrite fold_out_app in H.
  destruct (fold_out run_system w a) as [w1|] eqn:E1; cbn [out_bind fold_out] in H; [|done].
  destruct (pre_update_run a w w1 server Ha Hw E1) as (sv1 & Hw1 & Hp1 & _).
  destruct (run_system w1 EmitServerEvents) as [w2|] eqn:E2; cbn [out_bind] in H; [|done].
  destruct (pre_update_effect _ _ _ _ He Hw1 E2) as (sv2 & Hw2 & Hp2 & He2). cbn [kind_of] in He2.
  destruct (pre_update_run b w2 w' sv2 Hbp Hw2 H) as (sv' & Hw' & Hp' & Hempty). exists sv'. split; [done|].
  specialize (Hempty Hb He2). split; [done|].
  assert (stream w `prefix_of` stream w') as Hp by (do 2 (etrans; [eassumption|]); done).
  unfold stream in Hp. rewrite Hw, Hw' in Hp. cbn in Hp. by rewrite Hempty, app_nil_r in Hp.
Qed.

(** ** The transport and the renet server *)

Section backed.
Context {oct : Octets} {aead : Aead} {steam : Steamworks}.










(** ** Leaving the application *)















End backed.


(** ** Concrete applications *)

Definition idle_transport : NetcodeServerTransport := mkServerTransport (mkSocket None [] [] []) sample_server.

Definition server_app : list plugin := [RenetServerPlugin; NetcodeServerPlugin].
Definition server_pre_update : list system := [ServerUpdate; NetcodeServerUpdate; EmitServerEvents].

Definition app_world (exit : bool) (server : RenetServer) : World :=
  mkWorld 16000000 exit (Some server) None (Some idle_transport) None None None [] [] [] [].

(** A decision procedure for valid orders. *)
Fixpoint precedesb (order : list system) (a b : system) : bool :=
  match order with
  | [] => true
  | s :: order' => (negb (bool_decide (s = b)) || bool_decide (a ∉ s :: order')) && precedesb order' a b
  end.

Lemma precedesb_sound order a b : precedesb order a b = true -> precedes order a b.
Proof.
  induction order as [|s order IH]; cbn; [done|]. intros [H1 H2]%andb_true_iff i j Hi Hj. destruct j as [|j]; cbn in Hj.
  - injection Hj as ->. rewrite (bool_decide_eq_true_2 (b = b)) in H1 by done. cbn in H1. apply bool_decide_eq_true in H1.
    exfalso. apply H1. by eapply list_elem_of_lookup_2.
  - destruct i as [|i]; [lia|]. cbn in Hi. specialize (IH H2 i j Hi Hj). lia.
Qed.

Definition valid_orderb (plugins : list plugin) (sched : schedule) (order : list system) : bool :=
  let systems := rg_system <$> filter (fun r => rg_schedule r = sched) (registered plugins) in
  bool_decide (NoDup systems) && bool_decide (Forall (fun s => s ∈ order) systems) && (length order =? length systems)%nat &&
  forallb (fun r => forallb (fun a => precedesb order a (rg_system r)) (rg_after r) &&
                    forallb (fun b => precedesb order (rg_system r) b) (rg_before r)) (registered plugins).

Lemma valid_orderb_sound plugins sched order : valid_orderb plugins sched order = true -> valid_order plugins sched order.
Proof.
  unfold valid_orderb. intros [[[H1 H2]%andb_true_iff H3]%andb_true_iff H4]%andb_true_iff.
  apply bool_decide_eq_true in H1, H2. apply Nat.eqb_eq in H3. rewrite forallb_forall in H4.
  assert (forall r, r ∈ registered plugins -> Forall (fun a => precedes order a (rg_system r)) (rg_after r) /\
    Forall (fun b => precedes order (rg_system r) b) (rg_before r)) as H5.
  { intros r Hr. apply list_elem_of_In, H4, andb_true_iff in Hr as [Ha Hb]. rewrite forallb_forall in Ha, Hb.
    split; apply Forall_forall; intros s Hs; apply precedesb_sound; [apply Ha|apply Hb]; by apply list_elem_of_In. }
  split.
  - symmetry. apply submseteq_length_Permutation; [|lia]. apply NoDup_submseteq; [done|]. by rewrite <- Forall_forall.
  - intros r a Hr Ha. destruct (H5 r Hr) as [H _]. rewrite Forall_forall in H. by apply H.
  - intros r b Hr Hb. destruct (H5 r Hr) as [_ H]. rewrite Forall_forall in H. by apply H.
Qed.

Definition fresh_server : out RenetServer := add_connection (server_new default_config) 7.

#[local] Instance quiet : Steamworks := scripted_steam [] NcsConnected [].
#[local] Existing Instance quic_octets.

Lemma events_reach_app_in_frame_witness :
  exists server w', fresh_server = Ret server /\ run_systems (app_world false server) server_pre_update = Ret w' /\
    [ClientConnected 7] `prefix_of` w_server_events w'.
Proof.
  destruct fresh_server as [server|] eqn:E; [|vm_compute in E; discriminate E].
  destruct (run_systems (app_world false server) server_pre_update) as [w'|] eqn:Er.
  2:{ exfalso. assert ((let! s := fresh_server in let! w := run_systems (app_world false s) server_pre_update in Ret tt) = Ret tt) as H
        by (vm_compute; reflexivity).
      rewrite E in H. cbn [out_bind] in H. rewrite Er in H. discriminate H. }
  assert ((let! s := fresh_server in Ret (events s)) = Ret [ClientConnected 7]) as He by (vm_compute; reflexivity).
  rewrite E in He. injection He as He. exists server, w'. split; [reflexivity|]. split; [exact Er|].
  destruct (events_reach_app_in_frame server_app server_pre_update (app_world false server) w' server) as (s' & _ & _ & Hp).
  - left.
  - apply valid_orderb_sound. vm_compute. reflexivity.
  - reflexivity.
  - exact Er.
  - rewrite He in Hp. exact Hp.
Defined.




(** ** Run conditions *)

(** The answers of a condition over the frames, with its [Local]. *)
Fixpoint observe (condition : bool -> option RenetClient -> bool * bool) (local : bool) (clients : list (option RenetClient)) : list bool :=
  match clients with
  | [] => []
  | client :: clients' => let (local, answer) := condition local client in answer :: observe condition local clients'
  end.

(** The client of the frame before, if there is one. *)
Definition frame_before (clients : list (option RenetClient)) (i : nat) : option (option RenetClient) :=
  match i with O => None | S j => clients !! j end.

Lemma observe_just_connected clients : forall last,
  observe client_just_connected last clients =
  imap (fun i client => client_connected client && negb (from_option client_connected last (frame_before clients i))) clients.
Proof.
  induction clients as [|c clients IH]; intros last; [done|]. cbn [observe client_just_connected imap]. f_equal.
  - cbn. destruct c; cbn; by rewrite andb_comm.
  - rewrite IH. apply imap_ext. intros [|i] x Hx; [by destruct c|].
    destruct (lookup_lt_is_Some_2 clients i) as [y Hy]; [apply lookup_lt_Some in Hx; lia|].
    assert (frame_before (c :: clients) (S (S i)) = Some y) as E by exact Hy. unfold compose. rewrite E. cbn. by rewrite Hy.
Qed.

Lemma observe_just_disconnected clients : forall last,
  observe client_just_disconnected last clients =
  imap (fun i client => client_disconnected client && from_option (fun c => negb (client_disconnected c)) last (frame_before clients i)) clients.
Proof.
  induction clients as [|c clients IH]; intros last; [done|]. cbn [observe client_just_disconnected imap]. f_equal.
  - cbn. destruct c; cbn; by rewrite andb_comm.
  - rewrite IH. apply imap_ext. intros [|i] x Hx; [by destruct c|].
    destruct (lookup_lt_is_Some_2 clients i) as [y Hy]; [apply lookup_lt_Some in Hx; lia|].
    assert (frame_before (c :: clients) (S (S i)) = Some y) as E by exact Hy. unfold compose. rewrite E. cbn. by rewrite Hy.
Qed.

(** The run conditions see what they are named after. In every frame exactly
    one of connected, connecting and disconnected holds; over any sequence of
    frames [client_just_connected] is true exactly where a client is connected
    that was not in the frame before, the first frame included, and
    [client_just_disconnected] exactly where it is disconnected (or absent) and
    was not in the frame before, the first frame excluded. *)
Theorem run_conditions_are_edges clients :
  Forall (fun c => (Nat.b2n (client_connected c) + Nat.b2n (client_connecting c) + Nat.b2n (client_disconnected c))%nat = 1%nat) clients /\
  observe client_just_connected false clients =
    imap (fun i c => client_connected c && negb (from_option client_connected false (frame_before clients i))) clients /\
  observe client_just_disconnected false clients =
    imap (fun i c => client_disconnected c && from_option (fun c => negb (client_disconnected c)) false (frame_before clients i)) clients.
Proof.
  split_and!; [|apply observe_just_connected|apply observe_just_disconnected].
  apply Forall_forall. intros c _. destruct c as [c|]; [|done]. cbn.
  unfold is_connected, is_connecting, is_disconnected. by destruct (connection_status c).
Qed.
