(* ===== verification/Errors.v ===== *)
(** * Messages of the errors (error.rs of renet and renetcode, renet_netcode/src/lib.rs)

    The [Display] implementations of the error types.  The text of an
    [std::io::Error] is the operating system's and a parameter here. *)

From Stdlib Require Import Strings.String.
From stdpp Require Import strings pretty.
From S2P Require Import Prelude Packet Netcode Connection Server Transport.

(** Both renet and renetcode have constructors of these names. *)
Definition show_serialization_error (e : SerializationError) : string :=
  match e with
  | BufferTooShort => "buffer too short"
  | InvalidNumSlices => "invalid number of slices"
  | InvalidAckRange => "invalid ack range"
  | Packet.InvalidPacketType => "invalid packet type"
  | SliceSizeAboveLimit => "invalid slice size, it's above the limit of " +:+ pretty SLICE_SIZE +:+ " bytes"
  | EmptySlice => "invalid slice, slices cannot be empty"
  end.

Definition show_channel_error (e : ChannelError) : string :=
  match e with
  | ReliableChannelMaxMemoryReached => "reliable channel memory usage was exausted"
  | InvalidSliceMessage => "received an invalid slice packet"
  end.

Definition show_disconnect_reason (r : DisconnectReason) : string :=
  match r with
  | Packet.Transport => "connection terminated by the transport layer"
  | DisconnectedByClient => "connection terminated by the client"
  | DisconnectedByServer => "connection terminated by the server"
  | PacketSerialization err => "failed to serialize packet: " +:+ show_serialization_error err
  | PacketDeserialization err => "failed to deserialize packet: " +:+ show_serialization_error err
  | ReceivedInvalidChannelId id => "received message with invalid channel " +:+ pretty id
  | SendChannelError channel_id error => "send channel " +:+ pretty channel_id +:+ " with error: " +:+ show_channel_error error
  | ReceiveChannelError channel_id error => "receive channel " +:+ pretty channel_id +:+ " with error: " +:+ show_channel_error error
  end.

Definition show_client_not_found (_ : ClientNotFound) : string := "client with given id was not found".

Definition show_net_disconnect_reason (r : NetDisconnectReason) : string :=
  match r with
  | ConnectTokenExpired => "connection token has expired"
  | ConnectionTimedOut => "connection timed out"
  | ConnectionResponseTimedOut => "connection timed out during response step"
  | ConnectionRequestTimedOut => "connection timed out during request step"
  | ConnectionDeniedByServer => "server denied connection"
  | NetDisconnectedByClient => "connection terminated by client"
  | NetDisconnectedByServer => "connection terminated by server"
  end.

Section io.
Variable show_io_error : IoErrorKind -> string.

Definition show_token_error (e : TokenGenerationError) : string :=
  match e with
  | MaxHostCount => "connect token can only have 32 server adresses"
  | TokenCryptoError => "error while encoding or decoding the connect token"
  | TokenIoError kind => show_io_error kind
  | NoServerAddressAvailable => "connect token must have at least one server address"
  end.

Definition show_netcode_error (e : NetcodeError) : string :=
  match e with
  | UnavailablePrivateKey => "no private key was found for this address"
  | InvalidPacketType => "invalid packet type"
  | InvalidProtocolID => "invalid protocol id"
  | InvalidVersion => "invalid version info"
  | PacketTooSmall => "packet is too small"
  | PayloadAboveLimit => "payload is above the " +:+ pretty NETCODE_MAX_PAYLOAD_BYTES +:+ " bytes limit"
  | Expired => "connection expired"
  | DuplicatedSequence => "sequence already received"
  | NetDisconnected reason => "disconnected: " +:+ show_net_disconnect_reason reason
  | NoMoreServers => "client has no more servers to connect"
  | CryptoError => "error while encoding or decoding"
  | NotInHostList => "token does not contain the server address"
  | NetClientNotFound => "client was not found"
  | ClientNotConnected => "client is disconnected or connecting"
  | IoError kind => show_io_error kind
  | TokenError err => show_token_error err
  end.

Definition show_transport_error (e : NetcodeTransportError) : string :=
  match e with
  | TeNetcode err => show_netcode_error err
  | TeRenet err => show_disconnect_reason err
  | TeIO err => show_io_error err
  end.

End io.

(** The conversions of the [?] operator in the transports. *)
Definition transport_error_of_netcode (inner : NetcodeError) : NetcodeTransportError := TeNetcode inner.
Definition transport_error_of_token (inner : TokenGenerationError) : NetcodeTransportError := TeNetcode (TokenError inner).
Definition transport_error_of_renet (inner : DisconnectReason) : NetcodeTransportError := TeRenet inner.
Definition transport_error_of_io (inner : IoErrorKind) : NetcodeTransportError := TeIO inner.

(** ** Messages identify reasons *)

Lemma chars_append s t : list_ascii_of_string (s +:+ t) = list_ascii_of_string s ++ list_ascii_of_string t.
Proof. induction s as [|c s IH]; [done|]. change (String c s +:+ t) with (String c (s +:+ t)). cbn. by rewrite IH. Qed.

Lemma append_inj_r (s s' t : string) : s +:+ t = s' +:+ t -> s = s'.
Proof.
  intros E. apply (f_equal list_ascii_of_string) in E. rewrite !chars_append in E. apply app_inj_2 in E as [E _]; [|done].
  rewrite <- (string_of_list_ascii_of_string s), E. apply string_of_list_ascii_of_string.
Qed.

Lemma show_serialization_error_inj e e' : show_serialization_error e = show_serialization_error e' -> e = e'.
Proof. by destruct e, e'. Qed.

(** The two channel errors do not end alike, whatever is printed before. *)
Lemma show_channel_error_inj (s s' : string) e e' : s +:+ show_channel_error e = s' +:+ show_channel_error e' -> s = s' /\ e = e'.
Proof.
  intros E. assert (e = e') as <-; [|split; [by eapply append_inj_r|done]].
  apply (f_equal (fun x => last (list_ascii_of_string x))) in E. rewrite !chars_append, !last_app in E. by destruct e, e'.
Qed.

Lemma append_assoc (s t u : string) : s +:+ (t +:+ u) = (s +:+ t) +:+ u.
Proof. induction s as [|c s IH]; [done|]. exact (f_equal (String c) IH). Qed.

Lemma channel_message_inj (id id' : Z) e e' :
  pretty id +:+ " with error: " +:+ show_channel_error e = pretty id' +:+ " with error: " +:+ show_channel_error e' -> id = id' /\ e = e'.
Proof. rewrite !append_assoc. intros [E%append_inj_r%(inj pretty) ->]%show_channel_error_inj. done. Qed.

(** Two different reasons for a disconnection never print the same. *)
Theorem disconnect_messages_injective r r' : show_disconnect_reason r = show_disconnect_reason r' -> r = r'.
Proof.
  intros E. destruct r as [| | |e|e|id|id e|id e], r' as [| | |e'|e'|id'|id' e'|id' e']; cbn [show_disconnect_reason] in E; try done.
  - apply (inj _), show_serialization_error_inj in E. by subst.
  - apply (inj _), show_serialization_error_inj in E. by subst.
  - apply (inj _), (inj pretty) in E. by subst.
  - apply (inj _), channel_message_inj in E as [-> ->]. done.
  - apply (inj _), channel_message_inj in E as [-> ->]. done.
Qed.
