(* ===== verification/Apps.v ===== *)
(** * What applications share

    Strings, the [while let] loops over what a renet endpoint hands out, and the
    conversation of an application with the connections of its server. *)

From Stdlib Require Import Strings.String.
From S2P Require Import Prelude Octets Packet ReliableSend ReliableRecv Unreliable Connection Server.

(** ** Strings ([std::string::String])

    A [String] is its bytes, which are well-formed UTF-8. *)

Definition bytes_of_string (s : string) : Bytes := list_byte_of_string s.

(** A byte in a range. *)
Definition within (lo hi : Z) (b : byte) : bool := (lo <=? byte_val b) && (byte_val b <=? hi).

(** The second byte of a sequence of three and of four, which depends on the first. *)
Definition second_of_3 (b0 b1 : byte) : bool :=
  if byte_val b0 =? 224 then within 160 191 b1
  else if byte_val b0 =? 237 then within 128 159 b1
  else within 128 191 b1.

Definition second_of_4 (b0 b1 : byte) : bool :=
  if byte_val b0 =? 240 then within 144 191 b1
  else if byte_val b0 =? 244 then within 128 143 b1
  else within 128 191 b1.

(** [String::from_utf8] succeeds. *)
Fixpoint utf8_valid (l : Bytes) : bool :=
  match l with
  | [] => true
  | b0 :: l1 =>
      if byte_val b0 <? 128 then utf8_valid l1
      else if within 194 223 b0 then
        match l1 with b1 :: l2 => within 128 191 b1 && utf8_valid l2 | _ => false end
      else if within 224 239 b0 then
        match l1 with b1 :: b2 :: l3 => second_of_3 b0 b1 && within 128 191 b2 && utf8_valid l3 | _ => false end
      else if within 240 244 b0 then
        match l1 with
        | b1 :: b2 :: b3 :: l4 => second_of_4 b0 b1 && within 128 191 b2 && within 128 191 b3 && utf8_valid l4
        | _ => false
        end
      else false
  end.

Definition from_utf8 (l : Bytes) : option Bytes := if utf8_valid l then Some l else None.

(** ** Channels *)

(** [DefaultChannel::ReliableOrdered] and [DefaultChannel::Unreliable]. *)
Definition ORDERED : Z := default_channel_id DefaultReliableOrdered.
Definition UNRELIABLE : Z := default_channel_id DefaultUnreliable.

(** ** [while let Some(x) = next() { body }]

    The fuel bounds the turns; [while_let_ends] shows when it is enough. *)

Section while_let.
Context {T A : Type} (next : T -> out (T * option A)) (body : A -> T -> out T).

Fixpoint while_let (fuel : nat) (s : T) : out T :=
  match fuel with
  | O => Ret s
  | S fuel =>
      let! (s, x) := next s in
      match x with
      | None => Ret s
      | Some x =>
          let! s := body x s in
          while_let fuel s
      end
  end.

(** A loop each of whose turns decreases a measure stops because there is nothing
    left; and what each turn does, transitively, it does. *)
Lemma while_let_ends (R : T -> T -> Prop) `{!PreOrder R} (waiting : T -> nat) (Done : T -> Prop) :
  (forall s s1, next s = Ret (s1, None) -> R s s1 /\ Done s1) ->
  (forall s s1 x s2, next s = Ret (s1, Some x) -> body x s1 = Ret s2 -> R s s2 /\ (waiting s2 < waiting s)%nat) ->
  forall fuel s s', (waiting s < fuel)%nat -> while_let fuel s = Ret s' -> R s s' /\ Done s'.
Proof using.
  intros Hstop Hturn. induction fuel as [|fuel IH]; intros s s' Hf H; [lia|]. cbn [while_let] in H.
  destruct (next s) as [[s1 [x|]]|] eqn:En; cbn [out_bind] in H; [| |done].
  - destruct (body x s1) as [s2|] eqn:Eb; cbn [out_bind] in H; [|done]. destruct (Hturn _ _ _ _ En Eb) as [HR Hw].
    apply IH in H as [HR2 HD]; [|lia]. split; [by transitivity s2|done].
  - injection H as <-. by apply Hstop.
Qed.

End while_let.

(** ** What waits for the application *)

(** The messages that wait on a channel: a bound on the turns of a loop that receives them. *)
Definition backlog (c : RenetClient) (ch : Z) : nat :=
  match receive_reliable_channels c !! ch, receive_unreliable_channels c !! ch with
  | Some channel, _ => size (rr_messages channel)
  | None, Some channel => length (ru_messages channel)
  | None, None => O
  end.

Definition server_backlog (server : RenetServer) (client_id ch : Z) : nat :=
  match connections server !! client_id with Some c => backlog c ch | None => O end.

Lemma size_delete_S {V} (m : gmap Z V) k x : m !! k = Some x -> size m = S (size (delete k m)).
Proof. intros H. rewrite <- (insert_delete_id m k x H) at 1. by rewrite map_size_insert_None by apply lookup_delete_eq. Qed.

Lemma receive_shrinks c ch c' m : receive_message c ch = Ret (c', Some m) -> backlog c ch = S (backlog c' ch).
Proof.
  unfold receive_message, backlog. destruct (is_disconnected c); [done|]. destruct (receive_reliable_channels c !! ch) as [chan|] eqn:E.
  - destruct (rr_receive_message chan) as [[chan' r]|] eqn:Er; cbn [out_bind]; [|done]. intros [= <- ->]. cbn [receive_reliable_channels set_receive_reliable].
    rewrite lookup_insert_eq. unfold rr_receive_message in Er. destruct (reliable_order chan).
    + destruct (rr_messages chan !! _) as [x|] eqn:Em; [|done]. destruct (add64 _ _); cbn [out_bind] in Er; [|done].
      destruct (sub64 _ _); cbn [out_bind] in Er; [|done]. injection Er as <- _. cbn. by eapply size_delete_S.
    + destruct (pop_first (rr_messages chan)) as [[[k x] ms]|] eqn:Em; [|done].
      destruct (if _ =? _ then _ else _) as [[o rcv]|]; cbn [out_bind] in Er; [|done].
      destruct (sub64 _ _); cbn [out_bind] in Er; [|done]. injection Er as <- _. cbn.
      apply pop_first_Some in Em as (Hk & -> & _). by eapply size_delete_S.
  - destruct (receive_unreliable_channels c !! ch) as [chan|] eqn:Eu; [|done].
    destruct (ru_receive_message chan) as [[chan' r]|] eqn:Er; cbn [out_bind]; [|done]. intros [= <- ->].
    cbn [receive_reliable_channels receive_unreliable_channels set_receive_unreliable]. rewrite E, lookup_insert_eq.
    unfold ru_receive_message in Er. destruct (ru_messages chan) as [|x ms]; [done|]. destruct (sub64 _ _); cbn [out_bind] in Er; [|done].
    by injection Er as <- _.
Qed.

(** A channel that has nothing to deliver stays as it is. *)
Lemma rr_receive_none chan chan' : rr_receive_message chan = Ret (chan', None) -> chan' = chan.
Proof.
  unfold rr_receive_message. intros Er. destruct (reliable_order chan).
  - destruct (rr_messages chan !! _); [|by injection Er]. destruct (add64 _ _); cbn [out_bind] in Er; [|done]. by destruct (sub64 _ _); cbn [out_bind] in Er.
  - destruct (pop_first _) as [[[k x] ms]|]; [|by injection Er]. destruct (if _ =? _ then _ else _) as [[o rcv]|]; cbn [out_bind] in Er; [|done].
    by destruct (sub64 _ _); cbn [out_bind] in Er.
Qed.

Lemma ru_receive_none chan chan' : ru_receive_message chan = Ret (chan', None) -> chan' = chan.
Proof. unfold ru_receive_message. intros Er. destruct (ru_messages chan); [by injection Er|]. by destruct (sub64 _ _); cbn [out_bind] in Er. Qed.

(** Nothing is left to receive. *)
Definition drained (c : RenetClient) (ch : Z) : Prop := exists c', receive_message c ch = Ret (c', None).

Lemma drained_none c ch c' : receive_message c ch = Ret (c', None) -> drained c' ch.
Proof.
  unfold drained, receive_message. destruct (is_disconnected c) eqn:Ed; [intros [= <-]; rewrite Ed; by eexists|].
  destruct (receive_reliable_channels c !! ch) as [chan|] eqn:E.
  - destruct (rr_receive_message chan) as [[chan' r]|] eqn:Er; cbn [out_bind]; [|done]. intros [= <- ->].
    assert (chan' = chan) as -> by (by apply rr_receive_none).
    unfold is_disconnected in *. cbn [receive_reliable_channels set_receive_reliable connection_status]. rewrite Ed, lookup_insert_eq, Er. by eexists.
  - destruct (receive_unreliable_channels c !! ch) as [chan|] eqn:Eu; [|done].
    destruct (ru_receive_message chan) as [[chan' r]|] eqn:Er; cbn [out_bind]; [|done]. intros [= <- ->].
    assert (chan' = chan) as -> by (by apply ru_receive_none).
    unfold is_disconnected in *.
    cbn [receive_reliable_channels receive_unreliable_channels set_receive_unreliable connection_status]. rewrite Ed, E, lookup_insert_eq, Er. by eexists.
Qed.

(** Sending does not touch what is received. *)
Lemma send_keeps_receiving c ch m c' :
  send_message c ch m = Ret c' ->
  receive_reliable_channels c' = receive_reliable_channels c /\ receive_unreliable_channels c' = receive_unreliable_channels c /\
  (is_disconnected c = true -> is_disconnected c' = true).
Proof.
  unfold send_message. destruct (is_disconnected c) eqn:Ed; [by intros [= <-]|].
  destruct (send_reliable_channels c !! ch) as [chan|].
  - destruct (sr_send_message chan m) as [[chan' []]|]; cbn [out_bind]; [by intros [= <-]| |done].
    intros [= <-]. unfold disconnect_with_reason. by destruct (is_disconnected _).
  - destruct (send_unreliable_channels c !! ch) as [chan|]; [|done]. destruct (su_send_message chan m); cbn [out_bind]; [|done]. by intros [= <-].
Qed.

Lemma send_keeps_drained c ch ch' m c' : drained c ch -> send_message c ch' m = Ret c' -> drained c' ch.
Proof.
  intros [c1 H] Hs. apply send_keeps_receiving in Hs as (E1 & E2 & E3). unfold drained, receive_message in *. rewrite E1, E2.
  destruct (is_disconnected c') eqn:Ed'; [by eexists|]. destruct (is_disconnected c); [by specialize (E3 eq_refl)|].
  destruct (receive_reliable_channels c !! ch) as [chan|].
  - destruct (rr_receive_message chan) as [[chan' r]|]; cbn [out_bind] in *; [|done]. injection H as _ ->. by eexists.
  - destruct (receive_unreliable_channels c !! ch) as [chan|]; [|done].
    destruct (ru_receive_message chan) as [[chan' r]|]; cbn [out_bind] in *; [|done]. injection H as _ ->. by eexists.
Qed.

Lemma send_keeps_backlog c ch ch' m c' : send_message c ch' m = Ret c' -> backlog c' ch = backlog c ch.
Proof. intros (E1 & E2 & _)%send_keeps_receiving. unfold backlog. by rewrite E1, E2. Qed.

(** Receiving takes at most one message, from the channel it is called with. *)
Lemma receive_backlog c ch c' r k :
  receive_message c ch = Ret (c', r) ->
  backlog c k = (backlog c' k + match r with Some _ => if decide (k = ch) then 1 else 0 | None => 0 end)%nat.
Proof.
  intros H. destruct (decide (k = ch)) as [->|Hne].
  - destruct r as [m|]; [apply receive_shrinks in H; lia|]. revert H. unfold receive_message, backlog. destruct (is_disconnected c); [intros [= <-]; lia|].
    destruct (receive_reliable_channels c !! ch) as [chan|] eqn:E.
    + destruct (rr_receive_message chan) as [[chan' r]|] eqn:Er; cbn [out_bind]; [|done]. intros [= <- ->]. cbn. rewrite lookup_insert_eq.
      by rewrite (rr_receive_none _ _ Er).
    + destruct (receive_unreliable_channels c !! ch) as [chan|] eqn:Eu; [|done].
      destruct (ru_receive_message chan) as [[chan' r]|] eqn:Er; cbn [out_bind]; [|done]. intros [= <- ->]. cbn. rewrite E, lookup_insert_eq.
      by rewrite (ru_receive_none _ _ Er).
  - replace (match r with Some _ => 0 | None => 0 end)%nat with 0%nat by (by destruct r). revert H. unfold receive_message, backlog.
    destruct (is_disconnected c); [intros [= <- _]; lia|]. destruct (receive_reliable_channels c !! ch) as [chan|] eqn:E.
    + destruct (rr_receive_message chan) as [[chan' r']|]; cbn [out_bind]; [|done]. intros [= <- _]. cbn. by rewrite lookup_insert_ne, Nat.add_0_r.
    + destruct (receive_unreliable_channels c !! ch) as [chan|]; [|done].
      destruct (ru_receive_message chan) as [[chan' r']|]; cbn [out_bind]; [|done]. intros [= <- _]. cbn. by rewrite lookup_insert_ne, Nat.add_0_r.
Qed.

Lemma receive_keeps_drained c ch c' r k : receive_message c ch = Ret (c', r) -> drained c k -> drained c' k.
Proof.
  intros H [d Hd]. destruct (decide (k = ch)) as [->|Hne].
  - rewrite H in Hd. injection Hd as -> ->. by eapply drained_none.
  - revert H Hd. unfold drained, receive_message. destruct (is_disconnected c) eqn:Ed; [intros [= <- _] _; rewrite Ed; by eexists|].
    destruct (receive_reliable_channels c !! ch) as [chan|] eqn:E.
    + destruct (rr_receive_message chan) as [[chan' r']|]; cbn [out_bind]; [|done]. intros [= <- _]. unfold is_disconnected in *. cbn.
      rewrite Ed, lookup_insert_ne by done. destruct (receive_reliable_channels c !! k) as [x|].
      * destruct (rr_receive_message x) as [[x' rx]|]; cbn; [|done]. intros [= _ ->]. by eexists.
      * destruct (receive_unreliable_channels c !! k) as [x|]; [|done].
        destruct (ru_receive_message x) as [[x' rx]|]; cbn; [|done]. intros [= _ ->]. by eexists.
    + destruct (receive_unreliable_channels c !! ch) as [chan|]; [|done].
      destruct (ru_receive_message chan) as [[chan' r']|]; cbn [out_bind]; [|done]. intros [= <- _]. unfold is_disconnected in *. cbn.
      rewrite Ed, lookup_insert_ne by done. destruct (receive_reliable_channels c !! k) as [x|].
      * destruct (rr_receive_message x) as [[x' rx]|]; cbn; [|done]. intros [= _ ->]. by eexists.
      * destruct (receive_unreliable_channels c !! k) as [x|]; [|done].
        destruct (ru_receive_message x) as [[x' rx]|]; cbn; [|done]. intros [= _ ->]. by eexists.
Qed.

(** ** Conversations *)

(** What an application does with one connection: it sends a message on a channel,
    or takes one from it. *)
Inductive act :=
  | Sends (ch : Z) (b : Bytes)
  | Takes (ch : Z) (b : Bytes).

Inductive talk : RenetClient -> list act -> RenetClient -> Prop :=
  | talk_nil c : talk c [] c
  | talk_sends c ch b c1 l c' : send_message c ch b = Ret c1 -> talk c1 l c' -> talk c (Sends ch b :: l) c'
  | talk_takes c ch b c1 l c' : receive_message c ch = Ret (c1, Some b) -> talk c1 l c' -> talk c (Takes ch b :: l) c'
  | talk_nothing c ch c1 l c' : receive_message c ch = Ret (c1, None) -> talk c1 l c' -> talk c l c'.

(** The messages sent to, and taken from, a channel. *)
Definition sent (ch : Z) (l : list act) : list Bytes :=
  omap (fun a => match a with Sends k b => if k =? ch then Some b else None | Takes _ _ => None end) l.
Definition taken (ch : Z) (l : list act) : list Bytes :=
  omap (fun a => match a with Takes k b => if k =? ch then Some b else None | Sends _ _ => None end) l.

Lemma talk_app c l c1 l' c' : talk c l c1 -> talk c1 l' c' -> talk c (l ++ l') c'.
Proof. induction 1; intros; cbn; [done|econstructor; eauto..|eapply talk_nothing; eauto]. Qed.

Lemma sent_app ch l l' : sent ch (l ++ l') = sent ch l ++ sent ch l'.
Proof. apply omap_app. Qed.

Lemma taken_app ch l l' : taken ch (l ++ l') = taken ch l ++ taken ch l'.
Proof. apply omap_app. Qed.

Lemma taken_cons ch k b l : taken ch (Takes k b :: l) = (if k =? ch then [b] else []) ++ taken ch l.
Proof. unfold taken. cbn. by destruct (k =? ch). Qed.

Lemma taken_cons_self i ch b : taken ch (if i =? i then [Takes ch b] else []) = [b].
Proof. rewrite Z.eqb_refl, taken_cons, Z.eqb_refl. done. Qed.

Lemma sent_cons ch k b l : sent ch (Sends k b :: l) = (if k =? ch then [b] else []) ++ sent ch l.
Proof. unfold sent. cbn. by destruct (k =? ch). Qed.

Lemma talk_backlog c l c' ch : talk c l c' -> backlog c ch = (backlog c' ch + length (taken ch l))%nat.
Proof.
  induction 1 as [c|c k b c1 l c' Hs _ IH|c k b c1 l c' Hr _ IH|c k c1 l c' Hr _ IH].
  - cbn. lia.
  - by rewrite <- (send_keeps_backlog _ ch _ _ _ Hs).
  - rewrite (receive_backlog _ _ _ _ ch Hr), IH, taken_cons. destruct (decide (ch = k)) as [->|].
    + rewrite Z.eqb_refl. cbn. lia.
    + destruct (Z.eqb_spec k ch); [congruence|]. cbn. lia.
  - by rewrite (receive_backlog _ _ _ _ ch Hr), Nat.add_0_r.
Qed.

Lemma talk_drained c l c' ch : talk c l c' -> drained c ch -> drained c' ch.
Proof. induction 1; eauto using send_keeps_drained, receive_keeps_drained. Qed.

(** Neither sending nor receiving connects a connection. *)
Lemma send_connected c ch b c' : send_message c ch b = Ret c' -> is_connected c' = true -> is_connected c = true.
Proof.
  unfold send_message. destruct (is_disconnected c); [by intros [= <-]|]. destruct (send_reliable_channels c !! ch) as [chan|].
  - destruct (sr_send_message chan b) as [[chan' []]|]; cbn [out_bind]; [by intros [= <-]| |done].
    intros [= <-]. unfold disconnect_with_reason. by destruct (is_disconnected (set_send_reliable _ _)).
  - destruct (send_unreliable_channels c !! ch) as [chan|]; [|done]. destruct (su_send_message chan b); cbn [out_bind]; [|done]. by intros [= <-].
Qed.

Lemma receive_connected c ch c' r : receive_message c ch = Ret (c', r) -> is_connected c' = is_connected c.
Proof.
  unfold receive_message. destruct (is_disconnected c); [by intros [= <- _]|]. destruct (receive_reliable_channels c !! ch) as [chan|].
  - destruct (rr_receive_message chan) as [[chan' x]|]; cbn [out_bind]; [|done]. by intros [= <- _].
  - destruct (receive_unreliable_channels c !! ch) as [chan|]; [|done]. destruct (ru_receive_message chan) as [[chan' x]|]; cbn [out_bind]; [|done].
    by intros [= <- _].
Qed.

Lemma talk_connected c l c' : talk c l c' -> is_connected c' = true -> is_connected c = true.
Proof.
  induction 1 as [c|c k b c1 l c' Hs _ IH|c k b c1 l c' Hr _ IH|c k c1 l c' Hr _ IH]; intros H; [done|..].
  - eapply send_connected; [exact Hs|auto].
  - erewrite <- receive_connected by exact Hr. auto.
  - erewrite <- receive_connected by exact Hr. auto.
Qed.

(** From one state of a server to another, by what is said to each connection;
    none appears and none goes. *)
Definition converse (plan : Z -> list act) (s s' : RenetServer) : Prop :=
  forall id, match connections s !! id with
             | Some c => exists c', connections s' !! id = Some c' /\ talk c (plan id) c'
             | None => connections s' !! id = None
             end.

Lemma converse_same s s' : connections s' = connections s -> converse (fun _ => []) s s'.
Proof. intros E id. rewrite E. destruct (connections s !! id) as [c|]; [|done]. exists c. split; [done|constructor]. Qed.

Lemma converse_trans p1 p2 s1 s2 s3 : converse p1 s1 s2 -> converse p2 s2 s3 -> converse (fun id => p1 id ++ p2 id) s1 s3.
Proof.
  intros H1 H2 id. specialize (H1 id). specialize (H2 id). destruct (connections s1 !! id) as [c|].
  - destruct H1 as (c1 & E & T1). rewrite E in H2. destruct H2 as (c2 & E2 & T2). exists c2. split; [done|by eapply talk_app].
  - by rewrite H1 in H2.
Qed.

Lemma converse_ext p p' s s' : (forall id, p id = p' id) -> converse p s s' -> converse p' s s'.
Proof. intros E H id. rewrite <- E. apply H. Qed.

Lemma broadcast_converse s ch b s' : broadcast_message s ch b = Ret s' -> converse (fun _ => [Sends ch b]) s s' /\ events s' = events s.
Proof.
  unfold broadcast_message. destruct (map_values_mut _ _) as [m|] eqn:E; cbn [out_bind]; [|done]. intros [= <-]. split; [|done]. intros id.
  apply (map_values_mut_lookup _ _ _ id) in E. cbn. destruct (connections s !! id) as [c|]; [|done]. destruct E as (c' & E & Hc).
  exists c'. split; [done|]. econstructor; [exact E|constructor].
Qed.

Lemma broadcast_except_converse s except ch b s' :
  broadcast_message_except s except ch b = Ret s' ->
  converse (fun id => if except =? id then [] else [Sends ch b]) s s' /\ events s' = events s.
Proof.
  unfold broadcast_message_except. destruct (map_iter_mut _ _) as [m|] eqn:E; cbn [out_bind]; [|done]. intros [= <-]. split; [|done]. intros id.
  apply (map_iter_mut_lookup _ _ _ id) in E. cbn. destruct (connections s !! id) as [c|]; [|done]. destruct E as (c' & E & Hc).
  exists c'. split; [done|]. destruct (except =? id); [injection E as <-; constructor|]. econstructor; [exact E|constructor].
Qed.

Lemma send_converse s i ch b s' :
  server_send_message s i ch b = Ret s' -> converse (fun id => if i =? id then [Sends ch b] else []) s s' /\ events s' = events s.
Proof.
  unfold server_send_message. destruct (connections s !! i) as [c|] eqn:Ei.
  - destruct (send_message c ch b) as [c'|] eqn:E; cbn [out_bind]; [|done]. intros [= <-]. split; [|done]. intros id. cbn.
    destruct (Z.eqb_spec i id) as [<-|Hne].
    + rewrite Ei, lookup_insert_eq. exists c'. split; [done|]. econstructor; [exact E|constructor].
    + rewrite lookup_insert_ne by done. destruct (connections s !! id) as [x|]; [|done]. exists x. split; [done|constructor].
  - intros [= <-]. split; [|done]. intros id. destruct (Z.eqb_spec i id) as [<-|Hne]; [by rewrite Ei|]. by apply converse_same.
Qed.

Lemma take_converse s i ch s' r :
  server_receive_message s i ch = Ret (s', r) ->
  converse (fun id => match r with Some b => if i =? id then [Takes ch b] else [] | None => [] end) s s' /\ events s' = events s.
Proof.
  unfold server_receive_message. destruct (connections s !! i) as [c|] eqn:Ei.
  - destruct (receive_message c ch) as [[c' r']|] eqn:E; cbn [out_bind]; [|done]. intros [= <- ->]. split; [|done]. intros id. cbn.
    destruct (Z.eqb_spec i id) as [<-|Hne].
    + rewrite Ei, lookup_insert_eq. exists c'. split; [done|]. destruct r as [b|]; econstructor; [exact E|constructor|exact E|constructor].
    + rewrite lookup_insert_ne by done. destruct (connections s !! id) as [x|]; [|done]. exists x. split; [done|]. destruct r; constructor.
  - intros [= <- <-]. split; [|done]. by apply converse_same.
Qed.

Lemma converse_backlog p s s' id ch :
  converse p s s' -> is_Some (connections s !! id) -> server_backlog s id ch = (server_backlog s' id ch + length (taken ch (p id)))%nat.
Proof.
  intros H [c Hc]. specialize (H id). unfold server_backlog. rewrite Hc in *. destruct H as (c' & -> & Ht). by apply talk_backlog.
Qed.

(** Nothing is left to receive from a client of a server. *)
Definition server_drained (s : RenetServer) (id ch : Z) : Prop := forall c, connections s !! id = Some c -> drained c ch.

Lemma converse_drained p s s' id ch : converse p s s' -> server_drained s id ch -> server_drained s' id ch.
Proof.
  intros H Hd c' Hc'. specialize (H id). destruct (connections s !! id) as [c|] eqn:E; [|congruence].
  destruct H as (c1 & E1 & Ht). assert (c1 = c') as -> by congruence. eapply talk_drained; [exact Ht|by apply Hd].
Qed.

Lemma take_none_drained s i ch s' : server_receive_message s i ch = Ret (s', None) -> server_drained s' i ch.
Proof.
  unfold server_receive_message. destruct (connections s !! i) as [c|] eqn:Ei.
  - destruct (receive_message c ch) as [[c' r']|] eqn:E; cbn [out_bind]; [|done]. intros [= <- ->] x. cbn. rewrite lookup_insert_eq.
    intros [= <-]. by eapply drained_none.
  - intros [= <-] x. congruence.
Qed.

Lemma converse_connected p s s' id : converse p s s' -> server_is_connected s' id = true -> server_is_connected s id = true.
Proof.
  intros H. specialize (H id). unfold server_is_connected. destruct (connections s !! id) as [c|]; [|by rewrite H].
  destruct H as (c' & -> & Ht). by eapply talk_connected.
Qed.

Lemma connected_in_clients s id : server_is_connected s id = true -> id ∈ clients_id s.
Proof.
  unfold server_is_connected, clients_id. destruct (connections s !! id) as [c|] eqn:E; [|done]. intros H. apply list_elem_of_fmap.
  exists (id, c). split; [done|]. apply list_elem_of_filter. split; [done|]. by apply elem_of_map_to_list.
Qed.

(** A message is only taken from a client that is there. *)
Lemma take_some_connected s i ch s' b : server_receive_message s i ch = Ret (s', Some b) -> is_Some (connections s !! i).
Proof. unfold server_receive_message. destruct (connections s !! i); [by eexists|done]. Qed.

(** A client's loop over what waits on a channel ends with nothing left there. *)
Lemma client_while {T} (client : T -> RenetClient) (set_client : T -> RenetClient -> T) (R : T -> T -> Prop) `{!PreOrder R} ch next body self self' :
  (forall s, next s = (let! (c, m) := receive_message (client s) ch in Ret (set_client s c, m))) ->
  (forall s c, client (set_client s c) = c) ->
  (forall s c, receive_message (client s) ch = Ret (c, None) -> R s (set_client s c)) ->
  (forall s c b s', receive_message (client s) ch = Ret (c, Some b) -> body b (set_client s c) = Ret s' -> R s s' /\ client s' = c) ->
  while_let next body (S (backlog (client self) ch)) self = Ret self' -> R self self' /\ drained (client self') ch.
Proof.
  intros Hnext Hset Hnone Hbody. apply (while_let_ends _ _ R (fun s => backlog (client s) ch) (fun s => drained (client s) ch)); [| |lia].
  - intros s s1 H. rewrite Hnext in H. destruct (receive_message _ _) as [[c r]|] eqn:E; cbn [out_bind] in H; [|done]. injection H as <- ->.
    split; [by apply Hnone|]. rewrite Hset. by eapply drained_none.
  - intros s s1 b s2 H Hb. rewrite Hnext in H. destruct (receive_message _ _) as [[c r]|] eqn:E; cbn [out_bind] in H; [|done]. injection H as <- ->.
    destruct (Hbody _ _ _ _ E Hb) as [Hf Hc]. split; [done|]. rewrite Hc. apply receive_shrinks in E. lia.
Qed.

(** Such a loop fails only when receiving does, or on a message that it has taken. *)
Lemma client_while_panics {T} (client : T -> RenetClient) (set_client : T -> RenetClient -> T) ch next body fuel : forall self,
  while_let next body fuel self = Panic ->
  (forall s, next s = (let! (c, m) := receive_message (client s) ch in Ret (set_client s c, m))) ->
  (forall s c, client (set_client s c) = c) ->
  (forall s c b s', receive_message (client s) ch = Ret (c, Some b) -> body b (set_client s c) = Ret s' -> client s' = c) ->
  exists l c, talk (client self) l c /\ (receive_message c ch = Panic \/ exists b s, b ∈ taken ch l /\ body b s = Panic).
Proof.
  induction fuel as [|fuel IH]; intros self H Hnext Hset Hbody; cbn [while_let] in H; [done|].
  rewrite Hnext in H. destruct (receive_message (client self) ch) as [[c [b|]]|] eqn:E; cbn [out_bind] in H; [|done|].
  - destruct (body b (set_client self c)) as [s|] eqn:Eb; cbn [out_bind] in H.
    + destruct (IH s H Hnext Hset Hbody) as (l & c' & Ht & Hc). rewrite (Hbody _ _ _ _ E Eb) in Ht.
      exists (Takes ch b :: l), c'. split; [by eapply talk_takes|]. destruct Hc as [?|(b' & s' & Hb' & ?)]; [by left|]. right.
      exists b', s'. split; [|done]. rewrite taken_cons, Z.eqb_refl. by right.
    + exists [Takes ch b], c. split; [eapply talk_takes; [exact E|constructor]|]. right. exists b, (set_client self c).
      split; [|done]. rewrite taken_cons, Z.eqb_refl. by left.
  - exists [], (client self). split; [constructor|by left].
Qed.

(** The loop that takes the messages of one client from a channel. *)
Section receive_while.
Context {T : Type} (get : T -> RenetServer) (set : T -> RenetServer -> T) (get_set : forall s x, get (set s x) = x).
Context (id ch : Z) (body : Bytes -> T -> out T).

Definition next_message (s : T) : out (T * option Bytes) :=
  let! (server, message) := server_receive_message (get s) id ch in
  Ret (set s server, message).

Lemma receive_while (R : T -> T -> Prop) `{!PreOrder R} :
  (forall s server, server_receive_message (get s) id ch = Ret (server, None) -> R s (set s server)) ->
  (forall s server m s', server_receive_message (get s) id ch = Ret (server, Some m) -> body m (set s server) = Ret s' ->
     R s s' /\ exists p, converse p server (get s') /\ taken ch (p id) = []) ->
  forall s s', while_let next_message body (S (server_backlog (get s) id ch)) s = Ret s' -> R s s' /\ server_drained (get s') id ch.
Proof using get_set.
  intros Hstop Hturn s s'. apply (while_let_ends _ _ R (fun s => server_backlog (get s) id ch) (fun s => server_drained (get s) id ch)); [| |lia].
  - intros t t1 H. unfold next_message in H. destruct (server_receive_message _ _ _) as [[server r]|] eqn:E; cbn [out_bind] in H; [|done].
    injection H as <- ->. split; [by apply Hstop|]. rewrite get_set. by eapply take_none_drained.
  - intros t t1 m t2 H Hb. unfold next_message in H. destruct (server_receive_message _ _ _) as [[server r]|] eqn:E; cbn [out_bind] in H; [|done].
    injection H as <- ->. destruct (Hturn _ _ _ _ E Hb) as [HR (p & Hp & Hn)]. split; [done|].
    pose proof (take_some_connected _ _ _ _ _ E) as Hc. apply take_converse in E as [E _].
    rewrite (converse_backlog _ _ _ id ch E Hc), taken_cons_self.
    assert (is_Some (connections server !! id)) as Hc'.
    { destruct Hc as [c Hc]. specialize (E id). rewrite Hc in E. destruct E as (c' & -> & _). by eexists. }
    rewrite (converse_backlog _ _ _ id ch Hp Hc'), Hn. cbn. lia.
Qed.

End receive_while.

(** ** Relays

    A server that takes the texts of its clients one after the other, keeps a
    line for each, and broadcasts the lines. *)

(** The texts taken from a client, of the lines of all. *)
Definition heard_from (ch : Z) (lines : list (Z * Bytes)) (k : Z) : list act :=
  Takes ch <$> (filter (fun n => n.1 = k) lines).*2.

Lemma heard_from_app ch n1 n2 k : heard_from ch (n1 ++ n2) k = heard_from ch n1 k ++ heard_from ch n2 k.
Proof. unfold heard_from. by rewrite filter_app, !fmap_app. Qed.

Lemma heard_from_one ch id m k : heard_from ch [(id, m)] k = if id =? k then [Takes ch m] else [].
Proof.
  unfold heard_from. cbn [filter list_filter fst]. destruct (Z.eqb_spec id k) as [->|Hne]; [by rewrite decide_True|by rewrite decide_False].
Qed.

Section relay.
Context {T C : Type} (get : T -> RenetServer) (set : T -> RenetServer -> T) (received : T -> list Bytes) (ctx : T -> C).
Context (get_set : forall s x, get (set s x) = x).
Context (set_keeps : forall s x, received (set s x) = received s /\ ctx (set s x) = ctx s).
Context (ch : Z) (body : Z -> Bytes -> T -> out T) (line_of : C -> Z * Bytes -> Bytes -> Prop).
Context (body_line : forall id m s s', body id m s = Ret s' ->
  get s' = get s /\ ctx s' = ctx s /\ exists line, received s' = received s ++ [line] /\ line_of (ctx s) (id, m) line).

Definition relay_receive (s : T) (id : Z) : out T :=
  while_let (next_message get set id ch) (body id) (S (server_backlog (get s) id ch)) s.

Definition relay_broadcast (s : T) (text : Bytes) : out T :=
  let! server := broadcast_message (get s) ch text in
  Ret (set s server).

(** From one state to the next, texts are taken from clients and lines are kept. *)
Definition hears (s s' : T) : Prop :=
  ctx s' = ctx s /\ events (get s') = events (get s) /\
  exists lines new, received s' = received s ++ new /\ Forall2 (line_of (ctx s)) lines new /\ converse (heard_from ch lines) (get s) (get s').

#[local] Instance hears_preorder : PreOrder hears.
Proof using.
  split.
  - intros s. split_and!; try done. exists [], []. rewrite app_nil_r. split_and!; [done|constructor|by apply converse_same].
  - intros s1 s2 s3 (Ec1 & Ee1 & l1 & n1 & Er1 & Hf1 & Hc1) (Ec2 & Ee2 & l2 & n2 & Er2 & Hf2 & Hc2).
    split_and!; [congruence..|]. exists (l1 ++ l2), (n1 ++ n2). rewrite Ec1 in Hf2.
    split_and!; [by rewrite Er2, Er1, app_assoc|by apply Forall2_app|].
    eapply converse_ext; [intros k; symmetry; apply heard_from_app|]. by eapply converse_trans.
Qed.

Lemma receive_turn id s s' : relay_receive s id = Ret s' -> hears s s' /\ server_drained (get s') id ch.
Proof using get_set set_keeps body_line.
  apply (receive_while get set get_set id ch (body id) hears).
  - intros t server H%take_converse. destruct H as [Hc He], (set_keeps t server) as [Er Ec]. split_and!; [done|by rewrite get_set|].
    exists [], []. rewrite Er, app_nil_r, get_set. split_and!; [done|constructor|exact Hc].
  - intros t server m t' H%take_converse Hb. destruct H as [Hc He], (set_keeps t server) as [Er Ec].
    destruct (body_line _ _ _ _ Hb) as (Eg & Ec' & line & Er' & Hl). rewrite get_set in Eg. rewrite Ec in Hl. split.
    + split_and!; [congruence..|]. exists [(id, m)], [line]. split_and!; [congruence|by constructor|]. rewrite Eg.
      eapply converse_ext; [|exact Hc]. intros k. by rewrite heard_from_one.
    + rewrite Eg. exists (fun _ => []). split; [by apply converse_same|done].
Qed.

Lemma receive_phase ids : forall s s',
  fold_out relay_receive s ids = Ret s' -> hears s s' /\ forall id, id ∈ ids -> server_drained (get s') id ch.
Proof using get_set set_keeps body_line.
  induction ids as [|id ids IH]; intros s s' H; cbn [fold_out] in H; [injection H as <-; split; [done|by intros id ?%elem_of_nil]|].
  destruct (relay_receive s id) as [s1|] eqn:E; cbn [out_bind] in H; [|done]. apply receive_turn in E as [Hh Hd].
  apply IH in H as [Hh' Hd']. split; [by transitivity s1|]. intros k [->|Hk]%elem_of_cons; [|by apply Hd'].
  destruct Hh' as (_ & _ & lines & new & _ & _ & Hc). by eapply converse_drained.
Qed.

Lemma broadcast_phase texts : forall s s',
  fold_out relay_broadcast s texts = Ret s' ->
  ctx s' = ctx s /\ received s' = received s /\ events (get s') = events (get s) /\
  converse (fun _ => Sends ch <$> texts) (get s) (get s').
Proof using get_set set_keeps.
  induction texts as [|t texts IH]; intros s s' H; cbn [fold_out] in H; [injection H as <-; split_and!; try done; by apply converse_same|].
  destruct (relay_broadcast s t) as [s1|] eqn:E1; cbn [out_bind] in H; [|done]. unfold relay_broadcast in E1.
  destruct (broadcast_message _ _ _) as [server|] eqn:E; cbn [out_bind] in E1; [|done]. injection E1 as <-.
  apply broadcast_converse in E as [Hc He]. apply IH in H as (Ec & Er & Ee & Hc'). rewrite get_set in Ee, Hc'.
  destruct (set_keeps s server) as [Er' Ec']. split_and!; [congruence..|]. exact (converse_trans (fun _ => [Sends ch t]) _ _ _ _ Hc Hc').
Qed.

(** Both phases: every text of a connected client is taken, and the lines go to everyone. *)
Lemma relay_phases s s1 s' :
  received s = [] -> fold_out relay_receive s (clients_id (get s)) = Ret s1 -> fold_out relay_broadcast s1 (received s1) = Ret s' ->
  ctx s' = ctx s /\ events (get s') = events (get s) /\
  (forall id, server_is_connected (get s') id = true -> server_drained (get s') id ch) /\
  exists lines, Forall2 (line_of (ctx s)) lines (received s') /\
    converse (fun k => heard_from ch lines k ++ (Sends ch <$> received s')) (get s) (get s').
Proof using get_set set_keeps body_line.
  intros E0 H1 H2. apply receive_phase in H1 as [(Ec & Ee & lines & new & Er & Hf & Hc) Hd].
  apply broadcast_phase in H2 as (Ec' & Er' & Ee' & Hc'). rewrite E0 in Er. cbn in Er. split_and!; [congruence..| |].
  - intros id Hid. eapply converse_drained; [exact Hc'|]. apply Hd, connected_in_clients.
    eapply converse_connected; [exact Hc|]. by eapply converse_connected.
  - exists lines. rewrite Er', Er. split; [done|]. eapply converse_trans; [exact Hc|]. by rewrite <- Er.
Qed.

End relay.

(** ** A serialization to compute with *)

(** Numbers as bytes, a bit per byte. *)
Fixpoint bits_of (p : positive) : Bytes :=
  match p with
  | xH => []
  | xO p => byte_of 0 :: bits_of p
  | xI p => byte_of 1 :: bits_of p
  end.

Fixpoint of_bits (l : Bytes) : positive :=
  match l with
  | [] => xH
  | b :: l => if byte_val b =? 0 then xO (of_bits l) else xI (of_bits l)
  end.

Lemma of_bits_of p : of_bits (bits_of p) = p.
Proof. induction p as [p IH|p IH|]; cbn; by rewrite ?IH. Qed.
