(* ===== verification/Chat.v ===== *)
(** * The chat demo (demo_chat/src)

    An application on top of the stack: the server keeps a table of user names
    and replicates it to its clients over the ordered channel.  [main.rs],
    [server.rs], [client.rs] and the handlers of [ui.rs] are defined; what egui
    draws is not, its widgets only say which handler runs.  bincode is a
    parameter, the class [Bincode] with its laws. *)

From Stdlib Require Import Strings.String.
From stdpp Require Import pretty.
From S2P Require Import Prelude Octets Packet Connection Server Apps.
From S2P Require Import Netcode ReplayProtection Token NetPacket NetClient NetServer Transport Errors Visualizer.

(** ** Messages (main.rs) *)

Definition PROTOCOL_ID : Z := 27.

(** [Username::to_netcode_user_data]. *)
Definition username_to_user_data (name : Bytes) : out Bytes :=
  let user_data := vec_repeat (byte_of 0) NETCODE_USER_DATA_BYTES in
  if NETCODE_USER_DATA_BYTES - 8 <? len name then Panic
  else
    let! user_data := vec_set user_data 0 (byte_of (len name mod 256)) in
    copy_range user_data 1 (len name + 1) name.

(** [Username::from_user_data]. *)
Definition username_from_user_data (user_data : Bytes) : out Bytes :=
  let! b := vec_get user_data 0 in
  let n := Z.min (byte_val b) (NETCODE_USER_DATA_BYTES - 1) in
  let! data := sub_slice user_data 1 (n + 1) in
  Ret (default (bytes_of_string "unknown") (from_utf8 data)).

Record Message := mkMessage { msg_client_id : Z; msg_text : Bytes }.

Inductive ClientMessages :=
  | Text (text : Bytes).

Inductive ServerMessages :=
  | SmClientConnected (client_id : Z) (username : Bytes)
  | SmClientDisconnected (client_id : Z)
  | SmClientMessage (message : Message)
  | SmInitClient (usernames : gmap Z Bytes).

(** [bincode::options().serialize] and [deserialize] at the two types. *)
Class Bincode := {
  serialize_client : ClientMessages -> option Bytes;
  deserialize_client : Bytes -> option ClientMessages;
  serialize_server : ServerMessages -> option Bytes;
  deserialize_server : Bytes -> option ServerMessages;
}.

(** What is written reads back. *)
Class BincodeLaws (bin : Bincode) : Prop := {
  client_round_trip m b : serialize_client m = Some b -> deserialize_client b = Some m;
  server_round_trip m b : serialize_server m = Some b -> deserialize_server b = Some m;
}.

(** [DefaultChannel::ReliableOrdered]. *)
Definition CHAT : Z := default_channel_id DefaultReliableOrdered.

(** ** The server (server.rs) *)

Definition SYSTEM_MESSAGE_CLIENT_ID : Z := 0.
Definition HOST_CLIENT_ID : Z := 1.

Record ChatServer := mkChatServer {
  cs_server : RenetServer;
  cs_transport : NetcodeServerTransport;
  cs_usernames : gmap Z Bytes;
  cs_messages : list Message;
  cs_visualizer : RenetServerVisualizer;
}.

Definition cs_set_server (self : ChatServer) (x : RenetServer) : ChatServer :=
  mkChatServer x (cs_transport self) (cs_usernames self) (cs_messages self) (cs_visualizer self).
Definition cs_set_usernames (self : ChatServer) (x : gmap Z Bytes) : ChatServer :=
  mkChatServer (cs_server self) (cs_transport self) x (cs_messages self) (cs_visualizer self).
Definition cs_set_messages (self : ChatServer) (x : list Message) : ChatServer :=
  mkChatServer (cs_server self) (cs_transport self) (cs_usernames self) x (cs_visualizer self).
Definition cs_set_visualizer (self : ChatServer) (x : RenetServerVisualizer) : ChatServer :=
  mkChatServer (cs_server self) (cs_transport self) (cs_usernames self) (cs_messages self) x.

Section server.
Context {oct : Octets} {aead : Aead} {bin : Bincode}.

(** The socket, its address, the time and the random key are what the system gives. *)
Definition chat_server_new (challenge_key : Bytes) (current_time : Z) (local_addr : SocketAddr) (socket : Socket)
    (host_username : Bytes) : out ChatServer :=
  let server_config := mkServerConfig current_time 64 PROTOCOL_ID [local_addr] ServerUnsecure in
  let! r := ts_new challenge_key server_config socket in
  let! transport := match r with Ok transport => Ret transport | Err _ => Panic end in
  Ret (mkChatServer (server_new default_config) transport {[HOST_CLIENT_ID := host_username]} [] server_visualizer_default).

(** [self.server.broadcast_message(ReliableOrdered, serialize(m).unwrap())]. *)
Definition chat_broadcast (self : ChatServer) (m : ServerMessages) : out ChatServer :=
  let! message := unwrap (serialize_server m) in
  let! server := broadcast_message (cs_server self) CHAT message in
  Ret (cs_set_server self server).

Definition chat_receive_message (self : ChatServer) (client_id : Z) (text : Bytes) : out ChatServer :=
  let message := mkMessage client_id text in
  let self := cs_set_messages self (cs_messages self ++ [message]) in
  chat_broadcast self (SmClientMessage message).

(** The body of the loop over the events. *)
Definition chat_event (self : ChatServer) (event : ServerEvent) : out ChatServer :=
  match event with
  | ClientConnected client_id =>
      let! user_data := unwrap (ts_user_data (cs_transport self) client_id) in
      let self := cs_set_visualizer self (visualizer_add_client 240 (cs_visualizer self) client_id) in
      let! username := username_from_user_data user_data in
      let self := cs_set_usernames self (<[client_id := username]> (cs_usernames self)) in
      let! self := chat_broadcast self (SmClientConnected client_id username) in
      let! init_message := unwrap (serialize_server (SmInitClient (cs_usernames self))) in
      let! server := server_send_message (cs_server self) client_id CHAT init_message in
      Ret (cs_set_server self server)
  | ClientDisconnected client_id _ =>
      let self := cs_set_visualizer self (visualizer_remove_client (cs_visualizer self) client_id) in
      let self := cs_set_usernames self (delete client_id (cs_usernames self)) in
      chat_broadcast self (SmClientDisconnected client_id)
  end.

(** [while let Some(event) = self.server.get_event()]. *)
Fixpoint chat_events (fuel : nat) (self : ChatServer) : out ChatServer :=
  match fuel with
  | O => Ret self
  | S fuel =>
      let (server, event) := get_event (cs_server self) in
      let self := cs_set_server self server in
      match event with
      | None => Ret self
      | Some event =>
          let! self := chat_event self event in
          chat_events fuel self
      end
  end.

(** [while let Some(message) = self.server.receive_message(client_id, ..)]; what
    does not deserialize is skipped. *)
Fixpoint chat_receive (fuel : nat) (client_id : Z) (self : ChatServer) : out ChatServer :=
  match fuel with
  | O => Ret self
  | S fuel =>
      let! (server, message) := server_receive_message (cs_server self) client_id CHAT in
      let self := cs_set_server self server in
      match message with
      | None => Ret self
      | Some message =>
          let! self :=
            match deserialize_client message with
            | Some (Text text) => chat_receive_message self client_id text
            | None => Ret self
            end in
          chat_receive fuel client_id self
      end
  end.

(** The part of [update] between the two calls of the transport. *)
Definition chat_handle (self : ChatServer) : out ChatServer :=
  let! self := chat_events (S (length (events (cs_server self)))) self in
  fold_out (fun self client_id => chat_receive (S (server_backlog (cs_server self) client_id CHAT)) client_id self)
    self (clients_id (cs_server self)).

Definition chat_update (self : ChatServer) (duration : Z) : out ChatServer :=
  let! server := server_update (cs_server self) duration in
  let! (transport, server, r) := ts_update (cs_transport self) duration server in
  match r with
  | Err _ => Panic
  | Ok _ =>
      let! visualizer := visualizer_update 240 (cs_visualizer self) server in
      let self := mkChatServer server transport (cs_usernames self) (cs_messages self) visualizer in
      let! self := chat_handle self in
      let! (transport, server) := ts_send_packets (cs_transport self) (cs_server self) in
      Ret (mkChatServer server transport (cs_usernames self) (cs_messages self) (cs_visualizer self))
  end.

End server.

(** ** The client (client.rs) *)

Record ClientChat := mkClientChat {
  cc_client : RenetClient;
  cc_transport : NetcodeClientTransport;
  cc_usernames : gmap Z Bytes;
  cc_messages : list Message;
  cc_visualizer : RenetClientVisualizer;
}.

Record UiState := mkUiState {
  ui_username : Bytes;
  ui_server_addr : Bytes;
  ui_error : option string;
  ui_text_input : Bytes;
  ui_show_network_info : bool;
}.

Definition ui_set_error (self : UiState) (x : option string) : UiState :=
  mkUiState (ui_username self) (ui_server_addr self) x (ui_text_input self) (ui_show_network_info self).
Definition ui_clear_text (self : UiState) : UiState :=
  mkUiState (ui_username self) (ui_server_addr self) (ui_error self) [] (ui_show_network_info self).

Inductive AppState :=
  | MainScreen
  | InClientChat (chat : ClientChat)
  | InHostChat (chat_server : ChatServer).

Record ChatApp := mkChatApp { app_state : AppState; app_ui : UiState }.

Definition chat_app_default : ChatApp := mkChatApp MainScreen (mkUiState [] [] None [] false).

(** What a message does to the client's table of names and to its messages. *)
Definition apply_usernames (usernames : gmap Z Bytes) (m : ServerMessages) : gmap Z Bytes :=
  match m with
  | SmClientConnected client_id username => <[client_id := username]> usernames
  | SmClientDisconnected client_id => delete client_id usernames
  | SmClientMessage _ => usernames
  | SmInitClient init_usernames => init_usernames
  end.

Definition apply_messages (messages : list Message) (m : ServerMessages) : list Message :=
  match m with
  | SmClientDisconnected client_id =>
      messages ++ [mkMessage SYSTEM_MESSAGE_CLIENT_ID (bytes_of_string ("client " +:+ pretty client_id +:+ " disconnect"))]
  | SmClientMessage message => messages ++ [message]
  | _ => messages
  end.

Definition apply_ui (ui : UiState) (m : ServerMessages) : UiState :=
  match m with SmInitClient _ => ui_set_error ui None | _ => ui end.

Definition apply_message (chat : ClientChat) (m : ServerMessages) : ClientChat :=
  mkClientChat (cc_client chat) (cc_transport chat) (apply_usernames (cc_usernames chat) m) (apply_messages (cc_messages chat) m)
    (cc_visualizer chat).

Definition cc_set_client (self : ClientChat) (x : RenetClient) : ClientChat :=
  mkClientChat x (cc_transport self) (cc_usernames self) (cc_messages self) (cc_visualizer self).

Section client.
Context {oct : Octets} {aead : Aead} {bin : Bincode}.
Variable show_io_error : IoErrorKind -> string.

(** [while let Some(message) = client.receive_message(..)]; a message that does
    not deserialize panics. *)
Fixpoint client_receive (fuel : nat) (chat : ClientChat) (ui : UiState) : out (ClientChat * UiState) :=
  match fuel with
  | O => Ret (chat, ui)
  | S fuel =>
      let! (client, message) := receive_message (cc_client chat) CHAT in
      let chat := cc_set_client chat client in
      match message with
      | None => Ret (chat, ui)
      | Some message =>
          let! m := unwrap (deserialize_server message) in
          client_receive fuel (apply_message chat m) (apply_ui ui m)
      end
  end.

(** The branch of [update_chat] for a client. *)
Definition update_client_chat (chat : ClientChat) (ui : UiState) (duration : Z) : out (AppState * UiState) :=
  let! client := client_update (cc_client chat) duration in
  let! (transport, client, r) := tc_update (cc_transport chat) duration client in
  match r with
  | Err e => Ret (MainScreen, ui_set_error ui (Some (show_transport_error show_io_error e)))
  | Ok _ =>
      match disconnect_reason client with
      | Some e => Ret (MainScreen, ui_set_error ui (Some (show_disconnect_reason e)))
      | None =>
          let! info := network_info client in
          let! visualizer := client_add_network_info 240 (cc_visualizer chat) info in
          let chat := mkClientChat client transport (cc_usernames chat) (cc_messages chat) visualizer in
          let! (chat, ui) := client_receive (S (backlog client CHAT)) chat ui in
          let! (transport, client, r) := tc_send_packets (cc_transport chat) (cc_client chat) in
          match r with
          | Err e => Ret (MainScreen, ui_set_error ui (Some (show_transport_error show_io_error e)))
          | Ok _ => Ret (InClientChat (mkClientChat client transport (cc_usernames chat) (cc_messages chat) (cc_visualizer chat)), ui)
          end
      end
  end.

Definition update_chat (app : ChatApp) (duration : Z) : out ChatApp :=
  match app_state app with
  | InClientChat chat =>
      let! (state, ui) := update_client_chat chat (app_ui app) duration in
      Ret (mkChatApp state ui)
  | InHostChat server =>
      let! server := chat_update server duration in
      Ret (mkChatApp (InHostChat server) (app_ui app))
  | MainScreen => Ret app
  end.

(** ** The handlers of the widgets (ui.rs) *)

(** What the system gives to a new client: the time, a socket and random bytes. *)
Definition create_renet_client (rnd : TokenRandom) (current_time : Z) (socket : Socket) (username : Bytes) (server_addr : SocketAddr)
    : out (RenetClient * NetcodeClientTransport) :=
  let! client := client_new default_config in
  let client_id := as_millis current_time mod 2 ^ 64 in
  let! user_data := username_to_user_data username in
  let! r := tc_new rnd current_time (ClientUnsecure PROTOCOL_ID client_id server_addr (Some user_data)) socket in
  match r with
  | Ok transport => Ret (client, transport)
  | Err _ => Panic
  end.

(** "Connect"; [server_addr] is what the address field parses to. *)
Definition on_connect (rnd : TokenRandom) (current_time : Z) (socket : Socket) (server_addr : option SocketAddr) (app : ChatApp)
    : out ChatApp :=
  match server_addr with
  | None => Ret (mkChatApp (app_state app) (ui_set_error (app_ui app) (Some "Failed to parse server address"%string)))
  | Some server_addr =>
      if bool_decide (ui_username (app_ui app) = []) then
        Ret (mkChatApp (app_state app) (ui_set_error (app_ui app) (Some "Nick can't be empty"%string)))
      else
        let! (client, transport) := create_renet_client rnd current_time socket (ui_username (app_ui app)) server_addr in
        Ret (mkChatApp (InClientChat (mkClientChat client transport ∅ [] (client_visualizer_default 240))) (app_ui app))
  end.

(** "Host". *)
Definition on_host (challenge_key : Bytes) (current_time : Z) (local_addr : SocketAddr) (socket : Socket) (app : ChatApp)
    : out ChatApp :=
  if bool_decide (ui_username (app_ui app) = []) then
    Ret (mkChatApp (app_state app) (ui_set_error (app_ui app) (Some "Nick can't be empty"%string)))
  else
    let! server := chat_server_new challenge_key current_time local_addr socket (ui_username (app_ui app)) in
    Ret (mkChatApp (InHostChat server) (app_ui app)).

(** The button that disconnects a client. *)
Definition on_kick (client_id : Z) (chat_server : ChatServer) : ChatServer :=
  cs_set_server chat_server (server_disconnect (cs_server chat_server) client_id).

(** "Exit": the state that is left behind, and the new one. *)
Definition on_exit (app : ChatApp) : AppState * ChatApp :=
  let left :=
    match app_state app with
    | InHostChat chat_server => InHostChat (cs_set_server chat_server (disconnect_all (cs_server chat_server)))
    | InClientChat chat => InClientChat (cc_set_client chat (disconnect (cc_client chat)))
    | MainScreen => MainScreen
    end in
  (left, mkChatApp MainScreen (ui_set_error (app_ui app) None)).

(** "Send", or the enter key. *)
Definition on_send (app : ChatApp) : out ChatApp :=
  if bool_decide (ui_text_input (app_ui app) = []) then Ret app
  else
    let text := ui_text_input (app_ui app) in
    let ui := ui_clear_text (app_ui app) in
    match app_state app with
    | InHostChat chat_server =>
        let! chat_server := chat_receive_message chat_server HOST_CLIENT_ID text in
        Ret (mkChatApp (InHostChat chat_server) ui)
    | InClientChat chat =>
        let! message := unwrap (serialize_client (Text text)) in
        let! client := send_message (cc_client chat) CHAT message in
        Ret (mkChatApp (InClientChat (cc_set_client chat client)) ui)
    | MainScreen => Panic
    end.

End client.

(** The line shown for a message. *)
Definition message_line (usernames : gmap Z Bytes) (message : Message) : Bytes :=
  match usernames !! msg_client_id message with
  | Some username => username ++ bytes_of_string ": " ++ msg_text message
  | None =>
      if msg_client_id message =? SYSTEM_MESSAGE_CLIENT_ID then bytes_of_string "Server: " ++ msg_text message
      else bytes_of_string "unknown: " ++ msg_text message
  end.
