(* ===== verification/ChatProps.v ===== *)
(** * The chat demo: theorems

    User names survive the trip through the connect token, the loops of the
    server end with everything received, and the table of names that a client
    builds from the server's messages is the server's own. *)

From S2P Require Import Prelude Octets Packet ReliableSend ReliableRecv Unreliable Connection Server Apps.
From S2P Require Import Netcode ReplayProtection Token NetPacket NetClient NetServer Transport Errors Visualizer Chat.

(** ** User names *)

Lemma user_data_layout name : len name <= 248 ->
  username_to_user_data name = Ret (byte_of (len name) :: name ++ replicate (Z.to_nat (255 - len name)) (byte_of 0)).
Proof.
  intros Hl. pose proof (len_nonneg name). unfold username_to_user_data. change NETCODE_USER_DATA_BYTES with 256.
  destruct (Z.ltb_spec (256 - 8) (len name)) as [?|_]; [lia|]. rewrite Z.mod_small by lia.
  assert (len (vec_repeat (byte_of 0) 256) = 256) as Hv by done. rewrite vec_set_ok by lia. cbn [out_bind].
  assert (len (<[Z.to_nat 0 := byte_of (len name)]> (vec_repeat (byte_of 0) 256)) = 256) as Hi by (unfold len; by rewrite length_insert).
  rewrite copy_range_ok by lia. f_equal. change (Z.to_nat 0) with 0%nat. change (vec_repeat (byte_of 0) 256) with (byte_of 0 :: replicate 255 (byte_of 0)).
  change (Z.to_nat 1) with 1%nat. replace (Z.to_nat (len name + 1)) with (S (Z.to_nat (len name))) by lia. cbn [insert list_insert take drop app].
  rewrite drop_replicate. replace (Z.to_nat (255 - len name)) with (255 - Z.to_nat (len name))%nat by lia. done.
Qed.

(** A user name of at most 248 bytes survives the trip through the user data
    of a connect token: what the chat server reads is the name the user entered. *)
Theorem username_round_trip name :
  utf8_valid name = true -> len name <= 248 ->
  exists user_data, username_to_user_data name = Ret user_data /\ len user_data = NETCODE_USER_DATA_BYTES /\
    username_from_user_data user_data = Ret name.
Proof.
  intros Hu Hl. pose proof (len_nonneg name). eexists. split; [by apply user_data_layout|]. split.
  { rewrite len_cons, len_app. unfold len at 2. rewrite length_replicate. change NETCODE_USER_DATA_BYTES with 256. lia. }
  unfold username_from_user_data. rewrite (vec_get_ok _ _ (byte_of (len name))) by done. cbn [out_bind].
  rewrite byte_val_of by lia. change NETCODE_USER_DATA_BYTES with 256. rewrite Z.min_l by lia.
  rewrite sub_slice_ok; [|lia|rewrite len_cons, len_app; pose proof (len_nonneg (replicate (Z.to_nat (255 - len name)) (byte_of 0))); lia].
  cbn [out_bind]. replace (len name + 1 - 1) with (len name) by lia. change (Z.to_nat 1) with 1%nat. cbn [drop].
  replace (Z.to_nat (len name)) with (length name) by (unfold len; lia). rewrite drop_0, take_app_length. unfold from_utf8. by rewrite Hu.
Qed.

(** Reading a name from user data never fails. *)
Lemma username_from_total user_data : len user_data = NETCODE_USER_DATA_BYTES -> exists name, username_from_user_data user_data = Ret name.
Proof.
  intros Hl. change NETCODE_USER_DATA_BYTES with 256 in Hl. unfold username_from_user_data.
  destruct (vec_get_total user_data 0) as (b & -> & _); [lia|]. cbn [out_bind]. pose proof (byte_val_range b). change NETCODE_USER_DATA_BYTES with 256.
  rewrite sub_slice_ok by lia. cbn [out_bind]. by eexists.
Qed.

(** ** What a connection is given *)

Section chat.
Context {bin : Bincode} {laws : BincodeLaws bin}.

(** Messages queued for the client, in order; receiving from it in between. *)
Inductive talks : RenetClient -> list ServerMessages -> RenetClient -> Prop :=
  | talks_refl c : talks c [] c
  | talks_send c m b c1 ms c' :
      deserialize_server b = Some m -> send_message c CHAT b = Ret c1 -> talks c1 ms c' -> talks c (m :: ms) c'
  | talks_receive c r c1 ms c' : receive_message c CHAT = Ret (c1, r) -> talks c1 ms c' -> talks c ms c'.

Lemma talks_app c ms c1 ms' c' : talks c ms c1 -> talks c1 ms' c' -> talks c (ms ++ ms') c'.
Proof using. induction 1; intros; [done|eapply talks_send; eauto|eapply talks_receive; eauto]. Qed.

(** The chat messages among the server's. *)
Definition texts (ms : list ServerMessages) : list Message := omap (fun m => match m with SmClientMessage x => Some x | _ => None end) ms.

(** From one state to the next every connection is told of every chat message and
    of the changes of the table; for the clients that joined, of all of it. *)
Definition mirrors (joined : Z -> Prop) (self self' : ChatServer) : Prop :=
  exists new, cs_messages self' = cs_messages self ++ new /\
  forall id c, connections (cs_server self) !! id = Some c ->
    exists ms c', connections (cs_server self') !! id = Some c' /\ talks c ms c' /\ texts ms = new /\
      forall u, joined id \/ u = cs_usernames self -> foldl apply_usernames u ms = cs_usernames self'.

Lemma mirrors_same self self' :
  cs_messages self' = cs_messages self -> cs_usernames self' = cs_usernames self -> connections (cs_server self') = connections (cs_server self) ->
  mirrors (fun _ => False) self self'.
Proof using.
  intros E1 E2 E3. exists []. rewrite app_nil_r. split; [done|]. intros id c Hc. exists [], c. rewrite E3.
  split; [done|]. split; [constructor|]. split; [done|]. intros u [[]| ->]. by rewrite E2.
Qed.

Lemma mirrors_trans (j1 j2 : Z -> Prop) s1 s2 s3 : mirrors j1 s1 s2 -> mirrors j2 s2 s3 -> mirrors (fun id => j1 id \/ j2 id) s1 s3.
Proof using.
  intros (n1 & E1 & H1) (n2 & E2 & H2). exists (n1 ++ n2). split; [by rewrite E2, E1, app_assoc|]. intros id c Hc.
  destruct (H1 id c Hc) as (ms1 & c1 & Hc1 & Ht1 & Hx1 & Hu1). destruct (H2 id c1 Hc1) as (ms2 & c2 & Hc2 & Ht2 & Hx2 & Hu2).
  exists (ms1 ++ ms2), c2. split; [done|]. split; [by eapply talks_app|]. split; [unfold texts in *; by rewrite omap_app, Hx1, Hx2|].
  intros u Hu. rewrite foldl_app. apply Hu2. destruct Hu as [[Hj|Hj]| ->]; [right; apply Hu1; by left|by left|right; apply Hu1; by right].
Qed.

Lemma mirrors_weaken (j j' : Z -> Prop) s s' : (forall id, j' id -> j id) -> mirrors j s s' -> mirrors j' s s'.
Proof using.
  intros Hj (n & E & H). exists n. split; [done|]. intros id c Hc. destruct (H id c Hc) as (ms & c' & H1 & H2 & H3 & H4).
  exists ms, c'. split_and!; try done. intros u [Hu|Hu]; apply H4; auto.
Qed.

Lemma broadcast_talks self m self' :
  chat_broadcast self m = Ret self' ->
  cs_transport self' = cs_transport self /\ cs_usernames self' = cs_usernames self /\ cs_messages self' = cs_messages self /\
  events (cs_server self') = events (cs_server self) /\
  forall id, match connections (cs_server self) !! id with
             | Some c => exists b c', connections (cs_server self') !! id = Some c' /\ send_message c CHAT b = Ret c' /\ deserialize_server b = Some m
             | None => connections (cs_server self') !! id = None
             end.
Proof using laws.
  unfold chat_broadcast. destruct (serialize_server m) as [b|] eqn:Eb; cbn [unwrap out_bind]; [|done]. unfold broadcast_message.
  destruct (map_values_mut _ _) as [conns|] eqn:E; cbn [out_bind]; [|done]. intros [= <-]. split_and!; try done. intros id.
  apply (map_values_mut_lookup _ _ _ id) in E. cbn. destruct (connections (cs_server self) !! id) as [c|]; [|done].
  destruct E as (c' & E & Hc). exists b, c'. split_and!; try done. by apply server_round_trip.
Qed.

(** One broadcast that carries a change of the server's own state. *)
Lemma broadcast_mirrors self0 self m self' new :
  chat_broadcast self m = Ret self' -> connections (cs_server self) = connections (cs_server self0) ->
  cs_messages self = cs_messages self0 ++ new -> texts [m] = new -> apply_usernames (cs_usernames self0) m = cs_usernames self ->
  mirrors (fun _ => False) self0 self'.
Proof using laws.
  intros H Ec Em Et Eu. apply broadcast_talks in H as (_ & Hu & Hm & _ & Hc). exists new. rewrite Hm. split; [done|].
  intros id c Hid. specialize (Hc id). rewrite Ec, Hid in Hc. destruct Hc as (b & c' & Hc' & Hs & Hd). exists [m], c'.
  split; [done|]. split; [eapply talks_send; [done|exact Hs|constructor]|]. split; [done|]. intros u [[]| ->]. by rewrite Hu.
Qed.

Lemma receive_text_mirrors self client_id text self' :
  chat_receive_message self client_id text = Ret self' -> mirrors (fun _ => False) self self'.
Proof using laws. intros H. eapply (broadcast_mirrors self); [exact H|done..]. Qed.

Lemma event_mirrors self event self' :
  chat_event self event = Ret self' -> mirrors (fun id => event = ClientConnected id) self self'.
Proof using laws.
  destruct event as [k|k reason]; cbn [chat_event]; intros H.
  - destruct (ts_user_data _ _) as [ud|]; cbn [unwrap out_bind] in H; [|done]. destruct (username_from_user_data ud) as [name|]; cbn [out_bind] in H; [|done].
    destruct (chat_broadcast _ _) as [self1|] eqn:Eb; cbn [out_bind] in H; [|done].
    pose proof (broadcast_mirrors self _ _ _ [] Eb eq_refl (eq_sym (app_nil_r _)) eq_refl eq_refl) as Hm1.
    apply broadcast_talks in Eb as (_ & Hu & Hm & _ & _). cbn in Hu.
    destruct (serialize_server (SmInitClient _)) as [b|] eqn:Es; cbn [unwrap out_bind] in H; [|done].
    unfold server_send_message in H. apply server_round_trip in Es.
    eapply (mirrors_weaken (fun id => False \/ ClientConnected k = ClientConnected id)); [by right|].
    eapply (mirrors_trans _ _ self self1); [exact Hm1|].
    assert (cs_messages self' = cs_messages self1 /\ cs_usernames self' = cs_usernames self1 /\
      forall id, match connections (cs_server self1) !! id with
                 | Some c => if decide (id = k) then exists c', connections (cs_server self') !! id = Some c' /\ send_message c CHAT b = Ret c'
                             else connections (cs_server self') !! id = Some c
                 | None => True end) as (Em & En & Hc).
    { destruct (connections (cs_server self1) !! k) as [c|] eqn:Ek; cbn [out_bind] in H.
      - destruct (send_message c CHAT b) as [c'|] eqn:Esd; cbn [out_bind] in H; [|done]. injection H as <-. split_and!; try done. intros id. cbn [cs_server cs_set_server set_connections connections].
        destruct (connections (cs_server self1) !! id) as [c0|] eqn:E0; [|done]. destruct (decide (id = k)) as [->|].
        + rewrite lookup_insert_eq. exists c'. split; [done|]. congruence.
        + by rewrite lookup_insert_ne.
      - injection H as <-. split_and!; try done. intros id. cbn [cs_server cs_set_server]. destruct (connections (cs_server self1) !! id) as [c0|] eqn:E0; [|done].
        destruct (decide (id = k)) as [->|]; [congruence|done]. }
    exists []. rewrite app_nil_r. split; [done|]. intros id c Hid. specialize (Hc id). rewrite Hid in Hc. destruct (decide (id = k)) as [->|Hne].
    + destruct Hc as (c' & Hc' & Hs). exists [SmInitClient (cs_usernames self1)], c'. split; [done|].
      split; [eapply talks_send; [exact Es|exact Hs|constructor]|]. split; [done|]. intros u _. cbn. by rewrite En.
    + exists [], c. split; [done|]. split; [constructor|]. split; [done|]. intros u [[= ->]| ->]; [done|]. by rewrite En.
  - eapply (mirrors_weaken (fun _ => False)); [done|]. eapply (broadcast_mirrors self _ _ _ []); [exact H|done|by rewrite app_nil_r|done|done].
Qed.

(** ** The loops of the server *)

Lemma event_events self event self' : chat_event self event = Ret self' -> events (cs_server self') = events (cs_server self).
Proof using laws.
  destruct event as [k|k reason]; cbn [chat_event]; intros H; [|apply broadcast_talks in H; apply H].
  destruct (ts_user_data _ _) as [ud|]; cbn [unwrap out_bind] in H; [|done]. destruct (username_from_user_data ud) as [name|]; cbn [out_bind] in H; [|done].
  destruct (chat_broadcast _ _) as [self1|] eqn:Eb; cbn [out_bind] in H; [|done]. apply broadcast_talks in Eb as (_ & _ & _ & He & _). cbn in He. rewrite <- He.
  destruct (serialize_server _) as [b|]; cbn [unwrap out_bind] in H; [|done]. unfold server_send_message in H.
  destruct (connections (cs_server self1) !! k) as [c|]; cbn [out_bind] in H; [|by injection H as <-].
  destruct (send_message c CHAT b); cbn [out_bind] in H; [|done]. by injection H as <-.
Qed.

Lemma events_loop fuel : forall self self',
  (length (events (cs_server self)) < fuel)%nat -> chat_events fuel self = Ret self' ->
  mirrors (fun id => ClientConnected id ∈ events (cs_server self)) self self' /\ events (cs_server self') = [].
Proof using laws.
  induction fuel as [|fuel IH]; intros self self' Hf H; [lia|]. cbn [chat_events] in H. unfold get_event in H.
  destruct (events (cs_server self)) as [|e es] eqn:Ees.
  - injection H as <-. split; [|done]. eapply (mirrors_weaken (fun _ => False)); [intros id []%elem_of_nil|]. by apply mirrors_same.
  - set (self0 := cs_set_server self _) in H. destruct (chat_event self0 e) as [self1|] eqn:Ee; cbn [out_bind] in H; [|done].
    pose proof (event_events _ _ _ Ee) as Hev. cbn in Hev. apply event_mirrors in Ee.
    apply IH in H as [Hm He]; [|rewrite Hev; cbn in Hf; lia]. split; [|done]. rewrite Hev in Hm.
    eapply mirrors_weaken; [|eapply mirrors_trans; [apply (mirrors_same self self0); done|eapply mirrors_trans; [exact Ee|exact Hm]]].
    intros id [<-|Hin]%elem_of_cons; auto.
Qed.

(** Connections do not appear, and what was drained stays so. *)
Definition keeps_drained (self self' : ChatServer) : Prop :=
  forall k c', connections (cs_server self') !! k = Some c' ->
    exists c, connections (cs_server self) !! k = Some c /\ (drained c CHAT -> drained c' CHAT).

Lemma keeps_drained_refl self : keeps_drained self self.
Proof using. intros k c Hc. by exists c. Qed.

Lemma keeps_drained_trans s1 s2 s3 : keeps_drained s1 s2 -> keeps_drained s2 s3 -> keeps_drained s1 s3.
Proof using. intros H1 H2 k c3 H3. destruct (H2 k c3 H3) as (c2 & Hc2 & ?). destruct (H1 k c2 Hc2) as (c1 & Hc1 & ?). exists c1. auto. Qed.

Lemma text_keeps_drained self client_id text self' :
  chat_receive_message self client_id text = Ret self' ->
  keeps_drained self self' /\ events (cs_server self') = events (cs_server self) /\
  forall k, server_backlog (cs_server self') k CHAT = server_backlog (cs_server self) k CHAT.
Proof using laws.
  intros (_ & _ & _ & He & Hc)%broadcast_talks. cbn in Hc. split; [|split; [done|]].
  - intros k c' Hk. specialize (Hc k). destruct (connections (cs_server self) !! k) as [c|]; [|congruence].
    destruct Hc as (b & c1 & Hk1 & Hs & _). exists c. split; [done|]. assert (c1 = c') as <- by congruence. intros. by eapply send_keeps_drained.
  - intros k. specialize (Hc k). unfold server_backlog. destruct (connections (cs_server self) !! k) as [c|]; [|by rewrite Hc].
    destruct Hc as (b & c1 & -> & Hs & _). by eapply send_keeps_backlog.
Qed.

Lemma receive_once self client_id server r :
  server_receive_message (cs_server self) client_id CHAT = Ret (server, r) ->
  mirrors (fun _ => False) self (cs_set_server self server) /\ keeps_drained self (cs_set_server self server) /\
  events server = events (cs_server self) /\
  match r with
  | Some _ => server_backlog (cs_server self) client_id CHAT = S (server_backlog server client_id CHAT)
  | None => forall c, connections server !! client_id = Some c -> drained c CHAT
  end.
Proof using.
  unfold server_receive_message. destruct (connections (cs_server self) !! client_id) as [c|] eqn:E.
  2:{ intros [= <- <-]. split; [by apply mirrors_same|]. split; [by intros k c' Hk; exists c'|]. split; [done|]. congruence. }
  destruct (receive_message c CHAT) as [[c1 r1]|] eqn:Er; cbn [out_bind]; [|done]. intros [= <- <-]. split; [|split; [|split; [done|]]].
  - exists []. rewrite app_nil_r. split; [done|]. intros id x Hx. cbn [cs_server cs_set_server set_connections connections].
    destruct (decide (id = client_id)) as [->|Hne].
    + rewrite lookup_insert_eq. exists [], c1. assert (x = c) as -> by congruence. split; [done|].
      split; [eapply talks_receive; [exact Er|constructor]|]. split; [done|]. by intros u [[]| ->].
    + rewrite lookup_insert_ne by done. exists [], x. split; [done|]. split; [constructor|]. split; [done|]. by intros u [[]| ->].
  - intros k x. cbn [cs_server cs_set_server set_connections connections]. intros [[<- <-]|[Hne Hx]]%lookup_insert_Some; [|by exists x].
    exists c. split; [done|]. intros [c2 H2]. rewrite Er in H2. injection H2 as -> ->. by eapply drained_none.
  - destruct r1 as [m|].
    + unfold server_backlog. rewrite E. cbn [connections set_connections]. rewrite lookup_insert_eq. by eapply receive_shrinks.
    + cbn [connections set_connections]. rewrite lookup_insert_eq. intros x [= <-]. by eapply drained_none.
Qed.

Lemma receive_loop fuel : forall client_id self self',
  (server_backlog (cs_server self) client_id CHAT < fuel)%nat -> chat_receive fuel client_id self = Ret self' ->
  mirrors (fun _ => False) self self' /\ keeps_drained self self' /\ events (cs_server self') = events (cs_server self) /\
  forall c, connections (cs_server self') !! client_id = Some c -> drained c CHAT.
Proof using laws.
  induction fuel as [|fuel IH]; intros client_id self self' Hf H; [lia|]. cbn [chat_receive] in H.
  destruct (server_receive_message _ _ _) as [[server r]|] eqn:E; cbn [out_bind] in H; [|done].
  apply receive_once in E as (Hm & Hk & He & Hr). destruct r as [message|]; [|by injection H as <-].
  set (self0 := cs_set_server self server) in *. change server with (cs_server self0) in Hr.
  destruct (match deserialize_client message with Some _ => _ | None => _ end) as [self1|] eqn:E1; cbn [out_bind] in H; [|done].
  assert (mirrors (fun _ => False) self0 self1 /\ keeps_drained self0 self1 /\ events (cs_server self1) = events (cs_server self0) /\
    forall k, server_backlog (cs_server self1) k CHAT = server_backlog (cs_server self0) k CHAT) as (Hm1 & Hk1 & He1 & Hb1).
  { destruct (deserialize_client message) as [[text]|].
    - split; [by eapply receive_text_mirrors|by eapply text_keeps_drained].
    - injection E1 as <-. split; [by apply mirrors_same|]. split; [apply keeps_drained_refl|done]. }
  apply IH in H as (Hm2 & Hk2 & He2 & Hd2); [|rewrite Hb1; lia]. split_and!.
  - eapply mirrors_weaken; [|eapply mirrors_trans; [exact Hm|eapply mirrors_trans; [exact Hm1|exact Hm2]]]. intros ? [].
  - eapply keeps_drained_trans; [exact Hk|by eapply keeps_drained_trans].
  - by rewrite He2, He1.
  - done.
Qed.

(** Over the clients one after the other. *)
Lemma receive_all_loop ids : forall self self',
  fold_out (fun self client_id => chat_receive (S (server_backlog (cs_server self) client_id CHAT)) client_id self) self ids = Ret self' ->
  mirrors (fun _ => False) self self' /\ keeps_drained self self' /\ events (cs_server self') = events (cs_server self) /\
  forall id c, id ∈ ids -> connections (cs_server self') !! id = Some c -> drained c CHAT.
Proof using laws.
  induction ids as [|k ids IH]; intros self self' H; cbn [fold_out] in H.
  { injection H as <-. split; [by apply mirrors_same|]. split; [apply keeps_drained_refl|]. split; [done|]. by intros id c []%elem_of_nil. }
  destruct (chat_receive _ k self) as [self1|] eqn:E; cbn [out_bind] in H; [|done].
  apply receive_loop in E as (Hm & Hk & He & Hd); [|lia]. apply IH in H as (Hm1 & Hk1 & He1 & Hd1). split_and!.
  - eapply mirrors_weaken; [|eapply mirrors_trans; [exact Hm|exact Hm1]]. intros ? [].
  - by eapply keeps_drained_trans.
  - congruence.
  - intros id c [->|Hin]%elem_of_cons Hc; [|by eapply Hd1]. destruct (Hk1 k c Hc) as (c0 & Hc0 & Hx). by apply Hx, Hd.
Qed.

(** Neither sending nor receiving makes a connection connected. *)
Lemma talks_status c ms c' : talks c ms c' -> is_connected c = true -> is_connected c' = true \/ is_disconnected c' = true.
Proof using.
  assert (forall c, is_disconnected c = true -> forall ms c', talks c ms c' -> is_disconnected c' = true) as Hdis.
  { intros x Hx ms0 x' Ht. induction Ht as [|x m b x1 ms0 x' _ Hs _ IH|x r x1 ms0 x' Hr _ IH]; [done| |].
    - apply IH. unfold send_message in Hs. rewrite Hx in Hs. by injection Hs as <-.
    - apply IH. unfold receive_message in Hr. rewrite Hx in Hr. by injection Hr as <-. }
  induction 1 as [c|c m b c1 ms c' Hd Hs Ht IH|c r c1 ms c' Hr Ht IH]; intros Hc; [by left| |].
  - assert (is_connected c1 = true \/ is_disconnected c1 = true) as [H|H]; [|by apply IH|right; by eapply Hdis].
    unfold send_message in Hs. destruct (is_disconnected c) eqn:Ed; [injection Hs as <-; by right|].
    destruct (send_reliable_channels c !! CHAT) as [chan|].
    + destruct (sr_send_message chan b) as [[chan' []]|]; cbn [out_bind] in Hs; [injection Hs as <-; by left| |done].
      injection Hs as <-. unfold disconnect_with_reason. right. by destruct (is_disconnected (set_send_reliable _ _)) eqn:Ex.
    + destruct (send_unreliable_channels c !! CHAT) as [chan|]; [|done]. destruct (su_send_message chan b); cbn [out_bind] in Hs; [|done].
      injection Hs as <-. by left.
  - apply IH. unfold receive_message in Hr. destruct (is_disconnected c); [by injection Hr as <-|].
    destruct (receive_reliable_channels c !! CHAT) as [chan|].
    + destruct (rr_receive_message chan) as [[chan' x]|]; cbn [out_bind] in Hr; [|done]. by injection Hr as <- _.
    + destruct (receive_unreliable_channels c !! CHAT) as [chan|]; [|done]. destruct (ru_receive_message chan) as [[chan' x]|]; cbn [out_bind] in Hr; [|done].
      by injection Hr as <- _.
Qed.

End chat.

(** ** Properties *)

(** C27: The replicas of the chat agree.  Whatever the chat server handles in one
    update (joining and leaving clients, texts of several clients), every
    connection is given, in order, server messages with this effect: they carry
    each chat message that the server recorded, once and in the server's order;
    and they turn a table of user names equal to the server's into the server's
    new table.  For a client that joins in this update they do so from any
    table, so that from then on a client that applies its messages in order has
    the names that the server has. *)
Theorem chat_replicas_agree {bin : Bincode} {laws : BincodeLaws bin} self self' :
  chat_handle self = Ret self' ->
  exists new, cs_messages self' = cs_messages self ++ new /\
  forall id c, connections (cs_server self) !! id = Some c ->
    exists ms c', connections (cs_server self') !! id = Some c' /\ talks c ms c' /\ texts ms = new /\
      forall names, ClientConnected id ∈ events (cs_server self) \/ names = cs_usernames self ->
        foldl apply_usernames names ms = cs_usernames self'.
Proof.
  unfold chat_handle. intros H. destruct (chat_events _ self) as [self1|] eqn:E; cbn [out_bind] in H; [|done].
  apply events_loop in E as [Hm1 _]; [|lia]. apply receive_all_loop in H as (Hm2 & _).
  eapply (mirrors_weaken (fun id => ClientConnected id ∈ events (cs_server self) \/ False)); [by left|]. by eapply mirrors_trans.
Qed.

(** The loops of the chat server end with nothing left: after one update no
    event is queued, and no message of a connected client is waiting. *)
Theorem chat_handles_everything {bin : Bincode} {laws : BincodeLaws bin} self self' :
  chat_handle self = Ret self' ->
  events (cs_server self') = [] /\
  forall id c, server_is_connected (cs_server self) id = true -> connections (cs_server self') !! id = Some c ->
    exists c', receive_message c CHAT = Ret (c', None).
Proof.
  unfold chat_handle. intros H. destruct (chat_events _ self) as [self1|] eqn:E; cbn [out_bind] in H; [|done].
  apply events_loop in E as [(new & _ & Hm1) He1]; [|lia]. apply receive_all_loop in H as (_ & Hk & He & Hd). split; [by rewrite He|].
  intros id c' Hid Hc'. unfold server_is_connected in Hid. destruct (connections (cs_server self) !! id) as [c0|] eqn:E0; [|done].
  destruct (Hm1 id c0 E0) as (ms & c1 & Hc1 & Ht & _ & _). destruct (talks_status _ _ _ Ht Hid) as [Hs|Hs].
  - eapply Hd; [|exact Hc']. unfold clients_id. apply list_elem_of_fmap. exists (id, c1). split; [done|].
    apply list_elem_of_filter. split; [done|]. by apply elem_of_map_to_list.
  - destruct (Hk id c' Hc') as (c2 & Hc2 & Hx). apply Hx. assert (c2 = c1) as -> by congruence. exists c1. unfold receive_message. by rewrite Hs.
Qed.

(** ** The loop of a client *)

(** The application takes the serialized messages [ms], one after the other, from [c]. *)
Fixpoint takes {bin : Bincode} (c : RenetClient) (ms : list ServerMessages) (c' : RenetClient) : Prop :=
  match ms with
  | [] => receive_message c CHAT = Ret (c', None)
  | m :: ms => exists b c1, receive_message c CHAT = Ret (c1, Some b) /\ deserialize_server b = Some m /\ takes c1 ms c'
  end.

(** The loop of a client ends with no message left, and leaves the table of names
    and the messages that those it took describe, in their order. *)
Lemma client_receive_drains {bin : Bincode} fuel : forall chat ui chat' ui',
  (backlog (cc_client chat) CHAT < fuel)%nat -> client_receive fuel chat ui = Ret (chat', ui') ->
  drained (cc_client chat') CHAT /\
  exists ms, takes (cc_client chat) ms (cc_client chat') /\ cc_usernames chat' = foldl apply_usernames (cc_usernames chat) ms /\
    cc_messages chat' = foldl apply_messages (cc_messages chat) ms /\ ui' = foldl apply_ui ui ms.
Proof.
  induction fuel as [|fuel IH]; intros chat ui chat' ui' Hf H; [lia|]. cbn [client_receive] in H.
  destruct (receive_message _ _) as [[c [b|]]|] eqn:E; cbn [out_bind] in H; [| |done].
  - destruct (deserialize_server b) as [m|] eqn:Em; cbn [unwrap out_bind] in H; [|done].
    apply IH in H as (Hd & ms & Ht & Hu & Hm & Hi); [|cbn [cc_client cc_set_client apply_message]; apply receive_shrinks in E; lia].
    split; [done|]. exists (m :: ms). cbn in *. eauto 10.
  - injection H as <- <-. split; [by eapply drained_none|]. by exists [].
Qed.

(** ** A concrete chat *)

Definition message_sum (m : ServerMessages) : (Z * Bytes) + Z + (Z * Bytes) + gmap Z Bytes :=
  match m with
  | SmClientConnected id name => inl (inl (inl (id, name)))
  | SmClientDisconnected id => inl (inl (inr id))
  | SmClientMessage m => inl (inr (msg_client_id m, msg_text m))
  | SmInitClient names => inr names
  end.

Definition sum_message (x : (Z * Bytes) + Z + (Z * Bytes) + gmap Z Bytes) : ServerMessages :=
  match x with
  | inl (inl (inl (id, name))) => SmClientConnected id name
  | inl (inl (inr id)) => SmClientDisconnected id
  | inl (inr (id, text)) => SmClientMessage (mkMessage id text)
  | inr names => SmInitClient names
  end.

(** A serialization, to run the chat with. *)
Definition bit_bincode : Bincode := {|
  serialize_client m := match m with Text text => Some text end;
  deserialize_client b := Some (Text b);
  serialize_server m := Some (bits_of (countable.encode (message_sum m)));
  deserialize_server b := sum_message <$> decode (of_bits b);
|}.

#[local] Instance bit_bincode_laws : BincodeLaws bit_bincode.
Proof.
  constructor; cbn.
  - intros [text] b [= <-]. done.
  - intros m b [= <-]. rewrite of_bits_of, decode_encode. by destruct m as [| |[]|].
Qed.

(** The datagrams of a client, the user "ann", that connects and leaves at once. *)
Definition ann_addr : SocketAddr := V4 (byte_of <$> [10; 0; 0; 3]) 6000.
Definition chat_addr : SocketAddr := V4 (byte_of <$> [127; 0; 0; 1]) 5000.
Definition ann : Bytes := byte_of <$> [97; 110; 110].

Definition chat_socket (incoming : list recv_event) : Socket := mkSocket None incoming [] [].

Definition chat_start (incoming : list recv_event) : out ChatServer :=
  chat_server_new (replicate 32 (byte_of 8)) 0 chat_addr (chat_socket incoming) (byte_of <$> [104; 111; 115; 116]).

Definition ann_datagrams : out (list Bytes) :=
  let! chat := chat_start [] in
  let! (_, transport) := create_renet_client sample_random (from_millis 7) (chat_socket []) ann chat_addr in
  let! (c, packet) := net_client_update (tc_netcode_client transport) 0 in
  let! (request, _) := unwrap packet in
  let! (s, r) := net_server_process_packet (ts_netcode_server (cs_transport chat)) ann_addr request in
  let! challenge := match r with SrPacketToSend _ challenge => Ret challenge | _ => Panic end in
  let! (c, _) := net_client_process_packet c challenge in
  let! (c, packet) := net_client_update c 0 in
  let! (response, _) := unwrap packet in
  let! (c, r) := net_client_disconnect c in
  match r with
  | Ok (_, disconnect) => Ret [request; response; disconnect]
  | Err _ => Panic
  end.

(** The chat server after the transport has received the first [n] of them. *)
Definition chat_with (n : nat) : out ChatServer :=
  let! datagrams := ann_datagrams in
  let! chat := chat_start ((fun d => Datagram d ann_addr) <$> take n datagrams) in
  let! (transport, server, _) := ts_update (oct := quic_octets) (cs_transport chat) 0 (cs_server chat) in
  Ret (mkChatServer server transport (cs_usernames chat) (cs_messages chat) (cs_visualizer chat)).

Lemma chat_joined : exists self self', chat_with 2 = Ret self /\ chat_handle (bin := bit_bincode) self = Ret self' /\
  is_Some (connections (cs_server self) !! 7) /\ server_is_connected (cs_server self) 7 = true /\ events (cs_server self) = [ClientConnected 7] /\
  cs_usernames self' = {[HOST_CLIENT_ID := byte_of <$> [104; 111; 115; 116]; 7 := ann]}.
Proof.
  assert ((let! self := chat_with 2 in let! self' := chat_handle (bin := bit_bincode) self in
    Ret (bool_decide (is_Some (connections (cs_server self) !! 7)), server_is_connected (cs_server self) 7,
         bool_decide (events (cs_server self) = [ClientConnected 7]),
         bool_decide (cs_usernames self' = {[HOST_CLIENT_ID := byte_of <$> [104; 111; 115; 116]; 7 := ann]}))) =
    Ret (true, true, true, true)) as H by (vm_compute; reflexivity).
  destruct (chat_with 2) as [self|]; cbn [out_bind] in H; [|discriminate H].
  destruct (chat_handle self) as [self'|] eqn:E; cbn [out_bind] in H; [|discriminate H]. injection H as H1 H2 H3 H4.
  exists self, self'. split; [done|]. split; [done|]. split; [by apply bool_decide_eq_true in H1|]. split; [exact H2|].
  split; [by apply bool_decide_eq_true in H3|by apply bool_decide_eq_true in H4].
Qed.

Lemma chat_replicas_agree_witness :
  exists self self' c, chat_with 2 = Ret self /\ connections (cs_server self) !! 7 = Some c /\
    exists ms c', talks (bin := bit_bincode) c ms c' /\ foldl apply_usernames ∅ ms = cs_usernames self' /\ cs_usernames self' !! 7 = Some ann.
Proof.
  destruct chat_joined as (self & self' & E0 & E & [c Hc] & _ & He & Hn). exists self, self', c. split; [exact E0|]. split; [exact Hc|].
  destruct (chat_replicas_agree (bin := bit_bincode) self self' E) as (new & _ & H). destruct (H 7 c Hc) as (ms & c' & _ & Ht & _ & Hu).
  exists ms, c'. split; [exact Ht|]. split; [apply Hu; left; rewrite He; left|]. rewrite Hn. vm_compute. reflexivity.
Defined.

Lemma chat_handles_everything_witness :
  exists self self', chat_with 2 = Ret self /\ events (cs_server self) = [ClientConnected 7] /\ events (cs_server self') = [] /\
    server_is_connected (cs_server self) 7 = true.
Proof.
  destruct chat_joined as (self & self' & E0 & E & _ & Hs & He & _). exists self, self'. split; [exact E0|]. split; [exact He|].
  split; [exact (proj1 (chat_handles_everything (bin := bit_bincode) self self' E))|exact Hs].
Defined.

Lemma username_round_trip_witness :
  exists user_data, username_to_user_data ann = Ret user_data /\ username_from_user_data user_data = Ret ann.
Proof.
  destruct (username_round_trip ann) as (user_data & H1 & _ & H2); [vm_compute; reflexivity|vm_compute; congruence|].
  exists user_data. split; [exact H1|exact H2].
Defined.

(** A client that connects and disconnects within one update takes the chat
    server down: by the time its [ClientConnected] event is handled, the
    transport has no user data for it, and the [unwrap] panics. *)
Theorem chat_hasty_client_panics (bin : Bincode) :
  exists self, chat_with 3 = Ret self /\ events (cs_server self) = [ClientConnected 7; ClientDisconnected 7 Packet.Transport] /\
    chat_handle (bin := bin) self = Panic.
Proof.
  assert ((let! self := chat_with 3 in Ret (bool_decide (events (cs_server self) = [ClientConnected 7; ClientDisconnected 7 Packet.Transport]),
    bool_decide (is_Some (ts_user_data (cs_transport self) 7)))) = Ret (true, false)) as H by (vm_compute; reflexivity).
  destruct (chat_with 3) as [self|]; cbn [out_bind] in H; [|discriminate H]. injection H as H1 H2. exists self. split; [done|].
  apply bool_decide_eq_true in H1 as Hev. split; [exact Hev|]. apply bool_decide_eq_false, eq_None_not_Some in H2.
  unfold chat_handle. rewrite Hev. cbn [length chat_events]. unfold get_event at 1. rewrite Hev. cbn [chat_event cs_transport cs_set_server].
  by rewrite H2.
Qed.
