(* ===== verification/Echo.v ===== *)
(** * The echo examples (renet/examples, renetcode/examples, renet_steam/examples)

    Three servers that relay what a client types to all clients, and their
    clients: over renet and netcode (echo.rs of renet), over netcode alone
    (echo.rs of renetcode), over Steam (echo_steam.rs).  Each main loop is given
    as its turn: the time that has passed, what is read from the terminal and
    what the system provides are arguments, what is printed is part of the state. *)

From Stdlib Require Import Strings.String.
From stdpp Require Import pretty.
From S2P Require Import Prelude Octets Packet Connection Server Apps.
From S2P Require Import Netcode ReplayProtection Token NetPacket NetClient NetServer Transport Errors Steam.

(** [stdin_channel.try_recv()]. *)
Inductive stdin_event :=
  | Line (text : Bytes)
  | StdinEmpty
  | StdinDisconnected.

Definition quoted (s : Bytes) : Bytes := [byte_of 34] ++ s ++ [byte_of 34].

(** [format!("{}: {}", ..)]. *)
Definition text_line (name text : Bytes) : Bytes := name ++ bytes_of_string ": " ++ text.

(** ** renet/examples/echo.rs *)

(** [Username::to_netcode_user_data]. *)
Definition echo_to_user_data (name : Bytes) : out Bytes :=
  let user_data := vec_repeat (byte_of 0) NETCODE_USER_DATA_BYTES in
  if NETCODE_USER_DATA_BYTES - 8 <? len name then Panic
  else
    let! user_data := copy_range user_data 0 8 (le_bytes 8 (len name)) in
    copy_range user_data 8 (len name + 8) name.

(** [Username::from_user_data]. *)
Definition echo_from_user_data (user_data : Bytes) : out Bytes :=
  let! buffer := sub_slice user_data 0 8 in
  let n := Z.min (le_val buffer) (NETCODE_USER_DATA_BYTES - 8) in
  let! data := sub_slice user_data 8 (n + 8) in
  unwrap (from_utf8 data).

Definition ECHO_PROTOCOL_ID : Z := 7.

Record EchoServer := mkEchoServer {
  es_server : RenetServer;
  es_transport : NetcodeServerTransport;
  es_usernames : gmap Z Bytes;
  es_received_messages : list Bytes;
  es_printed : list Bytes;
}.

Definition es_set_server (self : EchoServer) (x : RenetServer) : EchoServer :=
  mkEchoServer x (es_transport self) (es_usernames self) (es_received_messages self) (es_printed self).
Definition es_set_usernames (self : EchoServer) (x : gmap Z Bytes) : EchoServer :=
  mkEchoServer (es_server self) (es_transport self) x (es_received_messages self) (es_printed self).
Definition es_push (self : EchoServer) (text : Bytes) : EchoServer :=
  mkEchoServer (es_server self) (es_transport self) (es_usernames self) (es_received_messages self ++ [text]) (es_printed self).
Definition es_print (self : EchoServer) (line : Bytes) : EchoServer :=
  mkEchoServer (es_server self) (es_transport self) (es_usernames self) (es_received_messages self) (es_printed self ++ [line]).

Definition client_line (client_id : Z) (what : string) : Bytes :=
  bytes_of_string ("Client " +:+ pretty client_id +:+ what).

Section renet_echo.
Context {oct : Octets} {aead : Aead}.

(** The beginning of [server]. *)
Definition echo_server_new (challenge_key : Bytes) (current_time : Z) (public_addr : SocketAddr) (socket : Socket) : out EchoServer :=
  let server_config := mkServerConfig current_time 64 ECHO_PROTOCOL_ID [public_addr] ServerUnsecure in
  let! r := ts_new challenge_key server_config socket in
  match r with
  | Ok transport => Ret (mkEchoServer (server_new default_config) transport ∅ [] [])
  | Err _ => Panic
  end.

Definition echo_event (event : ServerEvent) (self : EchoServer) : out EchoServer :=
  match event with
  | ClientConnected client_id =>
      let! user_data := unwrap (ts_user_data (es_transport self) client_id) in
      let! username := echo_from_user_data user_data in
      let! server :=
        broadcast_message_except (es_server self) client_id ORDERED
          (bytes_of_string "User " ++ quoted username ++ bytes_of_string " connected") in
      let self := es_set_usernames (es_set_server self server) (<[client_id := username]> (es_usernames self)) in
      Ret (es_print self (client_line client_id " connected."))
  | ClientDisconnected client_id reason =>
      let self := es_print self (client_line client_id (" disconnected: " +:+ show_disconnect_reason reason)) in
      match es_usernames self !! client_id with
      | Some username =>
          let self := es_set_usernames self (delete client_id (es_usernames self)) in
          let! server :=
            broadcast_message_except (es_server self) client_id ORDERED
              (bytes_of_string "User " ++ quoted username ++ bytes_of_string " disconnected") in
          Ret (es_set_server self server)
      | None => Ret self
      end
  end.

Definition echo_next_event (self : EchoServer) : out (EchoServer * option ServerEvent) :=
  let (server, event) := get_event (es_server self) in Ret (es_set_server self server, event).

Definition echo_next_message (client_id : Z) (self : EchoServer) : out (EchoServer * option Bytes) :=
  let! (server, message) := server_receive_message (es_server self) client_id ORDERED in
  Ret (es_set_server self server, message).

Definition echo_message (client_id : Z) (message : Bytes) (self : EchoServer) : out EchoServer :=
  let! text := unwrap (from_utf8 message) in
  let! username := unwrap (es_usernames self !! client_id) in
  let self :=
    es_print self (bytes_of_string "Client " ++ username ++ bytes_of_string (" (" +:+ pretty client_id +:+ ") sent text: ") ++ text) in
  Ret (es_push self (text_line username text)).

(** The body of [for client_id in server.clients_id()]. *)
Definition echo_receive (self : EchoServer) (client_id : Z) : out EchoServer :=
  while_let (echo_next_message client_id) (echo_message client_id) (S (server_backlog (es_server self) client_id ORDERED)) self.

Definition echo_broadcast (self : EchoServer) (text : Bytes) : out EchoServer :=
  let! server := broadcast_message (es_server self) ORDERED text in
  Ret (es_set_server self server).

(** From [received_messages.clear()] to [transport.send_packets]. *)
Definition echo_handle (self : EchoServer) : out EchoServer :=
  let self := mkEchoServer (es_server self) (es_transport self) (es_usernames self) [] (es_printed self) in
  let! self := while_let echo_next_event echo_event (S (length (events (es_server self)))) self in
  let! self := fold_out echo_receive self (clients_id (es_server self)) in
  fold_out echo_broadcast self (es_received_messages self).

(** A turn of the loop of [server]. *)
Definition echo_server_turn (duration : Z) (self : EchoServer) : out EchoServer :=
  let! server := server_update (es_server self) duration in
  let! (transport, server, r) := ts_update (es_transport self) duration server in
  match r with
  | Err _ => Panic
  | Ok _ =>
      let! self := echo_handle (mkEchoServer server transport (es_usernames self) (es_received_messages self) (es_printed self)) in
      let! (transport, server) := ts_send_packets (es_transport self) (es_server self) in
      Ret (mkEchoServer server transport (es_usernames self) (es_received_messages self) (es_printed self))
  end.

Record EchoClient := mkEchoClient {
  ec_client : RenetClient;
  ec_transport : NetcodeClientTransport;
  ec_printed : list Bytes;
}.

(** The beginning of [client]. *)
Definition echo_client_new (rnd : TokenRandom) (current_time : Z) (socket : Socket) (server_addr : SocketAddr) (username : Bytes)
    : out EchoClient :=
  let! client := client_new default_config in
  let client_id := as_millis current_time mod 2 ^ 64 in
  let! user_data := echo_to_user_data username in
  let! r := tc_new rnd current_time (ClientUnsecure ECHO_PROTOCOL_ID client_id server_addr (Some user_data)) socket in
  match r with
  | Ok transport => Ret (mkEchoClient client transport [])
  | Err _ => Panic
  end.

(** [client.receive_message(ReliableOrdered)] and the line that is printed. *)
Definition terminal_next (st : RenetClient * list Bytes) : out (RenetClient * list Bytes * option Bytes) :=
  let! (client, message) := receive_message st.1 ORDERED in
  Ret (client, st.2, message).

Definition terminal_print (message : Bytes) (st : RenetClient * list Bytes) : out (RenetClient * list Bytes) :=
  let! text := unwrap (from_utf8 message) in
  Ret (st.1, st.2 ++ [text]).

(** The part of a turn of a connected client between the calls of the transport. *)
Definition terminal_turn (stdin : stdin_event) (client : RenetClient) (printed : list Bytes) : out (RenetClient * list Bytes) :=
  if is_connected client then
    let! client :=
      match stdin with
      | Line text => send_message client ORDERED text
      | StdinEmpty => Ret client
      | StdinDisconnected => Panic
      end in
    while_let terminal_next terminal_print (S (backlog client ORDERED)) (client, printed)
  else Ret (client, printed).

(** A turn of the loop of [client]. *)
Definition echo_client_turn (duration : Z) (stdin : stdin_event) (self : EchoClient) : out EchoClient :=
  let! client := client_update (ec_client self) duration in
  let! (transport, client, r) := tc_update (ec_transport self) duration client in
  match r with
  | Err _ => Panic
  | Ok _ =>
      let! (client, printed) := terminal_turn stdin client (ec_printed self) in
      let! (transport, client, r) := tc_send_packets transport client in
      match r with
      | Err _ => Panic
      | Ok _ => Ret (mkEchoClient client transport printed)
      end
  end.

End renet_echo.

(** ** renet_steam/examples/echo_steam.rs

    The callbacks are where Steam's answers change: a turn has the answers from
    its [run_callbacks] on as its instance of [Steamworks]. *)

Record SteamEcho := mkSteamEcho {
  st_server : RenetServer;
  st_received_messages : list Bytes;
  st_printed : list Bytes;
}.

Section steam_echo.
Context {oct : Octets} {steam : Steamworks}.

(** [server.get_event()] and the line that is printed. *)
Definition steam_echo_next_event (self : SteamEcho) : out (SteamEcho * option ServerEvent) :=
  let (server, event) := get_event (st_server self) in
  Ret (mkSteamEcho server (st_received_messages self) (st_printed self), event).

Definition steam_echo_event (event : ServerEvent) (self : SteamEcho) : out SteamEcho :=
  let line :=
    match event with
    | ClientConnected client_id => client_line client_id " connected."
    | ClientDisconnected client_id reason => client_line client_id (" disconnected: " +:+ show_disconnect_reason reason)
    end in
  Ret (mkSteamEcho (st_server self) (st_received_messages self) (st_printed self ++ [line])).

Definition steam_echo_next_message (client_id : Z) (self : SteamEcho) : out (SteamEcho * option Bytes) :=
  let! (server, message) := server_receive_message (st_server self) client_id ORDERED in
  Ret (mkSteamEcho server (st_received_messages self) (st_printed self), message).

Definition steam_echo_message (client_id : Z) (message : Bytes) (self : SteamEcho) : out SteamEcho :=
  let! text := unwrap (from_utf8 message) in
  Ret (mkSteamEcho (st_server self) (st_received_messages self ++ [text_line (bytes_of_string (pretty client_id)) text])
         (st_printed self ++ [client_line client_id " sent text: " ++ text])).

Definition steam_echo_receive (self : SteamEcho) (client_id : Z) : out SteamEcho :=
  while_let (steam_echo_next_message client_id) (steam_echo_message client_id)
    (S (server_backlog (st_server self) client_id ORDERED)) self.

Definition steam_echo_broadcast (self : SteamEcho) (text : Bytes) : out SteamEcho :=
  let! server := broadcast_message (st_server self) ORDERED text in
  Ret (mkSteamEcho server (st_received_messages self) (st_printed self)).

Definition steam_echo_handle (self : SteamEcho) : out SteamEcho :=
  let self := mkSteamEcho (st_server self) [] (st_printed self) in
  let! self := while_let steam_echo_next_event steam_echo_event (S (length (events (st_server self)))) self in
  let! self := fold_out steam_echo_receive self (clients_id (st_server self)) in
  fold_out steam_echo_broadcast self (st_received_messages self).

(** A turn of the loop of [run_server]. *)
Definition steam_echo_server_turn (duration : Z) (transport : SteamServerTransport) (calls : SteamCalls) (self : SteamEcho)
    : out (SteamServerTransport * SteamCalls * SteamEcho) :=
  let! server := server_update (st_server self) duration in
  let! st := steam_server_update (mkSteamState transport calls server) in
  let! self := steam_echo_handle (mkSteamEcho (sm_server st) (st_received_messages self) (st_printed self)) in
  let! st := steam_server_send_packets (mkSteamState (sm_self st) (sm_calls st) (st_server self)) in
  Ret (sm_self st, sm_calls st, mkSteamEcho (sm_server st) (st_received_messages self) (st_printed self)).

(** A turn of the loop of [run_client]. *)
Definition steam_echo_client_turn (duration : Z) (stdin : stdin_event) (transport : SteamClientTransport) (calls : SteamCalls)
    (client : RenetClient) (printed : list Bytes) : out (SteamClientTransport * SteamCalls * RenetClient * list Bytes) :=
  let! client := client_update client duration in
  let! (transport, calls, client) := steam_client_update transport calls client in
  let! (client, printed) := terminal_turn stdin client printed in
  let! (calls, client, r) := steam_client_send_packets transport calls client in
  match r with
  | Err _ => Panic
  | Ok _ => Ret (transport, calls, client, printed)
  end.

End steam_echo.

(** ** renetcode/examples/echo.rs *)

Definition NETECHO_PROTOCOL_ID : Z := 123456789.

Record NetEcho := mkNetEcho {
  ne_server : NetcodeServer;
  ne_socket : Socket;
  ne_received_messages : list Bytes;
  ne_usernames : gmap Z Bytes;
  ne_printed : list Bytes;
}.

Definition ne_set_server (self : NetEcho) (x : NetcodeServer) : NetEcho :=
  mkNetEcho x (ne_socket self) (ne_received_messages self) (ne_usernames self) (ne_printed self).
Definition ne_print (self : NetEcho) (line : Bytes) : NetEcho :=
  mkNetEcho (ne_server self) (ne_socket self) (ne_received_messages self) (ne_usernames self) (ne_printed self ++ [line]).

Section net_echo.
Context {aead : Aead}.

(** [socket.send_to(payload, addr).unwrap()]. *)
Definition ne_send (self : NetEcho) (payload : Bytes) (addr : SocketAddr) : out NetEcho :=
  match send_to (ne_socket self) payload addr with
  | (socket, Ok _) => Ret (mkNetEcho (ne_server self) socket (ne_received_messages self) (ne_usernames self) (ne_printed self))
  | (_, Err _) => Panic
  end.

(** [{:?}] of a string, with quotes and escapes. *)
Variable debug_string : Bytes -> Bytes.

(** [handle_server_result]. *)
Definition netecho_handle (self : NetEcho) (server_result : ServerResult) : out NetEcho :=
  match server_result with
  | SrPayload client_id payload =>
      let! text := unwrap (from_utf8 payload) in
      let! username := unwrap (ne_usernames self !! client_id) in
      let self :=
        ne_print self (bytes_of_string "Client " ++ username ++ bytes_of_string (" (" +:+ pretty client_id +:+ ") sent message ")
                       ++ debug_string text ++ bytes_of_string ".") in
      Ret (mkNetEcho (ne_server self) (ne_socket self) (ne_received_messages self ++ [text_line username text]) (ne_usernames self)
             (ne_printed self))
  | SrPacketToSend addr payload => ne_send self payload addr
  | SrClientConnected client_id addr user_data payload =>
      let! username := echo_from_user_data user_data in
      let self :=
        ne_print self (bytes_of_string "Client " ++ username ++ bytes_of_string (" with id " +:+ pretty client_id +:+ " connected.")) in
      let self :=
        mkNetEcho (ne_server self) (ne_socket self) (ne_received_messages self) (<[client_id := username]> (ne_usernames self))
          (ne_printed self) in
      ne_send self payload addr
  | SrClientDisconnected client_id addr payload =>
      let self := ne_print self (client_line client_id " disconnected.") in
      let self :=
        mkNetEcho (ne_server self) (ne_socket self) (ne_received_messages self) (delete client_id (ne_usernames self))
          (ne_printed self) in
      match payload with
      | Some payload => ne_send self payload addr
      | None => Ret self
      end
  | SrNone => Ret self
  end.

(** A call of the netcode server whose result is handled. *)
Definition netecho_call (self : NetEcho) (call : NetcodeServer -> out (NetcodeServer * ServerResult)) : out NetEcho :=
  let! (server, server_result) := call (ne_server self) in
  netecho_handle (ne_set_server self server) server_result.

(** The loop that receives, over the events of the socket; past the last one it
    would block. *)
Fixpoint netecho_receive_loop (self : NetEcho) (incoming : list recv_event) : out (NetEcho * list recv_event) :=
  match incoming with
  | [] => Ret (self, [])
  | RecvError WouldBlock :: incoming => Ret (self, incoming)
  | RecvError _ :: _ => Panic
  | Datagram data addr :: incoming =>
      let! self := netecho_call self (fun s => net_server_process_packet s addr (received data)) in
      netecho_receive_loop self incoming
  end.

(** The texts that were received, to every client. *)
Definition netecho_send (text : Bytes) (self : NetEcho) (client_id : Z) : out NetEcho :=
  let! (server, r) := net_server_generate_payload_packet (ne_server self) client_id text in
  match r with
  | Err _ => Panic
  | Ok (addr, payload) => ne_send (ne_set_server self server) payload addr
  end.

Definition netecho_broadcast (self : NetEcho) (text : Bytes) : out NetEcho :=
  fold_out (netecho_send text) self (ns_clients_id (ne_server self)).

(** The beginning of [server]. *)
Definition netecho_server_new (challenge_key private_key : Bytes) (current_time : Z) (addr : SocketAddr) (socket : Socket) : out NetEcho :=
  let config := mkServerConfig current_time 16 NETECHO_PROTOCOL_ID [addr] (ServerSecure private_key) in
  let! server := net_server_new challenge_key config in
  match sk_nonblocking socket with
  | Some _ => Panic
  | None => Ret (mkNetEcho server socket [] ∅ [])
  end.

(** A turn of the loop of [server]. *)
Definition netecho_server_turn (duration : Z) (self : NetEcho) : out NetEcho :=
  let! server := net_server_update (ne_server self) duration in
  let self := mkNetEcho server (ne_socket self) [] (ne_usernames self) (ne_printed self) in
  let! (self, incoming) := netecho_receive_loop self (sk_incoming (ne_socket self)) in
  let self :=
    mkNetEcho (ne_server self) (sk_set_incoming (ne_socket self) incoming) (ne_received_messages self) (ne_usernames self)
      (ne_printed self) in
  let! self := fold_out netecho_broadcast self (ne_received_messages self) in
  fold_out (fun self client_id => netecho_call self (fun s => net_server_update_client s client_id)) self
    (ns_clients_id (ne_server self)).

Record NetEchoClient := mkNetEchoClient {
  nec_client : NetcodeClient;
  nec_socket : Socket;
  nec_printed : list Bytes;
}.

(** The token of [main], and the beginning of [client]: the time is asked for twice. *)
Definition netecho_client_new (rnd : TokenRandom) (now now' : Z) (server_addr : SocketAddr) (username private_key : Bytes) (socket : Socket)
    : out NetEchoClient :=
  let client_id := as_millis now mod 2 ^ 64 in
  let! user_data := echo_to_user_data username in
  let! r := token_generate rnd now NETECHO_PROTOCOL_ID 300 client_id 15 [server_addr] (Some user_data) private_key in
  match r with
  | Err _ => Panic
  | Ok connect_token =>
      match sk_nonblocking socket with
      | Some _ => Panic
      | None =>
          let! r := net_client_new rnd now' (ClientSecure connect_token) in
          match r with
          | Ok client => Ret (mkNetEchoClient client socket [])
          | Err _ => Panic
          end
      end
  end.

(** The loop that receives; packets that are not from the server are ignored. *)
Fixpoint netecho_client_receive_loop (client : NetcodeClient) (printed : list Bytes) (incoming : list recv_event)
    : out (NetcodeClient * list Bytes * list recv_event) :=
  match incoming with
  | [] => Ret (client, printed, [])
  | RecvError WouldBlock :: incoming => Ret (client, printed, incoming)
  | RecvError _ :: _ => Panic
  | Datagram data addr :: incoming =>
      if negb (bool_decide (addr = nc_server_addr client)) then netecho_client_receive_loop client printed incoming
      else
        let! (client, payload) := net_client_process_packet client (received data) in
        match payload with
        | Some payload =>
            let! text := unwrap (from_utf8 payload) in
            netecho_client_receive_loop client (printed ++ [bytes_of_string "Received message from server: " ++ text]) incoming
        | None => netecho_client_receive_loop client printed incoming
        end
  end.

(** A turn of the loop of [client]. *)
Definition netecho_client_turn (duration : Z) (stdin : stdin_event) (self : NetEchoClient) : out NetEchoClient :=
  match nc_disconnect_reason (nec_client self) with
  | Some _ => Panic
  | None =>
      let! (client, socket, printed) :=
        match stdin with
        | Line text =>
            if nc_is_connected (nec_client self) then
              let! (client, r) := net_client_generate_payload_packet (nec_client self) text in
              match r with
              | Err _ => Panic
              | Ok (addr, payload) =>
                  match send_to (nec_socket self) payload addr with
                  | (socket, Ok _) => Ret (client, socket, nec_printed self)
                  | (_, Err _) => Panic
                  end
              end
            else Ret (nec_client self, nec_socket self, nec_printed self ++ [bytes_of_string "Client is not yet connected"])
        | StdinEmpty => Ret (nec_client self, nec_socket self, nec_printed self)
        | StdinDisconnected => Panic
        end in
      let! (client, printed, incoming) := netecho_client_receive_loop client printed (sk_incoming socket) in
      let socket := sk_set_incoming socket incoming in
      let! (client, packet) := net_client_update client duration in
      match packet with
      | None => Ret (mkNetEchoClient client socket printed)
      | Some (packet, addr) =>
          match send_to socket packet addr with
          | (socket, Ok _) => Ret (mkNetEchoClient client socket printed)
          | (_, Err _) => Panic
          end
      end
  end.

End net_echo.
