(* ===== verification/EchoProps.v ===== *)
(** * The echo examples: theorems

    One turn of the renet server is a relay: what it says to each client is given
    exactly.  The netcode server has a name for exactly the clients that are
    connected.  User names survive the trip through the connect token. *)

From Stdlib Require Import Strings.String.
From stdpp Require Import pretty.
From S2P Require Import Prelude Octets Packet Connection Server Apps.
From S2P Require Import Netcode ReplayProtection Token NetPacket NetClient NetServer NetServerInv NetServerProps Handshake.
From S2P Require Import Transport TransportProps NetReports Errors Steam Echo.

(** ** The relay over renet *)

Section relay.
Context {oct : Octets} {aead : Aead}.

(** The name that the transport has for a client. *)
Definition echo_name (transport : NetcodeServerTransport) (id : Z) : option Bytes :=
  match ts_user_data transport id with
  | Some user_data => match echo_from_user_data user_data with Ret name => Some name | Panic => None end
  | None => None
  end.

(** What is announced of the events, with the client each is about. *)
Fixpoint announced (name_of : Z -> option Bytes) (names : gmap Z Bytes) (es : list ServerEvent) : list (Z * Bytes) :=
  match es with
  | [] => []
  | ClientConnected id :: es =>
      match name_of id with
      | Some name =>
          (id, bytes_of_string "User " ++ quoted name ++ bytes_of_string " connected") :: announced name_of (<[id := name]> names) es
      | None => []
      end
  | ClientDisconnected id _ :: es =>
      match names !! id with
      | Some name =>
          (id, bytes_of_string "User " ++ quoted name ++ bytes_of_string " disconnected") :: announced name_of (delete id names) es
      | None => announced name_of names es
      end
  end.

(** What a client is told of the announcements: those about the others. *)
Definition told_of (news : list (Z * Bytes)) (k : Z) : list act :=
  Sends ORDERED <$> (filter (fun n => n.1 <> k) news).*2.

(** The line relayed for a text, under the name of its author. *)
Definition relayed (names : gmap Z Bytes) (line : Z * Bytes) (out : Bytes) : Prop :=
  exists name, names !! line.1 = Some name /\ utf8_valid line.2 = true /\ out = text_line name line.2.

Lemma events_turn self e self' :
  echo_event e self = Ret self' ->
  es_transport self' = es_transport self /\ es_received_messages self' = es_received_messages self /\
  events (es_server self') = events (es_server self) /\
  exists news, converse (told_of news) (es_server self) (es_server self') /\
    forall es, announced (echo_name (es_transport self)) (es_usernames self) (e :: es) =
               news ++ announced (echo_name (es_transport self)) (es_usernames self') es.
Proof using.
  destruct e as [id|id reason]; cbn [echo_event]; intros H.
  - destruct (ts_user_data _ _) as [ud|] eqn:Eu; cbn [unwrap out_bind] in H; [|done].
    destruct (echo_from_user_data ud) as [name|] eqn:En; cbn [out_bind] in H; [|done].
    destruct (broadcast_message_except _ _ _ _) as [server|] eqn:Eb; cbn [out_bind] in H; [|done]. injection H as <-.
    apply broadcast_except_converse in Eb as [Hc He]. split_and!; try done. eexists [(id, _)]. split.
    + eapply converse_ext; [|exact Hc]. intros k. unfold told_of. cbn [filter list_filter fst]. destruct (Z.eqb_spec id k) as [->|Hne].
      * by rewrite decide_False by auto.
      * by rewrite decide_True.
    + intros es. cbn [announced]. unfold echo_name at 1. by rewrite Eu, En.
  - destruct (es_usernames self !! id) as [name|] eqn:En; cbn [es_usernames es_print] in H; rewrite En in H.
    + destruct (broadcast_message_except _ _ _ _) as [server|] eqn:Eb; cbn [out_bind] in H; [|done]. injection H as <-.
      apply broadcast_except_converse in Eb as [Hc He]. split_and!; try done. eexists [(id, _)]. split.
      * eapply converse_ext; [|exact Hc]. intros k. unfold told_of. cbn [filter list_filter fst]. destruct (Z.eqb_spec id k) as [->|Hne].
        -- by rewrite decide_False by auto.
        -- by rewrite decide_True.
      * intros es. cbn [announced]. by rewrite En.
    + injection H as <-. split_and!; try done. exists []. split; [by apply converse_same|]. intros es. cbn [announced]. by rewrite En.
Qed.

Lemma told_of_app n1 n2 k : told_of (n1 ++ n2) k = told_of n1 k ++ told_of n2 k.
Proof using. unfold told_of. by rewrite filter_app, !fmap_app. Qed.

Lemma events_phase fuel : forall self self',
  (length (events (es_server self)) < fuel)%nat -> while_let echo_next_event echo_event fuel self = Ret self' ->
  es_transport self' = es_transport self /\ es_received_messages self' = es_received_messages self /\
  events (es_server self') = [] /\
  converse (told_of (announced (echo_name (es_transport self)) (es_usernames self) (events (es_server self)))) (es_server self) (es_server self').
Proof using.
  induction fuel as [|fuel IH]; intros self self' Hf H; [lia|]. cbn [while_let] in H. unfold echo_next_event, get_event in H.
  destruct (events (es_server self)) as [|e es] eqn:Ees; cbn [out_bind] in H.
  - injection H as <-. split_and!; try done. by apply converse_same.
  - destruct (echo_event e _) as [self1|] eqn:E; cbn [out_bind] in H; [|done].
    apply events_turn in E as (Et & Er & Eev & news & Hc & Ha). cbn [es_transport es_received_messages es_server es_set_server es_usernames events] in Et, Er, Eev, Hc, Ha.
    apply IH in H as (Et' & Er' & Ee' & Hc'); [|rewrite Eev; cbn in Hf; lia]. split_and!; [congruence..|].
    rewrite Ha, <- Eev. eapply converse_ext; [intros k; symmetry; apply told_of_app|].
    eapply converse_trans; [exact Hc|]. rewrite <- Et. exact Hc'.
Qed.

Lemma message_line_of client_id m self self' :
  echo_message client_id m self = Ret self' ->
  es_server self' = es_server self /\ (es_transport self', es_usernames self') = (es_transport self, es_usernames self) /\
  exists line, es_received_messages self' = es_received_messages self ++ [line] /\ relayed (es_usernames self) (client_id, m) line.
Proof using.
  unfold echo_message, from_utf8. intros Hm. destruct (utf8_valid m) eqn:Ev; cbn [unwrap out_bind] in Hm; [|done].
  destruct (es_usernames self !! client_id) as [name|] eqn:En; cbn [unwrap out_bind] in Hm; [|done].
  injection Hm as <-. split_and!; try done. exists (text_line name m). split; [done|]. by exists name.
Qed.

End relay.

(** C30: One turn of the echo server says exactly this to every client, in this
    order: the arrivals and departures of the other clients, then every line of
    the turn; and it takes from each client exactly its own texts.  The lines are
    the texts of all clients under their authors' names, each once.  The turn ends
    with no event queued and no text of a connected client waiting. *)
Theorem echo_relays {oct : Octets} {aead : Aead} self self' :
  echo_handle self = Ret self' ->
  events (es_server self') = [] /\
  (forall id, server_is_connected (es_server self') id = true -> server_drained (es_server self') id ORDERED) /\
  exists lines, Forall2 (relayed (es_usernames self')) lines (es_received_messages self') /\
    converse (fun k => told_of (announced (echo_name (es_transport self)) (es_usernames self) (events (es_server self))) k
                       ++ heard_from ORDERED lines k ++ (Sends ORDERED <$> es_received_messages self'))
      (es_server self) (es_server self').
Proof.
  unfold echo_handle. intros H. destruct (while_let _ _ _ _) as [self1|] eqn:E1; cbn [out_bind] in H; [|done].
  apply events_phase in E1 as (Et1 & Er1 & Ee1 & Hc1); [|lia]. cbn [es_transport es_received_messages es_usernames es_server] in Et1, Er1, Hc1.
  destruct (fold_out echo_receive _ _) as [self2|] eqn:E2; cbn [out_bind] in H; [|done].
  destruct (relay_phases es_server es_set_server es_received_messages (fun x => (es_transport x, es_usernames x)) (fun _ _ => eq_refl)
    (fun _ _ => conj eq_refl eq_refl) ORDERED echo_message (fun ctx => relayed ctx.2) message_line_of self1 self2 self' Er1 E2 H)
    as (Ec & Ee & Hd & lines & Hf & Hc). injection Ec as Et Eu.
  split; [congruence|]. split; [done|]. exists lines. rewrite Eu. split; [done|]. eapply converse_trans; [exact Hc1|exact Hc].
Qed.

(** ** The relay over Steam *)

Lemma steam_message_line client_id m self self' :
  steam_echo_message client_id m self = Ret self' ->
  st_server self' = st_server self /\ tt = tt /\
  exists line, st_received_messages self' = st_received_messages self ++ [line] /\
    utf8_valid m = true /\ line = text_line (bytes_of_string (pretty client_id)) m.
Proof.
  unfold steam_echo_message, from_utf8. intros Hm. destruct (utf8_valid m) eqn:Ev; cbn [unwrap out_bind] in Hm; [|done].
  injection Hm as <-. split_and!; try done. by eexists.
Qed.

Lemma steam_events_phase fuel : forall self self',
  (length (events (st_server self)) < fuel)%nat -> while_let steam_echo_next_event steam_echo_event fuel self = Ret self' ->
  st_received_messages self' = st_received_messages self /\ events (st_server self') = [] /\
  connections (st_server self') = connections (st_server self).
Proof.
  induction fuel as [|fuel IH]; intros self self' Hf H; [lia|]. cbn [while_let] in H. unfold steam_echo_next_event, get_event in H.
  destruct (events (st_server self)) as [|e es] eqn:Ees; cbn [out_bind] in H; [by injection H as <-|].
  unfold steam_echo_event in H at 1. cbn [out_bind] in H. apply IH in H as (Er & Ee & Ec); [done|cbn in *; lia].
Qed.

(** The Steam server relays in the same way, under the ids of the clients. *)
Theorem steam_echo_relays self self' :
  steam_echo_handle self = Ret self' ->
  events (st_server self') = [] /\
  (forall id, server_is_connected (st_server self') id = true -> server_drained (st_server self') id ORDERED) /\
  exists lines, st_received_messages self' = (fun line => text_line (bytes_of_string (pretty line.1)) line.2) <$> lines /\
    converse (fun k => heard_from ORDERED lines k ++ (Sends ORDERED <$> st_received_messages self')) (st_server self) (st_server self').
Proof.
  unfold steam_echo_handle. intros H. destruct (while_let _ _ _ _) as [self1|] eqn:E1; cbn [out_bind] in H; [|done].
  apply steam_events_phase in E1 as (Er1 & Ee1 & Ec1); [|lia].
  destruct (fold_out steam_echo_receive _ _) as [self2|] eqn:E2; cbn [out_bind] in H; [|done].
  destruct (relay_phases st_server (fun s x => mkSteamEcho x (st_received_messages s) (st_printed s)) st_received_messages (fun _ => tt)
    (fun _ _ => eq_refl) (fun _ _ => conj eq_refl eq_refl) ORDERED steam_echo_message
    (fun _ l out => utf8_valid l.2 = true /\ out = text_line (bytes_of_string (pretty l.1)) l.2) steam_message_line self1 self2 self' Er1 E2 H)
    as (_ & Ee & Hd & lines & Hf & Hc).
  split; [congruence|]. split; [done|]. exists lines. split.
  - clear -Hf. induction Hf as [|l o lines os [_ ->] _ IH]; cbn; [done|]. by rewrite IH.
  - intros k. cbn in Ec1. rewrite <- Ec1. apply Hc.
Qed.

(** ** Names over netcode *)

Section net_echo.
Context {aead : Aead} (debug_string : Bytes -> Bytes).

(** The server has a name for a client exactly while it is connected. *)
Definition names_exact (self : NetEcho) : Prop :=
  forall id, is_Some (ne_usernames self !! id) <-> has_client (ne_server self) id.

Lemma ne_send_keeps self payload addr self' :
  ne_send self payload addr = Ret self' -> ne_server self' = ne_server self /\ ne_usernames self' = ne_usernames self.
Proof using. unfold ne_send. destruct (send_to _ _ _) as [sk []]; [|done]. by intros [= <-]. Qed.

(** The table of names after a result. *)
Definition names_after (names names' : gmap Z Bytes) (r : ServerResult) : Prop :=
  match r with
  | SrClientConnected id _ _ _ => exists name, names' = <[id := name]> names
  | SrClientDisconnected id _ _ => names' = delete id names
  | _ => names' = names
  end.

Lemma handle_names self r self' :
  netecho_handle debug_string self r = Ret self' ->
  ne_server self' = ne_server self /\ names_after (ne_usernames self) (ne_usernames self') r.
Proof using.
  destruct r as [|addr p|id p|id addr ud p|id addr p]; cbn [netecho_handle names_after]; intros H.
  - by injection H as <-.
  - by apply ne_send_keeps in H.
  - destruct (from_utf8 p); cbn [unwrap out_bind] in H; [|done]. destruct (ne_usernames self !! id); cbn [unwrap out_bind] in H; [|done].
    by injection H as <-.
  - destruct (echo_from_user_data ud) as [name|]; cbn [out_bind] in H; [|done]. apply ne_send_keeps in H as [-> ->]. split; [done|]. by exists name.
  - destruct p; [by apply ne_send_keeps in H|]. by injection H as <-.
Qed.

Lemma call_names call self self' :
  (forall s s' r, call s = Ret (s', r) -> tracks s s' r /\ reports s s' r) ->
  distinct_ids (ne_server self) -> names_exact self -> netecho_call debug_string self call = Ret self' -> names_exact self'.
Proof using.
  intros Hcall Hd Hn H. unfold netecho_call in H. destruct (call _) as [[s r]|] eqn:E; cbn [out_bind] in H; [|done].
  destruct (Hcall _ _ _ E) as [[Hkeep Hnew] [Hback Hr]]. apply handle_names in H as [Es Hu]. cbn in Es, Hu. intros id. rewrite Es.
  destruct r as [|addr p|i p|i addr ud p|i addr p]; cbn [names_after] in Hu.
  4:{ destruct Hu as [name ->]. rewrite lookup_insert_is_Some. split.
      - intros [<-|[_ Hid]]; [done|]. apply Hn in Hid. destruct (Hkeep id Hid) as [?|(? & ? & ?)]; done.
      - intros [Hid|(? & ? & ? & [= ->])]%Hback; [|by left]. destruct (decide (i = id)); [by left|]. right. split; [done|by apply Hn]. }
  4:{ rewrite Hu, lookup_delete_is_Some. split.
      - intros [Hne Hid%Hn]. destruct (Hkeep id Hid) as [?|(? & ? & [= ->])]; done.
      - intros Hid. split; [intros <-; by apply (Hr Hd)|]. apply Hback in Hid as [?|(? & ? & ? & ?)]; [by apply Hn|done]. }
  all: rewrite Hu, (Hn id); split; intros Hid; [by destruct (Hkeep id Hid) as [?|(? & ? & ?)]|by destruct (Hback id Hid) as [?|(? & ? & ? & ?)]].
Qed.

(** What the loop of the server is made of. *)
Inductive netecho_step : NetEcho -> NetEcho -> Prop :=
  | nes_datagram self data addr self' :
      netecho_call debug_string self (fun s => net_server_process_packet s addr (received data)) = Ret self' -> netecho_step self self'
  | nes_update_client self id self' :
      netecho_call debug_string self (fun s => net_server_update_client s id) = Ret self' -> netecho_step self self'
  | nes_send self text id self' : netecho_send text self id = Ret self' -> netecho_step self self'
  | nes_update self duration server :
      net_server_update (ne_server self) duration = Ret server ->
      netecho_step self (mkNetEcho server (ne_socket self) [] (ne_usernames self) (ne_printed self))
  | nes_socket self socket :
      netecho_step self (mkNetEcho (ne_server self) socket (ne_received_messages self) (ne_usernames self) (ne_printed self)).

Lemma step_names self self' : distinct_ids (ne_server self) -> names_exact self -> netecho_step self self' -> names_exact self'.
Proof using.
  intros Hd Hn H. destruct H as [self data addr self' H|self id self' H|self text id self' H|self duration server H|self socket].
  - eapply call_names; [|done..|exact H]. intros s s' r Hc. exact (conj (process_packet_tracks _ _ _ _ _ Hc) (process_packet_reports _ _ _ _ _ Hc)).
  - eapply call_names; [|done..|exact H]. intros s s' r Hc. exact (conj (update_client_tracks _ _ _ _ Hc) (update_client_reports _ _ _ _ Hc)).
  - unfold netecho_send in H. destruct (net_server_generate_payload_packet _ _ _) as [[s r]|] eqn:E; cbn [out_bind] in H; [|done].
    destruct r as [[addr p]|]; [|done]. apply ne_send_keeps in H as [Es Eu]. cbn in Es, Eu. intros k. rewrite Es, Eu, (Hn k). split.
    + by apply (payload_clients _ _ _ _ _ E).
    + apply payload_reports in E as [Hb _]. intros [?|(? & ? & ? & ?)]%Hb; done.
  - unfold net_server_update in H. destruct (dur_add _ _); cbn [out_bind] in H; [|done]. by injection H as <-.
  - exact Hn.
Qed.

(** A turn of the loop is a sequence of these steps. *)
Lemma receive_loop_steps incoming : forall self self' rest,
  netecho_receive_loop debug_string self incoming = Ret (self', rest) -> rtc netecho_step self self'.
Proof using.
  induction incoming as [|e incoming IH]; intros self self' rest H; cbn [netecho_receive_loop] in H; [by injection H as <- _|].
  destruct e as [data addr|k]; [|by destruct k; try done; injection H as <- _].
  destruct (netecho_call _ _ _) as [self1|] eqn:E; cbn [out_bind] in H; [|done]. eapply rtc_l; [exact (nes_datagram _ _ _ _ E)|exact (IH _ _ _ H)].
Qed.

Lemma fold_steps {A} (f : NetEcho -> A -> out NetEcho) l : forall self self',
  (forall self a self', f self a = Ret self' -> rtc netecho_step self self') -> fold_out f self l = Ret self' -> rtc netecho_step self self'.
Proof using.
  induction l as [|a l IH]; intros self self' Hf H; cbn [fold_out] in H; [by injection H as <-|].
  destruct (f self a) as [self1|] eqn:E; cbn [out_bind] in H; [|done]. etrans; [exact (Hf _ _ _ E)|exact (IH _ _ Hf H)].
Qed.

Lemma turn_steps duration self self' : netecho_server_turn debug_string duration self = Ret self' -> rtc netecho_step self self'.
Proof using.
  unfold netecho_server_turn. intros H. destruct (net_server_update _ _) as [server|] eqn:E; cbn [out_bind] in H; [|done].
  eapply rtc_l; [exact (nes_update _ _ _ E)|].
  destruct (netecho_receive_loop _ _ _) as [[self1 incoming]|] eqn:E1; cbn [out_bind] in H; [|done].
  etrans; [by eapply receive_loop_steps|]. eapply rtc_l; [by eapply nes_socket|].
  destruct (fold_out netecho_broadcast _ _) as [self2|] eqn:E2; cbn [out_bind] in H; [|done]. etrans.
  - eapply fold_steps; [|exact E2]. intros s text s' Hs. unfold netecho_broadcast in Hs. eapply fold_steps; [|exact Hs].
    intros t id t' Ht. apply rtc_once. exact (nes_send _ _ _ _ Ht).
  - eapply fold_steps; [|exact H]. intros s id s' Hs. apply rtc_once. exact (nes_update_client _ _ _ Hs).
Qed.

End net_echo.

(** C31: From its start, through any number of turns with any datagrams, the
    netcode echo server has a name for exactly the clients that are connected, as
    long as no two connected clients have the same id: looking up the author of a
    payload that was received does not fail. *)
Theorem netecho_names_exact {aead : Aead} debug_string challenge_key private_key now addr socket self0 self :
  netecho_server_new challenge_key private_key now addr socket = Ret self0 ->
  rtc (fun a b => distinct_ids (ne_server a) /\ netecho_step debug_string a b) self0 self ->
  names_exact self /\
  forall data from s id payload, net_server_process_packet (ne_server self) from (received data) = Ret (s, SrPayload id payload) ->
    is_Some (ne_usernames self !! id).
Proof.
  intros H0 H. assert (names_exact self0) as Hn.
  { unfold netecho_server_new in H0. destruct (net_server_new _ _) as [s|] eqn:E; cbn [out_bind] in H0; [|done].
    destruct (sk_nonblocking socket); [done|]. injection H0 as <-. intros id. cbn. rewrite lookup_empty. split; [by intros []|].
    unfold net_server_new in E. destruct (_ <? _); [done|]. injection E as <-. intros (k & c & Hc & _). cbn in Hc.
    by apply lookup_replicate in Hc as [Hc _]. }
  clear H0. induction H as [self|a b c [Hd Hs] _ IH].
  - split; [done|]. intros data from s id payload Hp. apply Hn. apply process_packet_reports in Hp as [_ Hp]. exact Hp.
  - apply IH. by eapply step_names.
Qed.

(** A line that is longer than a payload may be stops the server: [unwrap] meets
    the error of [generate_payload_packet].  A client can cause it with a payload
    of the greatest size, which its name makes longer. *)
Theorem netecho_long_line_panics {aead : Aead} self text :
  ns_clients_id (ne_server self) <> [] -> NETCODE_MAX_PAYLOAD_BYTES < len text -> netecho_broadcast self text = Panic.
Proof.
  intros Hne Hl. unfold netecho_broadcast. destruct (ns_clients_id (ne_server self)) as [|id ids]; [done|]. cbn [fold_out].
  unfold netecho_send at 1. unfold net_server_generate_payload_packet. by rewrite (proj2 (Z.ltb_lt _ _) Hl).
Qed.

(** ** User names *)

Lemma echo_user_data_layout name : len name <= 248 ->
  echo_to_user_data name = Ret (le_bytes 8 (len name) ++ name ++ replicate (Z.to_nat (248 - len name)) (byte_of 0)).
Proof.
  intros Hl. pose proof (len_nonneg name). unfold echo_to_user_data. change NETCODE_USER_DATA_BYTES with 256.
  destruct (Z.ltb_spec (256 - 8) (len name)) as [?|_]; [lia|].
  assert (len (vec_repeat (byte_of 0) 256) = 256) as Hv by done. rewrite copy_range_ok by (rewrite ?len_le_bytes; lia). cbn [out_bind].
  change (take (Z.to_nat 0) (vec_repeat (byte_of 0) 256)) with (@nil byte). change (drop (Z.to_nat 8) (vec_repeat (byte_of 0) 256)) with (replicate 248 (byte_of 0)).
  cbn [app]. assert (len (le_bytes 8 (len name) ++ replicate 248 (byte_of 0)) = 256) as Hb by (rewrite len_app, len_le_bytes; done).
  rewrite copy_range_ok by lia. f_equal. change (Z.to_nat 8) with 8%nat.
  rewrite take_app_length' by (symmetry; apply length_le_bytes). f_equal. f_equal.
  rewrite drop_app_ge by (rewrite length_le_bytes; lia). rewrite length_le_bytes, drop_replicate. f_equal. lia.
Qed.

(** A user name of at most 248 bytes survives the trip through the user data of a
    connect token. *)
Theorem echo_username_round_trip name :
  utf8_valid name = true -> len name <= 248 ->
  exists user_data, echo_to_user_data name = Ret user_data /\ len user_data = NETCODE_USER_DATA_BYTES /\
    echo_from_user_data user_data = Ret name.
Proof.
  intros Hu Hl. pose proof (len_nonneg name). eexists. split; [by apply echo_user_data_layout|].
  assert (forall k, len (replicate k (byte_of 0)) = Z.of_nat k) as Hr by (intros; unfold len; by rewrite length_replicate).
  change NETCODE_USER_DATA_BYTES with 256. split; [rewrite !len_app, len_le_bytes, Hr; lia|].
  unfold echo_from_user_data. change NETCODE_USER_DATA_BYTES with 256. rewrite sub_slice_ok by (rewrite ?len_app, ?len_le_bytes, ?Hr; lia). cbn [out_bind].
  change (Z.to_nat 0) with 0%nat. rewrite drop_0, take_app_length' by (rewrite length_le_bytes; done).
  rewrite le_val_bytes by (change (256 ^ Z.of_nat 8) with 18446744073709551616; lia). rewrite Z.min_l by lia.
  rewrite sub_slice_ok by (rewrite ?len_app, ?len_le_bytes, ?Hr; lia). cbn [out_bind].
  change (Z.to_nat 8) with 8%nat. rewrite drop_app_length' by (symmetry; apply length_le_bytes).
  replace (Z.to_nat (len name + 8 - 8)) with (length name) by (unfold len; lia). rewrite take_app_length. unfold from_utf8. by rewrite Hu.
Qed.

(** ** A concrete relay *)

Definition echo_ann : Bytes := bytes_of_string "ann".
Definition echo_addr : SocketAddr := V4 (byte_of <$> [127; 0; 0; 1]) 5000.
Definition echo_socket : Socket := mkSocket None [] [] [].

(** Clients 7, called ann, and 8; a text of ann's has arrived, and the departure of
    the client 9, called bob, was not yet handled. *)
Definition echo_start : out EchoServer :=
  let! (server, client) := new_local_client (server_new default_config) 7 in
  let! (server, _) := new_local_client server 8 in
  let! client := send_message client ORDERED (bytes_of_string "hi") in
  let! (server, _, _) := process_local_client (oct := quic_octets) server 7 client in
  let! server_transport := ts_new [] (mkServerConfig 0 64 ECHO_PROTOCOL_ID [echo_addr] ServerUnsecure) echo_socket in
  match server_transport with
  | Ok transport =>
      Ret (mkEchoServer (mkServer (connections server) (connection_config server) [ClientDisconnected 9 Packet.Transport]) transport
             {[7 := echo_ann; 9 := bytes_of_string "bob"]} [] [])
  | Err _ => Panic
  end.

Lemma echo_relays_witness :
  exists self self', echo_start = Ret self /\ echo_handle self = Ret self' /\
    es_received_messages self' = [bytes_of_string "ann: hi"] /\
    exists lines, converse (fun k => told_of (announced (echo_name (es_transport self)) (es_usernames self) (events (es_server self))) k
                                     ++ heard_from ORDERED lines k ++ [Sends ORDERED (bytes_of_string "ann: hi")])
      (es_server self) (es_server self').
Proof.
  assert ((let! self := echo_start in let! self' := echo_handle self in Ret (es_received_messages self')) = Ret [bytes_of_string "ann: hi"]) as H
    by (vm_compute; reflexivity).
  destruct echo_start as [self|]; cbn [out_bind] in H; [|discriminate H].
  destruct (echo_handle self) as [self'|] eqn:E; cbn [out_bind] in H; [|discriminate H]. injection H as H.
  exists self, self'. split; [reflexivity|]. split; [exact E|]. split; [exact H|].
  destruct (echo_relays (oct := quic_octets) (aead := plain_aead) self self' E) as (_ & _ & lines & _ & Hc). exists lines.
  rewrite H in Hc. exact Hc.
Defined.

(** Ann connects to the netcode server: her two datagrams. *)
Definition netecho_key : Bytes := bytes_of_string "an example very very secret key.".
Definition netecho_start : out NetEcho := netecho_server_new (replicate 32 (byte_of 8)) netecho_key 0 echo_addr echo_socket.

Definition ann_addr : SocketAddr := V4 (byte_of <$> [10; 0; 0; 3]) 6000.

Definition receive_one (self : NetEcho) (data : Bytes) : out NetEcho :=
  netecho_call (fun s => s) self (fun s => net_server_process_packet s ann_addr (received data)).

Definition netecho_hello : out (Bytes * Bytes) :=
  let! self := netecho_start in
  let! client := netecho_client_new sample_random (from_millis 7) (from_millis 7) echo_addr echo_ann netecho_key echo_socket in
  let! client := netecho_client_turn 0 StdinEmpty client in
  let! request := unwrap (last (sk_sent (nec_socket client)).*2) in
  let! self := receive_one self request in
  let! challenge := unwrap (last (sk_sent (ne_socket self)).*2) in
  let! client := netecho_client_turn 0 StdinEmpty
    (mkNetEchoClient (nec_client client) (sk_set_incoming (nec_socket client) [Datagram challenge echo_addr]) []) in
  let! response := unwrap (last (sk_sent (nec_socket client)).*2) in
  Ret (request, response).

Lemma no_clients_distinct s : omap id (ns_clients s) = [] -> distinct_ids s.
Proof.
  intros H i j c c' Hc _ _. exfalso. apply list_elem_of_lookup_2 in Hc.
  assert (c ∈ omap id (ns_clients s)) as Hin by (apply list_elem_of_omap; by exists (Some c)). rewrite H in Hin. by apply elem_of_nil in Hin.
Qed.

Lemma ann_run :
  (let! self := netecho_start in let! (request, response) := netecho_hello in let! a := receive_one self request in let! b := receive_one a response in
    Ret (bool_decide (omap id (ns_clients (ne_server self)) = []), bool_decide (omap id (ns_clients (ne_server a)) = []), ne_usernames b)) =
  Ret (true, true, {[7 := echo_ann]}).
Proof. vm_compute. reflexivity. Qed.

Lemma ann_joins :
  exists self0 self, netecho_server_new (replicate 32 (byte_of 8)) netecho_key 0 echo_addr echo_socket = Ret self0 /\
    rtc (fun a b => distinct_ids (ne_server a) /\ netecho_step (aead := plain_aead) (fun s => s) a b) self0 self /\
    ne_usernames self = {[7 := echo_ann]}.
Proof.
  pose proof ann_run as H. revert H. generalize netecho_hello. intros hello H. destruct netecho_start as [self|] eqn:E0; cbn [out_bind] in H; [|discriminate H].
  destruct hello as [[request response]|]; cbn [out_bind] in H; [|discriminate H].
  destruct (receive_one self request) as [a|] eqn:E1; cbn [out_bind] in H; [|discriminate H].
  destruct (receive_one a response) as [b|] eqn:E2; cbn [out_bind] in H; [|discriminate H]. injection H as H1 H2 H3.
  apply bool_decide_eq_true in H1. apply bool_decide_eq_true in H2. exists self, b. split; [exact E0|]. split; [|exact H3].
  eapply rtc_l; [split; [by apply no_clients_distinct|exact (nes_datagram (fun s => s) _ _ _ _ E1)]|].
  apply rtc_once. split; [by apply no_clients_distinct|exact (nes_datagram (fun s => s) _ _ _ _ E2)].
Qed.

Lemma netecho_names_exact_witness :
  exists self0 self, netecho_server_new (replicate 32 (byte_of 8)) netecho_key 0 echo_addr echo_socket = Ret self0 /\
    ne_usernames self = {[7 := echo_ann]} /\ names_exact self.
Proof.
  destruct ann_joins as (self0 & self & E0 & Hr & H3). exists self0, self. split; [exact E0|]. split; [exact H3|].
  exact (proj1 (netecho_names_exact (aead := plain_aead) (fun s => s) _ _ _ _ _ self0 self E0 Hr)).
Defined.
