(* ===== verification/Ecs.v ===== *)
(** * Entities, commands and serialization

    What the two games on Bevy use of their libraries.  An entity is an
    identifier with components; systems read the entities as they were when the
    system started, and queue commands that are applied after it.  Bevy's choice
    of a new identifier, what it does with a command, the arithmetic of vectors
    (glam), timers and bincode are parameters. *)

From Stdlib Require Import Floats.SpecFloat.
From S2P Require Import Prelude Octets Packet Stats Connection Server Apps Visualizer.

(** ** Entities *)

Abbreviation Entity := Z.

(** Bevy's choice of an identifier, from those given out before. *)
Class Allocator := { reserve : gset Entity -> Entity }.

(** Identifiers are not given out twice. *)
Class AllocatorLaws (alloc : Allocator) : Prop := reserve_fresh : forall given, reserve given ∉ given.

(** An allocator to compute with: one more than the greatest. *)
Definition next_allocator : Allocator := {| reserve given := set_fold (fun k r => Z.max (1 + k) r) 1 given |}.

#[global] Instance next_allocator_laws : AllocatorLaws next_allocator.
Proof.
  intros given. cbn. cut (forall e, e ∈ given -> e < set_fold (fun k r => Z.max (1 + k) r) 1 given); [intros H Hin%H; lia|].
  apply (set_fold_ind_L (fun r given => forall e, e ∈ given -> e < r)); [set_solver|]. intros x X r _ IH e [->%elem_of_singleton|He%IH]%elem_of_union; lia.
Qed.

(** ** Commands *)

(** [commands.spawn(..).insert(..)..], with all components; [commands.entity(e).insert(..)]; [.despawn()]. *)
Inductive command (C : Type) :=
  | Spawn (entity : Entity) (components : C)
  | Insert (entity : Entity) (edit : C -> C)
  | Despawn (entity : Entity).
Arguments Spawn {C}.
Arguments Insert {C}.
Arguments Despawn {C}.

(** What Bevy makes of a command, on the entities with their components. *)
Class BevyWorld := { apply_command : forall {C : Type}, gmap Entity C -> command C -> out (gmap Entity C) }.

(** As Bevy documents it: a reserved entity is spawned with its components,
    inserting changes an entity that is there, despawning removes it, and
    despawning one that is gone only gives a warning.  Nothing is known of an
    insertion into an entity that is gone: it is an error, and what becomes of an
    error is a setting of the application. *)
Class BevyWorldLaws (world : BevyWorld) : Prop := {
  apply_spawn : forall C (entities : gmap Entity C) e components,
    entities !! e = None -> apply_command entities (Spawn e components) = Ret (<[e := components]> entities);
  apply_insert : forall C (entities : gmap Entity C) e edit components,
    entities !! e = Some components -> apply_command entities (Insert e edit) = Ret (<[e := edit components]> entities);
  apply_despawn : forall C (entities : gmap Entity C) e,
    is_Some (entities !! e) -> apply_command entities (Despawn e) = Ret (delete e entities);
  apply_despawn_gone : forall C (entities : gmap Entity C) e,
    entities !! e = None -> apply_command entities (Despawn e) = Ret entities;
}.

(** A world to compute with, which panics on errors, as Bevy does by default. *)
Definition panicking_world : BevyWorld := {|
  apply_command C entities c :=
    match c with
    | Spawn entity components => Ret (<[entity := components]> entities)
    | Insert entity edit =>
        match entities !! entity with
        | Some components => Ret (<[entity := edit components]> entities)
        | None => Panic
        end
    | Despawn entity => Ret (delete entity entities)
    end
|}.

#[global] Instance panicking_world_laws : BevyWorldLaws panicking_world.
Proof. split; intros; cbn; [done|by case_match; simplify_eq|done|by rewrite delete_id]. Qed.

Section commands.
Context {C : Type} {world : BevyWorld}.

Definition apply_commands (entities : gmap Entity C) (queue : list (command C)) : out (gmap Entity C) := fold_out apply_command entities queue.

(** A queue, with the identifiers given out so far. *)
Record Commands := mkCommands { cq_given : gset Entity; cq_queue : list (command C) }.

Definition push_command (self : Commands) (c : command C) : Commands := mkCommands (cq_given self) (cq_queue self ++ [c]).

(** [commands.spawn(components).id()]. *)
Definition spawn {alloc : Allocator} (self : Commands) (components : C) : Commands * Entity :=
  let entity := reserve (cq_given self) in
  (mkCommands ({[entity]} ∪ cq_given self) (cq_queue self ++ [Spawn entity components]), entity).

Lemma apply_commands_app entities q q' :
  apply_commands entities (q ++ q') = (let! entities := apply_commands entities q in apply_commands entities q').
Proof using. unfold apply_commands. apply fold_out_app. Qed.

Lemma apply_push entities (commands : Commands) c m :
  apply_commands entities (cq_queue commands) = Ret m ->
  apply_commands entities (cq_queue (push_command commands c)) = apply_command m c.
Proof using.
  intros H. cbn [push_command cq_queue]. rewrite apply_commands_app, H. unfold apply_commands. cbn. by destruct (apply_command m c).
Qed.

(** Once the queue is applied, one more command. *)
Context {laws : BevyWorldLaws world}.

Lemma push_spawn entities commands e c m :
  apply_commands entities (cq_queue commands) = Ret m -> m !! e = None ->
  apply_commands entities (cq_queue commands ++ [Spawn e c]) = Ret (<[e := c]> m).
Proof using laws. intros Hm He. rewrite apply_commands_app, Hm. unfold apply_commands. cbn [fold_out out_bind]. by rewrite apply_spawn. Qed.

Lemma push_insert entities commands e edit c m :
  apply_commands entities (cq_queue commands) = Ret m -> m !! e = Some c ->
  apply_commands entities (cq_queue (push_command commands (Insert e edit))) = Ret (<[e := edit c]> m).
Proof using laws. intros Hm He. rewrite (apply_push _ _ _ _ Hm). by apply apply_insert. Qed.

Lemma despawn_any (m : gmap Entity C) e : apply_command m (Despawn e) = Ret (delete e m).
Proof using laws. destruct (m !! e) eqn:E; [by apply apply_despawn; eexists|]. rewrite delete_id by done. by apply apply_despawn_gone. Qed.

Lemma push_despawn entities commands e m :
  apply_commands entities (cq_queue commands) = Ret m ->
  apply_commands entities (cq_queue (push_command commands (Despawn e))) = Ret (delete e m).
Proof using laws. intros Hm. rewrite (apply_push _ _ _ _ Hm). apply despawn_any. Qed.

End commands.
Arguments Commands : clear implicits.

(** ** Serialization *)

(** [bincode::serialize] and [bincode::deserialize] at a type. *)
Class Codec (A : Type) := {
  serialize : A -> option Bytes;
  deserialize : Bytes -> option A;
}.

Class CodecLaws (A : Type) {codec : Codec A} : Prop := decode_encoded : forall (a : A) b, serialize a = Some b -> deserialize b = Some a.

(** A codec to compute with, for any type whose values are countable. *)
Definition bit_codec (A : Type) `{Countable A} : Codec A := {|
  serialize a := Some (bits_of (countable.encode a));
  deserialize b := decode (of_bits b);
|}.

Lemma bit_codec_laws (A : Type) `{Countable A} : CodecLaws A (codec := bit_codec A).
Proof. intros a b [= <-]. cbn. by rewrite of_bits_of, decode_encode. Qed.

(** ** Messages over a channel *)

Section says.
Context {Msg : Type} {codec : Codec Msg} {laws : CodecLaws Msg} (ch : Z).

(** What is sent on the channel reads as these messages. *)
Definition says (l : list act) (ms : list Msg) : Prop := Forall2 (fun b m => deserialize b = Some m) (sent ch l) ms.

Lemma says_app l l' ms ms' : says l ms -> says l' ms' -> says (l ++ l') (ms ++ ms').
Proof using. unfold says. rewrite sent_app. apply Forall2_app. Qed.

Lemma broadcast_says s m s' :
  (let! b := unwrap (serialize m) in broadcast_message s ch b) = Ret s' ->
  exists l, converse (fun _ => l) s s' /\ says l [m] /\ forall ch', taken ch' l = [].
Proof using laws.
  destruct (serialize m) as [b|] eqn:Eb; cbn [unwrap out_bind]; [|done]. intros [Hc _]%broadcast_converse.
  exists [Sends ch b]. split; [done|]. split; [|done]. unfold says. rewrite sent_cons, Z.eqb_refl. constructor; [by apply decode_encoded|constructor].
Qed.

Lemma sends_says ms : forall id s s',
  fold_out (fun s m => let! b := unwrap (serialize m) in server_send_message s id ch b) s ms = Ret s' ->
  exists l, converse (fun k => if id =? k then l else []) s s' /\ says l ms.
Proof using laws.
  induction ms as [|m ms IH]; intros id s s' H; cbn [fold_out] in H.
  - injection H as <-. exists []. split; [|constructor]. apply (converse_ext (fun _ => [])); [intros k; by destruct (id =? k)|by apply converse_same].
  - destruct (serialize m) as [b|] eqn:Eb; cbn [unwrap out_bind] in H; [|done].
    destruct (server_send_message _ _ _ _) as [s1|] eqn:Es; cbn [out_bind] in H; [|done].
    apply send_converse in Es as [Hc _]. apply IH in H as (l & Hc' & Hl). exists (Sends ch b :: l). split.
    + apply (converse_ext (fun k => (if id =? k then [Sends ch b] else []) ++ (if id =? k then l else [])));
        [intros k; by destruct (id =? k)|exact (converse_trans _ _ _ _ _ Hc Hc')].
    + unfold says. rewrite sent_cons, Z.eqb_refl. constructor; [|done]. by apply decode_encoded.
Qed.

End says.

(** ** Vectors *)

Record Vec3 := mkVec3 { v_x : f32; v_y : f32; v_z : f32 }.
Record Vec2 := mkVec2 { v2_x : f32; v2_y : f32 }.

#[global] Instance f32_eq_dec : EqDecision f32.
Proof. solve_decision. Defined.

#[global] Instance f32_countable : Countable f32.
Proof.
  apply (inj_countable'
    (fun x => match x with S754_zero s => inl (inl s) | S754_infinity s => inl (inr s) | S754_nan => inr None
                         | S754_finite s m e => inr (Some (s, m, e)) end)
    (fun x => match x with inl (inl s) => S754_zero s | inl (inr s) => S754_infinity s | inr None => S754_nan
                         | inr (Some (s, m, e)) => S754_finite s m e end)).
  by intros [].
Defined.

#[global] Instance Vec3_eq_dec : EqDecision Vec3.
Proof. solve_decision. Defined.

#[global] Instance Vec3_countable : Countable Vec3.
Proof. apply (inj_countable' (fun v => (v_x v, v_y v, v_z v)) (fun '(x, y, z) => mkVec3 x y z)). by intros []. Defined.

(** A decimal constant [n / d] of the source. *)
Definition f32_const (n d : Z) : f32 := f32_ratio n d.

(** [b as i8]. *)
Definition i8_of (b : bool) : Z := if b then 1 else 0.

(** [Duration::as_secs_f32]. *)
Definition as_secs_f32 (d : Z) : f32 := f32_add (f32_of (d / NANOS_PER_SEC)) (f32_ratio (d mod NANOS_PER_SEC) NANOS_PER_SEC).

(** ** Input *)

Inductive KeyCode := KeyA | KeyD | KeyW | KeyS | ArrowLeft | ArrowRight | ArrowUp | ArrowDown | Space | F1.

Record PlayerInput := mkInput { in_up : bool; in_down : bool; in_left : bool; in_right : bool }.

Definition input_default : PlayerInput := mkInput false false false false.

#[global] Instance PlayerInput_eq_dec : EqDecision PlayerInput.
Proof. solve_decision. Defined.

#[global] Instance PlayerInput_countable : Countable PlayerInput.
Proof.
  apply (inj_countable' (fun i => (in_up i, in_down i, in_left i, in_right i)) (fun '(u, d, l, r) => mkInput u d l r)). by intros [].
Defined.
