(* ===== verification/SimpleGame.v ===== *)
(** * The example of bevy_renet (bevy_renet/examples/simple.rs)

    A server that keeps a cube for every player and tells the clients who is
    there, over the ordered channel, and where, over the unreliable one. *)

From S2P Require Import Prelude Octets Packet Stats Connection Server Apps.
From S2P Require Import Netcode ReplayProtection Token NetPacket NetClient NetServer Transport Visualizer Ecs.

Definition SIMPLE_PROTOCOL_ID : Z := 7.

Definition SIMPLE_MOVE_SPEED : f32 := f32_of 1.

(** [ServerMessages]. *)
Inductive SimpleMessage :=
  | PlayerConnected (id : Z)
  | PlayerDisconnected (id : Z).

(** The components of an entity that the systems use; of a [Transform] the translation. *)
Record SimpleComponents := mkSimple {
  sp_translation : option Vec3;
  sp_input : option PlayerInput;
  sp_player : option Z;
}.

(** What inserting a component does. *)
Definition sp_set_translation (x : Vec3) (c : SimpleComponents) : SimpleComponents := mkSimple (Some x) (sp_input c) (sp_player c).
Definition sp_set_input (x : PlayerInput) (c : SimpleComponents) : SimpleComponents := mkSimple (sp_translation c) (Some x) (sp_player c).

(** [Transform::from_xyz(0.0, 0.5, 0.0)]. *)
Definition cube_position : Vec3 := mkVec3 (f32_of 0) (f32_const 1 2) (f32_of 0).

(** ** Start *)

Section start.
Context {oct : Octets} {aead : Aead}.

Definition new_renet_client (rnd : TokenRandom) (current_time : Z) (socket : Socket) (server_addr : SocketAddr)
    : out (RenetClient * NetcodeClientTransport) :=
  let client_id := as_millis current_time mod 2 ^ 64 in
  let! r := tc_new rnd current_time (ClientUnsecure SIMPLE_PROTOCOL_ID client_id server_addr None) socket in
  match r with
  | Ok transport =>
      let! client := client_new default_config in
      Ret (client, transport)
  | Err _ => Panic
  end.

Definition new_renet_server (challenge_key : Bytes) (current_time : Z) (socket : Socket) (public_addr : SocketAddr)
    : out (RenetServer * NetcodeServerTransport) :=
  let server_config := mkServerConfig current_time 64 SIMPLE_PROTOCOL_ID [public_addr] ServerUnsecure in
  let! r := ts_new challenge_key server_config socket in
  match r with
  | Ok transport => Ret (server_new default_config, transport)
  | Err _ => Panic
  end.

(** If any error is found, panic. *)
Definition panic_on_error_system (errors : list NetcodeTransportError) : out unit :=
  match errors with [] => Ret tt | _ :: _ => Panic end.

End start.

(** ** The server *)

Record SimpleServer := mkSimpleServer {
  sv_server : RenetServer;
  sv_lobby : gmap Z Entity;
  sv_commands : Commands SimpleComponents;
}.

Definition sv_set_server (self : SimpleServer) (x : RenetServer) : SimpleServer :=
  mkSimpleServer x (sv_lobby self) (sv_commands self).
Definition sv_set_commands (self : SimpleServer) (x : Commands SimpleComponents) : SimpleServer :=
  mkSimpleServer (sv_server self) (sv_lobby self) x.

Section server.
Context {alloc : Allocator} {message_codec : Codec SimpleMessage} {input_codec : Codec PlayerInput} {players_codec : Codec (gmap Z Vec3)}.

(** [server.broadcast_message(ReliableOrdered, serialize(&m).unwrap())]. *)
Definition simple_broadcast (server : RenetServer) (m : SimpleMessage) : out RenetServer :=
  let! message := unwrap (serialize m) in
  broadcast_message server ORDERED message.

(** [server.send_message(client_id, ReliableOrdered, serialize(&m).unwrap())]. *)
Definition simple_send (client_id : Z) (server : RenetServer) (m : SimpleMessage) : out RenetServer :=
  let! message := unwrap (serialize m) in
  server_send_message server client_id ORDERED message.

Definition simple_event (self : SimpleServer) (event : ServerEvent) : out SimpleServer :=
  match event with
  | ClientConnected client_id =>
      let (commands, player_entity) :=
        spawn (sv_commands self) (mkSimple (Some cube_position) (Some input_default) (Some client_id)) in
      let! server := fold_out (simple_send client_id) (sv_server self) (PlayerConnected <$> (map_to_list (sv_lobby self)).*1) in
      let lobby := <[client_id := player_entity]> (sv_lobby self) in
      let! server := simple_broadcast server (PlayerConnected client_id) in
      Ret (mkSimpleServer server lobby commands)
  | ClientDisconnected client_id _ =>
      let self :=
        match sv_lobby self !! client_id with
        | Some player_entity =>
            mkSimpleServer (sv_server self) (delete client_id (sv_lobby self)) (push_command (sv_commands self) (Despawn player_entity))
        | None => self
        end in
      let! server := simple_broadcast (sv_server self) (PlayerDisconnected client_id) in
      Ret (sv_set_server self server)
  end.

Definition simple_input (client_id : Z) (message : Bytes) (self : SimpleServer) : out SimpleServer :=
  let! player_input := unwrap (deserialize message) in
  match sv_lobby self !! client_id with
  | Some player_entity => Ret (sv_set_commands self (push_command (sv_commands self) (Insert player_entity (sp_set_input player_input))))
  | None => Ret self
  end.

(** The body of [for client_id in server.clients_id()]. *)
Definition simple_receive (self : SimpleServer) (client_id : Z) : out SimpleServer :=
  while_let (next_message sv_server sv_set_server client_id ORDERED) (simple_input client_id)
    (S (server_backlog (sv_server self) client_id ORDERED)) self.

(** [server_update_system], on the events of the frame. *)
Definition simple_update_system (events : list ServerEvent) (self : SimpleServer) : out SimpleServer :=
  let! self := fold_out simple_event self events in
  fold_out simple_receive self (clients_id (sv_server self)).

(** [server_sync_players]; [query] are the entities. *)
Definition simple_sync_system (entities : gmap Entity SimpleComponents) (server : RenetServer) : out RenetServer :=
  let players : gmap Z Vec3 :=
    foldl (fun players kv =>
      match sp_translation kv.2, sp_player kv.2 with
      | Some translation, Some id => <[id := translation]> players
      | _, _ => players
      end) ∅ (map_to_list entities) in
  let! sync_message := unwrap (serialize players) in
  broadcast_message server UNRELIABLE sync_message.

(** [move_players_system]. *)
Definition simple_move (delta : Z) (c : SimpleComponents) : SimpleComponents :=
  match sp_translation c, sp_input c with
  | Some translation, Some input =>
      let x := f32_of (i8_of (in_right input) - i8_of (in_left input)) in
      let y := f32_of (i8_of (in_down input) - i8_of (in_up input)) in
      sp_set_translation
        (mkVec3 (f32_add (v_x translation) (f32_mul (f32_mul x SIMPLE_MOVE_SPEED) (as_secs_f32 delta)))
                (v_y translation)
                (f32_add (v_z translation) (f32_mul (f32_mul y SIMPLE_MOVE_SPEED) (as_secs_f32 delta)))) c
  | _, _ => c
  end.

Definition simple_move_system (delta : Z) (entities : gmap Entity SimpleComponents) : gmap Entity SimpleComponents :=
  simple_move delta <$> entities.

(** ** The client *)

Record SimpleClient := mkSimpleClient {
  sl_client : RenetClient;
  sl_lobby : gmap Z Entity;
  sl_commands : Commands SimpleComponents;
}.

Definition sl_set_client (self : SimpleClient) (x : RenetClient) : SimpleClient :=
  mkSimpleClient x (sl_lobby self) (sl_commands self).

(** [player_input]: the keys that are pressed. *)
Definition player_input_system (pressed : KeyCode -> bool) : PlayerInput :=
  mkInput (pressed KeyW || pressed ArrowUp) (pressed KeyS || pressed ArrowDown)
          (pressed KeyA || pressed ArrowLeft) (pressed KeyD || pressed ArrowRight).

(** [client_send_input]. *)
Definition simple_send_input (player_input : PlayerInput) (client : RenetClient) : out RenetClient :=
  let! input_message := unwrap (serialize player_input) in
  send_message client ORDERED input_message.

Definition simple_next (ch : Z) (self : SimpleClient) : out (SimpleClient * option Bytes) :=
  let! (client, message) := receive_message (sl_client self) ch in
  Ret (sl_set_client self client, message).

(** What a message of the server does. *)
Definition simple_apply (m : SimpleMessage) (self : SimpleClient) : SimpleClient :=
  match m with
  | PlayerConnected id =>
      let (commands, player_entity) := spawn (sl_commands self) (mkSimple (Some cube_position) None None) in
      mkSimpleClient (sl_client self) (<[id := player_entity]> (sl_lobby self)) commands
  | PlayerDisconnected id =>
      match sl_lobby self !! id with
      | Some player_entity =>
          mkSimpleClient (sl_client self) (delete id (sl_lobby self)) (push_command (sl_commands self) (Despawn player_entity))
      | None => self
      end
  end.

Definition simple_message (message : Bytes) (self : SimpleClient) : out SimpleClient :=
  let! m := unwrap (deserialize message) in
  Ret (simple_apply m self).

Definition simple_positions (message : Bytes) (self : SimpleClient) : out SimpleClient :=
  let! players := unwrap (deserialize (A := gmap Z Vec3) message) in
  Ret (foldl (fun self kv =>
    match sl_lobby self !! kv.1 with
    | Some player_entity =>
        mkSimpleClient (sl_client self) (sl_lobby self) (push_command (sl_commands self) (Insert player_entity (sp_set_translation kv.2)))
    | None => self
    end) self (map_to_list players)).

(** [client_sync_players]. *)
Definition simple_sync_players (self : SimpleClient) : out SimpleClient :=
  let! self := while_let (simple_next ORDERED) simple_message (S (backlog (sl_client self) ORDERED)) self in
  while_let (simple_next UNRELIABLE) simple_positions (S (backlog (sl_client self) UNRELIABLE)) self.

End server.
