(* ===== verification/SimpleGameProps.v ===== *)
(** * The example of bevy_renet: theorems

    Who the server tells its clients is there is who is there; neither side
    inserts a component into an entity that is gone; and what happens when two
    players join in the same frame. *)

From S2P Require Import Prelude Octets Packet Stats Connection Server Apps.
From S2P Require Import Netcode ReplayProtection Token NetPacket NetClient NetServer Transport Visualizer Ecs SimpleGame.

(** ** Lobbies and their entities *)

Section lobby.
Context {C : Type} {alloc : Allocator} {laws : AllocatorLaws alloc} {world : BevyWorld} {world_laws : BevyWorldLaws world}.
Implicit Types (entities m : gmap Entity C) (lobby : gmap Z Entity) (commands : Commands C).

(** The queue can be applied, and then every player of the lobby has an entity of
    its own. *)
Definition lobby_ok entities lobby commands : Prop :=
  exists m, apply_commands entities (cq_queue commands) = Ret m /\
    (forall e, is_Some (m !! e) -> e ∈ cq_given commands) /\
    (forall id e, lobby !! id = Some e -> is_Some (m !! e)) /\
    (forall id id' e, lobby !! id = Some e -> lobby !! id' = Some e -> id = id').

Lemma lobby_spawn entities lobby commands c id commands' e :
  spawn commands c = (commands', e) -> lobby_ok entities lobby commands -> lobby_ok entities (<[id := e]> lobby) commands'.
Proof using laws world_laws.
  intros [= <- <-] (m & Hm & Hg & Hl & Hi). set (e := reserve _).
  assert (forall k, lobby !! k <> Some e) as Hnew by (intros k Hk; by apply Hl, Hg, reserve_fresh in Hk).
  exists (<[e := c]> m). split_and!.
  - cbn [cq_queue]. apply push_spawn; [done|]. apply eq_None_not_Some. intros Hs%Hg. by apply reserve_fresh in Hs.
  - cbn [cq_given]. intros k [<-|[_ Hk]]%lookup_insert_is_Some; [set_solver|]. apply elem_of_union_r. by apply Hg.
  - intros k x [[_ <-]|[_ Hk]]%lookup_insert_Some; [rewrite lookup_insert_eq; by eexists|].
    apply lookup_insert_is_Some. right. split; [intros <-; by apply Hnew in Hk|by eapply Hl].
  - intros k k' x [[<- <-]|[Hne Hk]]%lookup_insert_Some [[<- E]|[Hne' Hk']]%lookup_insert_Some; try done.
    + by apply Hnew in Hk'.
    + subst x. by apply Hnew in Hk.
    + by eapply Hi.
Qed.

Lemma lobby_despawn entities lobby commands id e :
  lobby !! id = Some e -> lobby_ok entities lobby commands -> lobby_ok entities (delete id lobby) (push_command commands (Despawn e)).
Proof using world_laws.
  intros He (m & Hm & Hg & Hl & Hi). exists (delete e m). split_and!.
  - by apply push_despawn.
  - intros k [_ Hk]%lookup_delete_is_Some. by apply Hg.
  - intros k x [Hne Hk]%lookup_delete_Some. apply lookup_delete_is_Some. split; [|by eapply Hl]. intros <-. by apply Hne, (Hi _ _ e).
  - intros k k' x [_ Hk]%lookup_delete_Some [_ Hk']%lookup_delete_Some. by eapply Hi.
Qed.

Lemma lobby_insert entities lobby commands id e edit :
  lobby !! id = Some e -> lobby_ok entities lobby commands -> lobby_ok entities lobby (push_command commands (Insert e edit)).
Proof using world_laws.
  intros He (m & Hm & Hg & Hl & Hi). destruct (Hl _ _ He) as [c Hc]. exists (<[e := edit c]> m). split_and!.
  - by apply push_insert.
  - intros k [<-|[_ Hk]]%lookup_insert_is_Some; [apply Hg; by eexists|by apply Hg].
  - intros k x Hk. apply lookup_insert_is_Some. destruct (decide (e = x)); [by left|]. right. split; [done|by eapply Hl].
  - done.
Qed.

End lobby.

(** ** What the clients are told *)

(** The players that a client knows after a message. *)
Definition see (players : gset Z) (m : SimpleMessage) : gset Z :=
  match m with
  | PlayerConnected id => {[id]} ∪ players
  | PlayerDisconnected id => players ∖ {[id]}
  end.

Lemma see_all players ids : foldl see players (PlayerConnected <$> ids) = list_to_set ids ∪ players.
Proof. revert players. induction ids as [|id ids IH]; intros players; cbn; [set_solver|]. rewrite IH. set_solver. Qed.

Lemma keys_dom {A} (m : gmap Z A) : list_to_set (map_to_list m).*1 = dom m.
Proof.
  apply set_eq. intros k. rewrite elem_of_list_to_set, list_elem_of_fmap, elem_of_dom. split.
  - intros ([i x] & -> & H%elem_of_map_to_list). by eexists.
  - intros [x H]. exists (k, x). by rewrite elem_of_map_to_list.
Qed.

Section game.
Context {alloc : Allocator} {alloc_laws : AllocatorLaws alloc} {world : BevyWorld} {world_laws : BevyWorldLaws world}.
Context {message_codec : Codec SimpleMessage} {message_laws : CodecLaws SimpleMessage}.
Context {input_codec : Codec PlayerInput} {players_codec : Codec (gmap Z Vec3)}.

(** From one state to the next every client is told of the changes of the lobby,
    and those that joined of all of it. *)
Definition tells (joined : Z -> Prop) (self self' : SimpleServer) : Prop :=
  exists plan, converse plan (sv_server self) (sv_server self') /\ forall id, exists ms, says ORDERED (plan id) ms /\
    foldl see (dom (sv_lobby self)) ms = dom (sv_lobby self') /\
    (forall K, K ⊆ dom (sv_lobby self) -> foldl see K ms ⊆ dom (sv_lobby self')) /\
    (joined id -> forall K, K ⊆ dom (sv_lobby self) -> foldl see K ms = dom (sv_lobby self')).

Lemma tells_same self self' plan :
  sv_lobby self' = sv_lobby self -> converse plan (sv_server self) (sv_server self') -> (forall id, sent ORDERED (plan id) = []) ->
  tells (fun _ => False) self self'.
Proof using.
  intros El Hc Hs. exists plan. split; [done|]. intros id. exists []. unfold says. rewrite Hs, El. cbn.
  split; [constructor|]. split; [done|]. split; [done|]. intros [].
Qed.

Lemma tells_trans j1 j2 s1 s2 s3 : tells j1 s1 s2 -> tells j2 s2 s3 -> tells (fun id => j1 id \/ j2 id) s1 s3.
Proof using.
  intros (p1 & Hc1 & H1) (p2 & Hc2 & H2). exists (fun id => p1 id ++ p2 id). split; [by eapply converse_trans|]. intros id.
  destruct (H1 id) as (ms1 & Hs1 & He1 & Hm1 & Hj1), (H2 id) as (ms2 & Hs2 & He2 & Hm2 & Hj2). exists (ms1 ++ ms2).
  unfold says. rewrite sent_app. setoid_rewrite foldl_app. split; [by apply Forall2_app|]. split; [by rewrite He1|]. split.
  - intros K HK. by apply Hm2, Hm1.
  - intros [Hj|Hj] K HK; [by rewrite (Hj1 Hj K HK)|]. apply (Hj2 Hj). by apply Hm1.
Qed.

Lemma tells_weaken (j j' : Z -> Prop) s s' : (forall id, j' id -> j id) -> tells j s s' -> tells j' s s'.
Proof using. intros Hj (p & Hc & H). exists p. split; [done|]. intros id. destruct (H id) as (ms & ? & ? & ? & ?). exists ms. eauto 10. Qed.

Lemma event_tells self e self' : simple_event self e = Ret self' -> tells (fun id => e = ClientConnected id) self self'.
Proof using alloc_laws message_laws.
  clear world_laws world.
  destruct e as [cid|cid reason]; cbn [simple_event]; intros H.
  - destruct (spawn _ _) as [commands e]. destruct (fold_out _ _ _) as [s1|] eqn:E1; cbn [out_bind] in H; [|done].
    destruct (simple_broadcast _ _) as [s2|] eqn:E2; cbn [out_bind] in H; [|done]. injection H as <-.
    apply sends_says in E1 as (l1 & Hc1 & Hl1). apply broadcast_says in E2 as (l2 & Hc2 & Hl2 & _).
    eexists. split; [eapply converse_trans; [exact Hc1|exact Hc2]|]. intros id. cbn [sv_lobby]. rewrite dom_insert_L. destruct (Z.eqb_spec cid id) as [<-|Hne].
    + exists (PlayerConnected <$> (map_to_list (sv_lobby self)).*1 ++ [cid]).
      assert (forall K, K ⊆ dom (sv_lobby self) -> foldl see K (PlayerConnected <$> (map_to_list (sv_lobby self)).*1 ++ [cid]) = {[cid]} ∪ dom (sv_lobby self)) as HK.
      { intros K HK. rewrite see_all, list_to_set_app_L, keys_dom. cbn. set_solver. }
      split; [unfold says; rewrite sent_app, fmap_app; by apply Forall2_app|]. split; [by apply HK|]. split; [intros K ?; by rewrite HK|]. intros _. apply HK.
    + exists [PlayerConnected cid]. cbn. split; [done|]. split; [done|]. split; [set_solver|]. intros [= ?]. congruence.
  - set (self1 := match sv_lobby self !! cid with Some _ => _ | None => _ end) in *.
    destruct (simple_broadcast _ _) as [s2|] eqn:E2; cbn [out_bind] in H; [|done]. injection H as <-.
    assert (dom (sv_lobby self1) = dom (sv_lobby self) ∖ {[cid]} /\ sv_server self1 = sv_server self) as [El Es].
    { unfold self1. destruct (sv_lobby self !! cid) eqn:El; [by rewrite <- dom_delete_L|]. split; [|done]. apply not_elem_of_dom in El. set_solver. }
    rewrite Es in E2. apply broadcast_says in E2 as (l2 & Hc2 & Hl2 & _). exists (fun _ => l2). split; [done|]. intros id.
    exists [PlayerDisconnected cid]. cbn. rewrite El. split; [done|]. split; [done|]. split; [set_solver|]. done.
Qed.

Lemma events_tell es : forall self self',
  fold_out simple_event self es = Ret self' -> tells (fun id => ClientConnected id ∈ es) self self'.
Proof using alloc_laws message_laws.
  induction es as [|e es IH]; intros self self' H; cbn [fold_out] in H.
  - injection H as <-. eapply tells_weaken; [|by apply (tells_same _ _ (fun _ => [])); [|apply converse_same|]]. by intros id ?%elem_of_nil.
  - destruct (simple_event self e) as [self1|] eqn:E; cbn [out_bind] in H; [|done]. apply event_tells in E. apply IH in H.
    eapply tells_weaken; [|eapply tells_trans; [exact E|exact H]]. intros id [<-|Hin]%elem_of_cons; auto.
Qed.

(** Receiving input does not tell anybody anything. *)
Definition quiet (self self' : SimpleServer) : Prop := tells (fun _ => False) self self'.

#[local] Instance quiet_preorder : PreOrder quiet.
Proof using.
  split; [intros s; by apply (tells_same _ _ (fun _ => [])); [|apply converse_same|]|].
  intros s1 s2 s3 H1 H2. eapply tells_weaken; [|eapply tells_trans; [exact H1|exact H2]]. intros id []. 
Qed.

Lemma input_server id m self self' : simple_input id m self = Ret self' -> sv_server self' = sv_server self /\ sv_lobby self' = sv_lobby self.
Proof using.
  unfold simple_input. destruct (deserialize m); cbn [unwrap out_bind]; [|done]. by destruct (sv_lobby self !! id); intros [= <-].
Qed.

Lemma receive_quiet self id self' :
  simple_receive self id = Ret self' -> quiet self self' /\ server_drained (sv_server self') id ORDERED.
Proof using.
  apply (receive_while sv_server sv_set_server (fun _ _ => eq_refl) id ORDERED (simple_input id) quiet).
  - intros s server [Hc _]%take_converse. by eapply tells_same.
  - intros s server m s' [Hc _]%take_converse [Es El]%input_server. cbn in Es, El. split.
    + eapply tells_same; [done|rewrite Es; exact Hc|]. intros k. cbn. by destruct (id =? k).
    + rewrite Es. exists (fun _ => []). split; [by apply converse_same|done].
Qed.

Lemma receive_all_quiet ids : forall self self', fold_out simple_receive self ids = Ret self' -> quiet self self'.
Proof using.
  induction ids as [|id ids IH]; intros self self' H; cbn [fold_out] in H; [by injection H as <-|].
  destruct (simple_receive self id) as [self1|] eqn:E; cbn [out_bind] in H; [|done]. apply receive_quiet in E as [E _].
  transitivity self1; [done|by eapply IH].
Qed.

(** ** Entities that are there *)

Definition server_keeps (entities : gmap Entity SimpleComponents) (self self' : SimpleServer) : Prop :=
  lobby_ok entities (sv_lobby self) (sv_commands self) -> lobby_ok entities (sv_lobby self') (sv_commands self').

#[global] Instance server_keeps_preorder entities : PreOrder (server_keeps entities).
Proof using. split; [intros s H; exact H|intros s1 s2 s3 H1 H2 H; auto]. Qed.

Lemma event_keeps entities self e self' : simple_event self e = Ret self' -> server_keeps entities self self'.
Proof using alloc_laws world_laws.
  destruct e as [cid|cid reason]; cbn [simple_event]; intros H Hok.
  - destruct (spawn _ _) as [commands e] eqn:Es. destruct (fold_out _ _ _); cbn [out_bind] in H; [|done].
    destruct (simple_broadcast _ _); cbn [out_bind] in H; [|done]. injection H as <-. by eapply lobby_spawn.
  - destruct (simple_broadcast _ _); cbn [out_bind] in H; [|done]. injection H as <-.
    destruct (sv_lobby self !! cid) eqn:E; [by apply lobby_despawn|done].
Qed.

Lemma input_keeps entities id m self self' : simple_input id m self = Ret self' -> server_keeps entities self self'.
Proof using world_laws.
  unfold simple_input. destruct (deserialize m); cbn [unwrap out_bind]; [|done]. intros H Hok.
  destruct (sv_lobby self !! id) eqn:E; injection H as <-; [by eapply lobby_insert|done].
Qed.

Lemma fold_keeps {A} entities (f : SimpleServer -> A -> out SimpleServer) l : forall self self',
  (forall s a s', f s a = Ret s' -> server_keeps entities s s') -> fold_out f self l = Ret self' -> server_keeps entities self self'.
Proof using.
  induction l as [|a l IH]; intros self self' Hf H; cbn [fold_out] in H; [by injection H as <-|].
  destruct (f self a) as [s1|] eqn:E; cbn [out_bind] in H; [|done]. transitivity s1; [by eapply Hf|by eapply IH].
Qed.

Lemma receive_keeps entities self id self' : simple_receive self id = Ret self' -> server_keeps entities self self'.
Proof using world_laws.
  intros H. apply (receive_while sv_server sv_set_server (fun _ _ => eq_refl) id ORDERED (simple_input id) (server_keeps entities)) in H as [H _].
  - exact H.
  - intros s server _ Hok. exact Hok.
  - intros s server m s' _ Hb. split; [exact (input_keeps entities _ _ _ _ Hb)|]. apply input_server in Hb as [Es _]. rewrite Es.
    exists (fun _ => []). split; [by apply converse_same|done].
Qed.

(** ** The client *)

(** A client takes messages from its connection, and keeps its lobby by them. *)
Definition follows (entities : gmap Entity SimpleComponents) (self self' : SimpleClient) : Prop :=
  (lobby_ok entities (sl_lobby self) (sl_commands self) -> lobby_ok entities (sl_lobby self') (sl_commands self')) /\
  exists l ms, talk (sl_client self) l (sl_client self') /\ Forall2 (fun b m => deserialize b = Some m) (taken ORDERED l) ms /\
    dom (sl_lobby self') = foldl see (dom (sl_lobby self)) ms.

#[global] Instance follows_preorder entities : PreOrder (follows entities).
Proof using.
  split.
  - intros s. split; [done|]. exists [], []. split; [constructor|]. split; [constructor|done].
  - intros s1 s2 s3 (Hk1 & l1 & m1 & Ht1 & Hd1 & He1) (Hk2 & l2 & m2 & Ht2 & Hd2 & He2). split; [auto|]. exists (l1 ++ l2), (m1 ++ m2).
    rewrite taken_app, foldl_app, <- He1. split; [by eapply talk_app|]. split; [by apply Forall2_app|done].
Qed.

Lemma apply_follows entities self c b m :
  receive_message (sl_client self) ORDERED = Ret (c, Some b) -> deserialize b = Some m ->
  follows entities self (simple_apply m (sl_set_client self c)).
Proof using alloc_laws world_laws.
  intros Hr Hm. assert (sl_client (simple_apply m (sl_set_client self c)) = c) as Ec.
  { destruct m as [id|id]; cbn [simple_apply]; [by destruct (spawn _ _)|by destruct (sl_lobby _ !! id)]. }
  split.
  - intros Hok. destruct m as [id|id]; cbn [simple_apply].
    + destruct (spawn _ _) as [commands e] eqn:Es. by eapply lobby_spawn.
    + cbn [sl_lobby sl_set_client]. destruct (sl_lobby self !! id) eqn:E; [by apply lobby_despawn|done].
  - exists [Takes ORDERED b], [m]. rewrite Ec. split; [eapply talk_takes; [exact Hr|constructor]|].
    rewrite taken_cons, Z.eqb_refl. split; [by repeat constructor|]. destruct m as [id|id]; cbn [simple_apply foldl see].
    + destruct (spawn _ _). cbn. by rewrite dom_insert_L.
    + cbn [sl_lobby sl_set_client]. destruct (sl_lobby self !! id) eqn:E; [cbn; by rewrite dom_delete_L|].
      apply not_elem_of_dom in E. cbn. clear -E. set_solver.
Qed.

Lemma simple_positions_follow entities self c b self' :
  receive_message (sl_client self) UNRELIABLE = Ret (c, Some b) -> simple_positions b (sl_set_client self c) = Ret self' ->
  follows entities self self' /\ sl_client self' = c.
Proof using world_laws.
  intros Hr H. unfold simple_positions in H. destruct (deserialize b) as [players|]; cbn [unwrap out_bind] in H; [|done]. injection H as <-.
  assert (forall l x, sl_client x = c -> sl_lobby x = sl_lobby self -> lobby_ok entities (sl_lobby self) (sl_commands self) ->
    lobby_ok entities (sl_lobby x) (sl_commands x) -> forall y, y = foldl (fun x (kv : Z * Vec3) => match sl_lobby x !! kv.1 with
      | Some e => mkSimpleClient (sl_client x) (sl_lobby x) (push_command (sl_commands x) (Insert e (sp_set_translation kv.2))) | None => x end) x l ->
    sl_client y = c /\ sl_lobby y = sl_lobby self /\ lobby_ok entities (sl_lobby y) (sl_commands y)) as Hfold.
  { induction l as [|kv l IH]; intros x Hc Hl Hok Hx y Hy; cbn [foldl] in Hy; [by subst|].
    eapply IH; [| |done| |exact Hy]; destruct (sl_lobby x !! kv.1) eqn:E; try done. by eapply lobby_insert. }
  set (f := fun (self : SimpleClient) (kv : Z * Vec3) => _) in *.
  assert (forall l x, sl_client (foldl f x l) = sl_client x /\ sl_lobby (foldl f x l) = sl_lobby x) as Hsame.
  { induction l as [|kv l IH]; intros x; cbn [foldl]; [done|]. destruct (IH (f x kv)) as [-> ->]. unfold f. by destruct (sl_lobby x !! kv.1). }
  destruct (Hsame (map_to_list players) (sl_set_client self c)) as [Ec El]. split; [|exact Ec]. split.
  - intros Hok. by eapply (Hfold (map_to_list players) (sl_set_client self c)).
  - exists [Takes UNRELIABLE b], []. rewrite Ec, El. split; [eapply talk_takes; [exact Hr|constructor]|]. split; [constructor|done].
Qed.

Lemma simple_client_loop entities ch body self self' :
  (forall s c b s', receive_message (sl_client s) ch = Ret (c, Some b) -> body b (sl_set_client s c) = Ret s' ->
     follows entities s s' /\ sl_client s' = c) ->
  while_let (simple_next ch) body (S (backlog (sl_client self) ch)) self = Ret self' ->
  follows entities self self' /\ drained (sl_client self') ch.
Proof using.
  intros Hbody. apply (client_while sl_client sl_set_client (follows entities)); [done..| |exact Hbody].
  intros s c E. split; [done|]. exists [], []. split; [eapply talk_nothing; [exact E|constructor]|]. split; [constructor|done].
Qed.

End game.

(** The players that clients see are those of the server.  Whatever events and
    inputs a frame brings, each client is told, in order, of messages that turn
    the server's old list of players into its new one; for a client that joins in
    this frame they do so from no players at all.  And every player has an entity
    of its own, so that the commands of the frame can be applied. *)
Theorem simple_players_told {alloc : Allocator} {alloc_laws : AllocatorLaws alloc} {world : BevyWorld} {world_laws : BevyWorldLaws world} {message_codec : Codec SimpleMessage}
    {message_laws : CodecLaws SimpleMessage} {input_codec : Codec PlayerInput} entities es self self' :
  simple_update_system es self = Ret self' ->
  (lobby_ok entities (sv_lobby self) (sv_commands self) -> lobby_ok entities (sv_lobby self') (sv_commands self')) /\
  exists plan, converse plan (sv_server self) (sv_server self') /\ forall id, exists ms, says ORDERED (plan id) ms /\
    foldl see (dom (sv_lobby self)) ms = dom (sv_lobby self') /\ (ClientConnected id ∈ es -> foldl see ∅ ms = dom (sv_lobby self')).
Proof.
  unfold simple_update_system. intros H. destruct (fold_out simple_event _ _) as [self1|] eqn:E; cbn [out_bind] in H; [|done]. split.
  - intros Hok. cut (server_keeps entities self self'); [intros Hk; exact (Hk Hok)|]. transitivity self1.
    + eapply fold_keeps; [|exact E]. intros s a s' Hs. by eapply event_keeps.
    + eapply fold_keeps; [|exact H]. intros s a s' Hs. by eapply receive_keeps.
  - apply events_tell in E. apply receive_all_quiet in H. destruct (tells_trans _ _ _ _ _ E H) as (plan & Hc & Ht). exists plan.
    split; [done|]. intros id. destruct (Ht id) as (ms & Hs & He & _ & Hj). exists ms. split; [done|]. split; [done|].
    intros Hin. apply Hj; [by left|]. set_solver.
Qed.

(** The client's side: it takes everything that was received, its players are
    what the messages say, and it never inserts a component into an entity that
    is gone. *)
Theorem simple_client_follows {alloc : Allocator} {alloc_laws : AllocatorLaws alloc} {world : BevyWorld} {world_laws : BevyWorldLaws world} {message_codec : Codec SimpleMessage}
    {players_codec : Codec (gmap Z Vec3)} entities self self' :
  simple_sync_players self = Ret self' ->
  follows entities self self' /\ drained (sl_client self') ORDERED /\ drained (sl_client self') UNRELIABLE.
Proof.
  unfold simple_sync_players. intros H. destruct (while_let _ _ _ _) as [self1|] eqn:E; cbn [out_bind] in H; [|done].
  apply (simple_client_loop entities) in E as [F1 D1].
  2:{ intros s c b s' Hr Hb. unfold simple_message in Hb. destruct (deserialize b) as [m|] eqn:Em; cbn [unwrap out_bind] in Hb; [|done].
      injection Hb as <-. split; [by eapply apply_follows|]. destruct m as [id|id]; cbn [simple_apply]; [by destruct (spawn _ _)|by destruct (sl_lobby _ !! id)]. }
  apply (simple_client_loop entities) in H as [F2 D2]; [|by apply simple_positions_follow]. split; [by transitivity self1|]. split; [|done].
  destruct F2 as (_ & l & ms & Ht & _). by eapply talk_drained.
Qed.

(** ** Concrete games *)

Section demo.
#[local] Existing Instance quic_octets.
#[local] Existing Instance next_allocator.
#[local] Existing Instance panicking_world.

#[local] Instance message_eq_dec : EqDecision SimpleMessage.
Proof. solve_decision. Defined.

#[local] Instance message_countable : Countable SimpleMessage.
Proof.
  apply (inj_countable' (fun m => match m with PlayerConnected id => inl id | PlayerDisconnected id => inr id end)
    (fun x => match x with inl id => PlayerConnected id | inr id => PlayerDisconnected id end)). by intros [].
Defined.

#[local] Instance demo_message_codec : Codec SimpleMessage := bit_codec SimpleMessage.
#[local] Instance demo_message_laws : CodecLaws SimpleMessage := bit_codec_laws SimpleMessage.
#[local] Instance demo_input_codec : Codec PlayerInput := bit_codec PlayerInput.
#[local] Instance demo_players_codec : Codec (gmap Z Vec3) := bit_codec (gmap Z Vec3).

Definition no_commands : Commands SimpleComponents := mkCommands ∅ [].

(** Two players that are connected, whose arrival was not yet handled. *)
Definition two_players : out SimpleServer :=
  let! server := add_connection (server_new default_config) 1 in
  let! server := add_connection server 2 in
  Ret (mkSimpleServer server ∅ no_commands).

Definition two_arrivals : list ServerEvent := [ClientConnected 1; ClientConnected 2].

Lemma two_players_start self : two_players = Ret self -> sv_lobby self = ∅ /\ sv_commands self = no_commands.
Proof using.
  unfold two_players. destruct (add_connection _ 1) as [s1|]; cbn [out_bind]; [|done]. destruct (add_connection s1 2); cbn [out_bind]; [|done].
  by intros [= <-].
Qed.

Lemma empty_lobby_ok : lobby_ok (∅ : gmap Entity SimpleComponents) ∅ no_commands.
Proof using.
  exists ∅. split; [done|]. split; [intros e [? []%lookup_empty_Some]|]. split; [intros id e []%lookup_empty_Some|intros id id' e []%lookup_empty_Some].
Qed.

Lemma simple_players_told_witness :
  exists self self', two_players = Ret self /\ simple_update_system two_arrivals self = Ret self' /\
    lobby_ok ∅ (sv_lobby self') (sv_commands self') /\
    exists plan, converse plan (sv_server self) (sv_server self') /\ exists ms, says ORDERED (plan 2) ms /\ foldl see ∅ ms = {[1; 2]}.
Proof.
  assert ((let! self := two_players in let! self' := simple_update_system two_arrivals self in
    Ret (bool_decide (dom (sv_lobby self') = {[1; 2]}))) = Ret true) as H.
  { vm_compute. reflexivity. }
  destruct two_players as [self|] eqn:E0; cbn [out_bind] in H; [|discriminate H].
  destruct (simple_update_system two_arrivals self) as [self'|] eqn:E; cbn [out_bind] in H; [|discriminate H]. injection H as H3.
  apply bool_decide_eq_true in H3. exists self, self'. split; [reflexivity|]. split; [exact E|].
  destruct (simple_players_told (alloc_laws := next_allocator_laws) (world_laws := panicking_world_laws) ∅ two_arrivals self self' E) as [Hok (plan & Hc & Ht)]. split.
  - apply Hok. destruct (two_players_start _ E0) as [-> ->]. exact empty_lobby_ok.
  - exists plan. split; [exact Hc|]. destruct (Ht 2) as (ms & Hs & _ & Hj). exists ms. split; [exact Hs|]. rewrite Hj; [exact H3|].
    apply elem_of_cons. right. apply elem_of_cons. left. reflexivity.
Defined.

(** The packets that the server has for a client reach it, and it runs its system. *)
Definition client_frame (server : RenetServer) (id : Z) (client : RenetClient) (lobby : gmap Z Entity)
    (entities : gmap Entity SimpleComponents) (given : gset Entity)
    : out (RenetServer * RenetClient * gmap Z Entity * gmap Entity SimpleComponents * gset Entity) :=
  let! (server, r) := server_get_packets_to_send server id in
  match r with
  | Err _ => Panic
  | Ok packets =>
      let! client := fold_out process_packet client packets in
      let! self := simple_sync_players (mkSimpleClient client lobby (mkCommands given [])) in
      let! entities := apply_commands entities (cq_queue (sl_commands self)) in
      Ret (server, sl_client self, sl_lobby self, entities, cq_given (sl_commands self))
  end.

(** The client of player 2, through the arrival of both players in one frame and
    the departure of player 1: its lobby and its cubes at the end. *)
Definition joint_arrival : out (gmap Z Entity * gset Entity) :=
  let! self := two_players in
  let! self := simple_update_system two_arrivals self in
  let! client := client_new default_config in
  let! (server, client, lobby, entities, given) := client_frame (sv_server self) 2 (set_connected client) ∅ ∅ ∅ in
  let! self := simple_update_system [ClientDisconnected 1 Packet.Transport] (mkSimpleServer (remove_connection server 1) (sv_lobby self) no_commands) in
  let! (_, _, lobby, entities, _) := client_frame (sv_server self) 2 client lobby entities given in
  Ret (lobby, dom entities).

(** Two players that arrive in the same frame: the second is told of the first
    twice, spawns two cubes for it, and one of them stays when the first leaves. *)
Theorem joint_arrival_leaves_cube : joint_arrival = Ret ({[2 := 3]}, {[1; 3]}).
Proof using. vm_compute. reflexivity. Qed.

End demo.
