(* ===== verification/Arena.v ===== *)
(** * The Bevy demo (demo_bevy/src)

    A game with players, fireballs and bots: the server's systems (lib.rs,
    bin/server.rs), which run the game and tell the clients of its entities, and
    the client's (bin/client.rs), which keep entities of their own for them.
    Scenes, cameras and windows are Bevy's and are not modelled. *)

From Stdlib Require Import Floats.SpecFloat.
From S2P Require Import Prelude Octets Packet Stats Connection Server Apps.
From S2P Require Import Netcode ReplayProtection Token NetPacket NetClient NetServer Transport Visualizer Ecs.

(** ** Libraries *)

(** The vectors of glam. *)
Class Glam := {
  vec3_add : Vec3 -> Vec3 -> Vec3;
  vec3_sub : Vec3 -> Vec3 -> Vec3;
  vec3_mul : Vec3 -> f32 -> Vec3;
  vec3_normalize : Vec3 -> Vec3;
  vec3_normalize_or_zero : Vec3 -> Vec3;
  vec3_is_normalized : Vec3 -> bool;
  vec2_from_angle : f32 -> Vec2;
  vec2_normalize_or_zero : Vec2 -> Vec2;
}.

Inductive TimerMode := Once | Repeating.

(** The timers of Bevy; a duration is in nanoseconds. *)
Class Timers := {
  Timer : Type;
  timer_from_seconds : f32 -> TimerMode -> Timer;
  timer_tick : Timer -> Z -> Timer;
  timer_finished : Timer -> bool;
  timer_just_finished : Timer -> bool;
}.

(** ** lib.rs *)

Definition ARENA_PROTOCOL_ID : Z := 7.

Inductive PlayerCommand :=
  | BasicAttack (cast_at : Vec3).

Inductive ClientChannel := ChannelInput | ChannelCommand.

Inductive ServerChannel := ChannelServerMessages | ChannelNetworkedEntities.

(** [ServerMessages]. *)
Inductive ArenaMessage :=
  | PlayerCreate (entity : Entity) (id : Z) (translation : Vec3)
  | PlayerRemove (id : Z)
  | SpawnProjectile (entity : Entity) (translation : Vec3)
  | DespawnProjectile (entity : Entity).

Record NetworkedEntities := mkNetworked {
  nw_entities : list Entity;
  nw_translations : list Vec3;
}.

(** [impl From<ClientChannel> for u8], [impl From<ServerChannel> for u8]. *)
Definition client_channel_id (c : ClientChannel) : Z :=
  match c with ChannelCommand => 0 | ChannelInput => 1 end.

Definition server_channel_id (c : ServerChannel) : Z :=
  match c with ChannelNetworkedEntities => 0 | ChannelServerMessages => 1 end.

Definition client_channels : list ChannelConfig :=
  [mkChannelConfig (client_channel_id ChannelInput) (5 * 1024 * 1024) (STReliableOrdered 0);
   mkChannelConfig (client_channel_id ChannelCommand) (5 * 1024 * 1024) (STReliableOrdered 0)].

Definition server_channels : list ChannelConfig :=
  [mkChannelConfig (server_channel_id ChannelNetworkedEntities) (10 * 1024 * 1024) STUnreliable;
   mkChannelConfig (server_channel_id ChannelServerMessages) (10 * 1024 * 1024) (STReliableOrdered (from_millis 200))].

(** [connection_config]. *)
Definition arena_config : ConnectionConfig := mkConnectionConfig (1024 * 1024) server_channels client_channels.

(** The ids as they are used below. *)
Abbreviation INPUT := (client_channel_id ChannelInput).
Abbreviation COMMAND := (client_channel_id ChannelCommand).
Abbreviation MESSAGES := (server_channel_id ChannelServerMessages).
Abbreviation NETWORKED := (server_channel_id ChannelNetworkedEntities).

(** The components of the server's entities that the systems use: [Transform]
    (its translation), [PlayerInput], [Velocity], [Player], [Projectile], [Bot]. *)
Record ArenaComponents {timers : Timers} := mkArena {
  ac_translation : option Vec3;
  ac_input : option PlayerInput;
  ac_velocity : option Vec3;
  ac_player : option Z;
  ac_projectile : option Timer;
  ac_bot : option Timer;
}.

Definition vec3_zero : Vec3 := mkVec3 (f32_of 0) (f32_of 0) (f32_of 0).
Definition vec3_x : Vec3 := mkVec3 (f32_of 1) (f32_of 0) (f32_of 0).

(** Assigning to an index: [v[1] = y]. *)
Definition v_set_y (v : Vec3) (y : f32) : Vec3 := mkVec3 (v_x v) y (v_z v).

Section components.
Context {glam : Glam} {timers : Timers} {alloc : Allocator}.

Definition ac_set_translation (x : Vec3) (c : ArenaComponents) : ArenaComponents :=
  mkArena _ (Some x) (ac_input c) (ac_velocity c) (ac_player c) (ac_projectile c) (ac_bot c).
Definition ac_set_input (x : PlayerInput) (c : ArenaComponents) : ArenaComponents :=
  mkArena _ (ac_translation c) (Some x) (ac_velocity c) (ac_player c) (ac_projectile c) (ac_bot c).
Definition ac_set_velocity (x : Vec3) (c : ArenaComponents) : ArenaComponents :=
  mkArena _ (ac_translation c) (ac_input c) (Some x) (ac_player c) (ac_projectile c) (ac_bot c).
Definition ac_set_projectile (x : Timer) (c : ArenaComponents) : ArenaComponents :=
  mkArena _ (ac_translation c) (ac_input c) (ac_velocity c) (ac_player c) (Some x) (ac_bot c).
Definition ac_set_bot (x : Timer) (c : ArenaComponents) : ArenaComponents :=
  mkArena _ (ac_translation c) (ac_input c) (ac_velocity c) (ac_player c) (ac_projectile c) (Some x).

Definition spawn_fireball (commands : Commands ArenaComponents) (translation direction : Vec3) : Commands ArenaComponents * Entity :=
  let direction := if negb (vec3_is_normalized direction) then vec3_x else direction in
  spawn commands
    (mkArena _ (Some translation) None (Some (vec3_mul direction (f32_of 10))) None (Some (timer_from_seconds (f32_const 3 2) Once)) None).

End components.

(** ** bin/server.rs *)

Definition ARENA_MOVE_SPEED : f32 := f32_of 5.

Record ArenaServer {timers : Timers} := mkArenaServer {
  as_server : RenetServer;
  as_lobby : gmap Z Entity;
  as_visualizer : RenetServerVisualizer;
  as_commands : Commands ArenaComponents;
  as_drawn : nat;
  as_bot_id : Z;
}.

Section server.
Context {glam : Glam} {timers : Timers} {alloc : Allocator}.
Context {message_codec : Codec ArenaMessage} {command_codec : Codec PlayerCommand} {input_codec : Codec PlayerInput}.
Context {networked_codec : Codec NetworkedEntities}.

(** The numbers that [fastrand::f32] returns, one after the other. *)
Variable fastrand : nat -> f32.

Definition as_set_server (self : ArenaServer) (x : RenetServer) : ArenaServer :=
  mkArenaServer _ x (as_lobby self) (as_visualizer self) (as_commands self) (as_drawn self) (as_bot_id self).
Definition as_set_lobby (self : ArenaServer) (x : gmap Z Entity) : ArenaServer :=
  mkArenaServer _ (as_server self) x (as_visualizer self) (as_commands self) (as_drawn self) (as_bot_id self).
Definition as_set_visualizer (self : ArenaServer) (x : RenetServerVisualizer) : ArenaServer :=
  mkArenaServer _ (as_server self) (as_lobby self) x (as_commands self) (as_drawn self) (as_bot_id self).
Definition as_set_commands (self : ArenaServer) (x : Commands ArenaComponents) : ArenaServer :=
  mkArenaServer _ (as_server self) (as_lobby self) (as_visualizer self) x (as_drawn self) (as_bot_id self).

(** [server.broadcast_message(ServerMessages, serialize(&m).unwrap())]. *)
Definition arena_broadcast (server : RenetServer) (m : ArenaMessage) : out RenetServer :=
  let! message := unwrap (serialize m) in
  broadcast_message server MESSAGES message.

Definition arena_send (client_id : Z) (server : RenetServer) (m : ArenaMessage) : out RenetServer :=
  let! message := unwrap (serialize m) in
  server_send_message server client_id MESSAGES message.

(** [players.iter()]: the entities with a player and a transform. *)
Definition players_query (entities : gmap Entity ArenaComponents) : list (Entity * Z * Vec3) :=
  omap (fun kv => match ac_player kv.2, ac_translation kv.2 with
                  | Some id, Some translation => Some (kv.1, id, translation)
                  | _, _ => None
                  end) (map_to_list entities).

(** [Transform::from_xyz((fastrand::f32() - 0.5) * 40., 0.51, (fastrand::f32() - 0.5) * 40.)]. *)
Definition random_position (drawn : nat) : Vec3 :=
  let coordinate n := f32_mul (f32_sub (fastrand n) (f32_const 1 2)) (f32_of 40) in
  mkVec3 (coordinate drawn) (f32_const 51 100) (coordinate (S drawn)).

(** The body of the loop over the events. *)
Definition arena_event (entities : gmap Entity ArenaComponents) (self : ArenaServer) (event : ServerEvent) : out ArenaServer :=
  match event with
  | ClientConnected client_id =>
      let self := as_set_visualizer self (visualizer_add_client 200 (as_visualizer self) client_id) in
      let! server :=
        fold_out (arena_send client_id) (as_server self)
          ((fun '(entity, id, translation) => PlayerCreate entity id translation) <$> players_query entities) in
      let translation := random_position (as_drawn self) in
      let (commands, player_entity) :=
        spawn (as_commands self)
          (mkArena _ (Some translation) (Some input_default) (Some vec3_zero) (Some client_id) None None) in
      let lobby := <[client_id := player_entity]> (as_lobby self) in
      let! server := arena_broadcast server (PlayerCreate player_entity client_id translation) in
      Ret (mkArenaServer _ server lobby (as_visualizer self) commands (S (S (as_drawn self))) (as_bot_id self))
  | ClientDisconnected client_id _ =>
      let self := as_set_visualizer self (visualizer_remove_client (as_visualizer self) client_id) in
      let self :=
        match as_lobby self !! client_id with
        | Some player_entity =>
            as_set_commands (as_set_lobby self (delete client_id (as_lobby self)))
              (push_command (as_commands self) (Despawn player_entity))
        | None => self
        end in
      let! server := arena_broadcast (as_server self) (PlayerRemove client_id) in
      Ret (as_set_server self server)
  end.

(** [PlayerCommand::BasicAttack]. *)
Definition arena_attack (entities : gmap Entity ArenaComponents) (client_id : Z) (message : Bytes) (self : ArenaServer) : out ArenaServer :=
  let! command := unwrap (deserialize message) in
  match command with
  | BasicAttack cast_at =>
      match as_lobby self !! client_id with
      | Some player_entity =>
          match entities !! player_entity with
          | Some (mkArena _ (Some player_translation) _ _ (Some _) _ _) =>
              let cast_at := v_set_y cast_at (v_y player_translation) in
              let direction := vec3_normalize_or_zero (vec3_sub cast_at player_translation) in
              let translation := vec3_add player_translation (vec3_mul direction (f32_const 7 10)) in
              let translation := v_set_y translation (f32_of 1) in
              let (commands, fireball_entity) := spawn_fireball (as_commands self) translation direction in
              let! server := arena_broadcast (as_server self) (SpawnProjectile fireball_entity translation) in
              Ret (as_set_commands (as_set_server self server) commands)
          | _ => Ret self
          end
      | None => Ret self
      end
  end.

Definition arena_input (client_id : Z) (message : Bytes) (self : ArenaServer) : out ArenaServer :=
  let! input := unwrap (deserialize message) in
  match as_lobby self !! client_id with
  | Some player_entity => Ret (as_set_commands self (push_command (as_commands self) (Insert player_entity (ac_set_input input))))
  | None => Ret self
  end.

(** The body of [for client_id in server.clients_id()]. *)
Definition arena_receive (entities : gmap Entity ArenaComponents) (self : ArenaServer) (client_id : Z) : out ArenaServer :=
  let! self :=
    while_let (next_message as_server as_set_server client_id COMMAND) (arena_attack entities client_id)
      (S (server_backlog (as_server self) client_id COMMAND)) self in
  while_let (next_message as_server as_set_server client_id INPUT) (arena_input client_id)
    (S (server_backlog (as_server self) client_id INPUT)) self.

(** [server_update_system], on the events of the frame and the entities as they are. *)
Definition arena_update_system (entities : gmap Entity ArenaComponents) (events : list ServerEvent) (self : ArenaServer) : out ArenaServer :=
  let! self := fold_out (arena_event entities) self events in
  fold_out (arena_receive entities) self (clients_id (as_server self)).

(** [update_projectiles_system]: the entities with their timers, and the commands. *)
Definition update_projectiles_system (delta : Z) (entities : gmap Entity ArenaComponents) (commands : Commands ArenaComponents)
    : gmap Entity ArenaComponents * Commands ArenaComponents :=
  foldl (fun '(entities, commands) kv =>
    match ac_projectile kv.2 with
    | Some duration =>
        let duration := timer_tick duration delta in
        (<[kv.1 := ac_set_projectile duration kv.2]> entities,
         if timer_finished duration then push_command commands (Despawn kv.1) else commands)
    | None => (entities, commands)
    end) (entities, commands) (map_to_list entities).

(** [server_network_sync]. *)
Definition server_network_sync (entities : gmap Entity ArenaComponents) (server : RenetServer) : out RenetServer :=
  let networked :=
    omap (fun kv => match ac_translation kv.2, ac_player kv.2, ac_projectile kv.2 with
                    | Some translation, Some _, _ | Some translation, _, Some _ => Some (kv.1, translation)
                    | _, _, _ => None
                    end) (map_to_list entities) in
  let! sync_message := unwrap (serialize (mkNetworked networked.*1 networked.*2)) in
  broadcast_message server NETWORKED sync_message.

(** [move_players_system]. *)
Definition arena_move (c : ArenaComponents) : ArenaComponents :=
  match ac_velocity c, ac_input c with
  | Some velocity, Some input =>
      let x := f32_of (i8_of (in_right input) - i8_of (in_left input)) in
      let y := f32_of (i8_of (in_down input) - i8_of (in_up input)) in
      let direction := vec2_normalize_or_zero (mkVec2 x y) in
      ac_set_velocity (mkVec3 (f32_mul (v2_x direction) ARENA_MOVE_SPEED) (v_y velocity) (f32_mul (v2_y direction) ARENA_MOVE_SPEED)) c
  | _, _ => c
  end.

(** [apply_velocity_system]. *)
Definition arena_apply_velocity (delta_secs : f32) (c : ArenaComponents) : ArenaComponents :=
  match ac_velocity c, ac_translation c with
  | Some velocity, Some translation => ac_set_translation (vec3_add translation (vec3_mul velocity delta_secs)) c
  | _, _ => c
  end.

(** [projectile_on_removal_system]: over the entities that lost their projectile. *)
Definition projectile_on_removal_system (removed : list Entity) (server : RenetServer) : out RenetServer :=
  fold_out (fun server entity => arena_broadcast server (DespawnProjectile entity)) server removed.

(** [spawn_bot]. *)
Definition spawn_bot (space_just_pressed : bool) (self : ArenaServer) : out ArenaServer :=
  if space_just_pressed then
    let client_id := as_bot_id self in
    let! bot_id := add64 (as_bot_id self) 1 in
    let translation := random_position (as_drawn self) in
    let (commands, player_entity) :=
      spawn (as_commands self)
        (mkArena _ (Some translation) None None (Some client_id) None (Some (timer_from_seconds (f32_of 3) Repeating))) in
    let lobby := <[client_id := player_entity]> (as_lobby self) in
    let! server := arena_broadcast (as_server self) (PlayerCreate player_entity client_id translation) in
    Ret (mkArenaServer _ server lobby (as_visualizer self) commands (S (S (as_drawn self))) bot_id)
  else Ret self.

(** [update_visulizer_system] of the server, without the drawing. *)
Definition arena_server_visualizer_system (server : RenetServer) (visualizer : RenetServerVisualizer) : out RenetServerVisualizer :=
  visualizer_update 200 visualizer server.

(** [f32::consts::PI]. *)
Definition F32_PI : f32 := S754_finite false 13176795 (-22).

(** The [i]th fireball of a bot; [PI / 4. * i as f32]. *)
Definition bot_cast (translation : Vec3) (state : RenetServer * Commands ArenaComponents) (i : Z)
    : out (RenetServer * Commands ArenaComponents) :=
  let direction := vec2_from_angle (f32_mul (SFdiv 24 128 F32_PI (f32_of 4)) (f32_of i)) in
  let direction := vec3_normalize (mkVec3 (v2_x direction) (f32_of 0) (v2_y direction)) in
  let translation := vec3_add translation direction in
  let (commands, fireball_entity) := spawn_fireball state.2 translation direction in
  let! server := arena_broadcast state.1 (SpawnProjectile fireball_entity translation) in
  Ret (server, commands).

(** [bot_autocast]: the entities with their timers, the server and the commands. *)
Definition bot_autocast (delta : Z) (entities : gmap Entity ArenaComponents) (server : RenetServer)
    (commands : Commands ArenaComponents) : out (gmap Entity ArenaComponents * (RenetServer * Commands ArenaComponents)) :=
  fold_out (fun '(entities, state) kv =>
    match ac_translation kv.2, ac_bot kv.2, ac_player kv.2 with
    | Some translation, Some auto_cast, Some _ =>
        let auto_cast := timer_tick auto_cast delta in
        let entities := <[kv.1 := ac_set_bot auto_cast kv.2]> entities in
        if negb (timer_just_finished auto_cast) then Ret (entities, state)
        else
          let! state := fold_out (bot_cast translation) state [0; 1; 2; 3; 4; 5; 6; 7] in
          Ret (entities, state)
    | _, _, _ => Ret (entities, state)
    end) (entities, (server, commands)) (map_to_list entities).

End server.

(** ** bin/client.rs *)

Record PlayerInfo := mkPlayerInfo { client_entity : Entity; server_entity : Entity }.

(** The components of the client's entities: [Transform], [ControlledPlayer]. *)
Record ViewComponents := mkView { vc_translation : Vec3; vc_controlled : bool }.

Definition vc_set_translation (x : Vec3) (c : ViewComponents) : ViewComponents := mkView x (vc_controlled c).

Record ArenaClient := mkArenaClient {
  al_client : RenetClient;
  al_lobby : gmap Z PlayerInfo;
  al_mapping : gmap Entity Entity;
  al_commands : Commands ViewComponents;
}.

Definition al_set_client (self : ArenaClient) (x : RenetClient) : ArenaClient :=
  mkArenaClient x (al_lobby self) (al_mapping self) (al_commands self).

Section client.
Context {alloc : Allocator}.
Context {message_codec : Codec ArenaMessage} {command_codec : Codec PlayerCommand} {input_codec : Codec PlayerInput}.
Context {networked_codec : Codec NetworkedEntities}.

(** [player_input]: the new input, and the commands that are written. *)
Definition arena_player_input (pressed : KeyCode -> bool) (left_just_pressed : bool) (target : Vec3) : PlayerInput * list PlayerCommand :=
  (mkInput (pressed KeyW || pressed ArrowUp) (pressed KeyS || pressed ArrowDown)
           (pressed KeyA || pressed ArrowLeft) (pressed KeyD || pressed ArrowRight),
   if left_just_pressed then [BasicAttack target] else []).

(** [client_send_input]. *)
Definition arena_send_input (player_input : PlayerInput) (client : RenetClient) : out RenetClient :=
  let! input_message := unwrap (serialize player_input) in
  send_message client INPUT input_message.

(** [client_send_player_commands]. *)
Definition arena_send_commands (player_commands : list PlayerCommand) (client : RenetClient) : out RenetClient :=
  fold_out (fun client command =>
    let! command_message := unwrap (serialize command) in
    send_message client COMMAND command_message) client player_commands.

Definition arena_next (ch : Z) (self : ArenaClient) : out (ArenaClient * option Bytes) :=
  let! (client, message) := receive_message (al_client self) ch in
  Ret (al_set_client self client, message).

(** What a message of the server does; [client_id] is the client's own. *)
Definition arena_apply (client_id : Z) (m : ArenaMessage) (self : ArenaClient) : ArenaClient :=
  match m with
  | PlayerCreate entity id translation =>
      let (commands, client_entity) := spawn (al_commands self) (mkView translation (client_id =? id)) in
      mkArenaClient (al_client self) (<[id := mkPlayerInfo client_entity entity]> (al_lobby self))
        (<[entity := client_entity]> (al_mapping self)) commands
  | PlayerRemove id =>
      match al_lobby self !! id with
      | Some (mkPlayerInfo client_entity server_entity) =>
          mkArenaClient (al_client self) (delete id (al_lobby self)) (delete server_entity (al_mapping self))
            (push_command (al_commands self) (Despawn client_entity))
      | None => self
      end
  | SpawnProjectile entity translation =>
      let (commands, projectile_entity) := spawn (al_commands self) (mkView translation false) in
      mkArenaClient (al_client self) (al_lobby self) (<[entity := projectile_entity]> (al_mapping self)) commands
  | DespawnProjectile entity =>
      match al_mapping self !! entity with
      | Some client_entity =>
          mkArenaClient (al_client self) (al_lobby self) (delete entity (al_mapping self))
            (push_command (al_commands self) (Despawn client_entity))
      | None => self
      end
  end.

Definition arena_message (client_id : Z) (message : Bytes) (self : ArenaClient) : out ArenaClient :=
  let! server_message := unwrap (deserialize message) in
  Ret (arena_apply client_id server_message self).

(** The loop over the indices of [entities]; an index beyond [translations] panics. *)
Definition arena_positions (message : Bytes) (self : ArenaClient) : out ArenaClient :=
  let! networked := unwrap (deserialize message) in
  fold_out (fun self i =>
    let! entity := vec_get (nw_entities networked) i in
    match al_mapping self !! entity with
    | Some entity =>
        let! translation := vec_get (nw_translations networked) i in
        Ret (mkArenaClient (al_client self) (al_lobby self) (al_mapping self)
               (push_command (al_commands self) (Insert entity (vc_set_translation translation))))
    | None => Ret self
    end) self (Z.of_nat <$> seq 0 (length (nw_entities networked))).

(** [client_sync_players]. *)
Definition arena_sync_players (client_id : Z) (self : ArenaClient) : out ArenaClient :=
  let! self := while_let (arena_next MESSAGES) (arena_message client_id) (S (backlog (al_client self) MESSAGES)) self in
  while_let (arena_next NETWORKED) arena_positions (S (backlog (al_client self) NETWORKED)) self.

(** [update_visulizer_system]: the visualizer, and whether it is shown. *)
Definition arena_visualizer_system (client : RenetClient) (f1_just_pressed : bool) (visualizer : RenetClientVisualizer)
    (show_visualizer : bool) : out (RenetClientVisualizer * bool) :=
  let! info := network_info client in
  let! visualizer := client_add_network_info 200 visualizer info in
  Ret (visualizer, if f1_just_pressed then negb show_visualizer else show_visualizer).

End client.

(** ** Start *)

Section start.
Context {oct : Octets} {aead : Aead}.

(** [add_netcode_network] of the server. *)
Definition arena_netcode_server (challenge_key : Bytes) (current_time : Z) (socket : Socket) (public_addr : SocketAddr)
    : out (RenetServer * NetcodeServerTransport) :=
  let server := server_new arena_config in
  let server_config := mkServerConfig current_time 64 ARENA_PROTOCOL_ID [public_addr] ServerUnsecure in
  let! r := ts_new challenge_key server_config socket in
  match r with
  | Ok transport => Ret (server, transport)
  | Err _ => Panic
  end.

(** [add_netcode_network] of the client, with [CurrentClientId]. *)
Definition arena_netcode_client (rnd : TokenRandom) (current_time : Z) (socket : Socket) (server_addr : SocketAddr)
    : out (RenetClient * NetcodeClientTransport * Z) :=
  let! client := client_new arena_config in
  let client_id := as_millis current_time mod 2 ^ 64 in
  let! r := tc_new rnd current_time (ClientUnsecure ARENA_PROTOCOL_ID client_id server_addr None) socket in
  match r with
  | Ok transport => Ret (client, transport, client_id)
  | Err _ => Panic
  end.

End start.
