(* ===== verification/ArenaProps.v ===== *)
(** * The Bevy demo: theorems

    The players that the server tells its clients of are those of its world; the
    client never inserts a component into an entity that is gone, whatever the
    server sends; and the frame in which a newcomer is told of a player that has
    left. *)

From Stdlib Require Import Floats.SpecFloat.
From S2P Require Import Prelude Octets Packet Stats Connection Server Apps.
From S2P Require Import Netcode ReplayProtection Token NetPacket NetClient NetServer Transport Visualizer Ecs Arena.

(** The players that a client knows after a message, with the server's entities. *)
Definition see (players : gmap Z Entity) (m : ArenaMessage) : gmap Z Entity :=
  match m with
  | PlayerCreate entity id _ => <[id := entity]> players
  | PlayerRemove id => delete id players
  | SpawnProjectile _ _ | DespawnProjectile _ => players
  end.

(** ** The client *)

Section client.
Context {alloc : Allocator} {alloc_laws : AllocatorLaws alloc} {world : BevyWorld} {world_laws : BevyWorldLaws world}.
Context {message_codec : Codec ArenaMessage} {networked_codec : Codec NetworkedEntities}.
Implicit Types (entities : gmap Entity ViewComponents).

(** The queue can be applied, and then the entities that the server's are mapped to
    exist, each for one entity of the server; a player's is mapped as the lobby says. *)
Definition view_ok entities (self : ArenaClient) : Prop :=
  exists m, apply_commands entities (cq_queue (al_commands self)) = Ret m /\
    (forall e, is_Some (m !! e) -> e ∈ cq_given (al_commands self)) /\
    (forall k e, al_mapping self !! k = Some e -> is_Some (m !! e)) /\
    (forall k k' e, al_mapping self !! k = Some e -> al_mapping self !! k' = Some e -> k = k') /\
    (forall id info, al_lobby self !! id = Some info -> client_entity info ∈ cq_given (al_commands self)) /\
    (forall id info k, al_lobby self !! id = Some info -> al_mapping self !! k = Some (client_entity info) -> k = server_entity info).

(** A new entity for an entity of the server; [info] is the player's, if it is one. *)
Lemma view_spawn entities self c k commands e (info : option Z) :
  spawn (al_commands self) c = (commands, e) -> view_ok entities self ->
  view_ok entities (mkArenaClient (al_client self)
    (match info with Some id => <[id := mkPlayerInfo e k]> (al_lobby self) | None => al_lobby self end) (<[k := e]> (al_mapping self)) commands).
Proof using alloc_laws world_laws.
  intros [= <- <-] (m & Hm & Hg & Ha & Hi & Hl & Hk). set (e := reserve _).
  assert (forall x, al_mapping self !! x <> Some e) as Hnew by (intros x Hx; by apply Ha, Hg, reserve_fresh in Hx).
  assert (forall id i, al_lobby self !! id = Some i -> client_entity i <> e) as Hlnew.
  { intros id i Hid He. apply Hl in Hid. rewrite He in Hid. by apply reserve_fresh in Hid. }
  exists (<[e := c]> m). cbn [al_commands al_mapping al_lobby cq_queue cq_given]. split_and!.
  - apply push_spawn; [done|]. apply eq_None_not_Some. intros Hs%Hg. by apply reserve_fresh in Hs.
  - intros x [<-|[_ Hx]]%lookup_insert_is_Some; [set_solver|]. apply elem_of_union_r. by apply Hg.
  - intros x y [[_ <-]|[_ Hx]]%lookup_insert_Some; [rewrite lookup_insert_eq; by eexists|].
    apply lookup_insert_is_Some. right. split; [intros <-; by apply Hnew in Hx|by eapply Ha].
  - intros x x' y [[<- <-]|[Hne Hx]]%lookup_insert_Some [[<- E]|[Hne' Hx']]%lookup_insert_Some; try done.
    + by apply Hnew in Hx'.
    + subst y. by apply Hnew in Hx.
    + by eapply Hi.
  - intros id i Hid. destruct info as [p|]; [|apply elem_of_union_r; by eapply Hl].
    apply lookup_insert_Some in Hid as [[_ <-]|[_ Hid]]; [cbn; set_solver|]. apply elem_of_union_r. by eapply Hl.
  - intros id i x Hid Hx.
    assert ((client_entity i = e /\ server_entity i = k) \/ al_lobby self !! id = Some i) as [[He Hs]|Hid'].
    { destruct info as [p|]; [|by right]. apply lookup_insert_Some in Hid as [[_ <-]|[_ Hid]]; [by left|by right]. }
    + apply lookup_insert_Some in Hx as [[<- _]|[_ Hx]]; [done|]. rewrite He in Hx. by apply Hnew in Hx.
    + apply lookup_insert_Some in Hx as [[_ E]|[_ Hx]]; [by apply Hlnew in Hid'|]. by eapply Hk.
Qed.

(** An entity goes, with what maps to it. *)
Lemma view_despawn entities self k e lobby :
  (forall x, al_mapping self !! x = Some e -> x = k) -> lobby ⊆ al_lobby self -> view_ok entities self ->
  view_ok entities (mkArenaClient (al_client self) lobby (delete k (al_mapping self)) (push_command (al_commands self) (Despawn e))).
Proof using world_laws.
  intros He Hsub (m & Hm & Hg & Ha & Hi & Hl & Hk). exists (delete e m). cbn [al_commands al_mapping al_lobby]. split_and!.
  - by apply push_despawn.
  - intros x [_ Hx]%lookup_delete_is_Some. by apply Hg.
  - intros x y [Hne Hx]%lookup_delete_Some. apply lookup_delete_is_Some. split; [|by eapply Ha]. intros <-. by apply He in Hx.
  - intros x x' y [_ Hx]%lookup_delete_Some [_ Hx']%lookup_delete_Some. by eapply Hi.
  - intros id i Hid. eapply Hl, lookup_weaken; done.
  - intros id i x Hid [_ Hx]%lookup_delete_Some. eapply Hk; [eapply lookup_weaken; done|exact Hx].
Qed.

Lemma apply_view entities client_id m self : view_ok entities self -> view_ok entities (arena_apply client_id m self).
Proof using alloc_laws world_laws.
  intros Hok. destruct m as [entity id t|id|entity t|entity]; cbn [arena_apply].
  - destruct (spawn _ _) as [commands e] eqn:Es. exact (view_spawn _ _ _ entity _ _ (Some id) Es Hok).
  - destruct (al_lobby self !! id) as [[ce se]|] eqn:E; [|done]. apply view_despawn; [|apply delete_subseteq|done].
    intros x Hx. destruct Hok as (m & _ & _ & _ & _ & _ & Hk). exact (Hk _ _ _ E Hx).
  - destruct (spawn _ _) as [commands e] eqn:Es. exact (view_spawn _ _ _ entity _ _ None Es Hok).
  - destruct (al_mapping self !! entity) as [e|] eqn:E; [|done]. apply view_despawn; [|done..].
    intros x Hx. destruct Hok as (m & _ & _ & _ & Hi & _). exact (Hi _ _ _ Hx E).
Qed.

Lemma apply_keeps client_id m self :
  al_client (arena_apply client_id m self) = al_client self /\
  server_entity <$> al_lobby (arena_apply client_id m self) = see (server_entity <$> al_lobby self) m.
Proof using.
  destruct m as [entity id t|id|entity t|entity]; cbn [arena_apply see].
  - destruct (spawn _ _). cbn. by rewrite fmap_insert.
  - destruct (al_lobby self !! id) as [[ce se]|] eqn:E; cbn; [by rewrite fmap_delete|]. split; [done|]. rewrite delete_id; [done|]. by rewrite lookup_fmap, E.
  - by destruct (spawn _ _).
  - by destruct (al_mapping self !! entity).
Qed.

(** A client takes messages from its connection, and keeps its lobby by them. *)
Definition follows entities (self self' : ArenaClient) : Prop :=
  (view_ok entities self -> view_ok entities self') /\
  exists l ms, talk (al_client self) l (al_client self') /\ Forall2 (fun b m => deserialize b = Some m) (taken MESSAGES l) ms /\
    server_entity <$> al_lobby self' = foldl see (server_entity <$> al_lobby self) ms.

#[local] Instance arena_follows_preorder entities : PreOrder (follows entities).
Proof using.
  split.
  - intros s. split; [done|]. exists [], []. split; [constructor|]. split; [constructor|done].
  - intros s1 s2 s3 (Hk1 & l1 & m1 & Ht1 & Hd1 & He1) (Hk2 & l2 & m2 & Ht2 & Hd2 & He2). split; [auto|]. exists (l1 ++ l2), (m1 ++ m2).
    rewrite taken_app, foldl_app, <- He1. split; [by eapply talk_app|]. split; [by apply Forall2_app|done].
Qed.

Lemma position_view entities self k e edit :
  al_mapping self !! k = Some e -> view_ok entities self ->
  view_ok entities (mkArenaClient (al_client self) (al_lobby self) (al_mapping self) (push_command (al_commands self) (Insert e edit))).
Proof using world_laws.
  intros He (m & Hm & Hg & Ha & Hi & Hl & Hk). destruct (Ha _ _ He) as [c Hc]. exists (<[e := edit c]> m).
  cbn [al_commands al_mapping al_lobby]. split_and!; try done.
  - by apply push_insert.
  - intros x [<-|[_ Hx]]%lookup_insert_is_Some; [apply Hg; by eexists|by apply Hg].
  - intros x y Hx. apply lookup_insert_is_Some. destruct (decide (e = y)); [by left|]. right. split; [done|by eapply Ha].
Qed.

Lemma positions_view entities b self self' :
  arena_positions b self = Ret self' ->
  (view_ok entities self -> view_ok entities self') /\ al_client self' = al_client self /\ al_lobby self' = al_lobby self.
Proof using world_laws.
  unfold arena_positions. destruct (deserialize b) as [nw|]; cbn [unwrap out_bind]; [|done]. generalize (Z.of_nat <$> seq 0 (length (nw_entities nw))).
  intros l. revert self. induction l as [|i l IH]; intros self H; cbn [fold_out] in H; [by injection H as <-|].
  destruct (vec_get (nw_entities nw) i) as [k|]; cbn [out_bind] in H; [|done].
  destruct (al_mapping self !! k) as [e|] eqn:E; [|by apply IH].
  destruct (vec_get (nw_translations nw) i) as [t|]; cbn [out_bind] in H; [|done]. apply IH in H as (Hv & Hc & Hl).
  split_and!; [|done..]. intros Hok. apply Hv. by eapply position_view.
Qed.

Lemma arena_client_loop entities ch body self self' :
  (forall s c b s', receive_message (al_client s) ch = Ret (c, Some b) -> body b (al_set_client s c) = Ret s' ->
     follows entities s s' /\ al_client s' = c) ->
  while_let (arena_next ch) body (S (backlog (al_client self) ch)) self = Ret self' ->
  follows entities self self' /\ drained (al_client self') ch.
Proof using.
  intros Hbody. apply (client_while al_client al_set_client (follows entities)); [done..| |exact Hbody].
  intros s c E. split; [done|]. exists [], []. split; [eapply talk_nothing; [exact E|constructor]|]. split; [constructor|done].
Qed.

Lemma message_follows entities client_id s c b s' :
  receive_message (al_client s) MESSAGES = Ret (c, Some b) -> arena_message client_id b (al_set_client s c) = Ret s' ->
  follows entities s s' /\ al_client s' = c.
Proof using alloc_laws world_laws.
  intros Hr Hb. unfold arena_message in Hb. destruct (deserialize b) as [m|] eqn:Em; cbn [unwrap out_bind] in Hb; [|done]. injection Hb as <-.
  destruct (apply_keeps client_id m (al_set_client s c)) as [Ec El]. split; [|exact Ec]. split; [intros Hok; by apply apply_view|].
  exists [Takes MESSAGES b], [m]. rewrite Ec, El. split; [eapply talk_takes; [exact Hr|constructor]|].
  rewrite taken_cons, Z.eqb_refl. split; [by repeat constructor|done].
Qed.

Lemma arena_positions_follow entities s c b s' :
  receive_message (al_client s) NETWORKED = Ret (c, Some b) -> arena_positions b (al_set_client s c) = Ret s' ->
  follows entities s s' /\ al_client s' = c.
Proof using world_laws.
  intros Hr Hb. destruct (positions_view entities _ _ _ Hb) as (Hv & Ec & El). split; [|exact Ec]. split; [exact Hv|].
  exists [Takes NETWORKED b], []. rewrite Ec, El. split; [eapply talk_takes; [exact Hr|constructor]|]. split; [constructor|done].
Qed.

(** A list of places that the client fails on: it cannot be read, or has an entity
    without a place. *)
Definition misshapen (b : Bytes) : Prop :=
  match deserialize (A := NetworkedEntities) b with Some nw => len (nw_translations nw) < len (nw_entities nw) | None => True end.

Lemma positions_total b self : arena_positions b self = Panic -> misshapen b.
Proof using.
  unfold arena_positions, misshapen. destruct (deserialize b) as [nw|]; cbn [unwrap out_bind]; [|done]. intros H.
  destruct (Z.lt_ge_cases (len (nw_translations nw)) (len (nw_entities nw))) as [Hl|Hl]; [done|]. exfalso.
  assert (forall i, i ∈ Z.of_nat <$> seq 0 (length (nw_entities nw)) -> 0 <= i < len (nw_entities nw)) as Hi.
  { intros i (n & -> & Hn%elem_of_seq)%list_elem_of_fmap. unfold len. lia. }
  revert self H. induction (Z.of_nat <$> _) as [|i l IH]; intros self H; cbn [fold_out] in H; [done|].
  assert (0 <= i < len (nw_entities nw)) as Hr by (apply Hi; by left).
  assert (forall j, j ∈ l -> 0 <= j < len (nw_entities nw)) as Hi' by (intros j Hj; apply Hi; by right).
  destruct (vec_get_total (nw_entities nw) i Hr) as (k & E & _). rewrite E in H. cbn [out_bind] in H.
  destruct (al_mapping self !! k); [|by eapply IH].
  destruct (vec_get_total (nw_translations nw) i) as (t & E' & _); [lia|]. rewrite E' in H. cbn [out_bind] in H. by eapply IH.
Qed.

End client.

(** C29: The game's client is safe against its server.  Its system fails only on
    a message that it cannot read, on a list of places that is shorter than its
    list of entities, or when receiving from its connection fails (which, by
    System.v, it does not on a channel of a connection with a peer that runs this
    code).  Otherwise, whatever the messages say: if before the frame the entities
    that the client maps the server's to exist, each for one of the server's, they
    do after it, and the commands of the frame can be applied.  No component is
    inserted into an entity that is gone, though a server that announces the end
    of a projectile with the entity of a player has the player's despawned twice,
    which Bevy only warns of.  The client's players are those that the messages
    describe, taken in order, and it leaves no message behind. *)
Theorem arena_client_follows {alloc : Allocator} {alloc_laws : AllocatorLaws alloc} {world : BevyWorld} {world_laws : BevyWorldLaws world}
    {message_codec : Codec ArenaMessage} {networked_codec : Codec NetworkedEntities} entities client_id self :
  match arena_sync_players client_id self with
  | Ret self' =>
      (view_ok entities self -> view_ok entities self') /\
      (exists l ms, talk (al_client self) l (al_client self') /\ Forall2 (fun b m => deserialize b = Some m) (taken MESSAGES l) ms /\
         server_entity <$> al_lobby self' = foldl see (server_entity <$> al_lobby self) ms) /\
      drained (al_client self') MESSAGES /\ drained (al_client self') NETWORKED
  | Panic =>
      exists l c, talk (al_client self) l c /\
        (receive_message c MESSAGES = Panic \/ receive_message c NETWORKED = Panic \/
         (exists b, b ∈ taken MESSAGES l /\ deserialize (A := ArenaMessage) b = None) \/ (exists b, b ∈ taken NETWORKED l /\ misshapen b))
  end.
Proof.
  unfold arena_sync_players. destruct (while_let _ _ _ self) as [self1|] eqn:E; cbn [out_bind].
  2:{ apply (client_while_panics al_client al_set_client MESSAGES) in E as (l & c & Ht & [H|(b & s & Hb & H)]); [| |done..|].
      - exists l, c. split; [done|by left].
      - exists l, c. split; [done|]. right. right. left. exists b. split; [done|]. unfold arena_message in H. by destruct (deserialize b).
      - intros s c b s' Hr Hb. by destruct (message_follows entities client_id s c b s' Hr Hb). }
  apply (arena_client_loop entities) in E as [F1 D1]; [|by apply message_follows].
  destruct (while_let _ _ _ self1) as [self'|] eqn:E.
  - apply (arena_client_loop entities) in E as [F2 D2]; [|by apply arena_positions_follow].
    destruct (arena_follows_preorder entities) as [_ Htrans]. destruct (Htrans _ _ _ F1 F2) as [Hv He]. split; [done|]. split; [done|]. split; [|done].
    destruct F2 as (_ & l & ms & Ht & _). by eapply talk_drained.
  - destruct F1 as (_ & l1 & _ & Ht1 & _).
    apply (client_while_panics al_client al_set_client NETWORKED) in E as (l & c & Ht & [H|(b & s & Hb & H)]); [| |done..|].
    + exists (l1 ++ l), c. split; [by eapply talk_app|]. right. by left.
    + exists (l1 ++ l), c. split; [by eapply talk_app|]. do 3 right. exists b. split; [rewrite taken_app; apply elem_of_app; by right|]. by eapply positions_total.
    + intros s c b s' Hr Hb. by destruct (arena_positions_follow entities s c b s' Hr Hb).
Qed.

(** ** The server *)

Section server.
Context {glam : Glam} {timers : Timers} {alloc : Allocator} {alloc_laws : AllocatorLaws alloc}.
Context {bevy : BevyWorld} {bevy_laws : BevyWorldLaws bevy}.
Context {message_codec : Codec ArenaMessage} {message_laws : CodecLaws ArenaMessage}.
Context {command_codec : Codec PlayerCommand} {input_codec : Codec PlayerInput} (fastrand : nat -> f32).
Implicit Types (entities world : gmap Entity ArenaComponents) (self : ArenaServer).

(** An entity that is a player's, with a place. *)
Definition player_at world (e : Entity) (id : Z) : Prop :=
  exists c t, world !! e = Some c /\ ac_player c = Some id /\ ac_translation c = Some t.

(** The lobby has the players of a world, and no others. *)
Definition lobby_of (lobby : gmap Z Entity) world : Prop := forall id e, lobby !! id = Some e <-> player_at world e id.

(** The queue can be applied, and gives a world whose players the lobby has. *)
Definition world_ok entities self : Prop :=
  exists world, apply_commands entities (cq_queue (as_commands self)) = Ret world /\
    (forall e, is_Some (world !! e) -> e ∈ cq_given (as_commands self)) /\ lobby_of (as_lobby self) world.

Lemma world_spawn entities self c commands e :
  spawn (as_commands self) c = (commands, e) -> world_ok entities self ->
  exists world, apply_commands entities (cq_queue commands) = Ret (<[e := c]> world) /\
    (forall x, is_Some (<[e := c]> world !! x) -> x ∈ cq_given commands) /\ lobby_of (as_lobby self) world /\ world !! e = None.
Proof using alloc_laws bevy_laws.
  intros [= <- <-] (world & Hw & Hg & Hl). exists world. cbn [cq_queue cq_given]. split_and!; [|..|done|].
  - apply push_spawn; [done|]. apply eq_None_not_Some. intros Hs%Hg. by apply reserve_fresh in Hs.
  - intros x [<-|[_ Hx]]%lookup_insert_is_Some; [by apply elem_of_union_l, elem_of_singleton|]. apply elem_of_union_r. by apply Hg.
  - apply eq_None_not_Some. intros Hs%Hg. by apply reserve_fresh in Hs.
Qed.

(** A new player. *)
Lemma world_player entities self c commands e id t :
  spawn (as_commands self) c = (commands, e) -> ac_player c = Some id -> ac_translation c = Some t -> as_lobby self !! id = None ->
  world_ok entities self ->
  forall self', as_commands self' = commands -> as_lobby self' = <[id := e]> (as_lobby self) -> world_ok entities self'.
Proof using alloc_laws bevy_laws.
  intros Hs Hp Ht Hn Hok self' Ec El. destruct (world_spawn _ _ _ _ _ Hs Hok) as (world & Hw & Hg & Hl & He). exists (<[e := c]> world). rewrite Ec. split_and!; [done..|].
  intros k x. rewrite El. split.
  - intros [[<- <-]|[Hne Hk]]%lookup_insert_Some; [exists c, t; by rewrite lookup_insert_eq|].
    apply Hl in Hk as (c' & t' & Hc & ?). exists c', t'. rewrite lookup_insert_ne; [done|]. intros <-. congruence.
  - intros (c' & t' & [[<- <-]|[Hne Hc]]%lookup_insert_Some & Hp' & Ht').
    + apply lookup_insert_Some. left. split; [congruence|done].
    + assert (as_lobby self !! k = Some x) as Hk by (apply Hl; by exists c', t'). apply lookup_insert_Some. right. split; [congruence|done].
Qed.

(** A new entity that is nobody's. *)
Lemma world_thing entities self c commands e :
  spawn (as_commands self) c = (commands, e) -> ac_player c = None -> world_ok entities self ->
  forall self', as_commands self' = commands -> as_lobby self' = as_lobby self -> world_ok entities self'.
Proof using alloc_laws bevy_laws.
  intros Hs Hp Hok self' Ec El. destruct (world_spawn _ _ _ _ _ Hs Hok) as (world & Hw & Hg & Hl & He). exists (<[e := c]> world). rewrite Ec. split_and!; [done..|].
  intros k x. rewrite El, (Hl k x). split; intros (c' & t' & Hc & Hp' & Ht').
  - exists c', t'. rewrite lookup_insert_ne; [done|]. intros <-. congruence.
  - apply lookup_insert_Some in Hc as [[<- <-]|[Hne Hc]]; [congruence|]. by exists c', t'.
Qed.

(** A player leaves. *)
Lemma world_leave entities self id e :
  as_lobby self !! id = Some e -> world_ok entities self ->
  forall self', as_commands self' = push_command (as_commands self) (Despawn e) -> as_lobby self' = delete id (as_lobby self) -> world_ok entities self'.
Proof using bevy_laws.
  intros He (world & Hw & Hg & Hl) self' Ec El. exists (delete e world). rewrite Ec, El. split_and!.
  - by apply push_despawn.
  - intros x [_ Hx]%lookup_delete_is_Some. by apply Hg.
  - pose proof (proj1 (Hl _ _) He) as (ce & te & Hce & Hpe & _). intros k x. split.
    + intros [Hne Hk]%lookup_delete_Some. apply Hl in Hk as (c & t & Hc & Hp & Ht). exists c, t. rewrite lookup_delete_ne; [done|].
      intros <-. apply Hne. congruence.
    + intros (c & t & [Hne Hc]%lookup_delete_Some & Hp & Ht). assert (as_lobby self !! k = Some x) as Hk by (apply Hl; by exists c, t).
      apply lookup_delete_Some. split; [congruence|done].
Qed.

(** A player's input. *)
Lemma world_input entities self id e input :
  as_lobby self !! id = Some e -> world_ok entities self ->
  world_ok entities (as_set_commands self (push_command (as_commands self) (Insert e (ac_set_input input)))).
Proof using bevy_laws.
  intros He (world & Hw & Hg & Hl). pose proof (proj1 (Hl _ _) He) as (ce & te & Hce & Hpe & Hte).
  exists (<[e := ac_set_input input ce]> world). cbn [as_commands as_set_commands as_lobby]. split_and!.
  - by apply push_insert.
  - intros x [<-|[_ Hx]]%lookup_insert_is_Some; [apply Hg; by eexists|by apply Hg].
  - intros k x. rewrite (Hl k x). split.
    + intros (c & t & Hc & Hp & Ht). destruct (decide (e = x)) as [<-|Hne].
      * assert (c = ce) as -> by congruence. exists (ac_set_input input ce), t. by rewrite lookup_insert_eq.
      * exists c, t. by rewrite lookup_insert_ne.
    + intros (c & t & [[<- <-]|[Hne Hc]]%lookup_insert_Some & Hp & Ht); [by exists ce, t|by exists c, t].
Qed.

(** ** What the clients are told *)

(** Messages that turn one lobby into the next. *)
Definition tells self self' : Prop :=
  exists plan, converse plan (as_server self) (as_server self') /\
    forall id, exists ms, says MESSAGES (plan id) ms /\ foldl see (as_lobby self) ms = as_lobby self'.

#[local] Instance tells_preorder : PreOrder tells.
Proof using.
  split.
  - intros s. exists (fun _ => []). split; [by apply converse_same|]. intros id. exists []. split; [constructor|done].
  - intros s1 s2 s3 (p1 & Hc1 & H1) (p2 & Hc2 & H2). exists (fun id => p1 id ++ p2 id). split; [by eapply converse_trans|]. intros id.
    destruct (H1 id) as (m1 & Hs1 & E1), (H2 id) as (m2 & Hs2 & E2). exists (m1 ++ m2). split; [by apply says_app|]. by rewrite foldl_app, E1.
Qed.

(** What a newcomer may know when it is told of the players of a world. *)
Definition covers entities (known lobby : gmap Z Entity) : Prop :=
  forall id e, lobby !! id = Some e <-> known !! id = Some e \/ player_at entities e id.

Lemma elem_of_players entities e id t :
  (e, id, t) ∈ players_query entities <-> exists c, entities !! e = Some c /\ ac_player c = Some id /\ ac_translation c = Some t.
Proof using.
  unfold players_query. rewrite list_elem_of_omap. split.
  - intros ([k c] & Hk%elem_of_map_to_list & E). cbn in E. destruct (ac_player c) as [i|] eqn:Ep; [|done]. destruct (ac_translation c) as [x|] eqn:Et; [|done].
    injection E as <- <- <-. by exists c.
  - intros (c & Hc & Hp & Ht). exists (e, c). split; [by apply elem_of_map_to_list|]. cbn. by rewrite Hp, Ht.
Qed.

Lemma see_query entities known lobby :
  covers entities known lobby ->
  foldl see known ((fun '(entity, id, translation) => PlayerCreate entity id translation) <$> players_query entities) = lobby.
Proof using.
  intros Hc. assert (forall l known, (forall e id t, (e, id, t) ∈ l -> lobby !! id = Some e) -> (forall id e, known !! id = Some e -> lobby !! id = Some e) ->
    (forall id e, lobby !! id = Some e -> known !! id = Some e \/ exists t, (e, id, t) ∈ l) ->
    foldl see known ((fun '(entity, id, translation) => PlayerCreate entity id translation) <$> l) = lobby) as Hl.
  { induction l as [|[[e id] t] l IH]; intros K H1 H2 H3; cbn.
    - apply map_eq. intros k. destruct (lobby !! k) as [x|] eqn:E; [by destruct (H3 _ _ E) as [?|[? ?%elem_of_nil]]|].
      destruct (K !! k) as [x|] eqn:E'; [|done]. apply H2 in E'. congruence.
    - apply IH.
      + intros e' id' t' Hin. apply (H1 e' id' t'). by right.
      + intros k x [[<- <-]|[_ Hk]]%lookup_insert_Some; [apply (H1 e id t); by left|by apply H2].
      + intros k x Hk. destruct (H3 _ _ Hk) as [Hx|[t' [E|Hin]%elem_of_cons]].
        * left. apply lookup_insert_Some. destruct (decide (id = k)) as [<-|]; [left|by right]. split; [done|].
          assert (lobby !! id = Some e) by (apply (H1 e id t); by left). congruence.
        * injection E as -> -> ->. left. by rewrite lookup_insert_eq.
        * right. by exists t'. }
  apply Hl.
  - intros e id t (c & ? & ? & ?)%elem_of_players. apply Hc. right. by exists c, t.
  - intros id e Hk. apply Hc. by left.
  - intros id e [Hk|(c & t & ? & ? & ?)]%Hc; [by left|]. right. exists t. apply elem_of_players. by exists c.
Qed.

Lemma covers_self entities known lobby : covers entities known lobby -> covers entities lobby lobby.
Proof using. intros H id e. split; [by left|]. intros [?|?]; [done|]. apply H. by right. Qed.

Lemma covers_insert entities known lobby id e :
  lobby !! id = None -> covers entities known lobby -> covers entities (<[id := e]> known) (<[id := e]> lobby).
Proof using.
  intros Hn Hc k x. destruct (decide (id = k)) as [<-|Hne].
  - rewrite !lookup_insert_eq. split; [by left|]. intros [?|Hx]; [done|]. assert (lobby !! id = Some x) by (apply Hc; by right). congruence.
  - rewrite !lookup_insert_ne by done. apply Hc.
Qed.

(** Messages that turn one lobby into the next, and that keep a newcomer up to
    date, who is told of all of it on its arrival. *)
Definition welcomes entities (joined : Z -> Prop) self self' : Prop :=
  exists plan, converse plan (as_server self) (as_server self') /\ forall id, exists ms, says MESSAGES (plan id) ms /\
    (covers entities (as_lobby self) (as_lobby self) -> foldl see (as_lobby self) ms = as_lobby self') /\
    (forall K, covers entities K (as_lobby self) -> covers entities (foldl see K ms) (as_lobby self')) /\
    (joined id -> forall K, covers entities K (as_lobby self) -> foldl see K ms = as_lobby self').

Lemma welcomes_refl entities self : welcomes entities (fun _ => False) self self.
Proof using. exists (fun _ => []). split; [by apply converse_same|]. intros id. exists []. split; [constructor|]. split; [done|]. split; [done|]. intros []. Qed.

Lemma welcomes_trans entities j1 j2 s1 s2 s3 :
  welcomes entities j1 s1 s2 -> welcomes entities j2 s2 s3 -> welcomes entities (fun id => j1 id \/ j2 id) s1 s3.
Proof using.
  intros (p1 & Hc1 & H1) (p2 & Hc2 & H2). exists (fun id => p1 id ++ p2 id). split; [by eapply converse_trans|]. intros id.
  destruct (H1 id) as (m1 & Hs1 & A1 & B1 & C1), (H2 id) as (m2 & Hs2 & A2 & B2 & C2). exists (m1 ++ m2).
  setoid_rewrite foldl_app. split; [by apply says_app|]. split; [|split].
  - intros Hc. rewrite (A1 Hc). apply A2. rewrite <- (A1 Hc) at 1. by apply B1.
  - intros K HK. by apply B2, B1.
  - intros [Hj|Hj] K HK; [|by apply (C2 Hj), B1]. rewrite (C1 Hj K HK). apply A2. eapply covers_self. by apply (B1 K).
Qed.

Lemma arrival_welcomes entities self cid self' :
  arena_event fastrand entities self (ClientConnected cid) = Ret self' -> as_lobby self !! cid = None ->
  welcomes entities (fun id => id = cid) self self' /\ (world_ok entities self -> world_ok entities self') /\
  exists e, as_lobby self' = <[cid := e]> (as_lobby self).
Proof using alloc_laws bevy_laws message_laws.
  intros H Hn. cbn [arena_event] in H. destruct (fold_out _ _ _) as [s1|] eqn:E1; cbn [out_bind] in H; [|done].
  destruct (spawn _ _) as [commands e] eqn:Es. destruct (arena_broadcast _ _) as [s2|] eqn:E2; cbn [out_bind] in H; [|done]. injection H as <-.
  apply sends_says in E1 as (l1 & Hc1 & Hl1). apply broadcast_says in E2 as (l2 & Hc2 & Hl2 & _). cbn [as_server as_set_visualizer as_lobby as_drawn as_commands] in *. split; [|split].
  - eexists. split; [eapply converse_trans; [exact Hc1|exact Hc2]|]. intros id. cbn [as_lobby]. destruct (Z.eqb_spec cid id) as [<-|Hne].
    + eexists. split; [apply says_app; [exact Hl1|exact Hl2]|].
      assert (forall K, covers entities K (as_lobby self) -> foldl see K (((fun '(entity, id, translation) => PlayerCreate entity id translation) <$> players_query entities)
        ++ [PlayerCreate e cid (random_position fastrand (as_drawn self))]) = <[cid := e]> (as_lobby self)) as HK.
      { intros K HK. by rewrite foldl_app, (see_query _ _ _ HK). }
      split; [intros Hc; by apply HK|]. split; [|intros _; exact HK]. intros K Hc. rewrite (HK K Hc). apply covers_insert; [done|]. by eapply covers_self.
    + eexists. split; [exact Hl2|]. cbn. split; [done|]. split; [intros K HK; by apply covers_insert|]. congruence.
  - intros Hok. eapply (world_player entities self); [exact Es|done..].
  - by exists e.
Qed.

Lemma departure_tells entities self cid reason self' :
  arena_event fastrand entities self (ClientDisconnected cid reason) = Ret self' -> tells self self' /\ (world_ok entities self -> world_ok entities self').
Proof using bevy_laws message_laws.
  intros H. cbn [arena_event] in H. cbn [as_lobby as_set_visualizer] in H.
  set (self1 := match as_lobby self !! cid with Some _ => _ | None => _ end) in *.
  destruct (arena_broadcast _ _) as [s2|] eqn:E2; cbn [out_bind] in H; [|done]. injection H as <-.
  assert (as_lobby self1 = delete cid (as_lobby self) /\ as_server self1 = as_server self) as [El Es].
  { unfold self1. destruct (as_lobby self !! cid) eqn:El; [done|]. split; [|done]. cbn. by rewrite delete_id. }
  rewrite Es in E2. apply broadcast_says in E2 as (l2 & Hc2 & Hl2 & _). split.
  - exists (fun _ => l2). split; [done|]. intros id. exists [PlayerRemove cid]. split; [done|]. cbn [as_lobby as_set_server foldl see]. by rewrite El.
  - intros Hok. unfold self1. destruct (as_lobby self !! cid) as [e|] eqn:E; [|exact Hok]. by eapply (world_leave entities self).
Qed.

Lemma arrivals_welcome entities ids : forall self self',
  fold_out (arena_event fastrand entities) self (ClientConnected <$> ids) = Ret self' -> NoDup ids -> (forall id, id ∈ ids -> as_lobby self !! id = None) ->
  welcomes entities (fun id => id ∈ ids) self self' /\ (world_ok entities self -> world_ok entities self').
Proof using alloc_laws bevy_laws message_laws.
  induction ids as [|i ids IH]; intros self self' H Hd Hn; cbn [fmap list_fmap fold_out] in H.
  - injection H as <-. split; [|done]. destruct (welcomes_refl entities self) as (p & Hc & Hw). exists p. split; [done|]. intros id.
    destruct (Hw id) as (ms & ? & ? & ? & _). exists ms. split_and!; try done. by intros ?%elem_of_nil.
  - apply NoDup_cons in Hd as [Hi Hd]. destruct (arena_event _ _ _ _) as [self1|] eqn:E; cbn [out_bind] in H; [|done].
    apply arrival_welcomes in E as (W1 & K1 & e & El); [|apply Hn; by left].
    apply IH in H as [W2 K2]; [|done|intros id Hid; rewrite El, lookup_insert_ne; [apply Hn; by right|congruence]]. split; [|auto].
    destruct (welcomes_trans _ _ _ _ _ _ W1 W2) as (p & Hc & Hw). exists p. split; [done|]. intros id. destruct (Hw id) as (ms & ? & ? & ? & Hj). exists ms.
    split_and!; try done. intros Hin. apply Hj. apply elem_of_cons in Hin as [->|?]; auto.
Qed.

(** What the later parts of the system do. *)
Definition goes_on entities self self' : Prop := tells self self' /\ (world_ok entities self -> world_ok entities self').

#[local] Instance goes_on_preorder entities : PreOrder (goes_on entities).
Proof using.
  split; [intros s; split; [reflexivity|done]|]. intros s1 s2 s3 [T1 K1] [T2 K2]. split; [by transitivity s2|auto].
Qed.

Lemma fold_goes_on {A} entities (f : ArenaServer -> A -> out ArenaServer) l : forall self self',
  (forall s a s', a ∈ l -> f s a = Ret s' -> goes_on entities s s') -> fold_out f self l = Ret self' -> goes_on entities self self'.
Proof using.
  induction l as [|a l IH]; intros self self' Hf H; cbn [fold_out] in H; [by injection H as <-|].
  destruct (f self a) as [s1|] eqn:E; cbn [out_bind] in H; [|done]. transitivity s1; [apply (Hf _ a); [by left|done]|].
  apply IH; [|done]. intros s b s' Hb. apply Hf. by right.
Qed.

Lemma attack_goes_on entities id m self self' :
  arena_attack entities id m self = Ret self' ->
  goes_on entities self self' /\ exists p, converse p (as_server self) (as_server self') /\ forall ch, taken ch (p id) = [].
Proof using alloc_laws bevy_laws message_laws.
  intros H. assert (forall s, goes_on entities s s /\ exists p, converse p (as_server s) (as_server s) /\ forall ch, taken ch (p id) = []) as Hrefl.
  { intros s. split; [reflexivity|]. exists (fun _ => []). split; [by apply converse_same|done]. }
  unfold arena_attack in H. destruct (deserialize m) as [[cast_at]|]; cbn [unwrap out_bind] in H; [|done].
  destruct (as_lobby self !! id) as [e|]; [|injection H as <-; apply Hrefl].
  destruct (entities !! e) as [[[t|] ? ? [pid|] ? ?]|]; try (injection H as <-; apply Hrefl).
  unfold spawn_fireball in H. destruct (spawn _ _) as [commands fe] eqn:Es.
  destruct (arena_broadcast _ _) as [server|] eqn:Eb; cbn [out_bind] in H; [|done]. injection H as <-. apply broadcast_says in Eb as (l & Hc & Hl & Ht). split; [split|].
  - exists (fun _ => l). split; [done|]. intros k. eexists. split; [exact Hl|done].
  - intros Hok. by eapply (world_thing entities self).
  - by exists (fun _ => l).
Qed.

Lemma input_goes_on entities id m self self' :
  arena_input id m self = Ret self' -> goes_on entities self self' /\ as_server self' = as_server self.
Proof using bevy_laws.
  unfold arena_input. destruct (deserialize m); cbn [unwrap out_bind]; [|done]. destruct (as_lobby self !! id) as [e|] eqn:E; intros [= <-]; [|done].
  split; [|done]. split; [|intros Hok; by eapply world_input]. exists (fun _ => []). split; [by apply converse_same|]. intros k. exists []. split; [constructor|done].
Qed.

(** A loop that takes messages whose handling goes on. *)
Lemma loop_goes_on entities id ch body self self' :
  (forall m s s', body m s = Ret s' -> goes_on entities s s' /\ exists p, converse p (as_server s) (as_server s') /\ taken ch (p id) = []) ->
  while_let (next_message as_server as_set_server id ch) body (S (server_backlog (as_server self) id ch)) self = Ret self' ->
  goes_on entities self self' /\ server_drained (as_server self') id ch.
Proof using.
  intros Hbody. assert (forall s server r, server_receive_message (as_server s) id ch = Ret (server, r) -> goes_on entities s (as_set_server s server)) as Htake.
  { intros s server r [Hc _]%take_converse. split; [|done]. eexists. split; [exact Hc|]. intros k. exists []. split; [|done].
    unfold says. destruct r as [b|]; [|constructor]. destruct (id =? k); constructor. }
  apply (receive_while as_server as_set_server (fun _ _ => eq_refl) id ch body (goes_on entities)).
  - intros s server Hr. by eapply Htake.
  - intros s server m s' Hr Hb. destruct (Hbody _ _ _ Hb) as [Hg Hp]. split; [|exact Hp]. transitivity (as_set_server s server); [by eapply Htake|done].
Qed.

Lemma receive_goes_on entities self id self' : arena_receive entities self id = Ret self' -> goes_on entities self self'.
Proof using alloc_laws bevy_laws message_laws.
  unfold arena_receive. intros H. destruct (while_let _ _ _ _) as [self1|] eqn:E; cbn [out_bind] in H; [|done].
  apply (loop_goes_on entities) in E as [G1 _].
  2:{ intros m s s' Hb. apply attack_goes_on in Hb as [Hg (p & Hc & Ht)]. split; [done|]. by exists p. }
  apply (loop_goes_on entities) in H as [G2 _]; [by transitivity self1|].
  intros m s s' Hb. apply (input_goes_on entities) in Hb as [Hg Es]. split; [done|]. rewrite Es. exists (fun _ => []). split; [by apply converse_same|done].
Qed.

End server.

(** C28: The game's server keeps its clients in step with its world.  Take a
    frame that begins with an empty queue of commands and with the lobby in step
    with the world, whose arrivals are of different clients, come before its
    departures, and are of clients that the lobby does not have (it may: bots take
    their ids from 0 on, and a client may have any id).  Whenever the system
    returns, the commands can be applied, and then the lobby has exactly the
    players of the world; each client is told, in order, of messages that turn the
    old lobby into the new one, with the entities that stand for the players; and
    for a client that arrives in this frame they do so from nothing. *)
Theorem arena_players_told {glam : Glam} {timers : Timers} {alloc : Allocator} {alloc_laws : AllocatorLaws alloc}
    {bevy : BevyWorld} {bevy_laws : BevyWorldLaws bevy}
    {message_codec : Codec ArenaMessage} {message_laws : CodecLaws ArenaMessage} {command_codec : Codec PlayerCommand}
    {input_codec : Codec PlayerInput} fastrand entities ids departures self self' :
  arena_update_system fastrand entities ((ClientConnected <$> ids) ++ departures) self = Ret self' ->
  NoDup ids -> (forall id, id ∈ ids -> as_lobby self !! id = None) ->
  Forall (fun e => match e with ClientDisconnected _ _ => True | ClientConnected _ => False end) departures ->
  cq_queue (as_commands self) = [] -> world_ok entities self ->
  world_ok entities self' /\
  exists plan, converse plan (as_server self) (as_server self') /\ forall id, exists ms, says MESSAGES (plan id) ms /\
    foldl see (as_lobby self) ms = as_lobby self' /\ (id ∈ ids -> foldl see ∅ ms = as_lobby self').
Proof.
  unfold arena_update_system. intros H Hd Hn Hdep Hq Hok. destruct (fold_out (arena_event _ _) _ _) as [self2|] eqn:E; cbn [out_bind] in H; [|done].
  rewrite fold_out_app in E. destruct (fold_out _ self (_ <$> ids)) as [self1|] eqn:E1; cbn [out_bind] in E; [|done].
  apply arrivals_welcome in E1 as [(p1 & Hc1 & H1) K1]; [|done..].
  assert (goes_on entities self1 self') as [(p2 & Hc2 & H2) K2].
  { destruct (goes_on_preorder entities) as [_ Htrans]. apply (Htrans _ self2).
    - eapply fold_goes_on; [|exact E]. intros s e s' He Hs. rewrite Forall_forall in Hdep. specialize (Hdep e He). destruct e as [|cid reason]; [done|].
      by eapply departure_tells.
    - eapply fold_goes_on; [|exact H]. intros s id s' _ Hs. by eapply receive_goes_on. }
  split; [auto|]. assert (covers entities ∅ (as_lobby self)) as Hcov.
  { destruct Hok as (world & Hw & _ & Hl). rewrite Hq in Hw. injection Hw as <-. intros id e. rewrite (Hl id e), lookup_empty. split; [by right|]. by intros [?|?]. }
  exists (fun id => p1 id ++ p2 id). split; [by eapply converse_trans|]. intros id.
  destruct (H1 id) as (m1 & Hs1 & A1 & _ & C1), (H2 id) as (m2 & Hs2 & A2). exists (m1 ++ m2). rewrite !foldl_app. split; [by apply says_app|]. split.
  - rewrite A1; [done|]. by eapply covers_self.
  - intros Hin. by rewrite (C1 Hin ∅ Hcov).
Qed.

(** A bot arrives like a player, if nobody has its id. *)
Theorem spawn_bot_told {timers : Timers} {alloc : Allocator} {alloc_laws : AllocatorLaws alloc} {bevy : BevyWorld} {bevy_laws : BevyWorldLaws bevy}
    {message_codec : Codec ArenaMessage} {message_laws : CodecLaws ArenaMessage} fastrand entities pressed self self' :
  spawn_bot fastrand pressed self = Ret self' -> as_lobby self !! as_bot_id self = None ->
  tells self self' /\ (world_ok entities self -> world_ok entities self').
Proof.
  unfold spawn_bot. intros H Hn. destruct pressed; [|injection H as <-; split; [apply tells_preorder|done]].
  destruct (add64 _ _) as [bot_id|]; cbn [out_bind] in H; [|done]. destruct (spawn _ _) as [commands e] eqn:Es.
  destruct (arena_broadcast _ _) as [server|] eqn:Eb; cbn [out_bind] in H; [|done]. injection H as <-. apply broadcast_says in Eb as (l & Hc & Hl & _). split.
  - exists (fun _ => l). split; [done|]. intros k. eexists. split; [exact Hl|done].
  - intros Hok. by eapply (world_player entities self).
Qed.

(** ** Projectiles and places *)

(** What a tick makes of an entity: a projectile whose time is up goes. *)
Definition after_tick {timers : Timers} (delta : Z) (c : ArenaComponents) : option ArenaComponents :=
  match ac_projectile c with
  | Some duration => if timer_finished (timer_tick duration delta) then None else Some (ac_set_projectile (timer_tick duration delta) c)
  | None => Some c
  end.

Section projectiles.
Context {timers : Timers} {bevy : BevyWorld} {bevy_laws : BevyWorldLaws bevy} (delta : Z).
Implicit Types (entities m : gmap Entity ArenaComponents) (l : list (Entity * ArenaComponents)).

(** The entity itself after a tick. *)
Definition ticked (c : ArenaComponents) : ArenaComponents :=
  match ac_projectile c with Some duration => ac_set_projectile (timer_tick duration delta) c | None => c end.

(** The projectiles whose time is up. *)
Definition finished l : list Entity :=
  omap (fun kv => match ac_projectile kv.2 with Some duration => if timer_finished (timer_tick duration delta) then Some kv.1 else None | None => None end) l.

Lemma after_tick_None c : after_tick delta c = None \/ after_tick delta c = Some (ticked c).
Proof using. unfold after_tick, ticked. destruct (ac_projectile c); [|by right]. destruct (timer_finished _); [by left|by right]. Qed.

Lemma elem_of_finished l k : k ∈ finished l <-> exists c, (k, c) ∈ l /\ after_tick delta c = None.
Proof using.
  unfold finished, after_tick. rewrite list_elem_of_omap. split.
  - intros ([e c] & Hin & E). cbn in E. exists c. destruct (ac_projectile c); [|done]. destruct (timer_finished _); [|done]. injection E as ->. done.
  - intros (c & Hin & E). exists (k, c). split; [done|]. cbn. destruct (ac_projectile c); [|done]. by destruct (timer_finished _).
Qed.

Lemma despawn_all es : forall m,
  exists m', apply_commands m (Despawn <$> es) = Ret m' /\ forall k, m' !! k = if decide (k ∈ es) then None else m !! k.
Proof using bevy_laws.
  induction es as [|e es IH]; intros m; cbn [fmap list_fmap].
  - exists m. split; [done|]. intros k. rewrite decide_False; [done|]. apply not_elem_of_nil.
  - destruct (IH (delete e m)) as (m' & Hm & Hk). exists m'. split; [unfold apply_commands; cbn [fold_out]; rewrite despawn_any; exact Hm|]. intros k. rewrite Hk. destruct (decide (k ∈ es)) as [Hin|Hin].
    + rewrite decide_True; [done|by right].
    + destruct (decide (k = e)) as [->|Hne]; [rewrite decide_True by (by left); apply lookup_delete_eq|].
      rewrite lookup_delete_ne by done. rewrite decide_False; [done|]. by intros [?|?]%elem_of_cons.
Qed.

Lemma tick_loop l : forall m given (q : list (command ArenaComponents)),
  NoDup l.*1 -> (forall kv, kv ∈ l -> m !! kv.1 = Some kv.2) ->
  exists m', foldl (fun '(entities, commands) kv =>
      match ac_projectile kv.2 with
      | Some duration =>
          let duration := timer_tick duration delta in
          (<[kv.1 := ac_set_projectile duration kv.2]> entities,
           if timer_finished duration then push_command commands (Despawn kv.1) else commands)
      | None => (entities, commands)
      end) (m, mkCommands given q) l = (m', mkCommands given (q ++ (Despawn <$> finished l))) /\
    (forall kv, kv ∈ l -> m' !! kv.1 = Some (ticked kv.2)) /\ (forall k, k ∉ l.*1 -> m' !! k = m !! k).
Proof using.
  induction l as [|[e c] l IH]; intros m given q Hd Hm; cbn [foldl].
  - exists m. cbn. rewrite app_nil_r. split; [done|]. split; [by intros kv ?%elem_of_nil|done].
  - cbn in Hd. apply NoDup_cons in Hd as [He Hd]. assert (forall kv, kv ∈ l -> e <> kv.1) as Hne.
    { intros kv Hkv ->. apply He, list_elem_of_fmap. by exists kv. }
    pose (m1 := match ac_projectile c with Some d => <[e := ac_set_projectile (timer_tick d delta) c]> m | None => m end).
    assert (forall k, e <> k -> m1 !! k = m !! k) as Hm1 by (intros k Hk; unfold m1; destruct (ac_projectile c); [by rewrite lookup_insert_ne|done]).
    assert (m1 !! e = Some (ticked c)) as Hme.
    { unfold m1, ticked. destruct (ac_projectile c); [by rewrite lookup_insert_eq|]. apply (Hm (e, c)). by left. }
    pose (q1 := match ac_projectile c with Some d => if timer_finished (timer_tick d delta) then q ++ [Despawn e] else q | None => q end).
    destruct (IH m1 given q1) as (m' & E & Hin & Hout); [done|intros kv Hkv; rewrite Hm1 by auto; apply Hm; by right|].
    exists m'. split_and!.
    + etrans; [|etrans; [exact E|]].
      * f_equal. cbn [fst snd]. unfold m1, q1. destruct (ac_projectile c) as [d|]; [|done]. by destruct (timer_finished _).
      * f_equal. f_equal. unfold q1, finished. cbn. destruct (ac_projectile c) as [d|]; [|done]. destruct (timer_finished _); [|done]. by rewrite <- app_assoc.
    + intros kv [->|Hkv]%elem_of_cons; [|by apply Hin]. cbn [fst snd]. rewrite Hout; [exact Hme|done].
    + intros k Hk. cbn in Hk. apply not_elem_of_cons in Hk as [Hk1 Hk2]. rewrite Hout by done. by apply Hm1.
Qed.

End projectiles.

(** [update_projectiles_system], once its commands are applied, ticks every
    projectile, removes exactly those whose time is up, and touches nothing else. *)
Theorem projectiles_tick {timers : Timers} {bevy : BevyWorld} {bevy_laws : BevyWorldLaws bevy} delta entities given entities' commands :
  update_projectiles_system delta entities (mkCommands given []) = (entities', commands) ->
  apply_commands entities' (cq_queue commands) = Ret (omap (after_tick delta) entities).
Proof.
  intros H. destruct (tick_loop delta (map_to_list entities) entities given []) as (m' & E & Hin & Hout).
  { apply NoDup_fst_map_to_list. }
  { intros [k c] Hk%elem_of_map_to_list. done. }
  change (update_projectiles_system delta entities (mkCommands given []) = (m', mkCommands given ([] ++ (Despawn <$> finished delta (map_to_list entities))))) in E.
  rewrite E in H. injection H as <- <-. cbn [cq_queue app].
  destruct (despawn_all (finished delta (map_to_list entities)) m') as (m2 & Hm2 & Hk). rewrite Hm2. f_equal. apply map_eq. intros k.
  rewrite Hk, lookup_omap. destruct (entities !! k) as [c|] eqn:Ec; cbn.
  - assert ((k, c) ∈ map_to_list entities) as Hkc by (by apply elem_of_map_to_list). specialize (Hin _ Hkc). cbn in Hin. rewrite Hin.
    destruct (decide (k ∈ _)) as [Hf|Hf].
    + apply elem_of_finished in Hf as (c' & Hc'%elem_of_map_to_list & Ht). congruence.
    + destruct (after_tick_None delta c) as [Ht|Ht]; [|done]. exfalso. apply Hf, elem_of_finished. by exists c.
  - rewrite Hout. 2:{ intros ([k' c'] & -> & Hk'%elem_of_map_to_list)%list_elem_of_fmap. cbn in Ec. congruence. }
    rewrite Ec. by destruct (decide _).
Qed.

(** What [server_network_sync] sends has a place for every entity, so that no
    client fails on it. *)
Theorem positions_never_panic {codec : Codec NetworkedEntities} {laws : CodecLaws NetworkedEntities} {timers : Timers} entities server server' :
  server_network_sync entities server = Ret server' ->
  exists b, converse (fun _ => [Sends NETWORKED b]) server server' /\ forall self, exists self', arena_positions b self = Ret self'.
Proof.
  unfold server_network_sync. set (networked := omap _ _). destruct (serialize _) as [b|] eqn:Eb; cbn [unwrap out_bind]; [|done].
  intros [Hc _]%broadcast_converse. exists b. split; [done|]. intros self. unfold arena_positions. rewrite (decode_encoded _ _ Eb). cbn [unwrap out_bind nw_entities nw_translations].
  assert (forall i, i ∈ Z.of_nat <$> seq 0 (length networked.*1) -> 0 <= i < len networked) as Hi.
  { intros i (n & -> & Hn)%list_elem_of_fmap. apply elem_of_seq in Hn. rewrite length_fmap in Hn. unfold len. lia. }
  revert self. induction (Z.of_nat <$> _) as [|i l IH]; intros self; cbn [fold_out]; [by eexists|].
  assert (0 <= i < len networked) as Hr by (apply Hi; by left).
  destruct (vec_get_total networked.*1 i) as (k & -> & _); [unfold len in *; by rewrite length_fmap|]. cbn [out_bind].
  assert (forall j, j ∈ l -> 0 <= j < len networked) as Hi' by (intros j Hj; apply Hi; by right).
  destruct (al_mapping self !! k); [|by apply IH].
  destruct (vec_get_total networked.*2 i) as (t & -> & _); [unfold len in *; by rewrite length_fmap|]. cbn [out_bind]. by apply IH.
Qed.

(** ** A concrete game *)

Section demo.
#[local] Existing Instance quic_octets.
#[local] Existing Instance next_allocator.
#[local] Existing Instance panicking_world.

(** Libraries to run the game with. *)
#[local] Instance demo_glam : Glam := {|
  vec3_add a b := mkVec3 (f32_add (v_x a) (v_x b)) (f32_add (v_y a) (v_y b)) (f32_add (v_z a) (v_z b));
  vec3_sub a b := mkVec3 (f32_sub (v_x a) (v_x b)) (f32_sub (v_y a) (v_y b)) (f32_sub (v_z a) (v_z b));
  vec3_mul a k := mkVec3 (f32_mul (v_x a) k) (f32_mul (v_y a) k) (f32_mul (v_z a) k);
  vec3_normalize a := a;
  vec3_normalize_or_zero a := a;
  vec3_is_normalized _ := true;
  vec2_from_angle a := mkVec2 a a;
  vec2_normalize_or_zero a := a;
|}.

#[local] Instance demo_timers : Timers := {|
  Timer := Z;
  timer_from_seconds _ _ := from_secs 1;
  timer_tick t d := t - d;
  timer_finished t := t <=? 0;
  timer_just_finished t := t =? 0;
|}.

#[local] Instance arena_message_eq_dec : EqDecision ArenaMessage.
Proof. solve_decision. Defined.

#[local] Instance arena_message_countable : Countable ArenaMessage.
Proof.
  apply (inj_countable'
    (fun m => match m with PlayerCreate e id t => inl (inl (e, id, t)) | PlayerRemove id => inl (inr id)
                         | SpawnProjectile e t => inr (inl (e, t)) | DespawnProjectile e => inr (inr e) end)
    (fun x => match x with inl (inl (e, id, t)) => PlayerCreate e id t | inl (inr id) => PlayerRemove id
                         | inr (inl (e, t)) => SpawnProjectile e t | inr (inr e) => DespawnProjectile e end)).
  by intros [].
Defined.

#[local] Instance player_command_eq_dec : EqDecision PlayerCommand.
Proof. solve_decision. Defined.

#[local] Instance player_command_countable : Countable PlayerCommand.
Proof. apply (inj_countable' (fun '(BasicAttack v) => v) BasicAttack). by intros []. Defined.

#[local] Instance networked_eq_dec : EqDecision NetworkedEntities.
Proof. solve_decision. Defined.

#[local] Instance networked_countable : Countable NetworkedEntities.
Proof. apply (inj_countable' (fun n => (nw_entities n, nw_translations n)) (fun '(e, t) => mkNetworked e t)). by intros []. Defined.

#[local] Instance arena_demo_message_codec : Codec ArenaMessage := bit_codec ArenaMessage.
#[local] Instance arena_demo_message_laws : CodecLaws ArenaMessage := bit_codec_laws ArenaMessage.
#[local] Instance demo_command_codec : Codec PlayerCommand := bit_codec PlayerCommand.
#[local] Instance arena_demo_input_codec : Codec PlayerInput := bit_codec PlayerInput.
#[local] Instance demo_networked_codec : Codec NetworkedEntities := bit_codec NetworkedEntities.

Definition demo_random (n : nat) : f32 := f32_const 1 2.

(** A frame of [server_update_system]: the server, its lobby and its world after it. *)
Definition arena_frame (events : list ServerEvent) (server : RenetServer) (lobby : gmap Z Entity) (given : gset Entity)
    (entities : gmap Entity ArenaComponents) : out (RenetServer * gmap Z Entity * gset Entity * gmap Entity ArenaComponents) :=
  let! self :=
    arena_update_system demo_random entities events (mkArenaServer _ server lobby server_visualizer_default (mkCommands given []) 0 0) in
  let! entities := apply_commands entities (cq_queue (as_commands self)) in
  Ret (as_server self, as_lobby self, cq_given (as_commands self), entities).

(** What a new client with this id shows of what the server has for it. *)
Definition arena_view (server : RenetServer) (id : Z) : out (gmap Z Entity) :=
  let! client := client_new arena_config in
  let! (_, r) := server_get_packets_to_send server id in
  match r with
  | Err _ => Panic
  | Ok packets =>
      let! client := fold_out process_packet (set_connected client) packets in
      let! self := arena_sync_players id (mkArenaClient client ∅ ∅ (mkCommands ∅ [])) in
      let! _ := apply_commands ∅ (cq_queue (al_commands self)) in
      Ret (server_entity <$> al_lobby self)
  end.

(** Player 1 is there; it leaves, and player 2 arrives, in the same frame: the
    server's lobby, and the players that the client of player 2 shows. *)
Definition handover : out (gmap Z Entity * gmap Z Entity) :=
  let! server := add_connection (server_new arena_config) 1 in
  let! (server, lobby, given, entities) := arena_frame [ClientConnected 1] server ∅ ∅ ∅ in
  let! server := add_connection (remove_connection server 1) 2 in
  let! (server, lobby, given, entities) := arena_frame [ClientDisconnected 1 Packet.Transport; ClientConnected 2] server lobby given entities in
  let! view := arena_view server 2 in
  Ret (lobby, view).

(** A player that leaves in the frame in which another arrives stays in the view of
    the newcomer: the system still finds its entity, whose removal is only queued,
    and tells the newcomer of it after its departure was announced. *)
Theorem handover_shows_ghost : handover = Ret ({[2 := 2]}, {[1 := 1; 2 := 2]}).
Proof using. vm_compute. reflexivity. Qed.

(** A server with the connection of player 1, before its arrival is handled. *)
Definition first_player (server : RenetServer) : ArenaServer :=
  mkArenaServer _ server ∅ server_visualizer_default (mkCommands ∅ []) 0 0.

Lemma first_world_ok server : world_ok ∅ (first_player server).
Proof using.
  exists ∅. split; [done|]. split; [intros e [? []%lookup_empty_Some]|]. intros id e. change (as_lobby (first_player server)) with (∅ : gmap Z Entity). split; [intros []%lookup_empty_Some|].
  intros (c & t & []%lookup_empty_Some & _).
Qed.

Lemma arena_players_told_witness :
  exists server self', add_connection (server_new arena_config) 1 = Ret server /\
    arena_update_system demo_random ∅ [ClientConnected 1] (first_player server) = Ret self' /\
    world_ok ∅ self' /\
    exists plan, converse plan server (as_server self') /\ exists ms, says MESSAGES (plan 1) ms /\ foldl see ∅ ms = {[1 := 1]}.
Proof.
  assert ((let! server := add_connection (server_new arena_config) 1 in
    let! self' := arena_update_system demo_random ∅ [ClientConnected 1] (first_player server) in Ret (as_lobby self')) = Ret {[1 := 1]}) as H.
  { vm_compute. reflexivity. }
  destruct (add_connection (server_new arena_config) 1) as [server|]; cbn [out_bind] in H; [|discriminate H].
  destruct (arena_update_system demo_random ∅ [ClientConnected 1] (first_player server)) as [self'|] eqn:E; cbn [out_bind] in H; [|discriminate H].
  injection H as H. exists server, self'. split; [reflexivity|]. split; [exact E|].
  destruct (arena_players_told (alloc_laws := next_allocator_laws) (bevy_laws := panicking_world_laws) demo_random ∅ [1] [] (first_player server) self' E) as [Hok (plan & Hc & Ht)].
  - apply NoDup_singleton.
  - intros id _. reflexivity.
  - constructor.
  - reflexivity.
  - apply first_world_ok.
  - split; [exact Hok|]. exists plan. split; [exact Hc|]. destruct (Ht 1) as (ms & Hs & _ & Hj). exists ms. split; [exact Hs|].
    rewrite Hj; [exact H|]. apply elem_of_cons. left. reflexivity.
Defined.

(** A client to which the server has sent the creation of player 1. *)
Definition first_view : out ArenaClient :=
  let! server := add_connection (server_new arena_config) 1 in
  let! self := arena_update_system demo_random ∅ [ClientConnected 1] (first_player server) in
  let! client := client_new arena_config in
  let! (_, r) := server_get_packets_to_send (as_server self) 1 in
  match r with
  | Err _ => Panic
  | Ok packets =>
      let! client := fold_out process_packet (set_connected client) packets in
      Ret (mkArenaClient client ∅ ∅ (mkCommands ∅ []))
  end.

Lemma first_view_ok self : first_view = Ret self -> view_ok ∅ self.
Proof using.
  unfold first_view. intros H. destruct (add_connection _ 1); cbn [out_bind] in H; [|done]. destruct (arena_update_system _ _ _ _); cbn [out_bind] in H; [|done].
  destruct (client_new _); cbn [out_bind] in H; [|done]. destruct (server_get_packets_to_send _ _) as [[? []]|]; cbn [out_bind] in H; [|done..].
  destruct (fold_out _ _ _); cbn [out_bind] in H; [|done]. injection H as <-. unfold view_ok. cbn [al_commands al_mapping al_lobby]. exists ∅. split; [done|].
  split; [intros e [? []%lookup_empty_Some]|]. split; [intros k e []%lookup_empty_Some|]. split; [intros k k' e []%lookup_empty_Some|].
  split; [intros id info []%lookup_empty_Some|intros id info k []%lookup_empty_Some].
Qed.

(** Messages that no server of the game sends: a player's entity is despawned twice. *)
Lemma despawned_twice client :
  cq_queue (al_commands (foldl (fun self m => arena_apply 1 m self) (mkArenaClient client ∅ ∅ (mkCommands ∅ []))
    [PlayerCreate 5 2 vec3_zero; DespawnProjectile 5; PlayerRemove 2])) =
  [Spawn 1 (mkView vec3_zero false); Despawn 1; Despawn 1].
Proof using. reflexivity. Qed.

Lemma arena_client_follows_witness :
  exists self self', first_view = Ret self /\ arena_sync_players 1 self = Ret self' /\ view_ok ∅ self' /\
    server_entity <$> al_lobby self' = {[1 := 1]}.
Proof.
  assert ((let! self := first_view in let! self' := arena_sync_players 1 self in Ret (server_entity <$> al_lobby self')) = Ret {[1 := 1]}) as H.
  { vm_compute. reflexivity. }
  destruct first_view as [self|] eqn:E0; cbn [out_bind] in H; [|discriminate H].
  destruct (arena_sync_players 1 self) as [self'|] eqn:E; cbn [out_bind] in H; [|discriminate H]. injection H as H.
  exists self, self'. split; [reflexivity|]. split; [exact E|]. split; [|exact H].
  pose proof (arena_client_follows (alloc_laws := next_allocator_laws) (world_laws := panicking_world_laws) ∅ 1 self) as Hf. rewrite E in Hf.
  exact (proj1 Hf (first_view_ok self E0)).
Defined.

End demo.
