(* ===== verification/UnitTests.v ===== *)
(** * The unit tests of renet

    The tests of renet/src, renet/tests and renet_visualizer/src as executable
    definitions: [Panic] when an assertion or an [unwrap] fails.  That they all
    return says that the model computes what the program's authors expect. *)

From S2P Require Import Prelude Octets Packet SliceConstructor ReliableSend ReliableRecv Unreliable PendingAcks Stats Connection Server Visualizer.

(** ** Assertions *)

(** [assert!], [assert_eq!], [Result::unwrap] and a refutable [let .. else]. *)
Definition assert (b : bool) : out unit := if b then Ret tt else Panic.

Definition assert_eq {A} `{EqDecision A} (x y : A) : out unit := assert (bool_decide (x = y)).

Definition unwrap_ok {A E} (r : result A E) : out A := match r with Ok a => Ret a | Err _ => Panic end.

Definition unwrap_err {A E} (r : result A E) : out E := match r with Ok _ => Panic | Err e => Ret e end.

Definition repeat_out {S} (n : nat) (f : S -> out S) (s : S) : out S := fold_out (fun s _ => f s) s (seq 0 n).

#[global] Instance Slice_eq_dec : EqDecision Slice.
Proof. solve_decision. Defined.
#[global] Instance Range_eq_dec : EqDecision Range.
Proof. solve_decision. Defined.
#[global] Instance Packet_eq_dec : EqDecision Packet.
Proof. solve_decision. Defined.
#[global] Instance f64_eq_dec : EqDecision f64.
Proof. solve_decision. Defined.

Definition bytes_of (l : list Z) : Bytes := byte_of <$> l.

(** ** Reliable channels (renet/src/channel/reliable.rs) *)

Definition send_ok (send : SendChannelReliable) (message : Bytes) : out SendChannelReliable :=
  let! (send, r) := sr_send_message send message in
  let! _ := unwrap_ok r in
  Ret send.

Definition process_ok (recv : ReceiveChannelReliable) (m : Z * Bytes) : out ReceiveChannelReliable :=
  let! (recv, r) := rr_process_message recv m.2 m.1 in
  let! _ := unwrap_ok r in
  Ret recv.

Definition receive_ok (recv : ReceiveChannelReliable) : out (ReceiveChannelReliable * Bytes) :=
  let! (recv, m) := rr_receive_message recv in
  let! m := unwrap m in
  Ret (recv, m).

Definition reliable_small_packet : out unit :=
  let resend_time := from_millis 100 in
  let recv := rr_new 10000 true in
  let send := sr_new 0 resend_time 10000 in
  let message1 := bytes_of [1; 2; 3] in
  let message2 := bytes_of [3; 4; 5] in
  let! send := send_ok send message1 in
  let! send := send_ok send message2 in
  let! (send, sequence, available_bytes, packets) := sr_get_packets_to_send send 0 U64_MAX 0 in
  let! recv :=
    fold_out (fun recv packet =>
      match packet with
      | SmallReliable 0 0 messages => fold_out process_ok recv messages
      | _ => Panic
      end) recv packets in
  let! (recv, new_message1) := receive_ok recv in
  let! (recv, new_message2) := receive_ok recv in
  let! _ := assert_eq message1 new_message1 in
  let! _ := assert_eq message2 new_message2 in
  let! (send, sequence, available_bytes, packets) := sr_get_packets_to_send send sequence available_bytes 0 in
  let! _ := assert_eq packets [] in
  let! current_time := dur_add 0 resend_time in
  let! (send, sequence, available_bytes, packets) := sr_get_packets_to_send send sequence available_bytes current_time in
  let! _ := assert_eq (len packets) 1 in
  let! current_time := dur_add current_time resend_time in
  let! send := sr_process_message_ack send 0 in
  let! send := sr_process_message_ack send 1 in
  let! (send, sequence, available_bytes, packets) := sr_get_packets_to_send send sequence available_bytes current_time in
  assert_eq packets [].

Definition reliable_small_packet_unordered : out unit :=
  let resend_time := from_millis 100 in
  let recv := rr_new 10000 false in
  let send := sr_new 0 resend_time 10000 in
  let message1 := bytes_of [1; 2; 3] in
  let message2 := bytes_of [3; 4; 5] in
  let message3 := bytes_of [6; 7; 8] in
  let! send := send_ok send message1 in
  let! send := send_ok send message2 in
  let! send := send_ok send message3 in
  let! (send, sequence, available_bytes, packets) := sr_get_packets_to_send send 0 U64_MAX 0 in
  let! _ := assert_eq (len packets) 1 in
  let! packet := vec_get packets 0 in
  let! messages := match packet with SmallReliable _ _ messages => Ret messages | _ => Panic end in
  let! _ := assert_eq (len messages) 3 in
  let! m := vec_get messages 2 in
  let! recv := process_ok recv m in
  let! (recv, new_message3) := receive_ok recv in
  let! m := vec_get messages 1 in
  let! recv := process_ok recv m in
  let! (recv, new_message2) := receive_ok recv in
  let! m := vec_get messages 0 in
  let! recv := process_ok recv m in
  let! (recv, new_message1) := receive_ok recv in
  let! _ := assert_eq message1 new_message1 in
  let! _ := assert_eq message2 new_message2 in
  let! _ := assert_eq message3 new_message3 in
  let! _ :=
    match reliable_order recv with
    | Ordered => Panic
    | Unordered most_recent_message_id received_messages =>
        let! _ := assert_eq most_recent_message_id 2 in
        assert (bool_decide (received_messages = ∅))
    end in
  let! (send, sequence, available_bytes, packets) := sr_get_packets_to_send send sequence available_bytes 0 in
  let! _ := assert_eq packets [] in
  let! current_time := dur_add 0 resend_time in
  let! (send, sequence, available_bytes, packets) := sr_get_packets_to_send send sequence available_bytes current_time in
  let! _ := assert_eq (len packets) 1 in
  let! current_time := dur_add current_time resend_time in
  let! send := sr_process_message_ack send 0 in
  let! send := sr_process_message_ack send 1 in
  let! send := sr_process_message_ack send 2 in
  let! (send, sequence, available_bytes, packets) := sr_get_packets_to_send send sequence available_bytes current_time in
  assert_eq packets [].

Definition reliable_slice_packet : out unit :=
  let resend_time := from_millis 100 in
  let recv := rr_new 10000 true in
  let send := sr_new 0 resend_time 10000 in
  let message := vec_repeat (byte_of 5) (SLICE_SIZE * 3) in
  let! send := send_ok send message in
  let! (send, sequence, available_bytes, packets) := sr_get_packets_to_send send 0 U64_MAX 0 in
  let! recv :=
    fold_out (fun recv packet =>
      match packet with
      | ReliableSlice _ 0 slice =>
          let! (recv, r) := rr_process_slice recv slice in
          let! _ := unwrap_ok r in
          Ret recv
      | _ => Panic
      end) recv packets in
  let! (recv, new_message) := receive_ok recv in
  let! _ := assert_eq message new_message in
  let! (send, sequence, available_bytes, packets) := sr_get_packets_to_send send sequence available_bytes 0 in
  let! _ := assert_eq packets [] in
  let! current_time := dur_add 0 resend_time in
  let! (send, sequence, available_bytes, packets) := sr_get_packets_to_send send sequence available_bytes current_time in
  let! _ := assert_eq (len packets) 3 in
  let! current_time := dur_add current_time resend_time in
  let! send := sr_process_slice_message_ack send 0 0 in
  let! send := sr_process_slice_message_ack send 0 1 in
  let! send := sr_process_slice_message_ack send 0 2 in
  let! (send, sequence, available_bytes, packets) := sr_get_packets_to_send send sequence available_bytes current_time in
  assert_eq packets [].

Definition reliable_max_memory : out unit :=
  let recv := rr_new 99 true in
  let send := sr_new 0 (from_millis 100) 101 in
  let message := vec_repeat (byte_of 5) 100 in
  let! send := send_ok send message in
  let! (send, sequence, available_bytes, packets) := sr_get_packets_to_send send 0 U64_MAX 0 in
  let! recv :=
    fold_out (fun recv packet =>
      match packet with
      | SmallReliable 0 0 messages =>
          fold_out (fun recv m =>
            let! (recv, r) := rr_process_message recv m.2 m.1 in
            let! e := unwrap_err r in
            let! _ := assert_eq e ReliableChannelMaxMemoryReached in
            Ret recv) recv messages
      | _ => Panic
      end) recv packets in
  let! (send, r) := sr_send_message send message in
  let! send_err := unwrap_err r in
  assert_eq send_err ReliableChannelMaxMemoryReached.

Definition reliable_available_bytes : out unit :=
  let send := sr_new 0 (from_millis 100) U64_MAX in
  let message := vec_repeat (byte_of 0) 100 in
  let! send := send_ok send message in
  let! send := send_ok send message in
  let! (send, sequence, _, packets) := sr_get_packets_to_send send 0 50 0 in
  let! _ := assert_eq (len packets) 0 in
  let! (send, sequence, _, packets) := sr_get_packets_to_send send sequence 100 0 in
  let! _ := assert_eq (len packets) 1 in
  let! (send, sequence, _, packets) := sr_get_packets_to_send send sequence 100 0 in
  let! _ := assert_eq (len packets) 1 in
  let! (send, sequence, _, packets) := sr_get_packets_to_send send sequence U64_MAX 0 in
  assert_eq (len packets) 0.

Definition reliable_small_packet_max_size : out unit :=
  let send := sr_new 0 (from_millis 100) U64_MAX in
  let message := bytes_of [0; 1; 2; 3] in
  let! send := repeat_out 300 (fun send => send_ok send message) send in
  let! (send, sequence, _, packets) := sr_get_packets_to_send send 0 U64_MAX 0 in
  let! _ := assert_eq (len packets) 2 in
  fold_out (fun _ packet =>
    let! r := to_bytes packet (with_slice 1400) in
    let! (n, _) := unwrap_ok r in
    assert (n <? 1300)) tt packets.

(** ** Unreliable channels (renet/src/channel/unreliable.rs) *)

Definition unreliable_small_packet : out unit :=
  let recv := ru_new 0 10000 in
  let send := su_new 0 10000 in
  let message1 := bytes_of [1; 2; 3] in
  let message2 := bytes_of [3; 4; 5] in
  let! send := su_send_message send message1 in
  let! send := su_send_message send message2 in
  let! (send, sequence, available_bytes, packets) := su_get_packets_to_send send 0 U64_MAX in
  let! recv :=
    fold_out (fun recv packet =>
      match packet with
      | SmallUnreliable _ _ messages => fold_out ru_process_message recv messages
      | _ => Panic
      end) recv packets in
  let! (recv, new_message1) := ru_receive_message recv in
  let! new_message1 := unwrap new_message1 in
  let! (recv, new_message2) := ru_receive_message recv in
  let! new_message2 := unwrap new_message2 in
  let! (recv, none) := ru_receive_message recv in
  let! _ := assert_eq none None in
  let! _ := assert_eq message1 new_message1 in
  let! _ := assert_eq message2 new_message2 in
  let! (send, sequence, available_bytes, packets) := su_get_packets_to_send send sequence available_bytes in
  assert_eq packets [].

Definition unreliable_slice_packet : out unit :=
  let recv := ru_new 0 10000 in
  let send := su_new 0 10000 in
  let message := vec_repeat (byte_of 5) (SLICE_SIZE * 3) in
  let! send := su_send_message send message in
  let! (send, sequence, available_bytes, packets) := su_get_packets_to_send send 0 U64_MAX in
  let! recv :=
    fold_out (fun recv packet =>
      match packet with
      | UnreliableSlice _ _ slice =>
          let! (recv, r) := ru_process_slice recv slice 0 in
          let! _ := unwrap_ok r in
          Ret recv
      | _ => Panic
      end) recv packets in
  let! (recv, new_message) := ru_receive_message recv in
  let! new_message := unwrap new_message in
  let! (recv, none) := ru_receive_message recv in
  let! _ := assert_eq none None in
  let! _ := assert_eq message new_message in
  let! (send, sequence, available_bytes, packets) := su_get_packets_to_send send sequence available_bytes in
  assert_eq packets [].

Definition unreliable_max_memory : out unit :=
  let recv := ru_new 0 50 in
  let send := su_new 0 40 in
  let message := vec_repeat (byte_of 5) 50 in
  let! send := su_send_message send message in
  let! send := su_send_message send message in
  let! (send, sequence, available_bytes, packets) := su_get_packets_to_send send 0 U64_MAX in
  let! recv :=
    fold_out (fun recv packet =>
      match packet with
      | SmallUnreliable _ _ messages =>
          let! _ := assert_eq (len messages) 1 in
          fold_out ru_process_message recv messages
      | _ => Panic
      end) recv packets in
  let! (recv, none) := ru_receive_message recv in
  assert_eq none None.

Definition unreliable_available_bytes : out unit :=
  let send := su_new 0 U64_MAX in
  let message := vec_repeat (byte_of 0) 100 in
  let! send := su_send_message send message in
  let! (send, sequence, _, packets) := su_get_packets_to_send send 0 50 in
  let! _ := assert_eq (len packets) 0 in
  let! (send, sequence, _, packets) := su_get_packets_to_send send sequence U64_MAX in
  let! _ := assert_eq (len packets) 0 in
  let! send := su_send_message send message in
  let! send := su_send_message send message in
  let! (send, sequence, _, packets) := su_get_packets_to_send send sequence 100 in
  let! _ := assert_eq (len packets) 1 in
  let! (send, sequence, _, packets) := su_get_packets_to_send send sequence U64_MAX in
  assert_eq (len packets) 0.

Definition unreliable_small_packet_max_size : out unit :=
  let send := su_new 0 U64_MAX in
  let message := bytes_of [0; 1; 2; 3] in
  let! send := repeat_out 400 (fun send => su_send_message send message) send in
  let! (send, sequence, _, packets) := su_get_packets_to_send send 0 U64_MAX in
  let! _ := assert_eq (len packets) 2 in
  fold_out (fun _ packet =>
    let! r := to_bytes packet (with_slice 1400) in
    let! (n, _) := unwrap_ok r in
    assert (n <? 1300)) tt packets.

(** ** Packets (renet/src/packet.rs) *)

(** The packet written into a buffer of 1300 zeros and read back from all of it. *)
Definition serialize (packet : Packet) : out unit :=
  let! r := to_bytes packet (with_slice 1300) in
  let! (_, b) := unwrap_ok r in
  let! r := from_bytes (om_written b ++ vec_repeat (byte_of 0) (om_cap b)) in
  let! recv_packet := unwrap_ok r in
  assert_eq packet recv_packet.

Definition serialize_small_reliable_packet : out unit :=
  serialize (SmallReliable 0 0 [(0, bytes_of [0; 0; 0]); (1, bytes_of [1; 1; 1]); (2, bytes_of [2; 2; 2])]).

Definition serialize_small_unreliable_packet : out unit :=
  serialize (SmallUnreliable 0 0 [bytes_of [0; 0; 0]; bytes_of [1; 1; 1]; bytes_of [2; 2; 2]]).

Definition serialize_reliable_slice_packet : out unit :=
  serialize (ReliableSlice 0 0 (mkSlice 0 0 1 (vec_repeat (byte_of 5) SLICE_SIZE))).

Definition serialize_unreliable_slice_packet : out unit :=
  serialize (UnreliableSlice 0 0 (mkSlice 0 0 1 (vec_repeat (byte_of 5) SLICE_SIZE))).

Definition serialize_ack_packet : out unit :=
  serialize (Ack 0 [mkRange 3 7; mkRange 10 20; mkRange 30 100]).

(** ** Statistics (renet/src/connection_stats.rs) *)

Definition bytes_per_sec : out unit :=
  let round '(window, current_time) :=
    let! window := stats_update window current_time in
    let! window := stats_sent_packets window 10 100 in
    let! current_time := dur_add current_time (from_millis 100) in
    Ret (window, current_time) in
  let! (window, current_time) := repeat_out 10 round (stats_new, 0) in
  let! rate := bytes_sent_per_second window current_time in
  let! _ := assert_eq rate (f64_of 1000) in
  let! (window, current_time) := repeat_out 50 round (window, current_time) in
  let! _ := assert_eq (packets_sent window) (vec_repeat 30 SIZE) in
  let! _ := assert_eq (bytes_sent window) (vec_repeat 300 SIZE) in
  let! rate := bytes_sent_per_second window current_time in
  assert_eq rate (f64_of 1000).

Definition packet_loss_test : out unit :=
  let round '(window, current_time) :=
    let! window := stats_update window current_time in
    let! window := stats_sent_packets window 2 100 in
    let! window := stats_acked_packet window current_time current_time in
    let! current_time := dur_add current_time (from_millis 100) in
    Ret (window, current_time) in
  let half := f64_div (f64_of 1) (f64_of 2) in
  let! (window, current_time) := repeat_out 20 round (stats_new, 0) in
  let! loss := packet_loss window in
  let! _ := assert_eq loss half in
  let! (window, current_time) := repeat_out 40 round (window, current_time) in
  let! _ := assert_eq (packets_sent window) (vec_repeat 6 SIZE) in
  let! _ := assert_eq (packets_acked window) (vec_repeat 3 SIZE) in
  let! loss := packet_loss window in
  assert_eq loss half.

(** ** Connections (renet/src/remote_connection.rs) *)

(** Acknowledge and look at the ranges. *)
Definition ack_and_expect (acks : list Range) (step : Z * list (Z * Z)) : out (list Range) :=
  let! acks := add_pending_ack acks step.1 in
  let! _ := assert_eq acks ((fun r => mkRange r.1 r.2) <$> step.2) in
  Ret acks.

Definition pending_acks_test : out unit :=
  let! _ := fold_out ack_and_expect [] [
    (3, [(3, 4)]);
    (4, [(3, 5)]);
    (2, [(2, 5)]);
    (0, [(0, 1); (2, 5)]);
    (7, [(0, 1); (2, 5); (7, 8)]);
    (1, [(0, 5); (7, 8)]);
    (5, [(0, 6); (7, 8)]);
    (6, [(0, 8)])] in
  Ret tt.

Definition ack_pending_acks : out unit :=
  let! acks := fold_out add_pending_ack [] (seqZ 0 10) in
  let! _ := assert_eq acks [mkRange 0 10] in
  let! acks := acked_largest acks 0 in
  let! _ := assert_eq acks [mkRange 1 10] in
  let! acks := acked_largest acks 3 in
  let! _ := assert_eq acks [mkRange 4 10] in
  let! acks := add_pending_ack acks 0 in
  let! _ := assert_eq acks [mkRange 0 1; mkRange 4 10] in
  let! acks := acked_largest acks 5 in
  let! _ := assert_eq acks [mkRange 6 10] in
  let! acks := add_pending_ack acks 0 in
  let! _ := assert_eq acks [mkRange 0 1; mkRange 6 10] in
  let! acks := acked_largest acks 10 in
  assert_eq acks [].

Definition discard_old_packets : out unit :=
  let! connection := client_new default_config in
  let! connection := send_message connection 0 (vec_repeat (byte_of 5) 5) in
  let! (connection, _) := get_packets_to_send connection in
  let! _ := assert (Z.of_nat (size (sent_packets connection)) =? 1) in
  let! connection := client_update connection (from_secs 1) in
  let! _ := assert (Z.of_nat (size (sent_packets connection)) =? 1) in
  let! connection := client_update connection (from_secs 4) in
  assert (Z.of_nat (size (sent_packets connection)) =? 0).

(** ** A server and a client (renet/tests/lib.rs) *)

(** "test", "test server" and "test client". *)
Definition test_text : Bytes := bytes_of [116; 101; 115; 116].
Definition test_server_text : Bytes := test_text ++ bytes_of [32; 115; 101; 114; 118; 101; 114].
Definition test_client_text : Bytes := test_text ++ bytes_of [32; 99; 108; 105; 101; 110; 116].

(** [while let Some(message) = client.receive_message(..)], at most [fuel] times. *)
Fixpoint receive_all (fuel : nat) (client : RenetClient) (message : Bytes) (count : Z) : out (RenetClient * Z) :=
  match fuel with
  | O => Panic
  | S fuel =>
      let! (client, m) := receive_message client 2 in
      match m with
      | None => Ret (client, count)
      | Some m =>
          let! _ := assert_eq m message in
          receive_all fuel client message (count + 1)
      end
  end.

Definition process_small (client : RenetClient) (packet : Bytes) : out RenetClient :=
  let! _ := assert (len packet <? 1300) in
  process_packet client packet.

Definition test_remote_connection_reliable_channel : out unit :=
  let server := server_new default_config in
  let! client := client_new default_config in
  let! server := add_connection server 0 in
  let! _ := assert_eq (connected_clients server) 1 in
  let! _ := assert (has_connections server) in
  let (server, event) := get_event server in
  let! _ := assert_eq event (Some (ClientConnected 0)) in
  let! server := repeat_out 200 (fun server => server_send_message server 0 2 test_text) server in
  let! (server, r) := server_get_packets_to_send server 0 in
  let! packets := unwrap_ok r in
  let! client := fold_out process_small client packets in
  let! _ := assert_eq (disconnect_reason client) None in
  let! (client, count) := receive_all 201 client test_text 0 in
  let! _ := assert_eq count 200 in
  let message := concat (replicate 1000 test_text) in
  let! server := repeat_out 10 (fun server => server_send_message server 0 2 message) server in
  let! (server, r) := server_get_packets_to_send server 0 in
  let! packets := unwrap_ok r in
  let! client := fold_out process_small client packets in
  let! (client, count) := receive_all 11 client message 0 in
  let! _ := assert_eq count 10 in
  let server := remove_connection server 0 in
  let! _ := assert_eq (connected_clients server) 0 in
  let! _ := assert (negb (has_connections server)) in
  let (server, event) := get_event server in
  assert_eq event (Some (ClientDisconnected 0 Transport)).

Definition test_local_client : out unit :=
  let server := server_new default_config in
  let! (server, client) := new_local_client server 0 in
  let (server, connect_event) := get_event server in
  let! _ := assert_eq connect_event (Some (ClientConnected 0)) in
  let! server := server_send_message server 0 2 test_server_text in
  let! client := send_message client 2 test_client_text in
  let! (server, client, r) := process_local_client server 0 client in
  let! _ := unwrap_ok r in
  let! (server, server_message) := server_receive_message server 0 2 in
  let! _ := assert_eq server_message (Some test_client_text) in
  let! (client, client_message) := receive_message client 2 in
  let! _ := assert_eq client_message (Some test_server_text) in
  let (server, client) := disconnect_local_client server 0 client in
  let! _ := assert (is_disconnected client) in
  let (server, disconnect_event) := get_event server in
  assert_eq disconnect_event (Some (ClientDisconnected 0 DisconnectedByClient)).

(** ** The circular buffer (renet_visualizer/src/circular_buffer.rs) *)

Definition circular_buffer_usage : out unit :=
  let buffer := buffer_default 3 0 in
  let! v := as_vec buffer in
  let! _ := assert_eq v [0; 0; 0] in
  let! buffer := fold_out (buffer_push 3) buffer [1; 2; 3] in
  let! v := as_vec buffer in
  let! _ := assert_eq v [1; 2; 3] in
  let! buffer := fold_out (buffer_push 3) buffer [4; 5] in
  let! v := as_vec buffer in
  assert_eq v [3; 4; 5].

(** ** The fuzz target (renet/fuzz/fuzz_targets/process_packet.rs) *)

Definition fuzz_process_packet (data : Bytes) : out unit :=
  let! connection := client_new default_config in
  let! _ := process_packet connection data in
  Ret tt.

(** ** All of them *)

Definition renet_tests : list (out unit) := [
  reliable_small_packet; reliable_small_packet_unordered; reliable_slice_packet; reliable_max_memory; reliable_available_bytes;
  reliable_small_packet_max_size;
  unreliable_small_packet; unreliable_slice_packet; unreliable_max_memory; unreliable_available_bytes; unreliable_small_packet_max_size;
  serialize_small_reliable_packet; serialize_small_unreliable_packet; serialize_reliable_slice_packet;
  serialize_unreliable_slice_packet; serialize_ack_packet;
  bytes_per_sec; packet_loss_test; pending_acks_test; ack_pending_acks; discard_old_packets;
  test_remote_connection_reliable_channel; test_local_client; circular_buffer_usage].

(** Every unit and integration test of renet, and that of the visualizer's
    circular buffer, passes on the model: none of its assertions fails and none
    of its [unwrap]s panics. *)
Theorem renet_tests_pass : Forall (fun test => test = Ret tt) renet_tests.
Proof. repeat (constructor; [vm_compute; reflexivity|]). constructor. Qed.
