(* ===== verification/NetcodeTests.v ===== *)
(** * The unit tests of renetcode

    The tests of renetcode/src as executable definitions, over the cipher of
    [plain_aead].  What the tests draw from [generate_random_bytes] are their
    arguments. *)

From S2P Require Import Prelude Netcode ReplayProtection Token NetPacket NetClient NetServer UnitTests.

#[global] Instance NetPacket_eq_dec : EqDecision NetPacket.
Proof. solve_decision. Defined.
#[global] Instance ChallengeToken_eq_dec : EqDecision ChallengeToken.
Proof. solve_decision. Defined.
#[global] Instance PrivateConnectToken_eq_dec : EqDecision PrivateConnectToken.
Proof. solve_decision. Defined.
#[global] Instance ConnectToken_eq_dec : EqDecision ConnectToken.
Proof. solve_decision. Defined.

(** "an example very very secret key.", 32 bytes. *)
Definition TEST_KEY : Bytes :=
  bytes_of [97; 110; 32; 101; 120; 97; 109; 112; 108; 101; 32; 118; 101; 114; 121; 32; 118; 101; 114; 121; 32;
            115; 101; 99; 114; 101; 116; 32; 107; 101; 121; 46].

Definition localhost (last port : Z) : SocketAddr := V4 (bytes_of [127; 0; 0; last]) port.

(** ** Encryption (crypto.rs) *)

(** "some packet data" and "test". *)
Definition test_encrypt_decrypt_in_place : out unit :=
  let sequence := 2 in
  let aad := bytes_of [116; 101; 115; 116] in
  let text := bytes_of [115; 111; 109; 101; 32; 112; 97; 99; 107; 101; 116; 32; 100; 97; 116; 97] in
  let data := text ++ vec_repeat (byte_of 0) NETCODE_MAC_BYTES in
  let! r := encrypt_in_place data sequence TEST_KEY aad in
  let! data := unwrap_ok r in
  let! r := dencrypted_in_place data sequence TEST_KEY aad in
  let! data := unwrap_ok r in
  assert_eq (take (length text) data) text.

(** ** Replay protection (replay_protection.rs) *)

Definition expect_received (expected : bool) (rp : ReplayProtection) (sequence : Z) : out unit :=
  let! b := already_received rp sequence in
  assert (eqb b expected).

Definition replay_protection_test : out unit :=
  let! _ := assert_eq (most_recent_sequence replay_new) 0 in
  let max_sequence := NETCODE_REPLAY_BUFFER_SIZE * 4 in
  let! rp :=
    fold_out (fun rp i =>
      let! _ := expect_received false rp i in
      advance_sequence rp i) replay_new (seqZ 0 max_sequence) in
  let! _ := expect_received true rp 0 in
  let! _ := fold_out (fun _ i => expect_received true rp i) tt (seqZ (max_sequence - 10) 10) in
  let! _ := expect_received false rp (max_sequence + NETCODE_REPLAY_BUFFER_SIZE) in
  fold_out (fun _ i => expect_received true rp i) tt (seqZ 0 max_sequence).

(** ** Tokens (token.rs) *)

Definition two_hosts : list SocketAddr := [localhost 1 8080; localhost 2 3000].

Definition private_connect_token_serialization (rnd : TokenRandom) (user_data : Bytes) : out unit :=
  let! r := private_generate rnd 1 5 two_hosts (Some user_data) in
  let! token := unwrap_ok r in
  let! result := unwrap_ok (private_read (concat (private_write token))) in
  assert_eq token result.

Definition private_connect_token_encode_decode (rnd : TokenRandom) (user_data xnonce : Bytes) : out unit :=
  let! r := private_generate rnd 1 5 two_hosts (Some user_data) in
  let! token := unwrap_ok r in
  let protocol_id := 12 in
  let expire_timestamp := 0 in
  let! r := private_encode token (vec_repeat (byte_of 0) NETCODE_CONNECT_TOKEN_PRIVATE_BYTES) protocol_id expire_timestamp xnonce TEST_KEY in
  let! buffer := unwrap_ok r in
  let! r := private_decode buffer protocol_id expire_timestamp xnonce TEST_KEY in
  let! result := unwrap_ok r in
  assert_eq token result.

Definition connect_token_serialization (rnd : TokenRandom) (user_data : Bytes) : out unit :=
  let protocol_id := 2 in
  let expire_seconds := 3 in
  let client_id := 4 in
  let timeout_seconds := 5 in
  let! r := token_generate rnd 0 protocol_id expire_seconds client_id timeout_seconds two_hosts (Some user_data) TEST_KEY in
  let! token := unwrap_ok r in
  let! (result, _) := unwrap_ok (token_read (concat (token_write token))) in
  let! _ := assert_eq token result in
  let! r := private_decode (ct_private_data result) protocol_id (ct_expire_timestamp result) (ct_xnonce result) TEST_KEY in
  let! private := unwrap_ok r in
  let! _ := assert_eq timeout_seconds (pt_timeout_seconds private) in
  let! _ := assert_eq client_id (pt_client_id private) in
  let! _ := assert_eq user_data (pt_user_data private) in
  let! _ := assert_eq (ct_server_addresses token) (pt_server_addresses private) in
  let! _ := assert_eq (ct_client_to_server_key token) (pt_client_to_server_key private) in
  assert_eq (ct_server_to_client_key token) (pt_server_to_client_key private).

(** ** Packets (packet.rs) *)

(** [write] into a vector and [read] of it. *)
Definition packet_serialization (packet : NetPacket) : out unit :=
  let! deserialized := unwrap_ok (packet_read (packet_type packet) (concat (packet_write packet))) in
  assert_eq deserialized packet.

Definition connection_request_serialization (xnonce : Bytes) : out unit :=
  packet_serialization (ConnectionRequest (vec_repeat (byte_of 0) 13) 1 3 xnonce (vec_repeat (byte_of 5) 1024)).

Definition connection_challenge_serialization : out unit :=
  packet_serialization (Challenge 0 (vec_repeat (byte_of 1) 300)).

Definition connection_keep_alive_serialization : out unit :=
  packet_serialization (KeepAlive 1 2).

Definition prefix_sequence : out unit :=
  let packet_type := packet_id Disconnect in
  let sequence := 99999 in
  let c := write_sequence (mkCursor (vec_repeat (byte_of 0) 8) 0) sequence in
  let buffer := take (Z.to_nat (cur_pos c)) (cur_buf c) in
  let prefix := encode_prefix packet_type sequence in
  let (d_packet_type, sequence_len) := decode_prefix prefix in
  let! _ := assert_eq packet_type d_packet_type in
  let! _ := assert_eq (len buffer) sequence_len in
  let! r := read_sequence buffer sequence_len in
  let! (d_sequence, _) := unwrap_ok r in
  assert_eq sequence d_sequence.

(** [encode] into a fresh buffer; the packet is its beginning. *)
Definition encoded (packet : NetPacket) (protocol_id sequence : Z) (key : Bytes) : out Bytes :=
  let! (buffer, r) := net_encode packet (vec_repeat (byte_of 0) NETCODE_MAX_PACKET_BYTES) protocol_id (Some (sequence, key)) in
  let! n := unwrap_ok r in
  Ret (take (Z.to_nat n) buffer).

(** [decode] without replay protection. *)
Definition decoded (buffer : Bytes) (protocol_id : Z) (key : option Bytes) : out (Z * NetPacket) :=
  let! (_, r) := net_decode buffer protocol_id key None in
  unwrap_ok r.

Definition encrypt_decrypt (packet : NetPacket) (protocol_id sequence : Z) : out unit :=
  let! buffer := encoded packet protocol_id sequence TEST_KEY in
  let! (d_sequence, d_packet) := decoded buffer protocol_id (Some TEST_KEY) in
  let! _ := assert_eq sequence d_sequence in
  assert_eq packet d_packet.

Definition encrypt_decrypt_disconnect_packet : out unit := encrypt_decrypt Disconnect 12 1.

Definition encrypt_decrypt_denied_packet : out unit := encrypt_decrypt ConnectionDenied 12 2.

Definition encrypt_decrypt_payload_packet : out unit :=
  encrypt_decrypt (Payload (vec_repeat (byte_of 7) NETCODE_MAX_PAYLOAD_BYTES)) 12 2.

Definition encrypt_decrypt_challenge_token (user_data challenge_key : Bytes) : out unit :=
  let token := mkChallengeToken 0 user_data in
  let! r := generate_challenge 0 user_data 1 challenge_key in
  let! packet := unwrap_ok r in
  match packet with
  | Challenge token_sequence token_data =>
      let! r := challenge_decode token_data token_sequence challenge_key in
      let! decoded := unwrap_ok r in
      assert_eq decoded token
  | _ => Panic
  end.

(** ** The client (client.rs) *)

(** [client.update(..).unwrap()]. *)
Definition client_packet (client : NetcodeClient) : out (NetcodeClient * Bytes) :=
  let! (client, packet) := net_client_update client 0 in
  let! (packet, _) := unwrap packet in
  Ret (client, packet).

Definition client_connection (rnd : TokenRandom) (user_data user_data' challenge_key : Bytes) : out unit :=
  let protocol_id := 2 in
  let client_id := 4 in
  let! r := token_generate rnd 0 protocol_id 3 client_id 5 two_hosts (Some user_data) TEST_KEY in
  let! connect_token := unwrap_ok r in
  let server_key := ct_server_to_client_key connect_token in
  let client_key := ct_client_to_server_key connect_token in
  let! r := net_client_new rnd 0 (ClientSecure connect_token) in
  let! client := unwrap_ok r in
  let! (client, packet_buffer) := client_packet client in
  let! (r_sequence, packet) := decoded packet_buffer protocol_id None in
  let! _ := assert_eq 0 r_sequence in
  let! _ := assert (match packet with ConnectionRequest _ _ _ _ _ => true | _ => false end) in
  let! r := generate_challenge client_id user_data' 7 challenge_key in
  let! challenge_packet := unwrap_ok r in
  let! buffer := encoded challenge_packet protocol_id 0 server_key in
  let! (client, _) := net_client_process_packet client buffer in
  let! _ := assert (match nc_state client with SendingConnectionResponse => true | _ => false end) in
  let! (client, packet_buffer) := client_packet client in
  let! (_, packet) := decoded packet_buffer protocol_id (Some client_key) in
  let! _ := assert (match packet with Response _ _ => true | _ => false end) in
  let! buffer := encoded (KeepAlive 2 4) protocol_id 1 server_key in
  let! (client, _) := net_client_process_packet client buffer in
  let! _ := assert (nc_is_connected client) in
  let payload := vec_repeat (byte_of 7) 500 in
  let! buffer := encoded (Payload payload) protocol_id 2 server_key in
  let! (client, payload_client) := net_client_process_packet client buffer in
  let! _ := assert_eq (Some payload) payload_client in
  let to_send_payload := vec_repeat (byte_of 5) 1000 in
  let! (client, r) := net_client_generate_payload_packet client to_send_payload in
  let! (_, packet) := unwrap_ok r in
  let! (_, result) := decoded packet protocol_id (Some client_key) in
  assert_eq result (Payload to_send_payload).

(** ** The server (server.rs) *)

Definition TEST_PROTOCOL_ID : Z := 7.

Definition new_server (challenge_key : Bytes) : out NetcodeServer :=
  net_server_new challenge_key (mkServerConfig 0 16 TEST_PROTOCOL_ID [localhost 1 5000] (ServerSecure TEST_KEY)).

(** A payload from the server arrives at the client. *)
Definition server_payload (client_id : Z) (state : NetcodeServer * NetcodeClient) : out (NetcodeServer * NetcodeClient) :=
  let (server, client) := state in
  let payload := vec_repeat (byte_of 7) 300 in
  let! (server, r) := net_server_generate_payload_packet server client_id payload in
  let! (_, packet) := unwrap_ok r in
  let! (client, result_payload) := net_client_process_packet client packet in
  let! _ := assert_eq (Some payload) result_payload in
  Ret (server, client).

Definition server_connection (challenge_key : Bytes) (rnd : TokenRandom) (user_data : Bytes) : out unit :=
  let! server := new_server challenge_key in
  let client_id := 4 in
  let client_addr := localhost 1 3000 in
  let! r := token_generate rnd 0 TEST_PROTOCOL_ID 3 client_id 5 (ns_public_addresses server) (Some user_data) TEST_KEY in
  let! connect_token := unwrap_ok r in
  let! r := net_client_new rnd 0 (ClientSecure connect_token) in
  let! client := unwrap_ok r in
  let! (client, packet) := client_packet client in
  let! (server, result) := net_server_process_packet server client_addr packet in
  let! (client, _) :=
    match result with SrPacketToSend _ payload => net_client_process_packet client payload | _ => Panic end in
  let! _ := assert (negb (nc_is_connected client)) in
  let! (client, packet) := client_packet client in
  let! (server, result) := net_server_process_packet server client_addr packet in
  let! (client, _) :=
    match result with
    | SrClientConnected r_id _ r_data payload =>
        let! _ := assert_eq client_id r_id in
        let! _ := assert_eq user_data r_data in
        net_client_process_packet client payload
    | _ => Panic
    end in
  let! _ := assert (nc_is_connected client) in
  let! (server, client) := repeat_out 3 (server_payload client_id) (server, client) in
  let! (server, result) := net_server_update_client server client_id in
  let! _ := assert (match result with SrNone => true | _ => false end) in
  let! server := net_server_update server NETCODE_SEND_RATE in
  let! (server, result) := net_server_update_client server client_id in
  let! client :=
    match result with
    | SrPacketToSend _ payload =>
        let! (client, r) := net_client_process_packet client payload in
        let! _ := assert_eq r None in
        Ret client
    | _ => Panic
    end in
  let client_payload := vec_repeat (byte_of 2) 300 in
  let! (client, r) := net_client_generate_payload_packet client client_payload in
  let! (_, packet) := unwrap_ok r in
  let! (server, result) := net_server_process_packet server client_addr packet in
  let! _ :=
    match result with
    | SrPayload id payload =>
        let! _ := assert_eq id client_id in
        assert_eq client_payload payload
    | _ => Panic
    end in
  let! _ := assert (ns_is_client_connected server client_id) in
  let! (server, result) := net_server_disconnect server client_id in
  let! _ :=
    match result with
    | SrClientDisconnected _ _ (Some payload) =>
        let! _ := assert (nc_is_connected client) in
        let! (client, r) := net_client_process_packet client payload in
        let! _ := assert_eq r None in
        assert (negb (nc_is_connected client))
    | _ => Panic
    end in
  assert (negb (ns_is_client_connected server client_id)).

Definition connect_token_already_used (challenge_key mac : Bytes) : out unit :=
  let! server := new_server challenge_key in
  let connect_token := mkTokenEntry 0 (localhost 1 3000) mac in
  let! (server, b) := find_or_add_connect_token_entry server connect_token in
  let! _ := assert b in
  let! (server, b) := find_or_add_connect_token_entry server connect_token in
  let! _ := assert b in
  let connect_token := mkTokenEntry 0 (localhost 1 3001) mac in
  let! (server, b) := find_or_add_connect_token_entry server connect_token in
  assert (negb b).

(** ** All of them *)

Definition renetcode_tests (rnd : TokenRandom) (data256 data32 data24 data16 : Bytes) : list (out unit) := [
  test_encrypt_decrypt_in_place; replay_protection_test;
  private_connect_token_serialization rnd data256; private_connect_token_encode_decode rnd data256 data24;
  connect_token_serialization rnd data256;
  connection_request_serialization data24; connection_challenge_serialization; connection_keep_alive_serialization; prefix_sequence;
  encrypt_decrypt_disconnect_packet; encrypt_decrypt_denied_packet; encrypt_decrypt_payload_packet;
  encrypt_decrypt_challenge_token data256 data32;
  client_connection rnd data256 data256 data32; server_connection data32 rnd data256; connect_token_already_used data32 data16].

(** Every unit test of renetcode passes on the model, for sample values of
    the random bytes it draws. *)
Theorem renetcode_tests_pass :
  Forall (fun test => test = Ret tt)
    (renetcode_tests sample_random (vec_repeat (byte_of 3) 256) (vec_repeat (byte_of 8) 32) (vec_repeat (byte_of 4) 24)
       (vec_repeat (byte_of 6) 16)).
Proof. repeat (constructor; [vm_compute; reflexivity|]). constructor. Qed.
